(** * ConfigSpace text dialects: [ConfigSpace/io/pcs_new.py] and [ConfigSpace/io/irace.py]

    A shallow embedding of the two readers and writers, of the part of
    pyparsing their grammars use, and of the Python built-ins they call,
    followed by the properties of the specification that concern them.

    Conventions.
    - Python 2 semantics are modelled where Python 2 and 3 differ
      ([irace.write] subscripts the result of [filter], which only Python 2
      allows; [six.StringIO] is then [StringIO.StringIO]).
    - Text is [string] (a sequence of 8-bit characters).
    - A Python [float] is idealised as an exact rational ([Q]): [float()]
      reads a decimal literal exactly and rounding is not modelled.
    - A raised exception is a value of [exn]; a function that can raise
      returns [result]. *)

From Stdlib Require Import String Ascii List ZArith QArith Qround Bool Lia Arith.
From Stdlib Require Import Sorting.Sorted Permutation DecimalString DecimalPos.
Import ListNotations.
Close Scope Q_scope.
Set Warnings "-register-all".
Open Scope list_scope.
Open Scope string_scope.

(* ===================================================================== *)
(** * Python built-ins *)
(* ===================================================================== *)

Module Py.

(** The characters that cannot be written inside a string literal here. *)
Definition nl : ascii := ascii_of_nat 10.
Definition dquote : ascii := ascii_of_nat 34.
Definition squote : ascii := ascii_of_nat 39.

Definition str1 (c : ascii) : string := String c EmptyString.

(** [c in chars] for a one-character string [c]. *)
Fixpoint char_in (c : ascii) (chars : string) : bool :=
  match chars with
  | EmptyString => false
  | String d rest => Ascii.eqb c d || char_in c rest
  end.

(** [str.startswith]. *)
Fixpoint startswith (s pre : string) : bool :=
  match pre, s with
  | EmptyString, _ => true
  | String p pre', String c s' => Ascii.eqb c p && startswith s' pre'
  | String _ _, EmptyString => false
  end.

(** [sub in s] for strings. *)
Fixpoint str_in (sub s : string) : bool :=
  startswith s sub ||
  match s with
  | EmptyString => false
  | String _ s' => str_in sub s'
  end.

Fixpoint rev_string (s acc : string) : string :=
  match s with
  | EmptyString => acc
  | String c s' => rev_string s' (String c acc)
  end.

(** [str.endswith]. *)
Definition endswith (s suf : string) : bool :=
  startswith (rev_string s "") (rev_string suf "").

(** [s[:s.find(c)]] when [c in s]: the text before the first [c]. *)
Fixpoint before_char (c : ascii) (s : string) : string :=
  match s with
  | EmptyString => EmptyString
  | String d s' => if Ascii.eqb d c then EmptyString else String d (before_char c s')
  end.

(** [s.replace(c, "")] for a one-character string [c]. *)
Fixpoint remove_char (c : ascii) (s : string) : string :=
  match s with
  | EmptyString => EmptyString
  | String d s' => if Ascii.eqb d c then remove_char c s' else String d (remove_char c s')
  end.

(** The characters [str.strip()] removes (Python 2, [string.whitespace]):
    space, tab, line feed, vertical tab, form feed, carriage return. *)
Definition is_space (c : ascii) : bool :=
  let n := nat_of_ascii c in
  Nat.eqb n 32 || (Nat.leb 9 n && Nat.leb n 13).

Fixpoint lstrip (s : string) : string :=
  match s with
  | EmptyString => EmptyString
  | String c s' => if is_space c then lstrip s' else s
  end.

(** [str.strip()]. *)
Definition strip (s : string) : string :=
  rev_string (lstrip (rev_string (lstrip s) "")) "".

(** [s.split(c)] for a one-character separator: never empty, a separator at
    either end gives an empty first or last piece. *)
Fixpoint split (c : ascii) (s : string) : list string :=
  match s with
  | EmptyString => [EmptyString]
  | String d s' =>
      if Ascii.eqb d c then EmptyString :: split c s'
      else match split c s' with
           | [] => [str1 d]
           | w :: ws => String d w :: ws
           end
  end.

(** [sep.join(parts)]. *)
Fixpoint join (sep : string) (parts : list string) : string :=
  match parts with
  | [] => EmptyString
  | [p] => p
  | p :: ps => p ++ sep ++ join sep ps
  end.

(** Iterating over a [StringIO] positioned at its start: the lines of the
    buffer, each with its line feed, the last one possibly without. *)
Fixpoint readlines (s : string) : list string :=
  match s with
  | EmptyString => []
  | String d s' =>
      if Ascii.eqb d nl then str1 d :: readlines s'
      else match readlines s' with
           | [] => [str1 d]
           | w :: ws => String d w :: ws
           end
  end.

(** [s[-1]]: [None] stands for [IndexError] (the empty string). *)
Fixpoint last_char (s : string) : option ascii :=
  match s with
  | EmptyString => None
  | String c EmptyString => Some c
  | String _ s' => last_char s'
  end.

(** [l[i]] for a Python list: negative indices count from the end, [None]
    stands for [IndexError]. *)
Definition index {A} (l : list A) (i : Z) : option A :=
  let n := Z.of_nat (List.length l) in
  let j := (if i <? 0 then i + n else i)%Z in
  if (j <? 0)%Z then None else nth_error l (Z.to_nat j).

(** A slice bound [b] of [l[a:b:k]] clipped as Python does for a positive step. *)
Definition clip (n : nat) (b : Z) : nat :=
  let m := Z.of_nat n in
  let j := (if b <? 0 then b + m else b)%Z in
  Z.to_nat (Z.max 0 (Z.min j m)).

(** Every [k]-th element of [l], starting with the first ([k >= 1]). *)
Fixpoint every (k : nat) (skip : nat) {A} (l : list A) : list A :=
  match l with
  | [] => []
  | x :: l' =>
      match skip with
      | O => x :: every k (k - 1) l'
      | S skip' => every k skip' l'
      end
  end.

(** [l[a:b:k]] with [a] and [b] optional and [k >= 1]. *)
Definition slice {A} (l : list A) (a b : option Z) (k : nat) : list A :=
  let n := List.length l in
  let lo := match a with Some a => clip n a | None => 0 end in
  let hi := match b with Some b => clip n b | None => n end in
  every k 0 (firstn (hi - lo) (skipn lo l)).

(** ["%d" % z]. *)
Definition str_of_int (z : Z) : string := NilEmpty.string_of_int (Z.to_int z).

(** [int(x)] for a float: truncation toward zero. *)
Definition int_of_float (x : Q) : Z := Z.quot (Qnum x) (Zpos (Qden x)).

(** The digits of [num / den] after the point ([0 <= num < den]), until the
    division comes out even, at most [fuel] of them. *)
Fixpoint frac_digits (fuel : nat) (num den : Z) : string :=
  match fuel with
  | O => EmptyString
  | S fuel' =>
      let d := (10 * num / den)%Z in
      let r := (10 * num mod den)%Z in
      str_of_int d ++ (if (r =? 0)%Z then EmptyString else frac_digits fuel' r den)
  end.

(** [str(x)] for a float, idealised: the positional decimal expansion with at
    least one digit after the point, at most 17 of them. This is what Python
    prints for the decimals of ordinary size that a parameter file holds. *)
Definition str_of_float (x : Q) : string :=
  let n := Qnum x in
  let d := Zpos (Qden x) in
  let a := Z.abs n in
  (if (n <? 0)%Z then "-" else "") ++
  str_of_int (a / d) ++ "." ++ frac_digits 17 (a mod d) d.

(** Python values that occur as condition, forbidden-clause and constant
    values. *)
Inductive value : Type :=
| VStr (s : string)
| VInt (z : Z)
| VFloat (x : Q).

(** [str(v)], which is also what ["%s" % v] prints. *)
Definition str (v : value) : string :=
  match v with
  | VStr s => s
  | VInt z => str_of_int z
  | VFloat x => str_of_float x
  end.

(** [sep.join(values)]: [None] stands for the [TypeError] raised when an item
    is not a string. *)
Fixpoint join_values (sep : string) (vs : list value) : option string :=
  match vs with
  | [] => Some EmptyString
  | [VStr s] => Some s
  | VStr s :: vs' =>
      match join_values sep vs' with
      | Some r => Some (s ++ sep ++ r)
      | None => None
      end
  | _ :: _ => None
  end.

Definition is_digit (c : ascii) : bool :=
  let n := nat_of_ascii c in Nat.leb 48 n && Nat.leb n 57.

(** The longest prefix of [s] whose characters satisfy [p], and the rest. *)
Fixpoint span (p : ascii -> bool) (s : string) : string * string :=
  match s with
  | EmptyString => (EmptyString, EmptyString)
  | String c s' =>
      if p c then let '(w, r) := span p s' in (String c w, r)
      else (EmptyString, s)
  end.

(** The number a non-empty string of decimal digits denotes, digit by digit. *)
Fixpoint digits_value (s : string) (acc : Z) : Z :=
  match s with
  | EmptyString => acc
  | String c s' => digits_value s' (10 * acc + Z.of_nat (nat_of_ascii c - 48))%Z
  end.

(** An optional sign: its factor and the rest of the text. *)
Definition read_sign (s : string) : Z * string :=
  match s with
  | String "+" s' => (1%Z, s')
  | String "-" s' => ((-1)%Z, s')
  | _ => (1%Z, s)
  end.

Definition pow10 (e : Z) : Q :=
  if (e <? 0)%Z then 1 # Pos.pow 10 (Z.to_pos (- e))
  else inject_Z (Z.pow 10 e).

(** [float(s)] on a decimal literal:
    [sign? (digits ("." digits?)? | "." digits) (("e"|"E") sign? digits)?].
    [None] stands for [ValueError]. The value is exact. *)
Definition float (s : string) : option Q :=
  let '(sg, s1) := read_sign s in
  let '(ip, s2) := span is_digit s1 in
  let '(fp, s3) :=
    match s2 with
    | String "." s2' => span is_digit s2'
    | _ => (EmptyString, s2)
    end in
  if (String.length ip + String.length fp =? 0)%nat then None
  else
    let mant := digits_value (ip ++ fp) 0 in
    let scale := (- Z.of_nat (String.length fp))%Z in
    let finish (e : Z) : option Q :=
      Some (Qred (inject_Z (sg * mant) * pow10 (scale + e))) in
    match s3 with
    | EmptyString => finish 0%Z
    | String c s4 =>
        if Ascii.eqb c "e" || Ascii.eqb c "E" then
          let '(esg, s5) := read_sign s4 in
          let '(ed, s6) := span is_digit s5 in
          match ed, s6 with
          | String _ _, EmptyString => finish (esg * digits_value ed 0)%Z
          | _, _ => None
          end
        else None
    end.

End Py.

(* ===================================================================== *)
(** * pyparsing *)
(* ===================================================================== *)

(** The parser elements the two grammars are built from, as a syntax, and
    [ParserElement.parseString] as its interpreter. The string concatenations
    inside [Word(...)] are written out as one string of characters. A Python
    string added to a parser element is a [Literal]. [a + b] is [And], [a | b]
    is [MatchFirst]. *)
Module Pyparsing.

Inductive ParserElement : Type :=
| Word (chars : string)
| Literal (lit : string)
| And (e1 e2 : ParserElement)
| MatchFirst (e1 e2 : ParserElement)
| Optional (e : ParserElement)
| OneOrMore (e : ParserElement)
| Combine (e : ParserElement).

(** A [ParseResults] read as its list of tokens. *)
Definition ParseResults : Type := list string.

(** [DEFAULT_WHITE_CHARS]: space, line feed, tab, carriage return. *)
Definition is_white (c : ascii) : bool :=
  let n := nat_of_ascii c in
  Nat.eqb n 32 || Nat.eqb n 10 || Nat.eqb n 9 || Nat.eqb n 13.

(** [preParse] with [skipWhitespace] set. *)
Fixpoint skip_white (s : string) : string :=
  match s with
  | EmptyString => EmptyString
  | String c s' => if is_white c then skip_white s' else s
  end.

(** The text after the prefix [lit], when [s] starts with it. *)
Fixpoint after_prefix (lit s : string) : option string :=
  match lit, s with
  | EmptyString, _ => Some s
  | String p lit', String c s' => if Ascii.eqb c p then after_prefix lit' s' else None
  | String _ _, EmptyString => None
  end.

(** The loop of [OneOrMore.parseImpl] after the first match: [p] again and
    again until it fails. Every round of these grammars consumes a character,
    so [fuel], the length of the text, is never used up; a loop that would
    not end is a failed parse here. *)
Fixpoint repeat (p : string -> option (ParseResults * string)) (fuel : nat)
    (acc : ParseResults) (s : string) : option (ParseResults * string) :=
  match p s with
  | None => Some (acc, s)
  | Some (toks, r) =>
      match fuel with
      | O => None
      | S fuel' => repeat p fuel' (acc ++ toks)%list r
      end
  end.

(** [e._parse(instring, loc)]: the tokens and the text left, [None] for
    [ParseException]. [ws] is the element's [skipWhitespace]: set by default,
    cleared by [leaveWhitespace] in everything a [Combine] contains. *)
Fixpoint parse (ws : bool) (e : ParserElement) (s : string) {struct e}
    : option (ParseResults * string) :=
  let s := if ws then skip_white s else s in
  match e with
  | Word chars =>
      match Py.span (fun c => Py.char_in c chars) s with
      | (EmptyString, _) => None
      | (w, r) => Some ([w], r)
      end
  | Literal lit =>
      match after_prefix lit s with
      | Some r => Some ([lit], r)
      | None => None
      end
  | And e1 e2 =>
      match parse ws e1 s with
      | Some (t1, r1) =>
          match parse ws e2 r1 with
          | Some (t2, r2) => Some ((t1 ++ t2)%list, r2)
          | None => None
          end
      | None => None
      end
  | MatchFirst e1 e2 =>
      match parse ws e1 s with
      | Some r => Some r
      | None => parse ws e2 s
      end
  | Optional e1 =>
      match parse ws e1 s with
      | Some r => Some r
      | None => Some ([], s)
      end
  | OneOrMore e1 =>
      match parse ws e1 s with
      | Some (t1, r1) => repeat (parse ws e1) (String.length r1) t1 r1
      | None => None
      end
  | Combine e1 =>
      match parse false e1 s with
      | Some (t1, r1) => Some ([Py.join "" t1], r1)
      | None => None
      end
  end.

(** [e.parseString(s)], that is with [parseAll=False]: the tokens of the
    longest match at the start of [s]; what follows the match is not looked
    at. *)
Definition parseString (e : ParserElement) (s : string) : option ParseResults :=
  match parse true e s with
  | Some (toks, _) => Some toks
  | None => None
  end.

(** What [parseString(s, parseAll=True)] would accept: a match that leaves
    only white space. Neither reader asks for it. *)
Definition matches_all (e : ParserElement) (s : string) : bool :=
  match parse true e s with
  | Some (_, r) => match skip_white r with EmptyString => true | _ => false end
  | None => false
  end.

Declare Scope pp_scope.
Delimit Scope pp_scope with pp.
Bind Scope pp_scope with ParserElement.
Infix "+" := And : pp_scope.
Infix "<|>" := MatchFirst (at level 60, right associativity) : pp_scope.
Coercion Literal : string >-> ParserElement.

(** [pyparsing.alphanums] and the digits. *)
Definition alphas : string := "ABCDEFGHIJKLMNOPQRSTUVWXYZabcdefghijklmnopqrstuvwxyz".
Definition nums : string := "0123456789".
Definition alphanums : string := alphas ++ nums.

End Pyparsing.

(* ===================================================================== *)
(** * The domain model ([ConfigSpace.configuration_space], [.hyperparameters],
      [.conditions], [.forbidden]) *)
(* ===================================================================== *)

(** The two dialect modules import the domain model from the rest of the
    package. It is modelled here from sections 3 and 4.1 of the
    specification; each definition says so. *)
Module ConfigSpace.

(** The exceptions a reader or writer can end with. The first eight are the
    error taxonomy of the specification (section 7), each with the Python
    exception the code raises for it; the others are Python's own and belong
    to no taxonomy. *)
Inductive exn : Type :=
| UnparsableParameterError (line : string)
    (* NotImplementedError("Could not parse: %s" % line) *)
| UnparsableConditionError (line : string)
    (* NotImplementedError("Could not parse condition: %s" % line) *)
| UnsupportedForbiddenOperatorError
    (* NotImplementedError() in the forbidden-clause loop *)
| DuplicateNameError (name : string)
| UnknownNameError (name : string)
| IllegalNameError (name : string)
    (* ValueError("Illegal hyperparameter name for ...: %s" % name) *)
| ValidationError
| UnsupportedConstructError (msg : string)
    (* NotImplementedError(msg % condition) in irace.build_condition *)
| ParseException
    (* pyparsing.ParseException leaving a call that does not catch it *)
| ValueError
    (* float() on text that is no number *)
| TypeError
| IndexError
| AttributeError
| UnboundLocalError (var : string).

(** The errors of the specification's taxonomy. *)
Definition typed (e : exn) : bool :=
  match e with
  | UnparsableParameterError _ | UnparsableConditionError _
  | UnsupportedForbiddenOperatorError | DuplicateNameError _
  | UnknownNameError _ | IllegalNameError _ | ValidationError
  | UnsupportedConstructError _ => true
  | _ => false
  end.

(** A call either returns or raises. *)
Inductive result (A : Type) : Type :=
| Ok (a : A)
| Raise (e : exn).
Arguments Ok {A} a.
Arguments Raise {A} e.

Definition bind {A B} (r : result A) (k : A -> result B) : result B :=
  match r with
  | Ok a => k a
  | Raise e => Raise e
  end.

(** [None] of a Python built-in becomes the exception [e]. *)
Definition or_raise {A} (o : option A) (e : exn) : result A :=
  match o with
  | Some a => Ok a
  | None => Raise e
  end.

Declare Scope result_scope.
Delimit Scope result_scope with result.
Notation "x <- r ;; k" := (bind r (fun x => k))
  (at level 61, r at next level, right associativity) : result_scope.
Notation "' p <- r ;; k" := (bind r (fun x => let p := x in k))
  (at level 61, p pattern, r at next level, right associativity) : result_scope.
Open Scope result_scope.

(** A [for] loop whose body can raise, over the state [S]. *)
Fixpoint for_each {A S} (body : S -> A -> result S) (items : list A) (st : S)
    : result S :=
  match items with
  | [] => Ok st
  | x :: rest => st' <- body st x ;; for_each body rest st'
  end.

(** Modelled from the spec: the hyperparameter variants of section 3.
    [Continuous] with [is_integer] stands for [UniformIntegerHyperparameter],
    without it for [UniformFloatHyperparameter] (both are
    [NumericalHyperparameter]); the normally distributed variants that
    [build_continuous] converts with [to_uniform] are not part of the
    specification's model. Names are any text: the space does not hold them
    to the dialects' identifier grammar (sections 4.6 and 8). *)
Inductive Hyperparameter : Type :=
| Continuous (name : string) (lower upper default : Q)
    (is_integer log_scale : bool) (quantization : option Q)
| Categorical (name : string) (choices : list string) (default : string)
| Constant (name : string) (value : Py.value).

Definition name (hp : Hyperparameter) : string :=
  match hp with
  | Continuous n _ _ _ _ _ _ => n
  | Categorical n _ _ => n
  | Constant n _ => n
  end.

(** Modelled from the spec: the constructor of a real-valued hyperparameter
    fails with [ValidationError] unless [lower < upper] and
    [lower <= default <= upper] (sections 3, 4.1 and 8). *)
Definition UniformFloatHyperparameter (name : string) (lower upper : Q)
    (q : option Q) (log : bool) (default : Q) : result Hyperparameter :=
  if Qle_bool upper lower
     || negb (Qle_bool lower default && Qle_bool default upper)
  then Raise ValidationError
  else Ok (Continuous name lower upper default false log q).

(** Modelled from the spec: the numeric fields are narrowed to integers when
    the type is integer (section 4.3), here as [int()] does, and the range is
    validated as for a real-valued hyperparameter. *)
Definition UniformIntegerHyperparameter (name : string) (lower upper : Q)
    (q : option Q) (log : bool) (default : Q) : result Hyperparameter :=
  let narrow (x : Q) := inject_Z (Py.int_of_float x) in
  let lower := narrow lower in
  let upper := narrow upper in
  let default := narrow default in
  if Qle_bool upper lower
     || negb (Qle_bool lower default && Qle_bool default upper)
  then Raise ValidationError
  else Ok (Continuous name lower upper default true log q).

(** Modelled from the spec: a categorical hyperparameter needs a non-empty
    choice list that holds its default (sections 3 and 4.1). *)
Definition CategoricalHyperparameter (name : string) (choices : list string)
    (default : string) : result Hyperparameter :=
  if existsb (String.eqb default) choices
  then Ok (Categorical name choices default)
  else Raise ValidationError.

(** Modelled from the spec: the condition tree of section 3. A leaf holds its
    child and parent hyperparameters, which the writers read through
    [condition.child.name] and [condition.parent]; a conjunction holds only
    its components. The values of a membership condition are listed in the
    order Python iterates over them. *)
Inductive Condition : Type :=
| EqualsCondition (child parent : Hyperparameter) (value : Py.value)
| NotEqualsCondition (child parent : Hyperparameter) (value : Py.value)
| InCondition (child parent : Hyperparameter) (values : list Py.value)
| AndConjunction (components : list Condition)
| OrConjunction (components : list Condition).

(** Modelled from the spec: a condition's child differs from its parent
    (section 3); its constructor fails with [ValidationError] otherwise
    (section 4.1). *)
Definition check_child_parent (child parent : Hyperparameter) : result unit :=
  if String.eqb (name child) (name parent) then Raise ValidationError else Ok tt.

Definition new_EqualsCondition (child parent : Hyperparameter) (v : Py.value)
    : result Condition :=
  _ <- check_child_parent child parent ;; Ok (EqualsCondition child parent v).

Definition new_NotEqualsCondition (child parent : Hyperparameter) (v : Py.value)
    : result Condition :=
  _ <- check_child_parent child parent ;; Ok (NotEqualsCondition child parent v).

Definition new_InCondition (child parent : Hyperparameter) (vs : list Py.value)
    : result Condition :=
  _ <- check_child_parent child parent ;; Ok (InCondition child parent vs).

(** Modelled from the spec: the forbidden-clause tree of section 3. *)
Inductive Forbidden : Type :=
| ForbiddenEqualsClause (hyperparameter : Hyperparameter) (value : Py.value)
| ForbiddenInClause (hyperparameter : Hyperparameter) (values : list Py.value)
| ForbiddenAndConjunction (components : list Forbidden).

(** Modelled from the spec: the leaves of a clause, in the order they are
    visited (section 4.5). *)
Fixpoint get_descendant_literal_clauses (f : Forbidden) : list Forbidden :=
  match f with
  | ForbiddenAndConjunction cs =>
      (fix visit (l : list Forbidden) : list Forbidden :=
         match l with
         | [] => []
         | c :: l' => (get_descendant_literal_clauses c ++ visit l')%list
         end) cs
  | _ => [f]
  end.

(** Modelled from the spec: the configuration space owns its hyperparameters
    in insertion order, its top-level conditions and its top-level forbidden
    clauses (section 3). *)
Record ConfigurationSpace : Type := mkSpace {
  get_hyperparameters : list Hyperparameter;
  get_conditions : list Condition;
  forbidden_clauses : list Forbidden
}.

(** [ConfigurationSpace()]: created empty. *)
Definition empty : ConfigurationSpace := mkSpace [] [] [].

Fixpoint lookup (n : string) (hps : list Hyperparameter) : option Hyperparameter :=
  match hps with
  | [] => None
  | hp :: rest => if String.eqb (name hp) n then Some hp else lookup n rest
  end.

(** Modelled from the spec: [get_hyperparameter] fails with
    [UnknownNameError] (section 4.1). *)
Definition get_hyperparameter (cs : ConfigurationSpace) (n : string)
    : result Hyperparameter :=
  or_raise (lookup n (get_hyperparameters cs)) (UnknownNameError n).

(** Modelled from the spec: [add_hyperparameter] fails with
    [DuplicateNameError] on a name already present and never overwrites
    (sections 4.1 and 8). *)
Definition add_hyperparameter (cs : ConfigurationSpace) (hp : Hyperparameter)
    : result ConfigurationSpace :=
  match lookup (name hp) (get_hyperparameters cs) with
  | Some _ => Raise (DuplicateNameError (name hp))
  | None =>
      Ok (mkSpace (get_hyperparameters cs ++ [hp])%list (get_conditions cs)
            (forbidden_clauses cs))
  end.

(** Modelled from the spec: [add_condition] attaches a top-level condition;
    the readers resolve child and parent through [get_hyperparameter]
    before they build it. *)
Definition add_condition (cs : ConfigurationSpace) (c : Condition)
    : ConfigurationSpace :=
  mkSpace (get_hyperparameters cs) (get_conditions cs ++ [c])%list
    (forbidden_clauses cs).

(** Modelled from the spec: [add_forbidden_clause] attaches a clause. *)
Definition add_forbidden_clause (cs : ConfigurationSpace) (f : Forbidden)
    : ConfigurationSpace :=
  mkSpace (get_hyperparameters cs) (get_conditions cs)
    (forbidden_clauses cs ++ [f])%list.

End ConfigSpace.

(* ===================================================================== *)
(** * The explicit dialect: [ConfigSpace/io/pcs_new.py] *)
(* ===================================================================== *)

Module PcsNew.
Import Pyparsing ConfigSpace.

(** ** The grammar *)

Definition pp_param_name : ParserElement :=
  Word (alphanums ++ "_" ++ "-" ++ "@" ++ "." ++ ":" ++ ";" ++ "\" ++ "/" ++ "?" ++ "!" ++
        "$" ++ "%" ++ "&" ++ "*" ++ "+" ++ "<" ++ ">").
Definition pp_param_operation : ParserElement :=
  Word ("in" ++ "!=" ++ "==" ++ ">" ++ "<").
Definition pp_digits : string := "0123456789".
Definition pp_param_val : ParserElement := Word (alphanums ++ pp_digits).
Definition pp_plusorminus : ParserElement := (Literal "+" <|> Literal "-")%pp.
Definition pp_int : ParserElement :=
  Combine (Optional pp_plusorminus + Word pp_digits).
Definition pp_float : ParserElement :=
  Combine (Optional pp_plusorminus + Optional pp_int + "." + pp_int).
Definition pp_eorE : ParserElement := (Literal "e" <|> Literal "E")%pp.
Definition pp_param_type : ParserElement :=
  Word ("integer" ++ "real" ++ "categorical").
Definition pp_floatorint : ParserElement := (pp_float <|> pp_int)%pp.
Definition pp_e_notation : ParserElement :=
  Combine (pp_floatorint + pp_eorE + pp_int).
Definition pp_number : ParserElement := (pp_e_notation <|> pp_float <|> pp_int)%pp.
Definition pp_numberorname : ParserElement := (pp_number <|> pp_param_name)%pp.
Definition pp_log : ParserElement := Word "log".
Definition pp_connective : ParserElement := Word ("||" ++ "&&").
Definition pp_choices : ParserElement :=
  (pp_param_name + Optional (OneOrMore ("," + pp_param_name)))%pp.

Definition pp_cont_param : ParserElement :=
  (pp_param_name + pp_param_type + "[" + pp_number + "," + pp_number + "]" +
   "[" + pp_number + "]" + Optional pp_log)%pp.
Definition pp_cat_param : ParserElement :=
  (pp_param_name + pp_param_type + "{" + pp_choices + "}" + "[" + pp_param_name + "]")%pp.
Definition pp_condition : ParserElement :=
  (pp_param_name + "|" + pp_param_name + pp_param_operation + Optional "{" +
   pp_param_val + Optional "}" +
   Optional (pp_connective + pp_param_name + pp_param_operation + pp_param_val))%pp.
Definition pp_forbidden_clause : ParserElement :=
  ("{" + pp_param_name + "=" + pp_numberorname +
   Optional (OneOrMore ("," + pp_param_name + "=" + pp_numberorname)) + "}")%pp.

(** ** Writing one item *)

Definition build_categorical (param_name : string) (choices : list string)
    (default : string) : string :=
  param_name ++ " categorical {" ++ Py.join ", " choices ++ "} [" ++ default ++ "]".

Definition build_constant (param_name : string) (value : Py.value) : string :=
  param_name ++ " {" ++ Py.str value ++ "} [" ++ Py.str value ++ "]".

Definition build_continuous (param_name : string) (lower upper default : Q)
    (is_integer log : bool) (q : option Q) : string :=
  let log_suffix := if log then "log" else "" in
  let q_prefix :=
    match q with
    | Some q => "Q" ++ Py.str_of_int (Py.int_of_float q) ++ "_"
    | None => ""
    end in
  if is_integer then
    let default := Py.int_of_float default in
    q_prefix ++ param_name ++ " integer [" ++ Py.str_of_int (Py.int_of_float lower)
      ++ ", " ++ Py.str_of_int (Py.int_of_float upper) ++ "] ["
      ++ Py.str_of_int default ++ "]" ++ log_suffix
  else
    q_prefix ++ param_name ++ " real [" ++ Py.str_of_float lower ++ ", "
      ++ Py.str_of_float upper ++ "] [" ++ Py.str_of_float default ++ "]"
      ++ log_suffix.

(** [build_condition]: the text of a leaf; for a conjunction no branch
    returns, so the call yields Python's [None]. [", ".join] raises
    [TypeError] on a value that is not a string. *)
Definition build_condition (condition : Condition) : result (option string) :=
  let condition_template (child parent : Hyperparameter) (v : string) :=
    name child ++ " | " ++ name parent ++ " {" ++ v ++ "}" in
  match condition with
  | NotEqualsCondition child parent value =>
      Ok (Some (condition_template child parent (Py.str value)))
  | InCondition child parent values =>
      v <- or_raise (Py.join_values ", " values) TypeError ;;
      Ok (Some (condition_template child parent v))
  | EqualsCondition child parent value =>
      Ok (Some (condition_template child parent (Py.str value)))
  | AndConjunction _ | OrConjunction _ => Ok None
  end.

(** The attributes [dlc.hyperparameter.name] and [dlc.value] of a leaf; a
    membership leaf has no [value]. *)
Definition literal_text (dlc : Forbidden) : result string :=
  match dlc with
  | ForbiddenEqualsClause hp value => Ok (name hp ++ "=" ++ Py.str value)
  | _ => Raise AttributeError
  end.

(** The body of the loop of [build_forbidden]: [retval.tell() > 1] holds
    once a leaf is written. *)
Definition write_literal (retval : string) (dlc : Forbidden) : result string :=
  let retval := if Nat.ltb 1 (String.length retval) then retval ++ ", " else retval in
  t <- literal_text dlc ;;
  Ok (retval ++ t).

(** [build_forbidden]. *)
Definition build_forbidden (clause : Forbidden) : result string :=
  let dlcs := get_descendant_literal_clauses clause in
  retval <- for_each write_literal dlcs "{" ;;
  Ok (retval ++ "}").

(** ** Reading *)

(** What the first loop of [read] builds up. *)
Record read_state : Type := mkState {
  configuration_space : ConfigurationSpace;
  conditions : list ParseResults;
  forbidden : list string
}.

(** The head of the loop body: the comment is cut off, both quote characters
    are removed, the line is stripped. *)
Definition clean (line : string) : string :=
  let line := if Py.char_in "#" line then Py.before_char "#" line else line in
  let line := Py.remove_char Py.squote (Py.remove_char Py.dquote line) in
  Py.strip line.

(** The first [try] block of the loop body: [None] when [pp_cont_param]
    raises [ParseException], which the block passes over. Any other
    exception leaves [read]. *)
Definition try_continuous (line : string) : result (option Hyperparameter) :=
  match parseString pp_cont_param line with
  | None => Ok None
  | Some param_list =>
      let log := Py.slice param_list (Some 10%Z) None 1 in
      let param_list := Py.slice param_list None (Some 10%Z) 1 in
      name <- or_raise (Py.index param_list 0) IndexError ;;
      let is_int := existsb (String.eqb "integer") param_list in
      t3 <- or_raise (Py.index param_list 3) IndexError ;;
      lower <- or_raise (Py.float t3) ValueError ;;
      t5 <- or_raise (Py.index param_list 5) IndexError ;;
      upper <- or_raise (Py.float t5) ValueError ;;
      let log_on :=
        match log with
        | log0 :: _ => Py.str_in "log" log0
        | [] => false
        end in
      t8 <- or_raise (Py.index param_list 8) IndexError ;;
      default <- or_raise (Py.float t8) ValueError ;;
      param <- (if is_int then UniformIntegerHyperparameter
                else UniformFloatHyperparameter)
                 name lower upper None log_on default ;;
      Ok (Some param)
  end.

(** The second [try] block: a categorical match replaces [param]. *)
Definition try_categorical (line : string) (param : option Hyperparameter)
    : result (option Hyperparameter) :=
  match parseString pp_cat_param line with
  | None => Ok param
  | Some param_list =>
      name <- or_raise (Py.index param_list 0) IndexError ;;
      let choices := Py.slice param_list (Some 3%Z) (Some (-4)%Z) 2 in
      default <- or_raise (Py.index param_list (-2)) IndexError ;;
      param <- CategoricalHyperparameter name choices default ;;
      Ok (Some param)
  end.

(** The body of the loop over the lines. *)
Definition read_line (st : read_state) (line : string) : result read_state :=
  let line := clean line in
  if Py.char_in "|" line then
    match parseString pp_condition line with
    | Some c =>
        Ok (mkState (configuration_space st) (conditions st ++ [c])%list (forbidden st))
    | None => Raise (UnparsableConditionError line)
    end
  else if negb (Py.char_in "}" line) && negb (Py.char_in "]" line) then Ok st
  else if Py.startswith line "{" && Py.endswith line "}" then
    Ok (mkState (configuration_space st) (conditions st) (forbidden st ++ [line])%list)
  else if Nat.eqb (String.length (Py.strip line)) 0 then Ok st
  else
    param <- try_continuous line ;;
    param <- try_categorical line param ;;
    match param with
    | None => Raise (UnparsableParameterError line)
    | Some param =>
        cs <- add_hyperparameter (configuration_space st) param ;;
        Ok (mkState cs (conditions st) (forbidden st))
    end.

(** The inner loop over the tokens of a forbidden clause after the opening
    brace: three tokens are collected, the fourth (a comma or the closing
    brace) turns them into an equality leaf. *)
Definition forbidden_token (cs : ConfigurationSpace)
    (st : list string * list Forbidden) (value : string)
    : result (list string * list Forbidden) :=
  let '(tmp_list, clause_list) := st in
  if Nat.ltb (List.length tmp_list) 3 then Ok ((tmp_list ++ [value])%list, clause_list)
  else
    op <- or_raise (Py.index tmp_list 1) IndexError ;;
    if String.eqb op "=" then
      n <- or_raise (Py.index tmp_list 0) IndexError ;;
      hp <- get_hyperparameter cs n ;;
      v <- or_raise (Py.index tmp_list 2) IndexError ;;
      Ok ([], (clause_list ++ [ForbiddenEqualsClause hp (Py.VStr v)])%list)
    else Raise UnsupportedForbiddenOperatorError.

(** The body of the loop over the deferred forbidden clauses; a
    [ParseException] is not caught here. *)
Definition read_forbidden (cs : ConfigurationSpace) (clause : string)
    : result ConfigurationSpace :=
  param_list <- or_raise (parseString pp_forbidden_clause clause) ParseException ;;
  '(_, clause_list) <-
     for_each (forbidden_token cs) (Py.slice param_list (Some 1%Z) None 1) ([], []) ;;
  Ok (add_forbidden_clause cs (ForbiddenAndConjunction clause_list)).

(** An [OrderedDict] from child name to the condition lines naming it. *)
Definition OrderedDict : Type := list (string * list ParseResults).

(** [d[key].append(c)], after [d[key] = list()] when [key] is new. *)
Fixpoint od_append (key : string) (c : ParseResults) (d : OrderedDict) : OrderedDict :=
  match d with
  | [] => [(key, [c])]
  | (k, cs) :: d' =>
      if String.eqb k key then (k, (cs ++ [c])%list) :: d'
      else (k, cs) :: od_append key c d'
  end.

(** The loop that fills [conditions_per_child]. *)
Definition group_condition (d : OrderedDict) (condition : ParseResults)
    : result OrderedDict :=
  child_name <- or_raise (Py.index condition 0) IndexError ;;
  Ok (od_append child_name condition d).

(** The local variables of [read] that the condition loops read without
    always assigning them first: they keep their value from one line to the
    next and from one child to the next, and are unbound until assigned. *)
Record locals : Type := mkLocals {
  condition1 : option Condition;
  condition2 : option Condition;
  connective : option string
}.

(** Reading a local variable. *)
Definition bound {A} (var : string) (v : option A) : result A :=
  or_raise v (UnboundLocalError var).

(** The second fact of a line, from the connective at token [i] on: common
    to both places where the loop body reads it. *)
Definition second_fact (cs : ConfigurationSpace) (child : Hyperparameter)
    (condition : ParseResults) (i : Z) (loc : locals) : result locals :=
  conn <- or_raise (Py.index condition i) IndexError ;;
  let loc := mkLocals (condition1 loc) (condition2 loc) (Some conn) in
  parent_name2 <- or_raise (Py.index condition (i + 1)) IndexError ;;
  parent2 <- get_hyperparameter cs parent_name2 ;;
  operation2 <- or_raise (Py.index condition (i + 2)) IndexError ;;
  '(loc, restrictions2) <-
    (if String.eqb operation2 "in" then
       let restrictions2 := Py.slice condition (Some (i + 4)%Z) (Some (-1)%Z) 2 in
       c2 <- new_InCondition child parent2 (map Py.VStr restrictions2) ;;
       Ok (mkLocals (condition1 loc) (Some c2) (connective loc), EmptyString)
     else
       r2 <- or_raise (Py.index condition (i + 3)) IndexError ;;
       Ok (loc, r2)) ;;
  (if String.eqb operation2 "==" then
     c2 <- new_EqualsCondition child parent2 (Py.VStr restrictions2) ;;
     Ok (mkLocals (condition1 loc) (Some c2) (connective loc))
   else if String.eqb operation2 "!=" then
     c2 <- new_NotEqualsCondition child parent2 (Py.VStr restrictions2) ;;
     Ok (mkLocals (condition1 loc) (Some c2) (connective loc))
   else Ok loc).

(** The body of the loop over the condition lines of one child. *)
Definition read_condition (cs : ConfigurationSpace) (child_name : string)
    (st : locals * list Condition) (condition : ParseResults)
    : result (locals * list Condition) :=
  let '(loc, condition_objects) := st in
  child <- get_hyperparameter cs child_name ;;
  parent_name <- or_raise (Py.index condition 2) IndexError ;;
  parent <- get_hyperparameter cs parent_name ;;
  operation <- or_raise (Py.index condition 3) IndexError ;;
  (* the [if operation == 'in'] statement: [inl] is its [continue] *)
  step1 <-
    (if String.eqb operation "in" then
       let restrictions := Py.slice condition (Some 5%Z) (Some (-1)%Z) 2 in
       c1 <- new_InCondition child parent (map Py.VStr restrictions) ;;
       let loc := mkLocals (Some c1) (condition2 loc) (connective loc) in
       let condition_objects := (condition_objects ++ [c1])%list in
       if Nat.ltb 7 (List.length condition) then
         loc <- second_fact cs child condition 7 loc ;;
         c2 <- bound "condition2" (condition2 loc) ;;
         Ok (inr (loc, (condition_objects ++ [c2])%list, EmptyString))
       else Ok (inl (loc, condition_objects))
     else
       restrictions <- or_raise (Py.index condition 4) IndexError ;;
       Ok (inr (loc, condition_objects, restrictions))) ;;
  match step1 with
  | inl st => Ok st
  | inr (loc, condition_objects, restrictions) =>
      loc <-
        (if String.eqb operation "==" then
           c1 <- new_EqualsCondition child parent (Py.VStr restrictions) ;;
           Ok (mkLocals (Some c1) (condition2 loc) (connective loc))
         else if String.eqb operation "!=" then
           c1 <- new_NotEqualsCondition child parent (Py.VStr restrictions) ;;
           Ok (mkLocals (Some c1) (condition2 loc) (connective loc))
         else Ok loc) ;;
      c1 <- bound "condition1" (condition1 loc) ;;
      let condition_objects := (condition_objects ++ [c1])%list in
      if Nat.ltb 4 (List.length condition) then
        loc <- second_fact cs child condition 5 loc ;;
        c2 <- bound "condition2" (condition2 loc) ;;
        Ok (loc, (condition_objects ++ [c2])%list)
      else Ok (loc, condition_objects)
  end.

(** The body of the loop over the children: the lines of the child, then one
    top-level condition for it. *)
Definition read_child (st : ConfigurationSpace * locals)
    (entry : string * list ParseResults) : result (ConfigurationSpace * locals) :=
  let '(cs, loc) := st in
  let '(child_name, lines) := entry in
  '(loc, condition_objects) <- for_each (read_condition cs child_name) lines (loc, []) ;;
  if Nat.ltb 1 (List.length condition_objects) then
    conn <- bound "connective" (connective loc) ;;
    if String.eqb conn "&&" then
      Ok (add_condition cs (AndConjunction condition_objects), loc)
    else
      Ok (add_condition cs (OrConjunction condition_objects), loc)
  else
    c <- or_raise (Py.index condition_objects 0) IndexError ;;
    Ok (add_condition cs c, loc).

(** [read(pcs_string)]: [pcs_string] is the sequence of lines. *)
Definition read (pcs_string : list string) : result ConfigurationSpace :=
  st <- for_each read_line pcs_string (mkState empty [] []) ;;
  cs <- for_each read_forbidden (forbidden st) (configuration_space st) ;;
  conditions_per_child <- for_each group_condition (conditions st) [] ;;
  '(cs, _) <- for_each read_child conditions_per_child (cs, mkLocals None None None) ;;
  Ok cs.

(** ** Writing *)

(** [list.sort()] on strings: ascending by character code. Insertion into a
    sorted list, after the equal items already there, gives the same list
    as any stable sort. *)
Fixpoint insert_sorted (x : string) (l : list string) : list string :=
  match l with
  | [] => [x]
  | y :: l' => if String.ltb x y then x :: l else y :: insert_sorted x l'
  end.

Definition sort (l : list string) : list string :=
  fold_left (fun acc x => insert_sorted x acc) l [].

(** [itertools.product] of the lists: the last list varies fastest. *)
Fixpoint product {A} (lists : list (list A)) : list (list A) :=
  match lists with
  | [] => [[]]
  | l :: rest => flat_map (fun x => map (cons x) (product rest)) l
  end.

(** The loop over [dlcs]: a membership leaf becomes the list of its
    equalities, any other leaf is kept. The only multiple-value clause of
    the model is the membership clause, so the [ValueError] of the loop
    cannot be raised. *)
Definition split_statements (dlcs : list Forbidden)
    : list (list Forbidden) * list Forbidden :=
  fold_left (fun '(in_statements, other_statements) dlc =>
    match dlc with
    | ForbiddenInClause hp values =>
        ((in_statements ++ [map (ForbiddenEqualsClause hp) values])%list,
         other_statements)
    | _ => (in_statements, (other_statements ++ [dlc])%list)
    end) dlcs ([], []).

(** The body of the loop over the product: one conjunction of equalities,
    built and appended to [forbidden_lines]. *)
Definition write_combination (other_statements : list Forbidden)
    (forbidden_lines : list string) (p : list Forbidden) : result (list string) :=
  let all_forbidden_clauses := (p ++ other_statements)%list in
  let f := ForbiddenAndConjunction all_forbidden_clauses in
  line <- build_forbidden f ;;
  Ok (forbidden_lines ++ [line])%list.

(** The body of the loop over the forbidden clauses: the lines it appends
    to [forbidden_lines]. *)
Definition expand_forbidden (forbidden_clause : Forbidden) : result (list string) :=
  let dlcs := get_descendant_literal_clauses forbidden_clause in
  let '(in_statements, other_statements) := split_statements dlcs in
  if Nat.ltb 0 (List.length in_statements) then
    for_each (write_combination other_statements) (product in_statements) []
  else
    line <- build_forbidden forbidden_clause ;;
    Ok [line].

(** The body of the loop over the hyperparameters. *)
Definition write_hyperparameter (param_lines : string) (hyperparameter : Hyperparameter)
    : result string :=
  match parseString pp_param_name (name hyperparameter) with
  | None => Raise (IllegalNameError (name hyperparameter))
  | Some _ =>
      let param_lines :=
        if Nat.ltb 0 (String.length param_lines)
        then param_lines ++ Py.str1 Py.nl else param_lines in
      match hyperparameter with
      | Continuous n lower upper default is_integer log q =>
          Ok (param_lines ++ build_continuous n lower upper default is_integer log q)
      | Categorical n choices default =>
          Ok (param_lines ++ build_categorical n choices default)
      | Constant n value =>
          Ok (param_lines ++ build_constant n value)
      end
  end.

(** The body of the loop over the conditions. [StringIO.write(None)] writes
    nothing (Python 2). *)
Definition write_condition (condition_lines : string) (condition : Condition)
    : result string :=
  let condition_lines :=
    if Nat.ltb 0 (String.length condition_lines)
    then condition_lines ++ Py.str1 Py.nl else condition_lines in
  text <- build_condition condition ;;
  match text with
  | Some t => Ok (condition_lines ++ t)
  | None => Ok condition_lines
  end.

(** The loop over the forbidden clauses. *)
Definition write_forbidden (forbidden_lines : list string) (forbidden_clause : Forbidden)
    : result (list string) :=
  lines <- expand_forbidden forbidden_clause ;;
  Ok (forbidden_lines ++ lines)%list.

(** The tail of [write]: the condition block, then the sorted forbidden
    block. *)
Definition assemble (param_lines condition_lines : string)
    (forbidden_lines : list string) : string :=
  let param_lines :=
    if Nat.ltb 0 (String.length condition_lines) then
      fold_left (fun buf line => buf ++ line) (Py.readlines condition_lines)
        (param_lines ++ Py.str1 Py.nl ++ Py.str1 Py.nl)
    else param_lines in
  if Nat.ltb 0 (List.length forbidden_lines) then
    let forbidden_lines := sort forbidden_lines in
    fold_left (fun buf line => buf ++ line ++ Py.str1 Py.nl) forbidden_lines
      (param_lines ++ Py.str1 Py.nl ++ Py.str1 Py.nl)
  else param_lines.

(** [write(configuration_space)]. *)
Definition write (configuration_space : ConfigurationSpace) : result string :=
  param_lines <-
    for_each write_hyperparameter (get_hyperparameters configuration_space) "" ;;
  condition_lines <-
    for_each write_condition (get_conditions configuration_space) "" ;;
  forbidden_lines <-
    for_each write_forbidden (forbidden_clauses configuration_space) [] ;;
  Ok (assemble param_lines condition_lines forbidden_lines).

End PcsNew.

(* ===================================================================== *)
(** * The compact dialect: [ConfigSpace/io/irace.py] *)
(* ===================================================================== *)

Module Irace.
Import Pyparsing ConfigSpace.

(** ** The grammar *)

Definition pp_param_name : ParserElement :=
  Word (alphanums ++ "_" ++ "-" ++ "@" ++ "." ++ ":" ++ ";" ++ "\" ++ "/" ++ "?" ++ "!" ++
        "$" ++ "%" ++ "&" ++ "*" ++ "+" ++ "<" ++ ">").
Definition pp_digits : string := "0123456789".
Definition pp_plusorminus : ParserElement := (Literal "+" <|> Literal "-")%pp.
Definition pp_int : ParserElement :=
  Combine (Optional pp_plusorminus + Word pp_digits).
Definition pp_float : ParserElement :=
  Combine (Optional pp_plusorminus + Optional pp_int + "." + pp_int).
Definition pp_eorE : ParserElement := (Literal "e" <|> Literal "E")%pp.
Definition pp_floatorint : ParserElement := (pp_float <|> pp_int)%pp.
Definition pp_e_notation : ParserElement :=
  Combine (pp_floatorint + pp_eorE + pp_int).
Definition pp_number : ParserElement := (pp_e_notation <|> pp_float <|> pp_int)%pp.
Definition pp_numberorname : ParserElement := (pp_number <|> pp_param_name)%pp.
Definition pp_il : ParserElement := Word "il".
Definition pp_choices : ParserElement :=
  (pp_param_name + Optional (OneOrMore ("," + pp_param_name)))%pp.

Definition pp_cont_param : ParserElement :=
  (pp_param_name + "[" + pp_number + "," + pp_number + "]" +
   "[" + pp_number + "]" + Optional pp_il)%pp.
Definition pp_cat_param : ParserElement :=
  (pp_param_name + "{" + pp_choices + "}" + "[" + pp_param_name + "]")%pp.
Definition pp_condition : ParserElement :=
  (pp_param_name + "|" + pp_param_name + "in" + "{" + pp_choices + "}")%pp.
Definition pp_forbidden_clause : ParserElement :=
  ("{" + pp_param_name + "=" + pp_numberorname +
   Optional (OneOrMore ("," + pp_param_name + "=" + pp_numberorname)) + "}")%pp.

(** ** Writing one item *)

Definition build_categorical (param_name : string) (choices : list string) : string :=
  param_name ++ " '--" ++ param_name ++ " ' c (" ++ Py.join "," choices ++ ")".

Definition build_constant (param_name : string) (value : Py.value) : string :=
  param_name ++ " '--" ++ param_name ++ " ' c (" ++ Py.str value ++ ")".

(** Neither template has a default, a scale marker or the quantization
    prefix, which is computed and not used. *)
Definition build_continuous (param_name : string) (lower upper : Q)
    (is_integer : bool) : string :=
  if is_integer then
    param_name ++ " '--" ++ param_name ++ " ' i ("
      ++ Py.str_of_int (Py.int_of_float lower) ++ ", "
      ++ Py.str_of_int (Py.int_of_float upper) ++ ")"
  else
    param_name ++ " '--" ++ param_name ++ " ' r (" ++ Py.str_of_float lower ++ ", "
      ++ Py.str_of_float upper ++ ") ".

(** [condition.parent.__class__.__name__] mapped to the type letter. *)
Definition pType (parent : Hyperparameter) : string :=
  match parent with
  | Categorical _ _ _ => "c"
  | Continuous _ _ _ _ false _ _ => "r"
  | _ => "i"
  end.

(** [build_condition]. The two rejections come first; an [AndConjunction]
    has no [parent] attribute, so reading it raises before the
    [NotImplementedError] meant for conjunctions is reached. *)
Definition build_condition (condition : Condition) : result string :=
  let condition_template (child parent : Hyperparameter) (v : string) :=
    name child ++ " | " ++ name parent ++ " %in% " ++ pType parent ++ "(" ++ v ++ ") " in
  match condition with
  | OrConjunction _ =>
      Raise (UnsupportedConstructError "IRACE cannot handle OR conditions: %s")
  | NotEqualsCondition _ _ _ =>
      Raise (UnsupportedConstructError "IRACE cannot handle != conditions: %s")
  | AndConjunction _ => Raise AttributeError
  | InCondition child parent values =>
      v <- or_raise (Py.join_values ", " values) TypeError ;;
      Ok (condition_template child parent v)
  | EqualsCondition child parent value =>
      Ok (condition_template child parent (Py.str value))
  end.

(** The attributes of a leaf that [build_forbidden] prints. *)
Definition literal_text (dlc : Forbidden) : result string :=
  match dlc with
  | ForbiddenEqualsClause hp value => Ok (name hp ++ "=" ++ Py.str value)
  | _ => Raise AttributeError
  end.

(** The body of the loop of [build_forbidden]. *)
Definition write_literal (retval : string) (dlc : Forbidden) : result string :=
  let retval := if Nat.ltb 1 (String.length retval) then retval ++ ", " else retval in
  t <- literal_text dlc ;;
  Ok (retval ++ t).

(** [build_forbidden]: only an equality or a conjunction is accepted. The
    message of the rejection is formatted from the wrong number of arguments,
    which is a [TypeError]. *)
Definition build_forbidden (clause : Forbidden) : result string :=
  match clause with
  | ForbiddenInClause _ _ => Raise TypeError
  | _ =>
      let dlcs := get_descendant_literal_clauses clause in
      retval <- for_each write_literal dlcs "{" ;;
      Ok (retval ++ "}")
  end.

(** ** Reading *)

Record read_state : Type := mkState {
  configuration_space : ConfigurationSpace;
  conditions : list ParseResults;
  forbidden : list string
}.

Definition clean (line : string) : string :=
  let line := if Py.char_in "#" line then Py.before_char "#" line else line in
  let line := Py.remove_char Py.squote (Py.remove_char Py.dquote line) in
  Py.strip line.

(** The first [try] block: the type and the scale come from the optional
    letters after the default. *)
Definition try_continuous (line : string) : result (option Hyperparameter) :=
  match parseString pp_cont_param line with
  | None => Ok None
  | Some param_list =>
      let il := Py.slice param_list (Some 9%Z) None 1 in
      let param_list := Py.slice param_list None (Some 9%Z) 1 in
      name <- or_raise (Py.index param_list 0) IndexError ;;
      t2 <- or_raise (Py.index param_list 2) IndexError ;;
      lower <- or_raise (Py.float t2) ValueError ;;
      t4 <- or_raise (Py.index param_list 4) IndexError ;;
      upper <- or_raise (Py.float t4) ValueError ;;
      let is_int :=
        match il with
        | il0 :: _ => Py.str_in "i" il0
        | [] => false
        end in
      let log :=
        match il with
        | il0 :: _ => Py.str_in "l" il0
        | [] => false
        end in
      t7 <- or_raise (Py.index param_list 7) IndexError ;;
      default <- or_raise (Py.float t7) ValueError ;;
      param <- (if is_int then UniformIntegerHyperparameter
                else UniformFloatHyperparameter)
                 name lower upper None log default ;;
      Ok (Some param)
  end.

Definition try_categorical (line : string) (param : option Hyperparameter)
    : result (option Hyperparameter) :=
  match parseString pp_cat_param line with
  | None => Ok param
  | Some param_list =>
      name <- or_raise (Py.index param_list 0) IndexError ;;
      let choices := Py.slice param_list (Some 2%Z) (Some (-4)%Z) 2 in
      default <- or_raise (Py.index param_list (-2)) IndexError ;;
      param <- CategoricalHyperparameter name choices default ;;
      Ok (Some param)
  end.

(** The body of the loop over the lines. *)
Definition read_line (st : read_state) (line : string) : result read_state :=
  let line := clean line in
  if Py.char_in "|" line then
    match parseString pp_condition line with
    | Some c =>
        Ok (mkState (configuration_space st) (conditions st ++ [c])%list (forbidden st))
    | None => Raise (UnparsableConditionError line)
    end
  else if negb (Py.char_in "}" line) && negb (Py.char_in "]" line) then Ok st
  else if Py.startswith line "{" && Py.endswith line "}" then
    Ok (mkState (configuration_space st) (conditions st) (forbidden st ++ [line])%list)
  else if Nat.eqb (String.length (Py.strip line)) 0 then Ok st
  else
    param <- try_continuous line ;;
    param <- try_categorical line param ;;
    match param with
    | None => Raise (UnparsableParameterError line)
    | Some param =>
        cs <- add_hyperparameter (configuration_space st) param ;;
        Ok (mkState cs (conditions st) (forbidden st))
    end.

Definition forbidden_token (cs : ConfigurationSpace)
    (st : list string * list Forbidden) (value : string)
    : result (list string * list Forbidden) :=
  let '(tmp_list, clause_list) := st in
  if Nat.ltb (List.length tmp_list) 3 then Ok ((tmp_list ++ [value])%list, clause_list)
  else
    op <- or_raise (Py.index tmp_list 1) IndexError ;;
    if String.eqb op "=" then
      n <- or_raise (Py.index tmp_list 0) IndexError ;;
      hp <- get_hyperparameter cs n ;;
      v <- or_raise (Py.index tmp_list 2) IndexError ;;
      Ok ([], (clause_list ++ [ForbiddenEqualsClause hp (Py.VStr v)])%list)
    else Raise UnsupportedForbiddenOperatorError.

Definition read_forbidden (cs : ConfigurationSpace) (clause : string)
    : result ConfigurationSpace :=
  param_list <- or_raise (parseString pp_forbidden_clause clause) ParseException ;;
  '(_, clause_list) <-
     for_each (forbidden_token cs) (Py.slice param_list (Some 1%Z) None 1) ([], []) ;;
  Ok (add_forbidden_clause cs (ForbiddenAndConjunction clause_list)).

Definition OrderedDict : Type := list (string * list ParseResults).

Fixpoint od_append (key : string) (c : ParseResults) (d : OrderedDict) : OrderedDict :=
  match d with
  | [] => [(key, [c])]
  | (k, cs) :: d' =>
      if String.eqb k key then (k, (cs ++ [c])%list) :: d'
      else (k, cs) :: od_append key c d'
  end.

Definition group_condition (d : OrderedDict) (condition : ParseResults)
    : result OrderedDict :=
  child_name <- or_raise (Py.index condition 0) IndexError ;;
  Ok (od_append child_name condition d).

(** The body of the loop over the condition lines of one child: one fact
    per line, an equality for one value and a membership otherwise. *)
Definition read_condition (cs : ConfigurationSpace) (child_name : string)
    (condition_objects : list Condition) (condition : ParseResults)
    : result (list Condition) :=
  child <- get_hyperparameter cs child_name ;;
  parent_name <- or_raise (Py.index condition 2) IndexError ;;
  parent <- get_hyperparameter cs parent_name ;;
  let restrictions := Py.slice condition (Some 5%Z) (Some (-1)%Z) 2 in
  condition <-
    (if Nat.eqb (List.length restrictions) 1 then
       r0 <- or_raise (Py.index restrictions 0) IndexError ;;
       new_EqualsCondition child parent (Py.VStr r0)
     else new_InCondition child parent (map Py.VStr restrictions)) ;;
  Ok (condition_objects ++ [condition])%list.

(** The body of the loop over the children. *)
Definition read_child (cs : ConfigurationSpace) (entry : string * list ParseResults)
    : result ConfigurationSpace :=
  let '(child_name, lines) := entry in
  condition_objects <- for_each (read_condition cs child_name) lines [] ;;
  if Nat.ltb 1 (List.length condition_objects) then
    Ok (add_condition cs (AndConjunction condition_objects))
  else
    c <- or_raise (Py.index condition_objects 0) IndexError ;;
    Ok (add_condition cs c).

(** [read(pcs_string)]. *)
Definition read (pcs_string : list string) : result ConfigurationSpace :=
  st <- for_each read_line pcs_string (mkState empty [] []) ;;
  cs <- for_each read_forbidden (forbidden st) (configuration_space st) ;;
  conditions_per_child <- for_each group_condition (conditions st) [] ;;
  for_each read_child conditions_per_child cs.

(** ** Writing *)

Fixpoint product {A} (lists : list (list A)) : list (list A) :=
  match lists with
  | [] => [[]]
  | l :: rest => flat_map (fun x => map (cons x) (product rest)) l
  end.

Definition split_statements (dlcs : list Forbidden)
    : list (list Forbidden) * list Forbidden :=
  fold_left (fun '(in_statements, other_statements) dlc =>
    match dlc with
    | ForbiddenInClause hp values =>
        ((in_statements ++ [map (ForbiddenEqualsClause hp) values])%list,
         other_statements)
    | _ => (in_statements, (other_statements ++ [dlc])%list)
    end) dlcs ([], []).

(** The body of the loop over the product: one conjunction of equalities,
    built and appended to [forbidden_lines]. *)
Definition write_combination (other_statements : list Forbidden)
    (forbidden_lines : list string) (p : list Forbidden) : result (list string) :=
  let all_forbidden_clauses := (p ++ other_statements)%list in
  let f := ForbiddenAndConjunction all_forbidden_clauses in
  line <- build_forbidden f ;;
  Ok (forbidden_lines ++ [line])%list.

(** The body of the loop over the forbidden clauses: the lines it appends
    to [forbidden_lines]. *)
Definition expand_forbidden (forbidden_clause : Forbidden) : result (list string) :=
  let dlcs := get_descendant_literal_clauses forbidden_clause in
  let '(in_statements, other_statements) := split_statements dlcs in
  if Nat.ltb 0 (List.length in_statements) then
    for_each (write_combination other_statements) (product in_statements) []
  else
    line <- build_forbidden forbidden_clause ;;
    Ok [line].

Definition write_hyperparameter (param_lines : string) (hyperparameter : Hyperparameter)
    : result string :=
  match parseString pp_param_name (name hyperparameter) with
  | None => Raise (IllegalNameError (name hyperparameter))
  | Some _ =>
      let param_lines :=
        if Nat.ltb 0 (String.length param_lines)
        then param_lines ++ Py.str1 Py.nl else param_lines in
      match hyperparameter with
      | Continuous n lower upper _ is_integer _ _ =>
          Ok (param_lines ++ build_continuous n lower upper is_integer)
      | Categorical n choices _ =>
          Ok (param_lines ++ build_categorical n choices)
      | Constant n value =>
          Ok (param_lines ++ build_constant n value)
      end
  end.

Definition write_condition (condition_lines : string) (condition : Condition)
    : result string :=
  let condition_lines :=
    if Nat.ltb 0 (String.length condition_lines)
    then condition_lines ++ Py.str1 Py.nl else condition_lines in
  text <- build_condition condition ;;
  Ok (condition_lines ++ text).

Definition write_forbidden (forbidden_lines : list string) (forbidden_clause : Forbidden)
    : result (list string) :=
  lines <- expand_forbidden forbidden_clause ;;
  Ok (forbidden_lines ++ lines)%list.

(** [l.index(t)]: the place of the first item equal to [t]. *)
Fixpoint list_index (t : string) (l : list string) : option nat :=
  match l with
  | [] => None
  | x :: l' => if String.eqb x t then Some 0 else option_map S (list_index t l')
  end.

(** [l[i] = f(l[i])]. *)
Fixpoint list_update (i : nat) (f : string -> string) (l : list string) : list string :=
  match l, i with
  | [], _ => []
  | x :: l', O => f x :: l'
  | x :: l', S i' => x :: list_update i' f l'
  end.

(** The body of the loop over the lines of [condition_lines]: the first
    parameter line that contains the first word of the condition gets the
    rest of the condition appended, its words joined by two spaces.
    [filter(...)[0]] is Python 2; it raises [IndexError] when no line
    qualifies. (The line is also written to [param_lines], which [write]
    throws away below.) *)
Definition splice_condition (splitted_params : list string) (line : string)
    : result (list string) :=
  let words := Py.split " " line in
  match filter (Py.str_in (hd EmptyString words)) splitted_params with
  | [] => Raise IndexError
  | t :: _ =>
      index <- or_raise (list_index t splitted_params) ValueError ;;
      Ok (list_update index (fun p => p ++ Py.join "  " (tl words)) splitted_params)
  end.

(** The body of the loop that ends every line with a line feed; [j[-1]]
    raises [IndexError] on an empty line. *)
Definition end_line (done : list string) (j : string) : result (list string) :=
  last <- or_raise (Py.last_char j) IndexError ;;
  let j := if Ascii.eqb last Py.nl then j else j ++ Py.str1 Py.nl in
  Ok (done ++ [j])%list.

(** [write(configuration_space)]. [forbidden_lines] is filled and never
    written: the block that would write it is commented out in the source. *)
Definition write (configuration_space : ConfigurationSpace) : result string :=
  param_lines <-
    for_each write_hyperparameter (get_hyperparameters configuration_space) "" ;;
  condition_lines <-
    for_each write_condition (get_conditions configuration_space) "" ;;
  forbidden_lines <-
    for_each write_forbidden (forbidden_clauses configuration_space) [] ;;
  let splitted_params := Py.split Py.nl param_lines in
  splitted_params <-
    (if Nat.ltb 0 (String.length condition_lines)
     then for_each splice_condition (Py.readlines condition_lines) splitted_params
     else Ok splitted_params) ;;
  splitted_params <- for_each end_line splitted_params [] ;;
  Ok (fold_left (fun buf l => buf ++ l) splitted_params "").

End Irace.

(* ===================================================================== *)
(** * Specification *)
(* ===================================================================== *)

(** What the properties below are stated with: the words of the
    specification as definitions, next to the code they are compared with,
    and the examples the properties are tried on. *)

Import Pyparsing ConfigSpace.

(** ** Forbidden clauses *)

(** The induction principle of the forbidden-clause tree, which nests
    through lists. *)
Section ForbiddenInduction.
Variable P : Forbidden -> Prop.
Hypothesis Hequals : forall hp v, P (ForbiddenEqualsClause hp v).
Hypothesis Hin : forall hp vs, P (ForbiddenInClause hp vs).
Hypothesis Hand : forall cs, Forall P cs -> P (ForbiddenAndConjunction cs).

(** Induction over a clause with the hypothesis for every member of a
    conjunction. *)
Fixpoint Forbidden_nested_ind (f : Forbidden) : P f :=
  match f with
  | ForbiddenEqualsClause hp v => Hequals hp v
  | ForbiddenInClause hp vs => Hin hp vs
  | ForbiddenAndConjunction cs =>
      Hand cs ((fix all (l : list Forbidden) : Forall P l :=
                  match l with
                  | [] => Forall_nil P
                  | c :: l' => Forall_cons c (Forbidden_nested_ind c) (all l')
                  end) cs)
  end.
End ForbiddenInduction.

(** An equality or a membership clause. *)
Definition is_leaf (f : Forbidden) : bool :=
  match f with
  | ForbiddenAndConjunction _ => false
  | _ => true
  end.

(** *** The expansion in the words of the specification (section 4.5) *)

(** [name=value], the text of one equality. *)
Definition atom_text (atom : Hyperparameter * Py.value) : string :=
  name (fst atom) ++ "=" ++ Py.str (snd atom).

(** One written clause: the equalities between braces, separated by a comma
    and a space. *)
Definition clause_text (atoms : list (Hyperparameter * Py.value)) : string :=
  "{" ++ Py.join ", " (map atom_text atoms) ++ "}".

(** The membership atomics among the leaves, in order, each with its value
    set. *)
Fixpoint memberships (leaves : list Forbidden) : list (Hyperparameter * list Py.value) :=
  match leaves with
  | [] => []
  | ForbiddenInClause hp vs :: rest => (hp, vs) :: memberships rest
  | _ :: rest => memberships rest
  end.

(** The plain (equality) atomics among the leaves, in order. *)
Fixpoint plain_atoms (leaves : list Forbidden) : list (Hyperparameter * Py.value) :=
  match leaves with
  | [] => []
  | ForbiddenEqualsClause hp v :: rest => (hp, v) :: plain_atoms rest
  | _ :: rest => plain_atoms rest
  end.

(** The clauses written for [f]: one clause per element of the Cartesian
    product of the value sets of the membership atomics, made of one
    equality per membership atomic and then all plain atomics; without a
    membership atomic, the one clause of the plain atomics. *)
Definition expansion (f : Forbidden) : list string :=
  let leaves := get_descendant_literal_clauses f in
  let ms := memberships leaves in
  let plain := plain_atoms leaves in
  match ms with
  | [] => [clause_text plain]
  | _ :: _ =>
      map (fun combo => clause_text (combine (map fst ms) combo ++ plain))
        (PcsNew.product (map snd ms))
  end.

(** The leaf of an equality. *)
Definition equality (atom : Hyperparameter * Py.value) : Forbidden :=
  ForbiddenEqualsClause (fst atom) (snd atom).

(** The equalities a membership atomic stands for, one per value. *)
Definition equalities (m : Hyperparameter * list Py.value) : list Forbidden :=
  map (ForbiddenEqualsClause (fst m)) (snd m).

(** ** Sorting *)

(** The order of Python's [sort] on strings: lexicographic, by character
    code. *)
Definition string_le (a b : string) : Prop := String.leb a b = true.

(** ** The forbidden block of the explicit dialect *)

(** The lines of a block, each ended by a line feed. *)
Definition lines_text (lines : list string) : string :=
  fold_right (fun l rest => l ++ Py.str1 Py.nl ++ rest) "" lines.

(** The block [write] appends for the rendered clause lines: nothing when
    there are none, else an empty line and the lines in sorted order. *)
Definition forbidden_block (lines : list string) : string :=
  match lines with
  | [] => ""
  | _ :: _ => Py.str1 Py.nl ++ Py.str1 Py.nl ++ lines_text (PcsNew.sort lines)
  end.

(** The space with its forbidden clauses taken away. *)
Definition without_forbidden (cs : ConfigurationSpace) : ConfigurationSpace :=
  mkSpace (get_hyperparameters cs) (get_conditions cs) [].

(** The hyperparameters and the clause of the specification's example. *)
Definition hp_a : Hyperparameter := Categorical "a" ["1"; "2"] "1".
Definition hp_b : Hyperparameter := Categorical "b" ["3"; "4"] "3".
Definition example_clause : Forbidden :=
  ForbiddenAndConjunction
    [ForbiddenInClause hp_a [Py.VInt 1; Py.VInt 2];
     ForbiddenEqualsClause hp_b (Py.VInt 3)].
Definition example_space : ConfigurationSpace :=
  mkSpace [hp_a; hp_b] [] [example_clause].

(** ** Names *)

(** The characters of a [Word]. *)
Definition word_chars (e : ParserElement) : string :=
  match e with
  | Word chars => chars
  | _ => ""
  end.

(** A hyperparameter whose name holds a space, which no name grammar
    permits. *)
Definition spaced_name : Hyperparameter := Categorical "learning rate" ["x"] "x".

(** ** Conditions the compact dialect cannot write *)



(** The name check of the compact writer passes for [hp]. *)
Definition irace_name_ok (hp : Hyperparameter) : bool :=
  match parseString Irace.pp_param_name (name hp) with
  | Some _ => true
  | None => false
  end.


(** ** Sequences of parser elements *)

(** The text an element starts to match at: leading whitespace is skipped
    unless the elements are inside a [Combine]. *)
Definition preskip (ws : bool) (s : string) : string :=
  if ws then skip_white s else s.

(** ** Classification of a line (explicit dialect) *)

(** What the loop body does with a declared parameter. *)
Definition pcs_declare (st : PcsNew.read_state) (l : string)
    (param : option Hyperparameter) : result PcsNew.read_state :=
  match param with
  | None => Raise (UnparsableParameterError l)
  | Some param =>
      bind (add_hyperparameter (PcsNew.configuration_space st) param)
        (fun cs => Ok (PcsNew.mkState cs (PcsNew.conditions st) (PcsNew.forbidden st)))
  end.

(** The classification of section 4.3, with a match of the start of the line
    where the specification asks for a match of the whole line. *)
Definition pcs_classify (st : PcsNew.read_state) (l : string) : result PcsNew.read_state :=
  if Py.char_in "|" l then
    match parseString PcsNew.pp_condition l with
    | Some c =>
        Ok (PcsNew.mkState (PcsNew.configuration_space st)
              (PcsNew.conditions st ++ [c])%list (PcsNew.forbidden st))
    | None => Raise (UnparsableConditionError l)
    end
  else if negb (Py.char_in "}" l) && negb (Py.char_in "]" l) then Ok st
  else if Py.startswith l "{" && Py.endswith l "}" then
    Ok (PcsNew.mkState (PcsNew.configuration_space st) (PcsNew.conditions st)
          (PcsNew.forbidden st ++ [l])%list)
  else
    match parseString PcsNew.pp_cont_param l with
    | Some _ => bind (PcsNew.try_continuous l) (pcs_declare st l)
    | None =>
        match parseString PcsNew.pp_cat_param l with
        | Some _ => bind (PcsNew.try_categorical l None) (pcs_declare st l)
        | None => Raise (UnparsableParameterError l)
        end
    end.

(** ** Classification of a line (compact dialect) *)

(** What the loop body does with a declared parameter. *)
Definition irace_declare (st : Irace.read_state) (l : string)
    (param : option Hyperparameter) : result Irace.read_state :=
  match param with
  | None => Raise (UnparsableParameterError l)
  | Some param =>
      bind (add_hyperparameter (Irace.configuration_space st) param)
        (fun cs => Ok (Irace.mkState cs (Irace.conditions st) (Irace.forbidden st)))
  end.

(** The classification of section 4.3, with a match of the start of the line
    where the specification asks for a match of the whole line. *)
Definition irace_classify (st : Irace.read_state) (l : string) : result Irace.read_state :=
  if Py.char_in "|" l then
    match parseString Irace.pp_condition l with
    | Some c =>
        Ok (Irace.mkState (Irace.configuration_space st)
              (Irace.conditions st ++ [c])%list (Irace.forbidden st))
    | None => Raise (UnparsableConditionError l)
    end
  else if negb (Py.char_in "}" l) && negb (Py.char_in "]" l) then Ok st
  else if Py.startswith l "{" && Py.endswith l "}" then
    Ok (Irace.mkState (Irace.configuration_space st) (Irace.conditions st)
          (Irace.forbidden st ++ [l])%list)
  else
    match parseString Irace.pp_cont_param l with
    | Some _ => bind (Irace.try_continuous l) (irace_declare st l)
    | None =>
        match parseString Irace.pp_cat_param l with
        | Some _ => bind (Irace.try_categorical l None) (irace_declare st l)
        | None => Raise (UnparsableParameterError l)
        end
    end.

(** The line holds one of the characters that make the reader look at it. *)
Definition marked (l : string) : bool :=
  Py.char_in "|" l || Py.char_in "}" l || Py.char_in "]" l.


(** ** Lines that are not decoded (explicit dialect) *)


(** ** Lines that are not decoded (compact dialect) *)


(** ** Grouping the condition lines by child *)

(** The child a condition line names: its first token. *)
Definition child_of (c : ParseResults) : string := hd "" c.

(** The condition lines that name [child], in their order. *)
Definition lines_of (child : string) (conds : list ParseResults) : list ParseResults :=
  filter (fun c => String.eqb (child_of c) child) conds.

(** The children named by the condition lines, each once, in the order of
    their first line. *)
Definition children (conds : list ParseResults) : list string :=
  fold_left (fun acc c =>
               if existsb (String.eqb (child_of c)) acc then acc
               else (acc ++ [child_of c])%list) conds [].

(** The dictionary the grouping loop builds. *)
Definition grouped (conds : list ParseResults) : list (string * list ParseResults) :=
  map (fun child => (child, lines_of child conds)) (children conds).

(** ** What the first two loops leave in the space *)

(** A loop over a list maps a function that can raise, in order. *)
Fixpoint map_result {A B} (f : A -> result B) (l : list A) : result (list B) :=
  match l with
  | [] => Ok []
  | x :: rest =>
      bind (f x) (fun y => bind (map_result f rest) (fun ys => Ok (y :: ys)))
  end.

(** One top-level condition out of the facts of a child: the fact itself
    when there is one, their AND-conjunction otherwise. *)
Definition conjoin (facts : list Condition) : Condition :=
  match facts with
  | [f] => f
  | _ => AndConjunction facts
  end.

(** ** The condition loops of the compact dialect *)

(** The fact a condition line states about [child_name]: an equality for one
    value, a membership otherwise. *)
Definition irace_fact (cs : ConfigurationSpace) (child_name : string)
    (condition : ParseResults) : result Condition :=
  bind (get_hyperparameter cs child_name) (fun child =>
  bind (or_raise (Py.index condition 2) IndexError) (fun parent_name =>
  bind (get_hyperparameter cs parent_name) (fun parent =>
  let restrictions := Py.slice condition (Some 5%Z) (Some (-1)%Z) 2 in
  if Nat.eqb (List.length restrictions) 1 then
    bind (or_raise (Py.index restrictions 0) IndexError) (fun r0 =>
    new_EqualsCondition child parent (Py.VStr r0))
  else new_InCondition child parent (map Py.VStr restrictions)))).

(** Two condition lines for the child [x], through the parents [y] and
    [z], and the space read from them. *)
Definition irace_grouping_example : list string :=
  ["x {a, b} [a]"; "y {1, 2} [1]"; "z {2, 3} [2]";
   "x | y in {1}"; "x | z in {2, 3}"].

Definition hp_x : Hyperparameter := Categorical "x" ["a"; "b"] "a".
Definition hp_y : Hyperparameter := Categorical "y" ["1"; "2"] "1".
Definition hp_z : Hyperparameter := Categorical "z" ["2"; "3"] "2".

Definition irace_grouping_space : ConfigurationSpace :=
  mkSpace [hp_x; hp_y; hp_z]
    [AndConjunction [EqualsCondition hp_x hp_y (Py.VStr "1");
                     InCondition hp_x hp_z [Py.VStr "2"; Py.VStr "3"]]]
    [].

(** ** The condition loops of the explicit dialect *)

(** The connective a processed line leaves in the variable [connective]:
    none for a lone membership fact, else the token after the first value. *)
Definition line_connective (c : ParseResults) : option string :=
  match Py.index c 3 with
  | Some op =>
      if String.eqb op "in" && negb (Nat.ltb 7 (List.length c)) then None
      else Py.index c 5
  | None => None
  end.

(** The variable [connective] after the lines, from its value before them. *)
Definition connective_after (prev : option string) (lines : list ParseResults)
    : option string :=
  fold_left (fun acc c =>
               match line_connective c with
               | Some x => Some x
               | None => acc
               end) lines prev.

(** A condition line of one of the two shapes the loop body is written
    for: a lone membership fact, or two facts joined by a connective, the
    first an equality or inequality. *)
Definition regular (c : ParseResults) : bool :=
  match Py.index c 3 with
  | Some op =>
      if String.eqb op "in" then negb (Nat.ltb 7 (List.length c))
      else (String.eqb op "==" || String.eqb op "!=")
           && match Py.index c 7 with
              | Some op2 =>
                  String.eqb op2 "in" || String.eqb op2 "==" || String.eqb op2 "!="
              | None => false
              end
  | None => false
  end.

(** The leaf a fact stands for: parent, operator and value or values. *)
Definition pcs_leaf (cs : ConfigurationSpace) (child : Hyperparameter)
    (parent_name op : string) (value : option string) (values : list string)
    : result Condition :=
  bind (get_hyperparameter cs parent_name) (fun parent =>
  if String.eqb op "in" then new_InCondition child parent (map Py.VStr values)
  else
    bind (or_raise value IndexError) (fun v =>
    if String.eqb op "==" then new_EqualsCondition child parent (Py.VStr v)
    else new_NotEqualsCondition child parent (Py.VStr v))).

(** The leaves of a regular condition line. *)
Definition pcs_facts (cs : ConfigurationSpace) (child_name : string)
    (c : ParseResults) : result (list Condition) :=
  bind (get_hyperparameter cs child_name) (fun child =>
  bind (or_raise (Py.index c 2) IndexError) (fun parent_name =>
  bind (or_raise (Py.index c 3) IndexError) (fun op =>
  if String.eqb op "in" then
    bind (pcs_leaf cs child parent_name op None
            (Py.slice c (Some 5%Z) (Some (-1)%Z) 2)) (fun f => Ok [f])
  else
    bind (pcs_leaf cs child parent_name op (Py.index c 4) []) (fun f1 =>
    bind (or_raise (Py.index c 6) IndexError) (fun parent_name2 =>
    bind (or_raise (Py.index c 7) IndexError) (fun op2 =>
    bind (pcs_leaf cs child parent_name2 op2 (Py.index c 8)
            (Py.slice c (Some 9%Z) (Some (-1)%Z) 2)) (fun f2 =>
    Ok [f1; f2]))))))).

(** One top-level condition out of the leaves of a child: the leaf itself
    when there is one; else their conjunction, AND when the variable
    [connective] holds [&&], OR when it holds anything else. *)
Definition combine_leaves (conn : option string) (leaves : list Condition) : Condition :=
  match leaves with
  | [l] => l
  | _ =>
      match conn with
      | Some c =>
          if String.eqb c "&&" then AndConjunction leaves else OrConjunction leaves
      | None => OrConjunction leaves
      end
  end.

(** The top-level conditions of the children, in order: [prev] is the
    variable [connective] before the first of them. *)
Fixpoint combine_groups (prev : option string) (groups : list (list ParseResults))
    (leavess : list (list Condition)) : list Condition :=
  match groups, leavess with
  | g :: gs, leaves :: rest =>
      let conn := connective_after prev g in
      combine_leaves conn leaves :: combine_groups conn gs rest
  | _, _ => []
  end.

(** A child [a] whose line carries [&&], then a child [d] with two lines
    that carry no connective, and the space read from them. *)
Definition stale_connective_lines : list string :=
  ["a categorical {1, 2} [1]"; "b categorical {3, 4} [3]";
   "c categorical {5, 6} [5]"; "d categorical {7, 8} [7]";
   "a | b == 3 && c == 5";
   "d | a in {1}"; "d | b in {3}"].

Definition hp_c : Hyperparameter := Categorical "c" ["5"; "6"] "5".
Definition hp_d : Hyperparameter := Categorical "d" ["7"; "8"] "7".

Definition stale_connective_space : ConfigurationSpace :=
  mkSpace [hp_a; hp_b; hp_c; hp_d]
    [AndConjunction [EqualsCondition hp_a hp_b (Py.VStr "3");
                     EqualsCondition hp_a hp_c (Py.VStr "5")];
     AndConjunction [InCondition hp_d hp_a [Py.VStr "1"];
                     InCondition hp_d hp_b [Py.VStr "3"]]]
    [].

(** ** The unassigned connective *)

(** The line states a membership fact first. *)
Definition membership_line (c : ParseResults) : bool :=
  match Py.index c 3 with
  | Some op => String.eqb op "in"
  | None => false
  end.

(** The child and the parent the line names are hyperparameters of the
    space, and not the same one. *)
Definition resolves (cs : ConfigurationSpace) (c : ParseResults) : bool :=
  match lookup (child_of c) (get_hyperparameters cs), Py.index c 2 with
  | Some _, Some parent_name =>
      match lookup parent_name (get_hyperparameters cs) with
      | Some _ => negb (String.eqb (child_of c) parent_name)
      | None => false
      end
  | _, _ => false
  end.

(** What the loops below are run on: lines of one child that assign no
    connective and name declared hyperparameters. *)
Definition unassigning (cs : ConfigurationSpace) (child : string) (c : ParseResults)
    : Prop :=
  child_of c = child /\ line_connective c = None /\ resolves cs c = true.

(** Two membership lines for the child [d] and no connective anywhere. *)
Definition unassigned_connective_lines : list string :=
  ["a categorical {1, 2} [1]"; "b categorical {3, 4} [3]";
   "d categorical {7, 8} [7]";
   "d | a in {1}"; "d | b in {3}"].

(** ** Words and their text *)

(** Every character of [s] satisfies [p]. *)
Fixpoint all_chars (p : ascii -> bool) (s : string) : bool :=
  match s with
  | EmptyString => true
  | String c s' => p c && all_chars p s'
  end.

(** [s] is empty or its first character does not satisfy [p]. *)
Definition stops (p : ascii -> bool) (s : string) : bool :=
  match s with
  | EmptyString => true
  | String c _ => negb (p c)
  end.

(** ** Categorical declarations of the explicit dialect *)

(** A character of the identifier grammar. *)
Definition name_char (c : ascii) : bool :=
  Py.char_in c (word_chars PcsNew.pp_param_name).

(** A non-empty text of identifier characters: what [pp_param_name]
    matches in full. *)
Definition identifier (s : string) : bool :=
  negb (String.eqb s "") && all_chars name_char s.

(** A character of a written categorical declaration. *)
Definition declaration_char (c : ascii) : bool :=
  name_char c || Py.char_in c " categorical{},[]".

(** The choices after the first, as written: each after a comma and a
    space. *)
Definition more_choices (choices : list string) : string :=
  fold_right (fun c rest => String "," (String " " (c ++ rest))) "" choices.

(** The tokens of a written categorical declaration. *)
Definition categorical_tokens (n c d : string) (choices : list string) : ParseResults :=
  ([n; "categorical"; "{"] ++ (c :: flat_map (fun c => [","; c]) choices) ++
   ["}"; "["; d; "]"])%list.

(** ** Slices and indices of a token list *)

(** The plain categorical hyperparameters: name and choices are
    identifiers and the default is one of the choices. *)
Definition plain_categorical (hp : Hyperparameter) : bool :=
  match hp with
  | Categorical n choices d =>
      identifier n && forallb identifier choices && existsb (String.eqb d) choices
  | _ => false
  end.

(** The line [write] writes for a categorical hyperparameter. *)
Definition declaration (hp : Hyperparameter) : string :=
  match hp with
  | Categorical n choices d => PcsNew.build_categorical n choices d
  | _ => ""
  end.

(** A space with one constant, and a space with one equality condition. *)
Definition constant_space : ConfigurationSpace :=
  mkSpace [Constant "c" (Py.VInt 1)] [] [].

Definition conditional_space : ConfigurationSpace :=
  mkSpace [hp_a; hp_b] [EqualsCondition hp_b hp_a (Py.VStr "1")] [].

(* ===================================================================== *)
(** * Further definitions *)
(* ===================================================================== *)

(** What the further properties of the two modules, at the end of the
    file, are stated with. *)

(** ** The name check of the writers *)

(** The first character of [n] after leading white space is one of
    [chars]: what [Word(chars).parseString(n)] asks of [n]. *)
Definition starts_with_one_of (chars n : string) : bool :=
  match skip_white n with
  | String c _ => Py.char_in c chars
  | EmptyString => false
  end.

(** ** Conditions as the explicit dialect writes them *)

(** A not-equals condition turned into the equals condition on the same
    child, parent and value. *)
Definition as_equals (c : Condition) : Condition :=
  match c with
  | NotEqualsCondition child parent value => EqualsCondition child parent value
  | _ => c
  end.

(** ** Declarations of the compact dialect *)

(** The line the compact dialect's [write] writes for a hyperparameter. *)
Definition irace_declaration (hp : Hyperparameter) : string :=
  match hp with
  | Continuous n lower upper _ is_integer _ _ =>
      Irace.build_continuous n lower upper is_integer
  | Categorical n choices _ => Irace.build_categorical n choices
  | Constant n value => Irace.build_constant n value
  end.

(** The line holds none of the characters that make a reader look at it,
    and no line feed. *)
Definition unmarked_line (l : string) : bool :=
  negb (marked l) && negb (Py.char_in Py.nl l).

(** ** Forbidden clauses as token lists *)

(** The tokens of a clause after its opening brace: name, [=] and value of
    the first atom, then a comma before each further atom, and the closing
    brace. *)
Fixpoint clause_tokens_from (a : string * string) (rest : list (string * string))
    {struct rest} : ParseResults :=
  ([fst a; "="; snd a] ++
   match rest with
   | [] => ["}"]
   | b :: rest' => "," :: clause_tokens_from b rest'
   end)%list.

(** The leaf the forbidden loop builds for a name and a value. *)
Definition read_atom (cs : ConfigurationSpace) (a : string * string) : result Forbidden :=
  hp <- get_hyperparameter cs (fst a) ;;
  Ok (ForbiddenEqualsClause hp (Py.VStr (snd a))).

(** The equality leaf of a hyperparameter and a value given as text. *)
Definition text_equality (a : Hyperparameter * string) : Forbidden :=
  ForbiddenEqualsClause (fst a) (Py.VStr (snd a)).

(** A value that starts a number: a digit, a sign or a point. *)
Definition starts_number (c : ascii) : bool := Py.char_in c "0123456789+-.".

(** A non-empty run of decimal digits. *)
Definition numeral (v : string) : bool :=
  negb (String.eqb v "") && all_chars (fun c => Py.char_in c PcsNew.pp_digits) v.

(** A value the forbidden grammar reads back as written: a run of digits, or
    an identifier that does not start as a number does. *)
Definition clause_value (v : string) : bool :=
  numeral v || (identifier v && stops starts_number v).

(** The atoms after the first, as written: each after a comma and a
    space. *)
Definition more_atoms (atoms : list (Hyperparameter * string)) : string :=
  fold_right (fun a rest => String "," (String " " (name (fst a) ++ "=" ++ snd a ++ rest)))
    "" atoms.

(** The text goes on with a comma or a closing brace: what follows a value
    inside a clause. *)
Definition closes (r : string) : bool :=
  match r with
  | String c _ => Ascii.eqb c "," || Ascii.eqb c "}"
  | EmptyString => false
  end.

(** An atom that is read back as written: the name is an identifier and
    the value a clause value. *)
Definition plain_atom (a : Hyperparameter * string) : bool :=
  identifier (name (fst a)) && clause_value (snd a).

(** The atom as name and value, both text. *)
Definition atom_names (a : Hyperparameter * string) : string * string :=
  (name (fst a), snd a).

(** The atom with its value as a Python string. *)
Definition atom_value (a : Hyperparameter * string) : Hyperparameter * Py.value :=
  (fst a, Py.VStr (snd a)).

(** ** Condition lines of the explicit dialect *)

(** A value as the condition grammar reads it: letters and digits. *)
Definition value_word (v : string) : bool :=
  negb (String.eqb v "")
  && all_chars (fun c => Py.char_in c (word_chars PcsNew.pp_param_val)) v.

(** An operator as the condition grammar reads it: any run of the
    characters of [in], [!=], [==], [>] and [<]. *)
Definition operator_word (op : string) : bool :=
  negb (String.eqb op "")
  && all_chars (fun c => Py.char_in c (word_chars PcsNew.pp_param_operation)) op.

(** A connective as the condition grammar reads it: any run of [|] and
    [&]. *)
Definition connective_word (conn : string) : bool :=
  negb (String.eqb conn "")
  && all_chars (fun c => Py.char_in c (word_chars PcsNew.pp_connective)) conn.

(** A value the hyperparameter can take: one of the choices of a
    categorical hyperparameter. *)
Definition legal_value (hp : Hyperparameter) (v : string) : bool :=
  match hp with
  | Categorical _ choices _ => existsb (String.eqb v) choices
  | _ => false
  end.

(** The two operators [read] builds an equality or an inequality for. *)
Definition equality_operator (op : string) : bool :=
  String.eqb op "==" || String.eqb op "!=".

(** A condition line with one test: [child | parent op value]. *)
Definition single_test (c p op v : string) : string :=
  c ++ " | " ++ p ++ " " ++ op ++ " " ++ v.

(** A condition line with one membership test of one value. *)
Definition membership_of_one (c p v : string) : string :=
  c ++ " | " ++ p ++ " in {" ++ v ++ "}".

(** A condition line with one membership test that goes on after its first
    value with a comma and any text [t]. *)
Definition membership_of_more (c p v t : string) : string :=
  c ++ " | " ++ p ++ " in {" ++ v ++ String "," t.

(** A condition line with two tests joined by a connective. *)
Definition two_tests (c p op1 v conn q op2 w : string) : string :=
  c ++ " | " ++ p ++ " " ++ op1 ++ " " ++ v ++ " " ++ conn ++ " " ++ q ++ " "
    ++ op2 ++ " " ++ w.

(** The condition of a test with an equality operator. *)
Definition test_condition (op : string) (child parent : Hyperparameter) (v : string)
    : Condition :=
  if String.eqb op "==" then EqualsCondition child parent (Py.VStr v)
  else NotEqualsCondition child parent (Py.VStr v).

(** Two token lists that are the same, or two membership lines of six
    tokens that differ in the value only. *)
Definition same_but_value (t1 t2 : ParseResults) : Prop :=
  t1 = t2
  \/ exists c p v1 v2,
       t1 = [c; "|"; p; "in"; "{"; v1] /\ t2 = [c; "|"; p; "in"; "{"; v2].

(** Two results that raise the same exception, or return related values. *)
Definition result_rel {S T} (R : S -> T -> Prop) (r1 : result S) (r2 : result T) : Prop :=
  match r1, r2 with
  | Ok a, Ok b => R a b
  | Raise e1, Raise e2 => e1 = e2
  | _, _ => False
  end.

(** Two states of the loop over the lines that hold the same space, the same
    forbidden clauses and the same condition lines but for such values. *)
Definition same_state (s1 s2 : PcsNew.read_state) : Prop :=
  PcsNew.configuration_space s1 = PcsNew.configuration_space s2
  /\ PcsNew.forbidden s1 = PcsNew.forbidden s2
  /\ Forall2 same_but_value (PcsNew.conditions s1) (PcsNew.conditions s2).

(** Two entries of [conditions_per_child] for the same child, with the same
    lines but for such values. *)
Definition same_entry (e1 e2 : string * list ParseResults) : Prop :=
  fst e1 = fst e2 /\ Forall2 same_but_value (snd e1) (snd e2).

(** ** Conditions as the compact dialect writes them *)

(** The place of the first line that contains [w]. *)
Fixpoint first_with (w : string) (lines : list string) : option nat :=
  match lines with
  | [] => None
  | l :: rest => if Py.str_in w l then Some 0 else option_map S (first_with w rest)
  end.


(** What [write] appends to a parameter line for a condition: the words of
    the condition after the first, joined by two blanks. *)
Definition irace_condition_suffix (text : string) : string :=
  Py.join "  " (tl (Py.split " " text)).

(** ** Integer parameters of the explicit dialect *)

(** The number a run of digits denotes. *)
Definition numeral_value (v : string) : Z := Py.digits_value v 0.

(** A run of digits whose number a Python float holds exactly: one up to
    2^53. *)
Definition exact_numeral (v : string) : bool :=
  numeral v && (numeral_value v <=? 2 ^ 53)%Z.

(** The line of an integer parameter, its numbers given as text. *)
Definition integer_line (n l u d : string) (log : bool) : string :=
  n ++ " integer [" ++ l ++ ", " ++ u ++ "] [" ++ d ++ "]" ++ (if log then "log" else "").

(** The tokens of such a line. *)
Definition integer_tokens (n l u d : string) (log : bool) : ParseResults :=
  ([n; "integer"; "["; l; ","; u; "]"; "["; d; "]"] ++ (if log then ["log"] else []))%list.

(** The integer parameter of a name, three integers and a scale. *)
Definition integer_parameter (n : string) (l u d : Z) (log : bool) : Hyperparameter :=
  Continuous n (inject_Z l) (inject_Z u) (inject_Z d) true log None.

(** A rational that is an integer. *)
Definition integral (x : Q) : bool := Pos.eqb (Qden x) 1.

(** The plain integer hyperparameters: the name is an identifier, there is
    no quantization, and the bounds and the default are integers in range,
    from 0 to 2^53, which a Python float holds exactly; on the logarithmic
    scale the lower bound is positive. *)
Definition plain_integer (hp : Hyperparameter) : bool :=
  match hp with
  | Continuous n lower upper default true log None =>
      identifier n && integral lower && integral upper && integral default
      && (if log then 0 <? Qnum lower else 0 <=? Qnum lower)%Z
      && (Qnum lower <? Qnum upper)%Z
      && (Qnum lower <=? Qnum default)%Z && (Qnum default <=? Qnum upper)%Z
      && (Qnum upper <=? 2 ^ 53)%Z
  | _ => false
  end.

(** The plain hyperparameters: categorical or integer. *)
Definition plain_parameter (hp : Hyperparameter) : bool :=
  plain_categorical hp || plain_integer hp.

(** The line the explicit dialect's [write] writes for a hyperparameter. *)
Definition parameter_line (hp : Hyperparameter) : string :=
  match hp with
  | Continuous n lower upper default is_integer log q =>
      PcsNew.build_continuous n lower upper default is_integer log q
  | Categorical n choices default => PcsNew.build_categorical n choices default
  | Constant n value => PcsNew.build_constant n value
  end.

(** ** Written lines that the explicit dialect does not read *)

(** [h] stands at the start of a line of [text]. *)
Definition starts_line (h text : string) : Prop :=
  (exists rest, text = h ++ rest)
  \/ (exists before rest, text = before ++ String Py.nl (h ++ rest)).

(** The names of the child and of the parent of a leaf condition. *)
Definition leaf_names (c : Condition) : option (string * string) :=
  match c with
  | EqualsCondition child parent _ | NotEqualsCondition child parent _
  | InCondition child parent _ => Some (name child, name parent)
  | AndConjunction _ | OrConjunction _ => None
  end.

(** A leaf condition between hyperparameters whose names are identifiers. *)
Definition named_leaf (c : Condition) : bool :=
  match leaf_names c with
  | Some (child, parent) => identifier child && identifier parent
  | None => false
  end.

(** A constant whose name is an identifier and whose value is written
    without [#] and without line feed. *)
Definition plain_constant (hp : Hyperparameter) : bool :=
  match hp with
  | Constant n value =>
      identifier n && negb (Py.char_in "#" (Py.str value))
      && negb (Py.char_in Py.nl (Py.str value))
  | _ => false
  end.

(** The text between the name of a condition's child and the value, and the
    text of a line up to there. *)
Definition condition_head (child parent : string) : string :=
  child ++ " | " ++ parent ++ " {".

(** ** Written conditions of the compact dialect *)

(** A hyperparameter whose name is an identifier and whose declaration, in
    the compact dialect, holds no [#] and no line feed. *)
Definition plain_declaration (hp : Hyperparameter) : bool :=
  identifier (name hp) && negb (Py.char_in "#" (irace_declaration hp))
  && negb (Py.char_in Py.nl (irace_declaration hp)).

(** A parameter line with a condition appended to it. *)
Definition spliced (base : list string) (l : string) : Prop :=
  exists b e, In b base /\ l = b ++ String "|" e.

(** ** Input of the compact dialect *)

(** The line the compact dialect's [read] takes for the declaration of a
    categorical hyperparameter: the name, the choices between braces, the
    default between brackets. *)
Definition irace_line (hp : Hyperparameter) : string :=
  match hp with
  | Categorical n choices d => n ++ " {" ++ Py.join ", " choices ++ "} [" ++ d ++ "]"
  | _ => ""
  end.

(** The tokens of such a line. *)
Definition irace_categorical_tokens (n c d : string) (choices : list string)
    : ParseResults :=
  ([n; "{"] ++ (c :: flat_map (fun c => [","; c]) choices) ++ ["}"; "["; d; "]"])%list.

(** A condition line of the compact dialect: the child, the parent and the
    values the parent may take, between braces. *)
Definition irace_membership_line (c p v : string) (vs : list string) : string :=
  c ++ " | " ++ p ++ " in {" ++ v ++ more_choices vs ++ "}".

(** The tokens of such a line. *)
Definition irace_membership_tokens (c p v : string) (vs : list string) : ParseResults :=
  ([c; "|"; p; "in"; "{"] ++ (v :: flat_map (fun c => [","; c]) vs) ++ ["}"])%list.

(** The condition such a line stands for: an equality for one value, a
    membership for more. *)
Definition membership (child parent : Hyperparameter) (v : string) (vs : list string)
    : Condition :=
  match vs with
  | [] => EqualsCondition child parent (Py.VStr v)
  | _ :: _ => InCondition child parent (map Py.VStr (v :: vs))
  end.

(** The letters after a numeric declaration: any run of [i] and [l], or
    nothing. *)
Definition flag_word (flags : string) : bool :=
  all_chars (fun c => Py.char_in c (word_chars Irace.pp_il)) flags.

(** The line the compact dialect's [read] takes for the declaration of a
    numeric hyperparameter, its numbers given as text: the name, the bounds
    and the default between brackets, the letters. *)
Definition irace_numeric_line (n l u d flags : string) : string :=
  n ++ " [" ++ l ++ ", " ++ u ++ "] [" ++ d ++ "]" ++ flags.

(** The tokens of such a line. *)
Definition irace_numeric_tokens (n l u d flags : string) : ParseResults :=
  ([n; "["; l; ","; u; "]"; "["; d; "]"]
   ++ (if String.eqb flags "" then [] else [flags]))%list.

(** The numeric hyperparameter of a name, three integers, a type and a
    scale. *)
Definition numeric_parameter (n : string) (l u d : Z) (is_integer log : bool)
    : Hyperparameter :=
  Continuous n (inject_Z l) (inject_Z u) (inject_Z d) is_integer log None.

(* ===================================================================== *)
(** * Properties *)
(* ===================================================================== *)

(** ** Text *)

Lemma append_assoc (a b c : string) : (a ++ b) ++ c = a ++ b ++ c.
Proof. induction a as [|x a IH]; simpl; [reflexivity | now rewrite IH]. Qed.

Lemma append_nil_r (a : string) : a ++ "" = a.
Proof. induction a as [|x a IH]; simpl; [reflexivity | now rewrite IH]. Qed.

Lemma length_append (a b : string) :
  String.length (a ++ b) = String.length a + String.length b.
Proof. induction a as [|x a IH]; simpl; [reflexivity | now rewrite IH]. Qed.

(** ** The error monad and the loops *)

Lemma bind_ok {A B} (r : result A) (k : A -> result B) (b : B) :
  bind r k = Ok b -> exists a, r = Ok a /\ k a = Ok b.
Proof. destruct r as [a|e]; simpl; intros H; [eauto | discriminate]. Qed.

Lemma for_each_app {A S} (body : S -> A -> result S) (l1 l2 : list A) (st : S) :
  for_each body (l1 ++ l2) st = bind (for_each body l1 st) (for_each body l2).
Proof.
  revert st; induction l1 as [|x l1 IH]; intros st; simpl; [reflexivity|].
  destruct (body st x); simpl; [apply IH | reflexivity].
Qed.

(** A loop whose body preserves an invariant ends in a state that has it. *)
Lemma for_each_invariant {A S} (body : S -> A -> result S) (I : S -> Prop) :
  (forall st x st', I st -> body st x = Ok st' -> I st') ->
  forall items st st', I st -> for_each body items st = Ok st' -> I st'.
Proof.
  intros Hstep items; induction items as [|x items IH]; simpl; intros st st' Hi H.
  - injection H as <-; exact Hi.
  - apply bind_ok in H as (st1 & H1 & H2). eauto.
Qed.

(** A loop raises as soon as its body does. *)
Lemma for_each_raises {A S} (body : S -> A -> result S) (pre post : list A) (x : A)
    (st : S) :
  (forall st1, exists e, body st1 x = Raise e) ->
  exists e, for_each body (pre ++ x :: post) st = Raise e.
Proof.
  intros Hx. rewrite for_each_app.
  destruct (for_each body pre st) as [st1|e]; simpl; [|eauto].
  destruct (Hx st1) as (e & ->); simpl; eauto.
Qed.

(** ** Forbidden clauses *)

Lemma leaves_are_leaves (f : Forbidden) :
  forallb is_leaf (get_descendant_literal_clauses f) = true.
Proof.
  induction f as [hp v|hp vs|cs IH] using Forbidden_nested_ind; try reflexivity.
  simpl. induction IH as [|c cs Hc _ IHcs]; [reflexivity|].
  rewrite forallb_app, Hc. exact IHcs.
Qed.

Lemma leaves_of_conjunction (l : list Forbidden) :
  forallb is_leaf l = true ->
  get_descendant_literal_clauses (ForbiddenAndConjunction l) = l.
Proof.
  simpl. induction l as [|c l IH]; [reflexivity|]. simpl.
  intros H. apply andb_true_iff in H as [Hc Hl].
  rewrite (IH Hl). destruct c; try discriminate; reflexivity.
Qed.

(** *** The expansion of the writers is the expansion of section 4.5 *)

Lemma split_statements_from (leaves : list Forbidden) :
  forallb is_leaf leaves = true ->
  forall ins others,
  fold_left (fun '(in_statements, other_statements) dlc =>
    match dlc with
    | ForbiddenInClause hp values =>
        ((in_statements ++ [map (ForbiddenEqualsClause hp) values])%list,
         other_statements)
    | _ => (in_statements, (other_statements ++ [dlc])%list)
    end) leaves (ins, others) =
    (ins ++ map equalities (memberships leaves),
     others ++ map equality (plain_atoms leaves))%list.
Proof.
  induction leaves as [|f leaves IH]; intros Hl ins others; simpl.
  - now rewrite !app_nil_r.
  - simpl in Hl. apply andb_true_iff in Hl as [Hf Hl].
    destruct f as [hp v|hp vs|cs]; try discriminate; rewrite (IH Hl); simpl;
      now rewrite <- !app_assoc.
Qed.

Lemma split_statements_spec (leaves : list Forbidden) :
  forallb is_leaf leaves = true ->
  PcsNew.split_statements leaves =
    (map equalities (memberships leaves), map equality (plain_atoms leaves)).
Proof.
  intros Hl. unfold PcsNew.split_statements.
  now rewrite (split_statements_from leaves Hl [] []).
Qed.

(** The product of the lists of equalities is the list of the equalities of
    each combination of values. *)
Lemma product_equalities (ms : list (Hyperparameter * list Py.value)) :
  PcsNew.product (map equalities ms) =
  map (fun combo => map equality (combine (map fst ms) combo))
    (PcsNew.product (map snd ms)).
Proof.
  induction ms as [|[hp vs] ms IH]; simpl; [reflexivity|].
  rewrite IH. unfold equalities at 1; simpl.
  induction vs as [|v vs IHvs]; simpl; [reflexivity|].
  rewrite map_app, !map_map, IHvs. reflexivity.
Qed.

Lemma product_length {A} (ls : list (list A)) :
  List.length (PcsNew.product ls) = fold_right (fun l n => List.length l * n) 1 ls.
Proof.
  induction ls as [|l ls IH]; simpl; [reflexivity|].
  induction l as [|x l IHl]; simpl; [reflexivity|].
  rewrite length_app, length_map, IHl, IH. reflexivity.
Qed.

(** The loop of [build_forbidden] over equalities writes them separated by
    a comma and a space. *)
Lemma write_literals_from (atoms : list (Hyperparameter * Py.value)) (buf : string) :
  1 < String.length buf ->
  for_each PcsNew.write_literal (map equality atoms) buf =
  Ok (fold_left (fun b a => b ++ ", " ++ atom_text a) atoms buf).
Proof.
  revert buf; induction atoms as [|a atoms IH]; intros buf Hb; simpl; [reflexivity|].
  unfold PcsNew.write_literal at 1; simpl.
  destruct (Nat.ltb_spec 1 (String.length buf)) as [_|]; [|lia].
  rewrite IH.
  - unfold atom_text. now rewrite !append_assoc.
  - rewrite !length_append. lia.
Qed.

Lemma join_cons (sep x y : string) (l : list string) :
  Py.join sep (x :: y :: l) = x ++ sep ++ Py.join sep (y :: l).
Proof. reflexivity. Qed.

Lemma join_prepend (sep x y : string) (l : list string) :
  Py.join sep ((x ++ y) :: l) = x ++ Py.join sep (y :: l).
Proof. destruct l; simpl; [reflexivity | now rewrite append_assoc]. Qed.

Lemma fold_join {A} (f : A -> string) (rest : list A) (pre t : string) :
  fold_left (fun b a => b ++ ", " ++ f a) rest (pre ++ t) =
  pre ++ Py.join ", " (t :: map f rest).
Proof.
  revert t; induction rest as [|a rest IH]; intros t; [reflexivity|].
  cbn [fold_left map]. rewrite append_assoc, IH, join_cons, !join_prepend.
  reflexivity.
Qed.

Lemma equalities_are_leaves (atoms : list (Hyperparameter * Py.value)) :
  forallb is_leaf (map equality atoms) = true.
Proof. induction atoms; simpl; auto. Qed.

Lemma write_first_literal (a : Hyperparameter * Py.value) :
  PcsNew.write_literal "{" (equality a) = Ok ("{" ++ atom_text a).
Proof. reflexivity. Qed.

Lemma build_forbidden_equalities (atoms : list (Hyperparameter * Py.value)) :
  PcsNew.build_forbidden (ForbiddenAndConjunction (map equality atoms)) =
  Ok (clause_text atoms).
Proof.
  unfold PcsNew.build_forbidden.
  rewrite leaves_of_conjunction by apply equalities_are_leaves.
  destruct atoms as [|a atoms]; [reflexivity|].
  cbn [map for_each]. rewrite write_first_literal. cbn [bind].
  rewrite (write_literals_from atoms).
  - cbn [bind]. unfold clause_text. rewrite fold_join. cbn [map].
    now rewrite append_assoc.
  - unfold atom_text. rewrite !length_append. simpl. lia.
Qed.

Lemma write_combinations (plain : list (Hyperparameter * Py.value))
    (g : list Py.value -> list (Hyperparameter * Py.value))
    (combos : list (list Py.value)) (acc : list string) :
  for_each (PcsNew.write_combination (map equality plain))
    (map (fun combo => map equality (g combo)) combos) acc =
  Ok (acc ++ map (fun combo => clause_text (g combo ++ plain)) combos)%list.
Proof.
  revert acc; induction combos as [|c combos IH]; intros acc; simpl.
  - now rewrite app_nil_r.
  - unfold PcsNew.write_combination at 1.
    rewrite <- map_app, build_forbidden_equalities. simpl.
    rewrite IH, <- app_assoc. reflexivity.
Qed.

Lemma plain_leaves (leaves : list Forbidden) :
  forallb is_leaf leaves = true -> memberships leaves = [] ->
  leaves = map equality (plain_atoms leaves).
Proof.
  induction leaves as [|f leaves IH]; simpl; [reflexivity|].
  intros Hl Hm. apply andb_true_iff in Hl as [Hf Hl].
  destruct f; try discriminate; simpl. f_equal. auto.
Qed.

(** The loop body of the writer produces the expansion of the
    specification, and never raises. *)
Lemma expand_forbidden_spec (f : Forbidden) :
  PcsNew.expand_forbidden f = Ok (expansion f).
Proof.
  unfold PcsNew.expand_forbidden, expansion.
  pose proof (leaves_are_leaves f) as Hl.
  rewrite (split_statements_spec _ Hl).
  destruct (memberships (get_descendant_literal_clauses f)) as [|m ms] eqn:Hm.
  - simpl. unfold PcsNew.build_forbidden.
    rewrite (plain_leaves _ Hl Hm) at 1.
    pose proof (build_forbidden_equalities
                  (plain_atoms (get_descendant_literal_clauses f))) as Hb.
    unfold PcsNew.build_forbidden in Hb.
    rewrite leaves_of_conjunction in Hb by apply equalities_are_leaves.
    now rewrite Hb.
  - cbn [List.length map Nat.ltb Nat.leb].
    change (equalities m :: map equalities ms) with (map equalities (m :: ms)).
    rewrite product_equalities.
    now rewrite (write_combinations _ (fun combo => combine (map fst (m :: ms)) combo)).
Qed.

Lemma irace_expand_forbidden (f : Forbidden) :
  Irace.expand_forbidden f = PcsNew.expand_forbidden f.
Proof.
  unfold Irace.expand_forbidden, PcsNew.expand_forbidden.
  change Irace.split_statements with PcsNew.split_statements.
  pose proof (leaves_are_leaves f) as Hl.
  rewrite (split_statements_spec _ Hl).
  destruct (memberships (get_descendant_literal_clauses f)) as [|m ms] eqn:Hm.
  - simpl. destruct f; try reflexivity. discriminate.
  - reflexivity.
Qed.

(** ** Sorting *)

Lemma ltb_leb (x y : string) : String.ltb x y = true -> string_le x y.
Proof.
  unfold String.ltb, string_le, String.leb.
  destruct (String.compare x y); congruence.
Qed.

Lemma not_ltb_leb (x y : string) : String.ltb x y = false -> string_le y x.
Proof.
  unfold String.ltb, string_le, String.leb.
  rewrite (String.compare_antisym x y).
  destruct (String.compare y x); simpl; congruence.
Qed.

Lemma insert_sorted_permutation (x : string) (l : list string) :
  Permutation (x :: l) (PcsNew.insert_sorted x l).
Proof.
  induction l as [|y l IH]; simpl; [reflexivity|].
  destruct (String.ltb x y); [reflexivity|].
  rewrite perm_swap. now apply perm_skip.
Qed.

Lemma insert_sorted_head (x y : string) (l : list string) :
  string_le y x -> HdRel string_le y l -> HdRel string_le y (PcsNew.insert_sorted x l).
Proof.
  intros Hyx Hl. destruct l as [|z l]; simpl.
  - now constructor.
  - destruct (String.ltb x z); constructor; [assumption|].
    now inversion Hl.
Qed.

Lemma insert_sorted_sorted (x : string) (l : list string) :
  Sorted string_le l -> Sorted string_le (PcsNew.insert_sorted x l).
Proof.
  induction 1 as [|y l Hs IH Hhd]; simpl.
  - repeat constructor.
  - destruct (String.ltb x y) eqn:Hxy.
    + constructor; [now constructor|]. constructor. now apply ltb_leb.
    + constructor; [assumption|].
      apply insert_sorted_head; [now apply not_ltb_leb | assumption].
Qed.

Lemma sort_from (l acc : list string) :
  Sorted string_le acc ->
  Sorted string_le (fold_left (fun acc x => PcsNew.insert_sorted x acc) l acc) /\
  Permutation (l ++ acc) (fold_left (fun acc x => PcsNew.insert_sorted x acc) l acc).
Proof.
  revert acc; induction l as [|x l IH]; intros acc Hacc; simpl.
  - split; [assumption | reflexivity].
  - destruct (IH (PcsNew.insert_sorted x acc) (insert_sorted_sorted x acc Hacc))
      as [Hs Hp].
    split; [assumption|].
    rewrite <- Hp, <- insert_sorted_permutation.
    now rewrite Permutation_middle.
Qed.

Lemma sort_sorted (l : list string) : Sorted string_le (PcsNew.sort l).
Proof. apply sort_from. constructor. Qed.

Lemma sort_permutation (l : list string) : Permutation l (PcsNew.sort l).
Proof.
  destruct (sort_from l [] (Sorted_nil _)) as [_ Hp].
  now rewrite app_nil_r in Hp.
Qed.

(** ** The forbidden block of the explicit dialect *)

Lemma write_lines_from (lines : list string) (buf : string) :
  fold_left (fun buf line => buf ++ line ++ Py.str1 Py.nl) lines buf =
  buf ++ lines_text lines.
Proof.
  revert buf; induction lines as [|l lines IH]; intros buf; simpl.
  - now rewrite append_nil_r.
  - rewrite IH, !append_assoc. reflexivity.
Qed.

Lemma assemble_forbidden (param_lines condition_lines : string) (lines : list string) :
  PcsNew.assemble param_lines condition_lines lines =
  PcsNew.assemble param_lines condition_lines [] ++ forbidden_block lines.
Proof.
  unfold PcsNew.assemble. cbv zeta.
  destruct lines as [|l lines].
  - simpl. now rewrite append_nil_r.
  - cbn [List.length Nat.ltb Nat.leb forbidden_block].
    rewrite write_lines_from, !append_assoc. reflexivity.
Qed.

Lemma write_forbidden_loop (fs : list Forbidden) (acc : list string) :
  for_each PcsNew.write_forbidden fs acc = Ok (acc ++ flat_map expansion fs)%list.
Proof.
  revert acc; induction fs as [|f fs IH]; intros acc; simpl.
  - now rewrite app_nil_r.
  - unfold PcsNew.write_forbidden at 1. rewrite expand_forbidden_spec. simpl.
    rewrite IH, <- app_assoc. reflexivity.
Qed.

Lemma pcs_write_forbidden_block (cs : ConfigurationSpace) :
  PcsNew.write cs =
  bind (PcsNew.write (without_forbidden cs))
    (fun head => Ok (head ++ forbidden_block (flat_map expansion (forbidden_clauses cs)))).
Proof.
  unfold PcsNew.write, without_forbidden. cbn [get_hyperparameters get_conditions
    forbidden_clauses for_each].
  destruct (for_each PcsNew.write_hyperparameter _ _) as [pl|e]; [|reflexivity].
  cbn [bind].
  destruct (for_each PcsNew.write_condition _ _) as [cl|e]; [|reflexivity].
  cbn [bind]. rewrite write_forbidden_loop. cbn [bind app].
  now rewrite assemble_forbidden.
Qed.

(** C2. In the explicit dialect, [write] writes the space without its
    forbidden clauses and then the block of clause lines, sorted. The lines
    are, clause by clause, the expansion of the specification: for a clause
    with membership leaves, one line per combination of their values, each a
    conjunction of one equality per membership leaf followed by the plain
    leaves, so as many lines as the product of the numbers of values, none
    in membership form. The compact dialect computes the same lines. The
    clause [{a in {1,2}, b=3}] gives exactly [{a=1, b=3}] and [{a=2, b=3}]. *)
Theorem pcs_write_expands_forbidden (cs : ConfigurationSpace) :
  let lines := flat_map expansion (forbidden_clauses cs) in
  PcsNew.write cs =
    bind (PcsNew.write (without_forbidden cs))
      (fun head => Ok (head ++ forbidden_block lines))
  /\ Sorted string_le (PcsNew.sort lines)
  /\ Permutation lines (PcsNew.sort lines)
  /\ (forall f : Forbidden,
        PcsNew.expand_forbidden f = Ok (expansion f)
        /\ Irace.expand_forbidden f = Ok (expansion f)
        /\ forall m ms, memberships (get_descendant_literal_clauses f) = m :: ms ->
             expansion f =
               map (fun combo =>
                      clause_text (combine (map fst (m :: ms)) combo ++
                                   plain_atoms (get_descendant_literal_clauses f)))
                 (PcsNew.product (map snd (m :: ms)))
             /\ List.length (expansion f) =
                  fold_right (fun vs n => List.length vs * n) 1 (map snd (m :: ms)))
  /\ expansion example_clause = ["{a=1, b=3}"; "{a=2, b=3}"]
  /\ PcsNew.write example_space =
       Ok ("a categorical {1, 2} [1]" ++ Py.str1 Py.nl ++
           "b categorical {3, 4} [3]" ++ Py.str1 Py.nl ++ Py.str1 Py.nl ++
           "{a=1, b=3}" ++ Py.str1 Py.nl ++ "{a=2, b=3}" ++ Py.str1 Py.nl).
Proof.
  intros lines. repeat split.
  - apply pcs_write_forbidden_block.
  - apply sort_sorted.
  - apply sort_permutation.
  - apply expand_forbidden_spec.
  - rewrite irace_expand_forbidden. apply expand_forbidden_spec.
  - unfold expansion. now rewrite H.
  - unfold expansion. rewrite H, length_map. apply product_length.
Qed.

(** C2, at the clause of the example: its one membership leaf has two
    values, and two lines are written. *)
Lemma pcs_write_expands_forbidden_witness :
  List.length (expansion example_clause) = 2.
Proof.
  destruct (pcs_write_expands_forbidden example_space) as (_ & _ & _ & H & _).
  destruct (H example_clause) as (_ & _ & Hm).
  exact (proj2 (Hm (hp_a, [Py.VInt 1; Py.VInt 2]) [] eq_refl)).
Defined.

(** C9. The compact dialect's [write] fills [forbidden_lines] with the
    expansion of every clause and never writes it: the result, text or
    exception, is that of the same space without forbidden clauses. *)
Theorem irace_write_omits_forbidden (hps : list Hyperparameter)
    (conds : list Condition) (fs : list Forbidden) :
  for_each Irace.write_forbidden fs [] = Ok (flat_map expansion fs)
  /\ Irace.write (mkSpace hps conds fs) = Irace.write (mkSpace hps conds []).
Proof.
  assert (Hloop : forall acc,
            for_each Irace.write_forbidden fs acc = Ok (acc ++ flat_map expansion fs)%list).
  { induction fs as [|f fs IH]; intros acc; simpl.
    - now rewrite app_nil_r.
    - unfold Irace.write_forbidden at 1.
      rewrite irace_expand_forbidden, expand_forbidden_spec. simpl.
      rewrite IH, <- app_assoc. reflexivity. }
  split; [apply (Hloop []) |].
  unfold Irace.write. cbn [get_hyperparameters get_conditions forbidden_clauses].
  rewrite (Hloop []). reflexivity.
Qed.

(** ** Names *)

(** C7. A name with a character outside the permitted set passes the name
    check of both writers when it starts with a permitted character: for
    the hyperparameter named [learning rate] the check matches [learning],
    and both writers write the declaration. *)
Theorem illegal_name_is_written :
  all_chars name_char (name spaced_name) = false
  /\ all_chars (fun c => Py.char_in c (word_chars Irace.pp_param_name))
       (name spaced_name) = false
  /\ parseString PcsNew.pp_param_name (name spaced_name) = Some ["learning"]
  /\ parseString Irace.pp_param_name (name spaced_name) = Some ["learning"]
  /\ PcsNew.write (mkSpace [spaced_name] [] []) =
       Ok "learning rate categorical {x} [x]"
  /\ Irace.write (mkSpace [spaced_name] [] []) =
       Ok ("learning rate '--learning rate ' c (x)" ++ Py.str1 Py.nl).
Proof. repeat split; vm_compute; reflexivity. Qed.

(** ** Conditions the compact dialect cannot write *)







(** ** Cleaning a line *)

Lemma char_in_lstrip (x : ascii) (s : string) :
  Py.is_space x = false -> Py.char_in x (Py.lstrip s) = Py.char_in x s.
Proof.
  intros Hx. induction s as [|c s IH]; [reflexivity|]. simpl.
  destruct (Py.is_space c) eqn:Hc; [|reflexivity].
  rewrite IH. destruct (Ascii.eqb_spec x c) as [->|]; [congruence | reflexivity].
Qed.

Lemma char_in_rev_string (x : ascii) (s acc : string) :
  Py.char_in x (Py.rev_string s acc) = Py.char_in x s || Py.char_in x acc.
Proof.
  revert acc; induction s as [|c s IH]; intros acc; [reflexivity|]. simpl.
  rewrite IH. simpl. destruct (Ascii.eqb x c), (Py.char_in x s); reflexivity.
Qed.

Lemma char_in_strip (x : ascii) (s : string) :
  Py.is_space x = false -> Py.char_in x (Py.strip s) = Py.char_in x s.
Proof.
  intros Hx. unfold Py.strip.
  rewrite char_in_rev_string, char_in_lstrip, char_in_rev_string, char_in_lstrip
    by assumption.
  simpl. now rewrite !orb_false_r.
Qed.

(** A line that holds a closing brace or bracket is not blank. *)
Lemma marked_not_blank (l : string) :
  negb (Py.char_in "}" l) && negb (Py.char_in "]" l) = false ->
  Nat.eqb (String.length (Py.strip l)) 0 = false.
Proof.
  intros H. destruct (Py.strip l) eqn:Hs; [|reflexivity]. exfalso.
  assert (H1 : Py.char_in "}" (Py.strip l) = Py.char_in "}" l)
    by (now apply char_in_strip).
  assert (H2 : Py.char_in "]" (Py.strip l) = Py.char_in "]" l)
    by (now apply char_in_strip).
  rewrite Hs in H1, H2. simpl in H1, H2. rewrite <- H1, <- H2 in H. discriminate.
Qed.

(** ** Sequences of parser elements *)

Lemma skip_white_idempotent (s : string) : skip_white (skip_white s) = skip_white s.
Proof.
  induction s as [|c s IH]; [reflexivity|]. simpl.
  destruct (is_white c) eqn:Hc; [assumption|]. simpl. now rewrite Hc.
Qed.

Lemma preskip_idempotent (ws : bool) (s : string) :
  preskip ws (preskip ws s) = preskip ws s.
Proof. destruct ws; [apply skip_white_idempotent | reflexivity]. Qed.

Lemma parse_preskip (ws : bool) (e : ParserElement) (s : string) :
  parse ws e (preskip ws s) = parse ws e s.
Proof.
  destruct e; cbn [parse]; fold (preskip ws (preskip ws s)); fold (preskip ws s);
    now rewrite preskip_idempotent.
Qed.

Lemma parse_and (ws : bool) (a b : ParserElement) (s : string) :
  parse ws (And a b) s =
  match parse ws a s with
  | Some (t1, r1) =>
      match parse ws b r1 with
      | Some (t2, r2) => Some ((t1 ++ t2)%list, r2)
      | None => None
      end
  | None => None
  end.
Proof.
  cbn [parse]. fold (preskip ws s). now rewrite parse_preskip.
Qed.

Lemma parse_literal (lit s : string) :
  parse true (Literal lit) s =
  match after_prefix lit (skip_white s) with
  | Some r => Some ([lit], r)
  | None => None
  end.
Proof. reflexivity. Qed.

(** Two sequences that start alike and go on with different one-character
    literals cannot both match. *)
Lemma and_literal_exclusive (p : ParserElement) (x y : ascii) (s : string) :
  x <> y ->
  parse true (p + Py.str1 x)%pp s <> None ->
  parse true (p + Py.str1 y)%pp s = None.
Proof.
  intros Hxy. rewrite !parse_and.
  destruct (parse true p s) as [[t1 r1]|]; [|reflexivity].
  rewrite !parse_literal. unfold Py.str1.
  destruct (skip_white r1) as [|c r]; simpl; [congruence|].
  destruct (Ascii.eqb_spec c x) as [->|]; [|congruence].
  intros _. destruct (Ascii.eqb_spec x y); [contradiction | reflexivity].
Qed.

Lemma and_none (a b : ParserElement) (s : string) :
  parse true a s = None -> parse true (a + b)%pp s = None.
Proof. intros H. now rewrite parse_and, H. Qed.

Lemma and_some (a b : ParserElement) (s : string) :
  parse true (a + b)%pp s <> None -> parse true a s <> None.
Proof.
  rewrite parse_and. destruct (parse true a s); [discriminate | congruence].
Qed.

Lemma parseString_none (e : ParserElement) (s : string) :
  parse true e s = None -> parseString e s = None.
Proof. unfold parseString. now intros ->. Qed.

Lemma parseString_some (e : ParserElement) (s : string) (t : ParseResults) :
  parseString e s = Some t -> parse true e s <> None.
Proof. unfold parseString. destruct (parse true e s); [discriminate | discriminate]. Qed.

(** ** Classification of a line (explicit dialect) *)

(** A line matched by the continuous grammar is not matched by the
    categorical one: after the same first tokens the one wants an opening
    bracket, the other an opening brace. *)
Lemma pcs_grammars_exclusive (l : string) (t : ParseResults) :
  parseString PcsNew.pp_cont_param l = Some t ->
  parseString PcsNew.pp_cat_param l = None.
Proof.
  intros H. apply parseString_some in H. apply parseString_none.
  unfold PcsNew.pp_cont_param in H. unfold PcsNew.pp_cat_param.
  do 8 apply and_some in H.
  do 5 apply and_none.
  apply (and_literal_exclusive _ "["%char "{"%char); [discriminate | exact H].
Qed.

Lemma pcs_try_continuous_some (l : string) (t : ParseResults) :
  parseString PcsNew.pp_cont_param l = Some t ->
  forall r, PcsNew.try_continuous l = Ok r -> r <> None.
Proof.
  intros H r. unfold PcsNew.try_continuous. rewrite H.
  repeat match goal with
         | |- bind ?x _ = Ok _ -> _ => destruct x; cbn [bind]; try discriminate
         end.
  intros [= <-]. discriminate.
Qed.

Lemma pcs_read_line_classify (st : PcsNew.read_state) (line : string) :
  PcsNew.read_line st line = pcs_classify st (PcsNew.clean line).
Proof.
  unfold PcsNew.read_line, pcs_classify. cbv zeta.
  set (l := PcsNew.clean line).
  destruct (Py.char_in "|" l); [reflexivity|].
  destruct (negb (Py.char_in "}" l) && negb (Py.char_in "]" l)) eqn:Hm; [reflexivity|].
  destruct (Py.startswith l "{" && Py.endswith l "}"); [reflexivity|].
  rewrite (marked_not_blank l Hm).
  destruct (parseString PcsNew.pp_cont_param l) as [t|] eqn:Hc.
  - pose proof (pcs_try_continuous_some l t Hc) as Hsome.
    destruct (PcsNew.try_continuous l) as [r|e]; [|reflexivity].
    cbn [bind]. unfold PcsNew.try_categorical.
    rewrite (pcs_grammars_exclusive l t Hc). reflexivity.
  - unfold PcsNew.try_continuous at 1. rewrite Hc. cbn [bind].
    unfold PcsNew.try_categorical, pcs_declare.
    destruct (parseString PcsNew.pp_cat_param l); reflexivity.
Qed.

(** ** Classification of a line (compact dialect) *)

(** A line matched by the continuous grammar is not matched by the
    categorical one: after the same first tokens the one wants an opening
    bracket, the other an opening brace. *)
Lemma irace_grammars_exclusive (l : string) (t : ParseResults) :
  parseString Irace.pp_cont_param l = Some t ->
  parseString Irace.pp_cat_param l = None.
Proof.
  intros H. apply parseString_some in H. apply parseString_none.
  unfold Irace.pp_cont_param in H. unfold Irace.pp_cat_param.
  do 8 apply and_some in H.
  do 5 apply and_none.
  apply (and_literal_exclusive _ "["%char "{"%char); [discriminate | exact H].
Qed.

Lemma irace_try_continuous_some (l : string) (t : ParseResults) :
  parseString Irace.pp_cont_param l = Some t ->
  forall r, Irace.try_continuous l = Ok r -> r <> None.
Proof.
  intros H r. unfold Irace.try_continuous. rewrite H.
  repeat match goal with
         | |- bind ?x _ = Ok _ -> _ => destruct x; cbn [bind]; try discriminate
         end.
  intros [= <-]. discriminate.
Qed.

Lemma irace_read_line_classify (st : Irace.read_state) (line : string) :
  Irace.read_line st line = irace_classify st (Irace.clean line).
Proof.
  unfold Irace.read_line, irace_classify. cbv zeta.
  set (l := Irace.clean line).
  destruct (Py.char_in "|" l); [reflexivity|].
  destruct (negb (Py.char_in "}" l) && negb (Py.char_in "]" l)) eqn:Hm; [reflexivity|].
  destruct (Py.startswith l "{" && Py.endswith l "}"); [reflexivity|].
  rewrite (marked_not_blank l Hm).
  destruct (parseString Irace.pp_cont_param l) as [t|] eqn:Hc.
  - pose proof (irace_try_continuous_some l t Hc) as Hsome.
    destruct (Irace.try_continuous l) as [r|e]; [|reflexivity].
    cbn [bind]. unfold Irace.try_categorical.
    rewrite (irace_grammars_exclusive l t Hc). reflexivity.
  - unfold Irace.try_continuous at 1. rewrite Hc. cbn [bind].
    unfold Irace.try_categorical, irace_declare.
    destruct (parseString Irace.pp_cat_param l); reflexivity.
Qed.

(** ** Lines that are not decoded (explicit dialect) *)





(** ** Lines that are not decoded (compact dialect) *)





(** ** Grouping the condition lines by child *)

Lemma children_snoc (conds : list ParseResults) (c : ParseResults) :
  children (conds ++ [c]) =
  if existsb (String.eqb (child_of c)) (children conds) then children conds
  else (children conds ++ [child_of c])%list.
Proof. unfold children. now rewrite fold_left_app. Qed.

Lemma lines_of_snoc (child : string) (conds : list ParseResults) (c : ParseResults) :
  lines_of child (conds ++ [c]) =
  (lines_of child conds ++ (if String.eqb (child_of c) child then [c] else []))%list.
Proof. unfold lines_of. rewrite filter_app. reflexivity. Qed.

Lemma existsb_eqb_in (k : string) (l : list string) :
  existsb (String.eqb k) l = true <-> In k l.
Proof.
  rewrite existsb_exists. split.
  - intros (x & Hx & He). apply String.eqb_eq in He. now subst.
  - intros H. exists k. split; [assumption | apply String.eqb_refl].
Qed.

Lemma children_nodup (conds : list ParseResults) : NoDup (children conds).
Proof.
  induction conds as [|c conds IH] using rev_ind; [constructor|].
  rewrite children_snoc.
  destruct (existsb _ _) eqn:He; [assumption|].
  apply NoDup_app; [assumption | repeat constructor; auto |].
  intros x Hx [<-|[]]. apply existsb_eqb_in in Hx. congruence.
Qed.

Lemma children_complete (conds : list ParseResults) (c : ParseResults) :
  In c conds -> In (child_of c) (children conds).
Proof.
  induction conds as [|c' conds IH] using rev_ind; [contradiction|].
  intros H. rewrite children_snoc. apply in_app_or in H as [H|[<-|[]]].
  - destruct (existsb _ _); [auto | apply in_or_app; auto].
  - destruct (existsb _ _) eqn:He; [now apply existsb_eqb_in|].
    apply in_or_app. right. now left.
Qed.

Lemma children_sound (conds : list ParseResults) (child : string) :
  In child (children conds) -> lines_of child conds <> [].
Proof.
  induction conds as [|c conds IH] using rev_ind; [contradiction|].
  rewrite children_snoc, lines_of_snoc. intros H.
  destruct (existsb _ _) eqn:He.
  - intros Hnil. apply app_eq_nil in Hnil as [Hnil _]. now apply IH.
  - apply in_app_or in H as [H|[<-|[]]].
    + intros Hnil. apply app_eq_nil in Hnil as [Hnil _]. now apply IH.
    + rewrite String.eqb_refl. intros Hnil. now apply app_eq_nil in Hnil as [_ Hnil].
Qed.

Lemma lines_of_unnamed (conds : list ParseResults) (child : string) :
  ~ In child (children conds) -> lines_of child conds = [].
Proof.
  intros Hn. destruct (lines_of child conds) as [|c rest] eqn:Hl; [reflexivity|].
  assert (Hc : In c (lines_of child conds)) by (rewrite Hl; now left).
  apply filter_In in Hc as [Hc He]. apply String.eqb_eq in He. subst child.
  elim Hn. now apply children_complete.
Qed.

(** Appending a line to the dictionary of the lines before it gives the
    dictionary of all of them. *)
Lemma od_append_entries (k : string) (c : ParseResults) (conds : list ParseResults)
    (chs : list string) :
  child_of c = k -> NoDup chs ->
  Irace.od_append k c (map (fun child => (child, lines_of child conds)) chs) =
  (map (fun child => (child, lines_of child (conds ++ [c]))) chs ++
   (if existsb (String.eqb k) chs then [] else [(k, [c])]))%list.
Proof.
  intros Hk. induction chs as [|ch chs IH]; intros Hnd; [reflexivity|].
  inversion Hnd as [|? ? Hnotin Hnd']; subst.
  cbn [map Irace.od_append existsb]. rewrite lines_of_snoc.
  rewrite (String.eqb_sym (child_of c) ch).
  destruct (String.eqb_spec ch (child_of c)) as [->|Hne].
  - cbn [orb app]. rewrite app_nil_r. f_equal.
    apply map_ext_in. intros ch' Hch'.
    rewrite lines_of_snoc.
    destruct (String.eqb_spec (child_of c) ch') as [<-|]; [contradiction|].
    now rewrite app_nil_r.
  - rewrite (IH Hnd'). cbn [app orb]. now rewrite app_nil_r.
Qed.

Lemma od_append_grouped (c : ParseResults) (conds : list ParseResults) :
  Irace.od_append (child_of c) c (grouped conds) = grouped (conds ++ [c]).
Proof.
  unfold grouped.
  rewrite (od_append_entries (child_of c) c conds (children conds) eq_refl
             (children_nodup conds)).
  rewrite children_snoc.
  destruct (existsb (String.eqb (child_of c)) (children conds)) eqn:He.
  - now rewrite app_nil_r.
  - rewrite map_app. cbn [map]. rewrite lines_of_snoc, String.eqb_refl.
    rewrite lines_of_unnamed; [reflexivity|].
    intros Hin. apply existsb_eqb_in in Hin. congruence.
Qed.

Lemma irace_grouping_from (rest conds : list ParseResults)
    (d : list (string * list ParseResults)) :
  for_each Irace.group_condition rest (grouped conds) = Ok d ->
  d = grouped (conds ++ rest).
Proof.
  revert conds; induction rest as [|c rest IH]; intros conds; cbn [for_each].
  - intros [= <-]. now rewrite app_nil_r.
  - unfold Irace.group_condition at 1.
    destruct c as [|k c]; [discriminate|].
    change (Py.index (k :: c) 0) with (Some k). cbn [or_raise bind].
    change k with (child_of (k :: c)) at 1.
    rewrite od_append_grouped. intros H. apply IH in H.
    now rewrite <- app_assoc in H.
Qed.

Lemma irace_grouping (conds : list ParseResults) (d : list (string * list ParseResults)) :
  for_each Irace.group_condition conds [] = Ok d -> d = grouped conds.
Proof. apply (irace_grouping_from conds []). Qed.

Lemma pcs_grouping (conds : list ParseResults) (d : list (string * list ParseResults)) :
  for_each PcsNew.group_condition conds [] = Ok d -> d = grouped conds.
Proof. apply (irace_grouping_from conds []). Qed.

(** ** What the first two loops leave in the space *)

Lemma add_hyperparameter_conditions (cs cs' : ConfigurationSpace) (hp : Hyperparameter) :
  add_hyperparameter cs hp = Ok cs' -> get_conditions cs' = get_conditions cs.
Proof.
  unfold add_hyperparameter. destruct (lookup _ _); [discriminate|].
  now intros [= <-].
Qed.

Lemma map_result_ext {A B} (f g : A -> result B) (l : list A) :
  (forall x, f x = g x) -> map_result f l = map_result g l.
Proof.
  intros H. induction l as [|x l IH]; simpl; [reflexivity|]. now rewrite H, IH.
Qed.

(** ** The condition loops of the compact dialect *)

Lemma irace_read_condition_fact (cs : ConfigurationSpace) (child_name : string)
    (objs : list Condition) (c : ParseResults) :
  Irace.read_condition cs child_name objs c =
  bind (irace_fact cs child_name c) (fun f => Ok (objs ++ [f])%list).
Proof.
  unfold Irace.read_condition, irace_fact.
  repeat match goal with
         | |- bind (bind ?x _) _ = _ => destruct x; cbn [bind]; try reflexivity
         | |- bind ?x _ = bind (bind ?x _) _ => destruct x; cbn [bind]; try reflexivity
         | |- context [if ?b then _ else _] => destruct b
         end.
Qed.

Lemma irace_fact_ext (cs1 cs2 : ConfigurationSpace) (child_name : string)
    (c : ParseResults) :
  get_hyperparameters cs1 = get_hyperparameters cs2 ->
  irace_fact cs1 child_name c = irace_fact cs2 child_name c.
Proof. intros H. unfold irace_fact, get_hyperparameter. now rewrite H. Qed.

Lemma irace_condition_loop (cs : ConfigurationSpace) (child_name : string)
    (lines : list ParseResults) (objs : list Condition) :
  for_each (Irace.read_condition cs child_name) lines objs =
  bind (map_result (irace_fact cs child_name) lines)
    (fun facts => Ok (objs ++ facts)%list).
Proof.
  revert objs; induction lines as [|c lines IH]; intros objs; cbn [for_each map_result].
  - cbn [bind]. now rewrite app_nil_r.
  - rewrite irace_read_condition_fact.
    destruct (irace_fact cs child_name c) as [f|e]; cbn [bind]; [|reflexivity].
    rewrite IH.
    destruct (map_result _ lines) as [fs|e]; cbn [bind]; [|reflexivity].
    now rewrite <- app_assoc.
Qed.

Lemma irace_read_child_spec (cs cs' : ConfigurationSpace) (child_name : string)
    (lines : list ParseResults) :
  Irace.read_child cs (child_name, lines) = Ok cs' ->
  exists facts,
    map_result (irace_fact cs child_name) lines = Ok facts
    /\ cs' = add_condition cs (conjoin facts).
Proof.
  unfold Irace.read_child. rewrite irace_condition_loop.
  destruct (map_result _ lines) as [facts|e]; cbn [bind]; [|discriminate].
  cbn [app]. intros H. exists facts. split; [reflexivity|].
  destruct facts as [|f [|g facts]]; cbn in H; try discriminate;
    now injection H as <-.
Qed.

Lemma irace_children_loop (entries : list (string * list ParseResults))
    (cs cs' : ConfigurationSpace) :
  for_each Irace.read_child entries cs = Ok cs' ->
  get_hyperparameters cs' = get_hyperparameters cs
  /\ exists factss,
       Forall2 (fun e facts => map_result (irace_fact cs (fst e)) (snd e) = Ok facts)
         entries factss
       /\ get_conditions cs' = (get_conditions cs ++ map conjoin factss)%list.
Proof.
  revert cs; induction entries as [|[child lines] entries IH]; intros cs; cbn [for_each].
  - intros [= <-]. split; [reflexivity|]. exists []. split; [constructor|].
    now rewrite app_nil_r.
  - destruct (Irace.read_child cs (child, lines)) as [cs1|e] eqn:H1; cbn [bind];
      [|discriminate].
    apply irace_read_child_spec in H1 as (facts & Hf & ->).
    intros H. apply IH in H as (Hh & factss & Hall & Hc).
    split; [exact Hh|]. exists (facts :: factss). split.
    + constructor; [exact Hf|].
      eapply Forall2_impl; [|exact Hall]. cbv beta. intros e fs Hfs.
      rewrite <- Hfs. apply map_result_ext. intros x. now apply irace_fact_ext.
    + rewrite Hc. cbn [add_condition get_conditions map]. now rewrite <- app_assoc.
Qed.

Lemma read_forbidden_keeps (cs cs' : ConfigurationSpace) (clause : string) :
  Irace.read_forbidden cs clause = Ok cs' ->
  get_hyperparameters cs' = get_hyperparameters cs
  /\ get_conditions cs' = get_conditions cs.
Proof.
  unfold Irace.read_forbidden.
  destruct (or_raise _ _); cbn [bind]; [|discriminate].
  destruct (for_each _ _ _) as [[tmp clause_list]|]; cbn [bind]; [|discriminate].
  intros [= <-]. split; reflexivity.
Qed.

Lemma forbidden_loop_keeps (clauses : list string) (cs cs' : ConfigurationSpace) :
  for_each Irace.read_forbidden clauses cs = Ok cs' ->
  get_hyperparameters cs' = get_hyperparameters cs
  /\ get_conditions cs' = get_conditions cs.
Proof.
  apply (for_each_invariant Irace.read_forbidden
           (fun c => get_hyperparameters c = get_hyperparameters cs
                     /\ get_conditions c = get_conditions cs)).
  - intros c x c' [Hh Hc] H. apply read_forbidden_keeps in H as [Hh' Hc'].
    split; congruence.
  - split; reflexivity.
Qed.

Lemma irace_declare_conditions (st st' : Irace.read_state) (l : string)
    (r : result (option Hyperparameter)) :
  bind r (irace_declare st l) = Ok st' ->
  get_conditions (Irace.configuration_space st') =
  get_conditions (Irace.configuration_space st).
Proof.
  destruct r as [[hp|]|e]; cbn [bind irace_declare]; try discriminate.
  destruct (add_hyperparameter _ _) eqn:Ha; cbn [bind]; [|discriminate].
  intros [= <-]. simpl. now apply add_hyperparameter_conditions in Ha.
Qed.

Lemma irace_read_line_conditions (st st' : Irace.read_state) (line : string) :
  Irace.read_line st line = Ok st' ->
  get_conditions (Irace.configuration_space st') =
  get_conditions (Irace.configuration_space st).
Proof.
  rewrite irace_read_line_classify. unfold irace_classify.
  repeat match goal with
         | |- (if ?b then _ else _) = _ -> _ => destruct b
         | |- match ?o with Some _ => _ | None => _ end = _ -> _ => destruct o
         end;
    try discriminate; try (now intros [= <-]);
    apply irace_declare_conditions.
Qed.

Lemma pcs_declare_conditions (st st' : PcsNew.read_state) (l : string)
    (r : result (option Hyperparameter)) :
  bind r (pcs_declare st l) = Ok st' ->
  get_conditions (PcsNew.configuration_space st') =
  get_conditions (PcsNew.configuration_space st).
Proof.
  destruct r as [[hp|]|e]; cbn [bind pcs_declare]; try discriminate.
  destruct (add_hyperparameter _ _) eqn:Ha; cbn [bind]; [|discriminate].
  intros [= <-]. simpl. now apply add_hyperparameter_conditions in Ha.
Qed.

Lemma pcs_read_line_conditions (st st' : PcsNew.read_state) (line : string) :
  PcsNew.read_line st line = Ok st' ->
  get_conditions (PcsNew.configuration_space st') =
  get_conditions (PcsNew.configuration_space st).
Proof.
  rewrite pcs_read_line_classify. unfold pcs_classify.
  repeat match goal with
         | |- (if ?b then _ else _) = _ -> _ => destruct b
         | |- match ?o with Some _ => _ | None => _ end = _ -> _ => destruct o
         end;
    try discriminate; try (now intros [= <-]);
    apply pcs_declare_conditions.
Qed.

Lemma Forall2_map_l {A B C} (g : A -> B) (P : B -> C -> Prop) (l : list A)
    (l' : list C) :
  Forall2 P (map g l) l' <-> Forall2 (fun a c => P (g a) c) l l'.
Proof.
  revert l'; induction l as [|a l IH]; intros l'; simpl.
  - split; intros H; inversion H; constructor.
  - split; intros H; inversion H; subst; constructor; try assumption; now apply IH.
Qed.

Lemma Forall2_in_l {A B} (P Q : A -> B -> Prop) (l : list A) (l' : list B) :
  Forall2 P l l' -> (forall a b, In a l -> P a b -> Q a b) -> Forall2 Q l l'.
Proof.
  induction 1 as [|a b l l' Hab _ IH]; intros H; constructor.
  - apply H; [now left | assumption].
  - apply IH. intros x y Hx. apply H. now right.
Qed.

(** C4. When the compact dialect's [read] returns a space, its top-level
    conditions are, child by child in the order of their first condition
    line, one condition each: the fact of the child's only line as it is,
    or the AND-conjunction of the facts of its lines in their order. *)
Theorem irace_read_groups_conditions (lines : list string) (cs : ConfigurationSpace) :
  Irace.read lines = Ok cs ->
  exists st factss,
    for_each Irace.read_line lines (Irace.mkState empty [] []) = Ok st
    /\ NoDup (children (Irace.conditions st))
    /\ Forall2 (fun child facts =>
                  lines_of child (Irace.conditions st) <> []
                  /\ map_result (irace_fact cs child)
                       (lines_of child (Irace.conditions st)) = Ok facts)
         (children (Irace.conditions st)) factss
    /\ get_conditions cs = map conjoin factss.
Proof.
  unfold Irace.read. intros H.
  apply bind_ok in H as (st & Hst & H).
  apply bind_ok in H as (cs1 & Hcs1 & H).
  apply bind_ok in H as (d & Hd & H).
  apply irace_grouping in Hd. subst d.
  apply irace_children_loop in H as (Hh & factss & Hall & Hc).
  apply forbidden_loop_keeps in Hcs1 as [Hh1 Hc1].
  assert (Hc0 : get_conditions (Irace.configuration_space st) = []).
  { refine (for_each_invariant Irace.read_line
              (fun s => get_conditions (Irace.configuration_space s) = [])
              _ lines _ st _ Hst); [|reflexivity].
    intros s x s' Hs Hx. now rewrite (irace_read_line_conditions s s' x Hx). }
  exists st, factss. repeat split.
  - exact Hst.
  - apply children_nodup.
  - unfold grouped in Hall. apply Forall2_map_l in Hall.
    apply (Forall2_in_l _ _ _ _ Hall). cbn [fst snd]. intros ch fs Hin Hx.
    split; [now apply children_sound|].
    rewrite <- Hx. apply map_result_ext.
    intros x. apply irace_fact_ext. congruence.
  - rewrite Hc, Hc1, Hc0. reflexivity.
Qed.

(** C4, at two lines for the child [x], through the parents [y] and [z]:
    one AND-conjunction of the two facts. *)
Lemma irace_read_groups_conditions_witness :
  exists st factss,
    for_each Irace.read_line irace_grouping_example (Irace.mkState empty [] []) = Ok st
    /\ NoDup (children (Irace.conditions st))
    /\ Forall2 (fun child facts =>
                  lines_of child (Irace.conditions st) <> []
                  /\ map_result (irace_fact irace_grouping_space child)
                       (lines_of child (Irace.conditions st)) = Ok facts)
         (children (Irace.conditions st)) factss
    /\ get_conditions irace_grouping_space = map conjoin factss.
Proof.
  apply (irace_read_groups_conditions irace_grouping_example). reflexivity.
Defined.

(** ** The condition loops of the explicit dialect *)

(** Case analysis of a computation that returned. *)
Ltac returned :=
  repeat match goal with
         | H : Raise _ = Ok _ |- _ => discriminate H
         | H : bind ?x _ = Ok _ |- _ =>
             let E := fresh "E" in
             destruct x eqn:E; cbn [bind] in H; [|discriminate H]
         | H : (if ?b then _ else _) = Ok _ |- _ =>
             let E := fresh "E" in destruct b eqn:E
         | H : Ok (_, _) = Ok (_, _) |- _ => injection H as ? ?; subst
         | H : Ok (inl _) = Ok (inl _) |- _ => injection H as ?; subst
         | H : Ok (inr _) = Ok (inr _) |- _ => injection H as ?; subst
         | H : Ok (inl _) = Ok (inr _) |- _ => discriminate H
         | H : Ok (inr _) = Ok (inl _) |- _ => discriminate H
         | H : Ok ?a = Ok ?b |- _ => is_var b; injection H as <-
         | H : Ok ?a = Ok ?b |- _ => is_var a; injection H as ->
         | H : (let '(_, _) := ?p in _) = Ok _ |- _ => destruct p
         end.

Lemma second_fact_ok (cs : ConfigurationSpace) (child : Hyperparameter)
    (c : ParseResults) (i : Z) (loc loc' : PcsNew.locals) :
  PcsNew.second_fact cs child c i loc = Ok loc' ->
  PcsNew.connective loc' = Py.index c i
  /\ PcsNew.condition1 loc' = PcsNew.condition1 loc
  /\ Py.index c i <> None.
Proof.
  unfold PcsNew.second_fact. intros H.
  destruct (Py.index c i) as [conn|]; cbn [or_raise bind] in H; [|discriminate].
  returned; cbn; repeat split; congruence.
Qed.

Lemma index_length {A} (l : list A) (i : nat) :
  Py.index l (Z.of_nat i) <> None <-> i < List.length l.
Proof.
  unfold Py.index. cbv zeta.
  destruct (Z.ltb_spec (Z.of_nat i) 0) as [|_]; [lia|].
  destruct (Z.ltb_spec (Z.of_nat i) 0) as [|_]; [lia|].
  rewrite Nat2Z.id. apply nth_error_Some.
Qed.

Lemma or_raise_ok {A} (o : option A) (e : exn) (a : A) :
  or_raise o e = Ok a -> o = Some a.
Proof. destruct o; simpl; congruence. Qed.

(** Facts read off the hypotheses a case analysis leaves. *)
Ltac facts :=
  repeat match goal with
         | H : or_raise _ _ = Ok _ |- _ => apply or_raise_ok in H
         | H : PcsNew.bound _ _ = Ok _ |- _ => apply or_raise_ok in H
         | H : (_ =? _)%string = true |- _ => apply String.eqb_eq in H; subst
         | H : (_ <? _)%nat = true |- _ => apply Nat.ltb_lt in H
         | H : (_ <? _)%nat = false |- _ => apply Nat.ltb_ge in H
         | H : PcsNew.second_fact _ _ _ _ _ = Ok _ |- _ =>
             apply second_fact_ok in H; cbn [PcsNew.condition1 PcsNew.connective] in H;
             destruct H as (? & ? & ?)
         end.

(** What a processed line does to the variable [connective] and to
    [condition_objects]: it appends at least one condition. *)
Lemma read_condition_ok (cs : ConfigurationSpace) (child_name : string)
    (loc loc' : PcsNew.locals) (objs objs' : list Condition) (c : ParseResults) :
  PcsNew.read_condition cs child_name (loc, objs) c = Ok (loc', objs') ->
  PcsNew.connective loc' =
    match line_connective c with
    | Some x => Some x
    | None => PcsNew.connective loc
    end
  /\ exists added, objs' = (objs ++ added)%list /\ 1 <= List.length added.
Proof.
  unfold PcsNew.read_condition, line_connective. intros H.
  returned.
  all: repeat match goal with
         | H : match ?p with inl _ => _ | inr _ => _ end = Ok _ |- _ => destruct p
         | H : (let '(_, _) := ?p in _) = Ok _ |- _ => destruct p
         end.
  all: returned.
  all: facts; try discriminate; try lia.
  all: cbn [PcsNew.condition1 PcsNew.connective] in *.
  all: repeat match goal with
         | H : Py.index _ 3 = Some _ |- _ => rewrite H
         | H : (?x =? ?y)%string = false |- context [(?x =? ?y)%string] => rewrite H
         end; cbn [String.eqb Ascii.eqb Bool.eqb andb negb].
  all: repeat match goal with
         | H : _ <= _ |- context [(?a <? ?b)%nat] =>
             destruct (Nat.ltb_spec a b); try lia
         | H : _ < _ |- context [(?a <? ?b)%nat] =>
             destruct (Nat.ltb_spec a b); try lia
         end; cbn [andb negb].
  all: try match goal with
            | H : Py.index ?c 4 = Some _, H' : List.length ?c <= 4 |- _ =>
                exfalso; assert (4 < List.length c)
                  by (apply (index_length c 4); change (Z.of_nat 4) with 4%Z; congruence);
                lia
            end.
  all: split;
    [ try reflexivity; destruct (Py.index c 5); congruence
    | eexists; split; [rewrite <- ?app_assoc; reflexivity | simpl; lia] ].
Qed.

Lemma read_condition_regular (cs : ConfigurationSpace) (child_name : string)
    (loc loc' : PcsNew.locals) (objs objs' : list Condition) (c : ParseResults) :
  regular c = true ->
  PcsNew.read_condition cs child_name (loc, objs) c = Ok (loc', objs') ->
  exists facts,
    pcs_facts cs child_name c = Ok facts /\ objs' = (objs ++ facts)%list.
Proof.
  intros Hr H. unfold PcsNew.read_condition, PcsNew.second_fact in H.
  unfold regular in Hr.
  returned.
  all: repeat match goal with
         | H : match ?p with inl _ => _ | inr _ => _ end = Ok _ |- _ => destruct p
         | H : (let '(_, _) := ?p in _) = Ok _ |- _ => destruct p
         end.
  all: returned.
  all: repeat match goal with
         | H : or_raise _ _ = Ok _ |- _ => apply or_raise_ok in H
         | H : PcsNew.bound _ _ = Ok _ |- _ => apply or_raise_ok in H
         | H : (_ =? _)%string = true |- _ => apply String.eqb_eq in H; subst
         end; try discriminate.
  all: change (7 + 1)%Z with 8%Z in *; change (7 + 2)%Z with 9%Z in *;
       change (7 + 3)%Z with 10%Z in *; change (7 + 4)%Z with 11%Z in *;
       change (5 + 1)%Z with 6%Z in *; change (5 + 2)%Z with 7%Z in *;
       change (5 + 3)%Z with 8%Z in *; change (5 + 4)%Z with 9%Z in *.
  all: cbn [PcsNew.condition1 PcsNew.condition2 PcsNew.connective] in *.
  all: repeat match goal with
         | H : Py.index _ _ = Some _ |- _ => rewrite H in Hr
         | H : (_ =? _)%string = false |- _ => rewrite H in Hr
         | H : (_ <? _)%nat = _ |- _ => rewrite H in Hr
         end; cbn in Hr; try discriminate.
  all: try match goal with
            | H : (4 <? List.length ?c)%nat = false, H' : Py.index ?c 4 = Some _ |- _ =>
                exfalso; apply Nat.ltb_ge in H;
                assert (4 < List.length c)
                  by (apply (index_length c 4); change (Z.of_nat 4) with 4%Z; congruence);
                lia
            end.
  all: unfold pcs_facts, pcs_leaf.
  all: repeat (match goal with
               | H : ?x = Ok _ |- context [?x] => rewrite H
               | H : ?x = Some _ |- context [?x] => rewrite H
               | H : (?x =? ?y)%string = false |- context [(?x =? ?y)%string] =>
                   rewrite H
               | H : Some _ = Some _ |- _ => injection H as <-
               end; cbn [bind or_raise String.eqb Ascii.eqb Bool.eqb]).
  all: eexists; split; [reflexivity | now rewrite <- ?app_assoc].
Qed.

Lemma pcs_facts_ext (cs1 cs2 : ConfigurationSpace) (child_name : string)
    (c : ParseResults) :
  get_hyperparameters cs1 = get_hyperparameters cs2 ->
  pcs_facts cs1 child_name c = pcs_facts cs2 child_name c.
Proof.
  intros H. unfold pcs_facts, pcs_leaf, get_hyperparameter. now rewrite H.
Qed.

(** The loop over the lines of one child. *)
Lemma pcs_condition_loop (cs : ConfigurationSpace) (child_name : string)
    (lines : list ParseResults) (loc loc' : PcsNew.locals)
    (objs objs' : list Condition) :
  for_each (PcsNew.read_condition cs child_name) lines (loc, objs) = Ok (loc', objs') ->
  PcsNew.connective loc' = connective_after (PcsNew.connective loc) lines
  /\ exists added,
       objs' = (objs ++ added)%list
       /\ List.length lines <= List.length added
       /\ (forallb regular lines = true ->
           exists factss,
             map_result (pcs_facts cs child_name) lines = Ok factss
             /\ added = concat factss).
Proof.
  revert loc objs; induction lines as [|c lines IH]; intros loc objs; cbn [for_each].
  - intros [= <- <-]. split; [reflexivity|]. exists []. rewrite app_nil_r.
    repeat split; [simpl; lia|]. intros _. exists []. now split.
  - destruct (PcsNew.read_condition cs child_name (loc, objs) c)
      as [[loc1 objs1]|e] eqn:Hc; cbn [bind]; [|discriminate].
    intros H. apply IH in H as (Hconn & added & -> & Hlen & Hreg).
    pose proof (read_condition_ok _ _ _ _ _ _ _ Hc) as (Hconn1 & added1 & -> & Hlen1).
    split; [cbn [connective_after fold_left]; now rewrite <- Hconn1|].
    exists (added1 ++ added)%list. rewrite <- app_assoc.
    repeat split; [rewrite length_app; simpl; lia|].
    cbn [forallb]. intros Hr. apply andb_true_iff in Hr as [Hr1 Hr2].
    destruct (Hreg Hr2) as (factss & Hf & ->).
    destruct (read_condition_regular _ _ _ _ _ _ _ Hr1 Hc) as (facts & Hf1 & Heq).
    apply app_inv_head in Heq. subst added1.
    exists (facts :: factss). cbn [map_result concat]. now rewrite Hf1, Hf.
Qed.

Lemma pcs_read_child_spec (cs cs' : ConfigurationSpace) (loc loc' : PcsNew.locals)
    (child_name : string) (lines : list ParseResults) :
  PcsNew.read_child (cs, loc) (child_name, lines) = Ok (cs', loc') ->
  PcsNew.connective loc' = connective_after (PcsNew.connective loc) lines
  /\ exists leaves,
       cs' = add_condition cs (combine_leaves (PcsNew.connective loc') leaves)
       /\ List.length lines <= List.length leaves
       /\ (2 <= List.length leaves -> PcsNew.connective loc' <> None)
       /\ (forallb regular lines = true ->
           exists factss,
             map_result (pcs_facts cs child_name) lines = Ok factss
             /\ leaves = concat factss).
Proof.
  unfold PcsNew.read_child.
  destruct (for_each _ lines _) as [[loc1 objs]|e] eqn:Hl; cbn [bind]; [|discriminate].
  apply pcs_condition_loop in Hl as (Hconn & added & Ho & Hlen & Hreg).
  cbn [app] in Ho. subst objs. intros H.
  destruct (Nat.ltb_spec 1 (List.length added)) as [H2|H2].
  - unfold PcsNew.bound in H. destruct (PcsNew.connective loc1) as [conn|] eqn:Hc;
      cbn [or_raise bind] in H; [|discriminate].
    assert (Heq : cs' = add_condition cs (combine_leaves (Some conn) added)
                  /\ loc' = loc1).
    { unfold combine_leaves. destruct added as [|x [|y added]]; simpl in H2; try lia.
      destruct (String.eqb conn "&&"); injection H as <- <-; now split. }
    destruct Heq as [-> ->]. split; [now rewrite Hc|].
    exists added. rewrite Hc. repeat split; try assumption. discriminate.
  - destruct added as [|x [|y added]]; simpl in H2; try lia; [discriminate|].
    cbn in H. injection H as <- <-. split; [assumption|].
    exists [x]. repeat split; try assumption. simpl. lia.
Qed.

Lemma pcs_children_loop (entries : list (string * list ParseResults))
    (cs cs' : ConfigurationSpace) (loc loc' : PcsNew.locals) :
  for_each PcsNew.read_child entries (cs, loc) = Ok (cs', loc') ->
  get_hyperparameters cs' = get_hyperparameters cs
  /\ exists leavess,
       Forall2 (fun e leaves =>
                  List.length (snd e) <= List.length leaves
                  /\ (forallb regular (snd e) = true ->
                      exists factss,
                        map_result (pcs_facts cs (fst e)) (snd e) = Ok factss
                        /\ leaves = concat factss))
         entries leavess
       /\ get_conditions cs' =
          (get_conditions cs ++
           combine_groups (PcsNew.connective loc) (map snd entries) leavess)%list.
Proof.
  revert cs loc; induction entries as [|[child lines] entries IH]; intros cs loc;
    cbn [for_each].
  - intros [= <- <-]. split; [reflexivity|]. exists []. split; [constructor|].
    simpl. now rewrite app_nil_r.
  - destruct (PcsNew.read_child (cs, loc) (child, lines)) as [[cs1 loc1]|e] eqn:H1;
      cbn [bind]; [|discriminate].
    apply pcs_read_child_spec in H1 as (Hconn & leaves & -> & Hlen & _ & Hreg).
    intros H. apply IH in H as (Hh & leavess & Hall & Hc).
    split; [exact Hh|]. exists (leaves :: leavess). split.
    + constructor; [split; assumption|].
      eapply Forall2_impl; [|exact Hall]. cbv beta. intros e fs [Hl Hfs].
      split; [assumption|]. intros Hr. destruct (Hfs Hr) as (factss & Hf & ->).
      exists factss. split; [|reflexivity]. rewrite <- Hf.
      apply map_result_ext. intros x. now apply pcs_facts_ext.
    + rewrite Hc. cbn [add_condition get_conditions map combine_groups snd].
      rewrite <- app_assoc, Hconn. reflexivity.
Qed.

Lemma pcs_forbidden_loop_keeps (clauses : list string) (cs cs' : ConfigurationSpace) :
  for_each PcsNew.read_forbidden clauses cs = Ok cs' ->
  get_hyperparameters cs' = get_hyperparameters cs
  /\ get_conditions cs' = get_conditions cs.
Proof. apply forbidden_loop_keeps. Qed.

(** C5, amended. When the explicit dialect's [read] returns a space, its
    top-level conditions are, child by child in the order of their first
    condition line, one condition each, made of the leaves accumulated
    from the child's lines (at least one per line; for regular lines, the
    leaves of the lines in order): the leaf itself when there is one, else
    the conjunction of all of them, AND when the connective assigned last,
    by a line of this child or of a child before it, is [&&], OR when it is
    anything else. *)
Theorem pcs_read_groups_conditions (lines : list string) (cs : ConfigurationSpace) :
  PcsNew.read lines = Ok cs ->
  exists st leavess,
    for_each PcsNew.read_line lines (PcsNew.mkState empty [] []) = Ok st
    /\ NoDup (children (PcsNew.conditions st))
    /\ Forall2 (fun child leaves =>
                  1 <= List.length (lines_of child (PcsNew.conditions st))
                    <= List.length leaves
                  /\ (forallb regular (lines_of child (PcsNew.conditions st)) = true ->
                      exists factss,
                        map_result (pcs_facts cs child)
                          (lines_of child (PcsNew.conditions st)) = Ok factss
                        /\ leaves = concat factss))
         (children (PcsNew.conditions st)) leavess
    /\ get_conditions cs =
       combine_groups None
         (map (fun child => lines_of child (PcsNew.conditions st))
            (children (PcsNew.conditions st)))
         leavess.
Proof.
  unfold PcsNew.read. intros H.
  apply bind_ok in H as (st & Hst & H).
  apply bind_ok in H as (cs1 & Hcs1 & H).
  apply bind_ok in H as (d & Hd & H).
  apply pcs_grouping in Hd. subst d.
  apply bind_ok in H as ([cs2 loc2] & H & Hcs). injection Hcs as ->.
  apply pcs_children_loop in H as (Hh & leavess & Hall & Hc).
  apply pcs_forbidden_loop_keeps in Hcs1 as [Hh1 Hc1].
  assert (Hc0 : get_conditions (PcsNew.configuration_space st) = []).
  { refine (for_each_invariant PcsNew.read_line
              (fun s => get_conditions (PcsNew.configuration_space s) = [])
              _ lines _ st _ Hst); [|reflexivity].
    intros s x s' Hs Hx. now rewrite (pcs_read_line_conditions s s' x Hx). }
  exists st, leavess. repeat split.
  - exact Hst.
  - apply children_nodup.
  - unfold grouped in Hall. apply Forall2_map_l in Hall.
    apply (Forall2_in_l _ _ _ _ Hall). cbn [fst snd]. intros ch fs Hin [Hl Hx].
    split.
    + split; [|assumption]. apply children_sound in Hin.
      destruct (lines_of ch (PcsNew.conditions st)); [contradiction | simpl; lia].
    + intros Hr. destruct (Hx Hr) as (factss & Hf & ->). exists factss.
      split; [|reflexivity]. rewrite <- Hf. apply map_result_ext.
      intros x. apply pcs_facts_ext. congruence.
  - rewrite Hc, Hc1, Hc0. unfold grouped. now rewrite map_map.
Qed.

(** C5 as stated fails: the two lines of child [d] carry no connective, the
    last line of its group in particular, and [d] gets an AND-conjunction,
    from the [&&] of the line of child [a]. *)
Lemma pcs_connective_is_stale :
  parseString PcsNew.pp_condition "d | a in {1}" = Some ["d"; "|"; "a"; "in"; "{"; "1"; "}"]
  /\ parseString PcsNew.pp_condition "d | b in {3}" = Some ["d"; "|"; "b"; "in"; "{"; "3"; "}"]
  /\ PcsNew.read stale_connective_lines = Ok stale_connective_space.
Proof. repeat split; vm_compute; reflexivity. Qed.

(** C5, amended, at the lines of the example above. *)
Lemma pcs_read_groups_conditions_witness :
  exists st leavess,
    for_each PcsNew.read_line stale_connective_lines (PcsNew.mkState empty [] []) = Ok st
    /\ NoDup (children (PcsNew.conditions st))
    /\ Forall2 (fun child leaves =>
                  1 <= List.length (lines_of child (PcsNew.conditions st))
                    <= List.length leaves
                  /\ (forallb regular (lines_of child (PcsNew.conditions st)) = true ->
                      exists factss,
                        map_result (pcs_facts stale_connective_space child)
                          (lines_of child (PcsNew.conditions st)) = Ok factss
                        /\ leaves = concat factss))
         (children (PcsNew.conditions st)) leavess
    /\ get_conditions stale_connective_space =
       combine_groups None
         (map (fun child => lines_of child (PcsNew.conditions st))
            (children (PcsNew.conditions st)))
         leavess.
Proof.
  apply (pcs_read_groups_conditions stale_connective_lines). vm_compute. reflexivity.
Defined.

(** ** The unassigned connective *)

Lemma lookup_name (n : string) (hps : list Hyperparameter) (hp : Hyperparameter) :
  lookup n hps = Some hp -> name hp = n.
Proof.
  induction hps as [|h hps IH]; simpl; [discriminate|].
  destruct (String.eqb_spec (name h) n); [now intros [= <-] | exact IH].
Qed.

Lemma index_none {A} (l : list A) (i : nat) :
  Py.index l (Z.of_nat i) = None <-> List.length l <= i.
Proof.
  pose proof (index_length l i) as H.
  destruct (Py.index l (Z.of_nat i)) eqn:E.
  - split; [discriminate|]. intros Hl.
    assert (i < List.length l) by (apply H; discriminate). lia.
  - split; [|reflexivity]. intros _.
    destruct (Nat.le_gt_cases (List.length l) i) as [|Hlt]; [assumption|].
    apply H in Hlt. contradiction.
Qed.

(** A line that assigns no connective, processed while none is assigned:
    a membership line appends its fact and leaves the variable unassigned;
    any other line raises an exception outside the taxonomy. *)
Lemma read_condition_unassigned (cs : ConfigurationSpace) (c : ParseResults)
    (loc : PcsNew.locals) (objs : list Condition) :
  line_connective c = None -> resolves cs c = true ->
  if membership_line c then
    exists loc' f,
      PcsNew.read_condition cs (child_of c) (loc, objs) c = Ok (loc', (objs ++ [f])%list)
      /\ PcsNew.connective loc' = PcsNew.connective loc
  else
    exists e,
      PcsNew.read_condition cs (child_of c) (loc, objs) c = Raise e /\ typed e = false.
Proof.
  unfold line_connective, resolves, membership_line, PcsNew.read_condition,
    get_hyperparameter.
  intros Hconn Hres.
  destruct (lookup (child_of c) _) as [child|] eqn:Hchild; [|discriminate].
  destruct (Py.index c 2) as [parent_name|]; [|discriminate].
  cbn [or_raise bind].
  destruct (lookup parent_name _) as [parent|] eqn:Hparent; [|discriminate].
  apply lookup_name in Hchild, Hparent.
  cbn [or_raise bind].
  assert (Hcheck : check_child_parent child parent = Ok tt).
  { unfold check_child_parent. rewrite Hchild, Hparent.
    now destruct (String.eqb (child_of c) parent_name). }
  destruct (Py.index c 3) as [op|]; cbn [or_raise bind]; [|eexists; now split].
  destruct (String.eqb op "in") eqn:Hop.
  - cbn [andb] in Hconn.
    destruct (Nat.ltb_spec 7 (List.length c)) as [H7|H7].
    + exfalso. cbn [negb] in Hconn.
      apply (index_none c 5) in Hconn. lia.
    + unfold new_InCondition. rewrite Hcheck. cbn [bind]. eexists _, _.
      split; reflexivity.
  - cbn [andb] in Hconn. apply (index_none c 5) in Hconn.
    destruct (Py.index c 4) as [v|] eqn:H4; cbn [or_raise bind]; [|eexists; now split].
    assert (H4' : 4 < List.length c)
      by (apply (index_length c 4); change (Z.of_nat 4) with 4%Z; congruence).
    assert (H5 : Py.index c 5 = None) by (apply (index_none c 5); lia).
    destruct (Nat.ltb_spec 4 (List.length c)) as [_|]; [|lia].
    unfold new_EqualsCondition, new_NotEqualsCondition, PcsNew.second_fact.
    rewrite Hcheck, H5.
    destruct (String.eqb op "=="); cbn; [eexists; now split|].
    destruct (String.eqb op "!="); cbn; [eexists; now split|].
    destruct (PcsNew.condition1 loc); cbn; eexists; now split.
Qed.

Lemma pcs_group_unassigned (cs : ConfigurationSpace) (child : string)
    (lines : list ParseResults) (loc : PcsNew.locals) (objs : list Condition) :
  Forall (unassigning cs child) lines ->
  if forallb membership_line lines then
    exists loc' added,
      for_each (PcsNew.read_condition cs child) lines (loc, objs) =
        Ok (loc', (objs ++ added)%list)
      /\ List.length added = List.length lines
      /\ PcsNew.connective loc' = PcsNew.connective loc
  else
    exists e,
      for_each (PcsNew.read_condition cs child) lines (loc, objs) = Raise e
      /\ typed e = false.
Proof.
  intros Hall. revert loc objs.
  induction Hall as [|c lines (Hchild & Hconn & Hres) _ IH]; intros loc objs;
    cbn [forallb for_each].
  - exists loc, []. rewrite app_nil_r. repeat split.
  - pose proof (read_condition_unassigned cs c loc objs Hconn Hres) as Hc.
    rewrite Hchild in Hc.
    destruct (membership_line c); cbn [andb].
    + destruct Hc as (loc1 & f & -> & Hl1). cbn [bind].
      specialize (IH loc1 (objs ++ [f])%list).
      destruct (forallb membership_line lines).
      * destruct IH as (loc' & added & -> & Hlen & Hl').
        exists loc', (f :: added). rewrite <- app_assoc.
        repeat split; [simpl; now rewrite Hlen | congruence].
      * exact IH.
    + destruct Hc as (e & -> & He). cbn [bind]. eauto.
Qed.

Lemma pcs_children_unassigned (entries : list (string * list ParseResults))
    (cs : ConfigurationSpace) (loc : PcsNew.locals) :
  Forall (fun e => snd e <> [] /\ Forall (unassigning cs (fst e)) (snd e)) entries ->
  PcsNew.connective loc = None ->
  Exists (fun e => 2 <= List.length (snd e)) entries ->
  exists e,
    for_each PcsNew.read_child entries (cs, loc) = Raise e
    /\ typed e = false
    /\ (forallb (fun e => forallb membership_line (snd e)) entries = true ->
        e = UnboundLocalError "connective").
Proof.
  intros Hall. revert cs loc Hall.
  induction entries as [|[child lines] entries IH]; intros cs loc Hall Hloc Hex;
    [inversion Hex|].
  inversion Hall as [|? ? [Hne Hlines] Hrest]; subst. cbn [fst snd] in *.
  cbn [for_each forallb snd]. unfold PcsNew.read_child at 1.
  pose proof (pcs_group_unassigned cs child lines loc [] Hlines) as Hg.
  destruct (forallb membership_line lines); cbn [andb].
  - destruct Hg as (loc1 & added & -> & Hlen & Hl1). cbn [bind app].
    rewrite Hloc in Hl1.
    destruct (Nat.ltb_spec 1 (List.length added)) as [H2|H2].
    + rewrite Hl1. cbn. eexists. repeat split.
    + destruct added as [|x [|y added]]; simpl in H2; try lia.
      { destruct lines; [contradiction | discriminate]. }
      cbn [Py.index List.length Z.of_nat Z.ltb Z.compare Z.to_nat nth_error or_raise
           bind].
      assert (Hrest' : Forall (fun e => snd e <> []
                                 /\ Forall (unassigning (add_condition cs x) (fst e)) (snd e))
                         entries).
      { eapply Forall_impl; [|exact Hrest]. cbv beta. intros e [Hn Hu].
        split; [assumption|]. eapply Forall_impl; [|exact Hu].
        intros c (H1 & H3 & H4). repeat split; assumption. }
      assert (Hex' : Exists (fun e => 2 <= List.length (snd e)) entries).
      { inversion Hex as [? ? Hhd|? ? Htl]; subst; [|assumption].
        cbn [snd] in Hhd. simpl in Hlen. lia. }
      destruct (IH (add_condition cs x) loc1 Hrest' Hl1 Hex') as (e & He & Ht & Hm).
      exists e. rewrite He. repeat split; assumption.
  - destruct Hg as (e & -> & He). cbn [bind]. exists e. repeat split; try assumption.
    discriminate.
Qed.

Lemma pcs_grouping_total (conds : list ParseResults)
    (d : list (string * list ParseResults)) :
  Forall (fun c => c <> []) conds ->
  exists d', for_each PcsNew.group_condition conds d = Ok d'.
Proof.
  intros H. revert d. induction H as [|c conds Hc _ IH]; intros d; cbn [for_each].
  - eauto.
  - destruct c as [|k c]; [contradiction|]. unfold PcsNew.group_condition at 1.
    change (Py.index (k :: c) 0) with (Some k). cbn [or_raise bind]. apply IH.
Qed.

(** C10. In the explicit dialect, when the first two loops of [read] end
    and the condition lines, whose children and parents are declared,
    assign no connective, while some child has two or more of them, [read]
    raises an exception outside the taxonomy and returns no space. When
    the lines all state membership facts the exception is the
    [UnboundLocalError] of the variable [connective]. *)
Theorem pcs_read_unassigned_connective (lines : list string)
    (st : PcsNew.read_state) (cs1 : ConfigurationSpace) :
  for_each PcsNew.read_line lines (PcsNew.mkState empty [] []) = Ok st ->
  for_each PcsNew.read_forbidden (PcsNew.forbidden st) (PcsNew.configuration_space st)
    = Ok cs1 ->
  (forall c, In c (PcsNew.conditions st) ->
             line_connective c = None /\ resolves cs1 c = true) ->
  (exists child, 2 <= List.length (lines_of child (PcsNew.conditions st))) ->
  exists e,
    PcsNew.read lines = Raise e
    /\ typed e = false
    /\ (forallb membership_line (PcsNew.conditions st) = true ->
        e = UnboundLocalError "connective").
Proof.
  intros Hst Hcs1 Hlines (child & Hchild).
  unfold PcsNew.read. rewrite Hst. cbn [bind]. rewrite Hcs1. cbn [bind].
  set (conds := PcsNew.conditions st) in *.
  destruct (pcs_grouping_total conds []) as (d & Hd).
  { apply Forall_forall. intros c Hc ->. destruct (Hlines [] Hc) as [_ Hr].
    unfold resolves in Hr. simpl in Hr.
    now destruct (lookup _ _). }
  rewrite Hd. cbn [bind]. apply pcs_grouping in Hd. subst d.
  destruct (pcs_children_unassigned (grouped conds) cs1 (PcsNew.mkLocals None None None))
    as (e & He & Ht & Hm).
  - unfold grouped. apply Forall_forall. intros e He.
    apply in_map_iff in He as (ch & <- & Hch). cbn [fst snd]. split.
    + now apply children_sound.
    + apply Forall_forall. intros c Hc. apply filter_In in Hc as [Hc Heq].
      apply String.eqb_eq in Heq. destruct (Hlines c Hc). now repeat split.
  - reflexivity.
  - unfold grouped. apply Exists_exists. exists (child, lines_of child conds).
    split; [|assumption]. apply in_map_iff. exists child. split; [reflexivity|].
    destruct (in_dec string_dec child (children conds)) as [|Hn]; [assumption|].
    rewrite (lines_of_unnamed conds child Hn) in Hchild. simpl in Hchild. lia.
  - exists e. rewrite He. cbn [bind]. repeat split; [assumption|].
    intros Hall. apply Hm. unfold grouped. apply forallb_forall.
    intros x Hx. apply in_map_iff in Hx as (ch & <- & _). cbn [snd].
    apply forallb_forall. intros c Hc. apply filter_In in Hc as [Hc _].
    rewrite forallb_forall in Hall. now apply Hall.
Qed.

(** C10, at two membership lines for the child [d]. *)
Lemma pcs_read_unassigned_connective_witness :
  exists e,
    PcsNew.read unassigned_connective_lines = Raise e
    /\ typed e = false
    /\ (forallb membership_line
          [["d"; "|"; "a"; "in"; "{"; "1"; "}"]; ["d"; "|"; "b"; "in"; "{"; "3"; "}"]]
        = true ->
        e = UnboundLocalError "connective").
Proof.
  apply (pcs_read_unassigned_connective unassigned_connective_lines
           (PcsNew.mkState (mkSpace [hp_a; hp_b; hp_d] [] [])
              [["d"; "|"; "a"; "in"; "{"; "1"; "}"]; ["d"; "|"; "b"; "in"; "{"; "3"; "}"]]
              [])
           (mkSpace [hp_a; hp_b; hp_d] [] [])).
  - vm_compute. reflexivity.
  - reflexivity.
  - intros c [<-|[<-|[]]]; split; reflexivity.
  - exists "d". simpl. lia.
Defined.

(** ** Words and their text *)

Lemma span_app (p : ascii -> bool) (w r : string) :
  all_chars p w = true -> stops p r = true -> Py.span p (w ++ r) = (w, r).
Proof.
  intros Hw Hr. induction w as [|c w IH]; simpl.
  - destruct r as [|d r]; [reflexivity|]. simpl in *.
    destruct (p d); [discriminate | reflexivity].
  - simpl in Hw. apply andb_true_iff in Hw as [Hc Hw]. now rewrite Hc, IH.
Qed.

Lemma skip_white_stops (s : string) : stops is_white s = true -> skip_white s = s.
Proof. destruct s as [|c s]; [reflexivity|]. simpl. now destruct (is_white c). Qed.

Lemma parse_space (e : ParserElement) (s : string) :
  parse true e (String " " s) = parse true e s.
Proof.
  rewrite <- (parse_preskip true e (String " " s)), <- (parse_preskip true e s).
  reflexivity.
Qed.

(** A [Word] matches a word of its characters up to the first character
    that is not one of them. *)
Lemma parse_word (chars w r : string) :
  w <> "" ->
  all_chars (fun c => Py.char_in c chars) w = true ->
  stops is_white w = true ->
  stops (fun c => Py.char_in c chars) r = true ->
  parse true (Word chars) (w ++ r) = Some ([w], r).
Proof.
  intros Hne Hw Hws Hr. cbn [parse].
  rewrite skip_white_stops by (destruct w; [contradiction | exact Hws]).
  rewrite span_app by assumption.
  destruct w; [contradiction | reflexivity].
Qed.

Lemma char_in_append (x : ascii) (a b : string) :
  Py.char_in x (a ++ b) = Py.char_in x a || Py.char_in x b.
Proof.
  induction a as [|c a IH]; [reflexivity|]. simpl. rewrite IH.
  now destruct (Ascii.eqb x c).
Qed.

Lemma char_not_in_word (p : ascii -> bool) (x : ascii) (w : string) :
  all_chars p w = true -> p x = false -> Py.char_in x w = false.
Proof.
  intros Hw Hx. induction w as [|c w IH]; [reflexivity|]. simpl in *.
  apply andb_true_iff in Hw as [Hc Hw]. rewrite (IH Hw), orb_false_r.
  destruct (Ascii.eqb_spec x c) as [->|]; [congruence | reflexivity].
Qed.

Lemma remove_char_absent (x : ascii) (s : string) :
  Py.char_in x s = false -> Py.remove_char x s = s.
Proof.
  induction s as [|c s IH]; [reflexivity|]. simpl.
  rewrite (Ascii.eqb_sym c x).
  destruct (Ascii.eqb x c); [discriminate|]. simpl. intros H. now rewrite IH.
Qed.

Lemma rev_string_append (s acc : string) :
  Py.rev_string s acc = Py.rev_string s "" ++ acc.
Proof.
  revert acc; induction s as [|c s IH]; intros acc; [reflexivity|]. simpl.
  rewrite (IH (String c acc)), (IH (String c "")), append_assoc. reflexivity.
Qed.

Lemma rev_string_app (a b : string) :
  Py.rev_string (a ++ b) "" = Py.rev_string b "" ++ Py.rev_string a "".
Proof.
  induction a as [|c a IH]; simpl; [now rewrite append_nil_r|].
  rewrite (rev_string_append (a ++ b)), IH, (rev_string_append a (String c "")).
  now rewrite append_assoc.
Qed.

Lemma rev_string_involutive (s : string) :
  Py.rev_string (Py.rev_string s "") "" = s.
Proof.
  induction s as [|c s IH]; [reflexivity|]. simpl.
  rewrite (rev_string_append s), rev_string_app, IH. reflexivity.
Qed.

Lemma lstrip_stops (s : string) : stops Py.is_space s = true -> Py.lstrip s = s.
Proof. destruct s as [|c s]; [reflexivity|]. simpl. now destruct (Py.is_space c). Qed.

(** A text that neither starts nor ends with white space is left alone by
    [strip]. *)
Lemma strip_stops (s : string) :
  stops Py.is_space s = true -> stops Py.is_space (Py.rev_string s "") = true ->
  Py.strip s = s.
Proof.
  intros Hs Hr. unfold Py.strip.
  rewrite (lstrip_stops s Hs), (lstrip_stops _ Hr). apply rev_string_involutive.
Qed.

Lemma split_no_separator (x : ascii) (s : string) :
  Py.char_in x s = false -> Py.split x s = [s].
Proof.
  induction s as [|c s IH]; [reflexivity|]. simpl.
  rewrite (Ascii.eqb_sym c x).
  destruct (Ascii.eqb x c); [discriminate|]. simpl. intros H. now rewrite IH.
Qed.

Lemma split_append (x : ascii) (a b : string) :
  Py.char_in x a = false ->
  Py.split x (a ++ String x b) = a :: Py.split x b.
Proof.
  induction a as [|c a IH]; simpl.
  - now rewrite Ascii.eqb_refl.
  - rewrite (Ascii.eqb_sym c x).
    destruct (Ascii.eqb x c); [discriminate|]. simpl. intros H. now rewrite IH.
Qed.

Lemma split_join (x : ascii) (lines : list string) :
  lines <> [] ->
  Forall (fun l => Py.char_in x l = false) lines ->
  Py.split x (Py.join (Py.str1 x) lines) = lines.
Proof.
  intros Hne Hall. induction Hall as [|l lines Hl Hall IH]; [contradiction|].
  destruct lines as [|l' lines].
  - now apply split_no_separator.
  - rewrite join_cons. unfold Py.str1 at 1. cbn [append].
    rewrite split_append by assumption. f_equal. now apply IH.
Qed.

(** ** Categorical declarations of the explicit dialect *)

Lemma name_char_not_blank (c : ascii) :
  is_white c || Py.is_space c = true -> name_char c = false.
Proof.
  destruct c as [[] [] [] [] [] [] [] []]; vm_compute; intros H;
    first [reflexivity | discriminate H].
Qed.

Lemma name_char_declaration (c : ascii) :
  name_char c = true -> declaration_char c = true.
Proof. unfold declaration_char. now intros ->. Qed.

Lemma all_chars_impl (p q : ascii -> bool) (s : string) :
  (forall c, p c = true -> q c = true) -> all_chars p s = true -> all_chars q s = true.
Proof.
  intros Hpq. induction s as [|c s IH]; [reflexivity|]. simpl.
  intros H. apply andb_true_iff in H as [Hc Hs]. now rewrite (Hpq c Hc), IH.
Qed.

Lemma all_chars_append (p : ascii -> bool) (a b : string) :
  all_chars p (a ++ b) = all_chars p a && all_chars p b.
Proof.
  induction a as [|c a IH]; [reflexivity|]. simpl. rewrite IH. now destruct (p c).
Qed.

Lemma identifier_spec (w : string) :
  identifier w = true ->
  w <> "" /\ all_chars name_char w = true /\ stops is_white w = true
  /\ stops Py.is_space w = true /\ Py.startswith w "{" = false.
Proof.
  unfold identifier. intros H. apply andb_true_iff in H as [Hne Hall].
  destruct w as [|c w]; [discriminate|]. repeat split; try assumption;
    try discriminate.
  all: simpl in Hall |- *; apply andb_true_iff in Hall as [Hc _].
  - destruct (is_white c) eqn:E; [|reflexivity].
    rewrite name_char_not_blank in Hc; [discriminate | now rewrite E].
  - destruct (Py.is_space c) eqn:E; [|reflexivity].
    rewrite name_char_not_blank in Hc; [discriminate | rewrite E; apply orb_true_r].
  - destruct (Ascii.eqb_spec c "{") as [->|]; [discriminate | reflexivity].
Qed.

(** [pp_param_name] matches an identifier up to the first character that
    is not of the grammar. *)
Lemma parse_name (w r : string) :
  identifier w = true -> stops name_char r = true ->
  parse true PcsNew.pp_param_name (w ++ r) = Some ([w], r).
Proof.
  intros Hw Hr. apply identifier_spec in Hw as (Hne & Hall & Hws & _).
  now apply parse_word.
Qed.

Lemma join_choices (c : string) (choices : list string) :
  Py.join ", " (c :: choices) = c ++ more_choices choices.
Proof.
  revert c; induction choices as [|c' choices IH]; intros c.
  - simpl. now rewrite append_nil_r.
  - rewrite join_cons, IH. reflexivity.
Qed.

(** The written declaration, character by character. *)
Lemma build_categorical_text (n c d : string) (choices : list string) :
  PcsNew.build_categorical n (c :: choices) d =
  n ++ String " " ("categorical" ++ String " " (String "{"
    (c ++ more_choices choices ++ String "}" (String " " (String "["
      (d ++ String "]" "")))))).
Proof.
  unfold PcsNew.build_categorical. rewrite join_choices.
  cbn [append]. rewrite !append_assoc. reflexivity.
Qed.

Lemma stops_more_choices (choices : list string) (r : string) :
  stops name_char (more_choices choices ++ String "}" r) = true.
Proof. destruct choices; reflexivity. Qed.

Lemma more_choices_length (choices : list string) (r : string) :
  List.length choices <= String.length (more_choices choices ++ r).
Proof.
  induction choices as [|c choices IH]; simpl; [lia|].
  rewrite append_assoc, length_append. lia.
Qed.

Lemma parse_comma_name (c r : string) :
  identifier c = true -> stops name_char r = true ->
  parse true ("," + PcsNew.pp_param_name)%pp (String "," (String " " (c ++ r))) =
  Some ([","; c], r).
Proof.
  intros Hc Hr. rewrite parse_and.
  change (parse true (Literal ",") (String "," (String " " (c ++ r))))
    with (Some ([","], String " " (c ++ r))).
  cbv beta iota. now rewrite parse_space, parse_name.
Qed.

Lemma repeat_choices (choices : list string) (fuel : nat) (acc : ParseResults)
    (r : string) :
  forallb identifier choices = true -> List.length choices <= fuel ->
  Pyparsing.repeat (parse true ("," + PcsNew.pp_param_name)%pp) fuel acc
    (more_choices choices ++ String "}" r) =
  Some ((acc ++ flat_map (fun c => [","; c]) choices)%list, String "}" r).
Proof.
  revert fuel acc; induction choices as [|c choices IH]; intros fuel acc Hall Hfuel.
  - cbn [more_choices fold_right append flat_map]. rewrite app_nil_r.
    destruct fuel; reflexivity.
  - cbn [forallb] in Hall. apply andb_true_iff in Hall as [Hc Hall].
    cbn [more_choices fold_right append]. fold (more_choices choices).
    rewrite append_assoc.
    destruct fuel as [|fuel]; [simpl in Hfuel; lia|].
    cbn [Pyparsing.repeat].
    rewrite parse_comma_name by (try assumption; apply stops_more_choices).
    rewrite IH by (try assumption; simpl in Hfuel; lia).
    cbn [flat_map]. now rewrite <- app_assoc.
Qed.

Lemma parse_optional (e : ParserElement) (s : string) :
  parse true (Optional e) s =
  match parse true e s with
  | Some r => Some r
  | None => Some ([], skip_white s)
  end.
Proof. cbn [parse]. fold (preskip true s). now rewrite parse_preskip. Qed.

Lemma parse_one_or_more (e : ParserElement) (s : string) :
  parse true (OneOrMore e) s =
  match parse true e s with
  | Some (t1, r1) => Pyparsing.repeat (parse true e) (String.length r1) t1 r1
  | None => None
  end.
Proof. cbn [parse]. fold (preskip true s). now rewrite parse_preskip. Qed.

Lemma parse_choices (c : string) (choices : list string) (r : string) :
  identifier c = true -> forallb identifier choices = true ->
  parse true PcsNew.pp_choices (c ++ more_choices choices ++ String "}" r) =
  Some (c :: flat_map (fun c => [","; c]) choices, String "}" r).
Proof.
  intros Hc Hall. unfold PcsNew.pp_choices. rewrite parse_and.
  rewrite parse_name by (try assumption; apply stops_more_choices).
  rewrite parse_optional, parse_one_or_more.
  destruct choices as [|c' choices].
  - reflexivity.
  - cbn [forallb] in Hall. apply andb_true_iff in Hall as [Hc' Hall].
    cbn [more_choices fold_right append]. fold (more_choices choices).
    rewrite append_assoc.
    rewrite parse_comma_name by (try assumption; apply stops_more_choices).
    rewrite repeat_choices by (try assumption; apply more_choices_length).
    reflexivity.
Qed.

Lemma parse_param_type (r : string) :
  parse true PcsNew.pp_param_type (String " " ("categorical" ++ String " " r)) =
  Some (["categorical"], String " " r).
Proof.
  rewrite parse_space. unfold PcsNew.pp_param_type.
  now apply parse_word.
Qed.

Lemma parse_categorical (n c d : string) (choices : list string) :
  identifier n = true -> identifier c = true -> forallb identifier choices = true ->
  identifier d = true ->
  parseString PcsNew.pp_cat_param (PcsNew.build_categorical n (c :: choices) d) =
  Some (categorical_tokens n c d choices).
Proof.
  intros Hn Hc Hall Hd. rewrite build_categorical_text.
  unfold parseString, PcsNew.pp_cat_param. rewrite !parse_and.
  rewrite parse_name by (assumption || reflexivity).
  rewrite parse_param_type.
  change (parse true (Literal "{") (String " " (String "{" ?x)))
    with (Some (["{"], x)).
  cbv beta iota.
  rewrite parse_choices by assumption.
  change (parse true (Literal "}") (String "}" ?x)) with (Some (["}"], x)).
  cbv beta iota.
  change (parse true (Literal "[") (String " " (String "[" ?x)))
    with (Some (["["], x)).
  cbv beta iota.
  rewrite parse_name by (assumption || reflexivity).
  change (parse true (Literal "]") (String "]" ?x)) with (Some (["]"], x)).
  cbv beta iota. unfold categorical_tokens.
  cbn [app]. now rewrite <- !app_assoc.
Qed.

Lemma parse_categorical_not_continuous (n c d : string) (choices : list string) :
  identifier n = true ->
  parseString PcsNew.pp_cont_param (PcsNew.build_categorical n (c :: choices) d) = None.
Proof.
  intros Hn. rewrite build_categorical_text.
  apply parseString_none. unfold PcsNew.pp_cont_param.
  do 8 apply and_none. rewrite !parse_and.
  rewrite parse_name by (assumption || reflexivity).
  rewrite parse_param_type. reflexivity.
Qed.

(** ** Slices and indices of a token list *)

Lemma slice_middle {A} (pre mid post : list A) (k : nat) :
  post <> [] ->
  Py.slice (pre ++ mid ++ post)%list (Some (Z.of_nat (List.length pre)))
    (Some (- Z.of_nat (List.length post))%Z) k = Py.every k 0 mid.
Proof.
  intros Hpost. unfold Py.slice, Py.clip. cbv zeta.
  rewrite !length_app.
  assert (Hq : 0 < List.length post) by (destruct post; [contradiction | simpl; lia]).
  destruct (Z.ltb_spec (Z.of_nat (List.length pre)) 0) as [|_]; [lia|].
  destruct (Z.ltb_spec (- Z.of_nat (List.length post)) 0) as [_|]; [|lia].
  replace (Z.to_nat (Z.max 0 (Z.min (Z.of_nat (List.length pre)) _)))
    with (List.length pre) by lia.
  replace (Z.to_nat (Z.max 0 (Z.min _ _)))
    with (List.length pre + List.length mid) by lia.
  rewrite skipn_app, Nat.sub_diag, skipn_all, skipn_O, app_nil_l.
  replace (List.length pre + List.length mid - List.length pre)
    with (List.length mid + 0) by lia.
  rewrite firstn_app_2, firstn_O, app_nil_r. reflexivity.
Qed.

Lemma index_last_but_one {A} (front : list A) (x y : A) :
  Py.index (front ++ [x; y])%list (-2) = Some x.
Proof.
  unfold Py.index. cbv zeta. rewrite length_app. cbn [List.length].
  destruct (Z.ltb_spec (-2) 0) as [_|]; [|lia].
  destruct (Z.ltb_spec (-2 + Z.of_nat (List.length front + 2)) 0) as [|_]; [lia|].
  replace (Z.to_nat (-2 + Z.of_nat (List.length front + 2))) with (List.length front + 0)
    by lia.
  now rewrite nth_error_app2, Nat.add_comm, Nat.add_sub by lia.
Qed.

Lemma every_other_choice (choices : list string) :
  Py.every 2 1 (flat_map (fun c => [","; c]) choices) = choices.
Proof.
  induction choices as [|c choices IH]; [reflexivity|].
  cbn [flat_map app Py.every Nat.sub]. now rewrite IH.
Qed.

Lemma categorical_tokens_choices (n c d : string) (choices : list string) :
  Py.slice (categorical_tokens n c d choices) (Some 3%Z) (Some (-4)%Z) 2 = c :: choices.
Proof.
  unfold categorical_tokens.
  rewrite (slice_middle [n; "categorical"; "{"] _ ["}"; "["; d; "]"] 2) by discriminate.
  cbn [Py.every Nat.sub]. now rewrite every_other_choice.
Qed.

Lemma categorical_tokens_default (n c d : string) (choices : list string) :
  Py.index (categorical_tokens n c d choices) (-2) = Some d.
Proof.
  unfold categorical_tokens.
  replace ([n; "categorical"; "{"] ++
           (c :: flat_map (fun c0 => [","; c0]) choices) ++ ["}"; "["; d; "]"])%list
    with (([n; "categorical"; "{"] ++
           (c :: flat_map (fun c0 => [","; c0]) choices) ++ ["}"; "["]) ++ [d; "]"])%list
    by (now rewrite <- !app_assoc).
  apply index_last_but_one.
Qed.

Lemma default_is_identifier (d : string) (choices : list string) :
  forallb identifier choices = true -> existsb (String.eqb d) choices = true ->
  identifier d = true.
Proof.
  intros Hall Hd. apply existsb_exists in Hd as (x & Hx & He).
  apply String.eqb_eq in He. subst x. rewrite forallb_forall in Hall. now apply Hall.
Qed.

(** The second [try] block reads a written plain categorical declaration
    back. *)
Lemma try_categorical_written (n d : string) (choices : list string)
    (param : option Hyperparameter) :
  plain_categorical (Categorical n choices d) = true ->
  PcsNew.try_categorical (PcsNew.build_categorical n choices d) param =
  Ok (Some (Categorical n choices d)).
Proof.
  unfold plain_categorical. intros H.
  apply andb_true_iff in H as [H Hd]. apply andb_true_iff in H as [Hn Hall].
  pose proof (default_is_identifier d choices Hall Hd) as Hid.
  destruct choices as [|c choices]; [discriminate|].
  cbn [forallb] in Hall. apply andb_true_iff in Hall as [Hc Hall].
  unfold PcsNew.try_categorical.
  rewrite parse_categorical by assumption.
  rewrite categorical_tokens_choices, categorical_tokens_default.
  cbn [or_raise bind Py.index categorical_tokens app].
  change (Py.index (n :: ?l) 0) with (Some n). cbn [or_raise bind].
  unfold CategoricalHyperparameter. now rewrite Hd.
Qed.

(** ** Writing then reading a categorical declaration *)

Lemma all_chars_join (p : ascii -> bool) (sep : string) (parts : list string) :
  all_chars p sep = true -> forallb (all_chars p) parts = true ->
  all_chars p (Py.join sep parts) = true.
Proof.
  intros Hsep. induction parts as [|x parts IH]; [reflexivity|].
  cbn [forallb]. intros H. apply andb_true_iff in H as [Hx Hparts].
  destruct parts as [|y parts]; [exact Hx|].
  rewrite join_cons, !all_chars_append, Hx, Hsep. now apply IH.
Qed.

Lemma identifier_declaration_chars (w : string) :
  identifier w = true -> all_chars declaration_char w = true.
Proof.
  intros H. apply identifier_spec in H as (_ & H & _).
  revert H. apply all_chars_impl. exact name_char_declaration.
Qed.

Lemma declaration_chars (n d : string) (choices : list string) :
  plain_categorical (Categorical n choices d) = true ->
  all_chars declaration_char (PcsNew.build_categorical n choices d) = true.
Proof.
  unfold plain_categorical. intros H.
  apply andb_true_iff in H as [H Hd]. apply andb_true_iff in H as [Hn Hall].
  pose proof (default_is_identifier d choices Hall Hd) as Hid.
  unfold PcsNew.build_categorical. rewrite !all_chars_append.
  rewrite (identifier_declaration_chars n Hn), (identifier_declaration_chars d Hid).
  rewrite all_chars_join; [reflexivity | reflexivity |].
  apply forallb_forall. intros x Hx. apply identifier_declaration_chars.
  rewrite forallb_forall in Hall. now apply Hall.
Qed.

Lemma startswith_nil (s : string) : Py.startswith s "" = true.
Proof. now destruct s. Qed.

(** A written plain categorical declaration is a line the reader leaves
    as it is and classifies as a parameter declaration. *)
Lemma declaration_line (n d : string) (choices : list string) :
  plain_categorical (Categorical n choices d) = true ->
  let line := PcsNew.build_categorical n choices d in
  PcsNew.clean line = line
  /\ Py.char_in Py.nl line = false
  /\ Py.char_in "|" line = false
  /\ Py.char_in "}" line = true
  /\ Py.startswith line "{" = false.
Proof.
  intros H line. pose proof (declaration_chars n d choices H) as Hchars.
  fold line in Hchars.
  assert (Habsent : forall x, declaration_char x = false -> Py.char_in x line = false)
    by (intros x; now apply char_not_in_word).
  unfold plain_categorical in H.
  apply andb_true_iff in H as [H Hd]. apply andb_true_iff in H as [Hn Hall].
  apply identifier_spec in Hn as (Hne & _ & _ & Hsp & Hst).
  repeat split.
  - unfold PcsNew.clean. rewrite (Habsent "#"%char eq_refl).
    rewrite (remove_char_absent Py.dquote line) by (apply Habsent; reflexivity).
    rewrite (remove_char_absent Py.squote line) by (apply Habsent; reflexivity).
    apply strip_stops.
    + subst line. unfold PcsNew.build_categorical.
      destruct n; [contradiction | exact Hsp].
    + subst line. unfold PcsNew.build_categorical.
      rewrite <- !append_assoc, rev_string_app. reflexivity.
  - now apply Habsent.
  - now apply Habsent.
  - subst line. unfold PcsNew.build_categorical.
    rewrite !char_in_append. cbn. now rewrite !orb_true_r.
  - subst line. unfold PcsNew.build_categorical.
    destruct n as [|a n]; [contradiction|].
    cbn [append Py.startswith] in Hst |- *.
    rewrite startswith_nil in Hst |- *. exact Hst.
Qed.

Lemma lookup_absent (n : string) (hps : list Hyperparameter) :
  ~ In n (map name hps) -> lookup n hps = None.
Proof.
  induction hps as [|hp hps IH]; [reflexivity|]. simpl. intros H.
  destruct (String.eqb_spec (name hp) n) as [E|_]; [elim H; now left|].
  apply IH. intros Hin. apply H. now right.
Qed.

Lemma read_line_written (st : PcsNew.read_state) (hp : Hyperparameter) :
  plain_categorical hp = true ->
  ~ In (name hp) (map name (get_hyperparameters (PcsNew.configuration_space st))) ->
  PcsNew.read_line st (declaration hp) =
  Ok (PcsNew.mkState
        (mkSpace (get_hyperparameters (PcsNew.configuration_space st) ++ [hp])
           (get_conditions (PcsNew.configuration_space st))
           (forbidden_clauses (PcsNew.configuration_space st)))
        (PcsNew.conditions st) (PcsNew.forbidden st)).
Proof.
  intros Hp Hnew. destruct hp as [| n choices d |]; try discriminate.
  cbn [declaration name] in *.
  destruct (declaration_line n d choices Hp) as (Hclean & _ & Hbar & Hbrace & Hstart).
  rewrite pcs_read_line_classify, Hclean. unfold pcs_classify.
  rewrite Hbar, Hbrace, Hstart. cbn [negb andb].
  pose proof (try_categorical_written n d choices None Hp) as Htry.
  unfold plain_categorical in Hp.
  apply andb_true_iff in Hp as [Hp Hd]. apply andb_true_iff in Hp as [Hn Hall].
  pose proof (default_is_identifier d choices Hall Hd) as Hid.
  destruct choices as [|c rest]; [discriminate|].
  cbn [forallb] in Hall. apply andb_true_iff in Hall as [Hc Hall].
  rewrite (parse_categorical_not_continuous n c d rest Hn).
  rewrite (parse_categorical n c d rest Hn Hc Hall Hid), Htry.
  cbn [bind pcs_declare]. unfold add_hyperparameter. cbn [name].
  now rewrite (lookup_absent n _ Hnew).
Qed.

Lemma fold_join_sep {A} (sep : string) (f : A -> string) (rest : list A)
    (pre t : string) :
  fold_left (fun b a => b ++ sep ++ f a) rest (pre ++ t) =
  pre ++ Py.join sep (t :: map f rest).
Proof.
  revert t; induction rest as [|a rest IH]; intros t; [reflexivity|].
  cbn [fold_left map]. rewrite append_assoc, IH, join_cons, !join_prepend.
  reflexivity.
Qed.

Lemma declaration_not_empty (hp : Hyperparameter) :
  plain_categorical hp = true -> 0 < String.length (declaration hp).
Proof.
  destruct hp as [| n choices d |]; try discriminate. intros _.
  cbn [declaration]. unfold PcsNew.build_categorical.
  rewrite !length_append. simpl. lia.
Qed.

Lemma name_check_passes (n : string) :
  identifier n = true -> parseString PcsNew.pp_param_name n <> None.
Proof.
  intros H. unfold parseString.
  rewrite <- (append_nil_r n), parse_name by (assumption || reflexivity).
  discriminate.
Qed.




Lemma read_written_lines (hps2 hps1 : list Hyperparameter) :
  forallb plain_categorical hps2 = true -> NoDup (map name (hps1 ++ hps2)) ->
  for_each PcsNew.read_line (map declaration hps2)
    (PcsNew.mkState (mkSpace hps1 [] []) [] []) =
  Ok (PcsNew.mkState (mkSpace (hps1 ++ hps2) [] []) [] []).
Proof.
  revert hps1; induction hps2 as [|hp hps2 IH]; intros hps1 Hall Hnd.
  - simpl. now rewrite app_nil_r.
  - cbn [forallb] in Hall. apply andb_true_iff in Hall as [Hp Hall].
    cbn [map for_each]. rewrite read_line_written; [|assumption|].
    + cbn [bind PcsNew.configuration_space get_hyperparameters get_conditions
           forbidden_clauses PcsNew.conditions PcsNew.forbidden].
      rewrite IH; [now rewrite <- app_assoc | assumption |].
      now rewrite <- app_assoc.
    + cbn [PcsNew.configuration_space get_hyperparameters].
      rewrite map_app in Hnd. cbn [map] in Hnd.
      apply NoDup_remove_2 in Hnd. intros Hin. apply Hnd.
      apply in_or_app. now left.
Qed.

(** ** The round trip *)




(** ** The order of the classification *)

(** C3, amended. In both dialects the loop body classifies the cleaned line
    in the order of section 4.3: a line with [|] is a condition, or
    [UnparsableConditionError]; else a line with neither [}] nor []] is
    skipped; else a line wrapped in braces is a deferred forbidden clause;
    else it is a parameter declaration, continuous if the continuous
    grammar matches, else categorical if the categorical grammar matches,
    else [UnparsableParameterError]. A grammar matches when it matches
    the start of the line: what follows the match is not looked at. *)
Theorem read_line_classification :
  (forall st line, PcsNew.read_line st line = pcs_classify st (PcsNew.clean line))
  /\ (forall st line, Irace.read_line st line = irace_classify st (Irace.clean line)).
Proof. split; [exact pcs_read_line_classify | exact irace_read_line_classify]. Qed.

(** C3 as stated fails: neither grammar matches the whole of these lines,
    and [read] declares the parameter of the part that matches. *)
Lemma trailing_text_is_ignored :
  matches_all PcsNew.pp_cont_param "a real [0, 1] [0] zzz" = false
  /\ matches_all PcsNew.pp_cat_param "a real [0, 1] [0] zzz" = false
  /\ PcsNew.read ["a real [0, 1] [0] zzz"] =
     Ok (mkSpace [Continuous "a" 0 1 0 false false None] [] [])
  /\ matches_all Irace.pp_cont_param "a [0, 1] [0] zzz" = false
  /\ matches_all Irace.pp_cat_param "a [0, 1] [0] zzz" = false
  /\ Irace.read ["a [0, 1] [0] zzz"] =
     Ok (mkSpace [Continuous "a" 0 1 0 false false None] [] []).
Proof. repeat split; vm_compute; reflexivity. Qed.

(** ** Lines that raise and lines that are skipped *)


Lemma irace_unmarked_line_skipped (st : Irace.read_state) (line : string) :
  marked (Irace.clean line) = false -> Irace.read_line st line = Ok st.
Proof.
  rewrite irace_read_line_classify. unfold marked, irace_classify. intros H.
  apply orb_false_iff in H as [H H3]. apply orb_false_iff in H as [H1 H2].
  now rewrite H1, H2, H3.
Qed.




(* ===================================================================== *)
(** * Further properties of the two modules *)
(* ===================================================================== *)

(** ** Loops that raise, loops over a mapped list *)

Lemma for_each_raise_inv {A S} (body : S -> A -> result S) (P : exn -> Prop) :
  (forall st x e, body st x = Raise e -> P e) ->
  forall items st e, for_each body items st = Raise e -> P e.
Proof.
  intros Hb items. induction items as [|x items IH]; intros st e; cbn [for_each].
  - discriminate.
  - destruct (body st x) as [st'|e'] eqn:Hx; cbn [bind].
    + apply IH.
    + intros [= <-]. eapply Hb, Hx.
Qed.

Lemma for_each_ext {A S} (f g : S -> A -> result S) :
  (forall st x, f st x = g st x) ->
  forall items st, for_each f items st = for_each g items st.
Proof.
  intros H items. induction items as [|x items IH]; intros st; [reflexivity|].
  cbn [for_each]. rewrite H. destruct (g st x); cbn [bind]; [apply IH | reflexivity].
Qed.

Lemma for_each_map {A B S} (body : S -> B -> result S) (f : A -> B)
    (items : list A) (st : S) :
  for_each body (map f items) st = for_each (fun s x => body s (f x)) items st.
Proof.
  revert st; induction items as [|x items IH]; intros st; [reflexivity|].
  cbn [map for_each]. destruct (body st (f x)); cbn [bind]; [apply IH | reflexivity].
Qed.

Lemma for_each_replace {A S} (body : S -> A -> result S) (pre post : list A)
    (x y : A) (st : S) :
  (forall st1, body st1 x = body st1 y) ->
  for_each body (pre ++ x :: post) st = for_each body (pre ++ y :: post) st.
Proof.
  intros H. rewrite !for_each_app.
  destruct (for_each body pre st) as [st1|e]; cbn [bind for_each]; [|reflexivity].
  now rewrite H.
Qed.

(** ** The name check of the writers *)

Lemma word_check (chars n : string) :
  parseString (Word chars) n = None <-> starts_with_one_of chars n = false.
Proof.
  unfold parseString, starts_with_one_of. cbn [parse].
  destruct (skip_white n) as [|c s]; cbn [Py.span].
  - split; reflexivity.
  - destruct (Py.char_in c chars).
    + destruct (Py.span _ s) as [w r]. split; discriminate.
    + split; reflexivity.
Qed.

Lemma pcs_write_hyperparameter_check (buf : string) (hp : Hyperparameter) :
  if starts_with_one_of (word_chars PcsNew.pp_param_name) (name hp)
  then exists text, PcsNew.write_hyperparameter buf hp = Ok text
  else PcsNew.write_hyperparameter buf hp = Raise (IllegalNameError (name hp)).
Proof.
  unfold PcsNew.write_hyperparameter.
  destruct (starts_with_one_of _ _) eqn:H.
  - destruct (parseString PcsNew.pp_param_name (name hp)) eqn:Hp.
    + destruct hp; eauto.
    + apply (word_check (word_chars PcsNew.pp_param_name)) in Hp. congruence.
  - apply (word_check (word_chars PcsNew.pp_param_name)) in H.
    change (Word (word_chars PcsNew.pp_param_name)) with PcsNew.pp_param_name in H.
    now rewrite H.
Qed.

Lemma irace_write_hyperparameter_check (buf : string) (hp : Hyperparameter) :
  if starts_with_one_of (word_chars Irace.pp_param_name) (name hp)
  then exists text, Irace.write_hyperparameter buf hp = Ok text
  else Irace.write_hyperparameter buf hp = Raise (IllegalNameError (name hp)).
Proof.
  unfold Irace.write_hyperparameter.
  destruct (starts_with_one_of _ _) eqn:H.
  - destruct (parseString Irace.pp_param_name (name hp)) eqn:Hp.
    + destruct hp; eauto.
    + apply (word_check (word_chars Irace.pp_param_name)) in Hp. congruence.
  - apply (word_check (word_chars Irace.pp_param_name)) in H.
    change (Word (word_chars Irace.pp_param_name)) with Irace.pp_param_name in H.
    now rewrite H.
Qed.

Lemma pcs_name_loop (hps : list Hyperparameter) (buf : string) :
  if existsb (fun hp => negb (starts_with_one_of (word_chars PcsNew.pp_param_name)
                                 (name hp))) hps
  then exists n, for_each PcsNew.write_hyperparameter hps buf = Raise (IllegalNameError n)
  else exists text, for_each PcsNew.write_hyperparameter hps buf = Ok text.
Proof.
  revert buf; induction hps as [|hp hps IH]; intros buf; cbn [existsb for_each].
  - now exists buf.
  - pose proof (pcs_write_hyperparameter_check buf hp) as H.
    destruct (starts_with_one_of _ (name hp)); cbn [negb orb].
    + destruct H as [text ->]. cbn [bind]. apply IH.
    + rewrite H. cbn [bind]. now exists (name hp).
Qed.

Lemma irace_name_loop (hps : list Hyperparameter) (buf : string) :
  if existsb (fun hp => negb (starts_with_one_of (word_chars Irace.pp_param_name)
                                 (name hp))) hps
  then exists n, for_each Irace.write_hyperparameter hps buf = Raise (IllegalNameError n)
  else exists text, for_each Irace.write_hyperparameter hps buf = Ok text.
Proof.
  revert buf; induction hps as [|hp hps IH]; intros buf; cbn [existsb for_each].
  - now exists buf.
  - pose proof (irace_write_hyperparameter_check buf hp) as H.
    destruct (starts_with_one_of _ (name hp)); cbn [negb orb].
    + destruct H as [text ->]. cbn [bind]. apply IH.
    + rewrite H. cbn [bind]. now exists (name hp).
Qed.

Lemma pcs_condition_loop_raises (conds : list Condition) (buf : string) (e : exn) :
  for_each PcsNew.write_condition conds buf = Raise e -> e = TypeError.
Proof.
  apply (for_each_raise_inv PcsNew.write_condition (fun e => e = TypeError)).
  clear. intros st c e.
  unfold PcsNew.write_condition, PcsNew.build_condition.
  destruct c as [| | ch p vs | |]; cbn [bind]; try discriminate.
  destruct (Py.join_values ", " vs); cbn [or_raise bind]; [discriminate|].
  now intros [= <-].
Qed.

Lemma irace_write_forbidden_loop (fs : list Forbidden) (acc : list string) :
  for_each Irace.write_forbidden fs acc = Ok (acc ++ flat_map expansion fs)%list.
Proof.
  revert acc; induction fs as [|f fs IH]; intros acc; cbn [for_each flat_map].
  - now rewrite app_nil_r.
  - unfold Irace.write_forbidden at 1.
    rewrite irace_expand_forbidden, expand_forbidden_spec. cbn [bind].
    rewrite IH, <- app_assoc. reflexivity.
Qed.

Lemma irace_condition_loop_raises (conds : list Condition) (buf : string) (e : exn) :
  for_each Irace.write_condition conds buf = Raise e ->
  forall n, e <> IllegalNameError n.
Proof.
  apply (for_each_raise_inv Irace.write_condition
           (fun e => forall n, e <> IllegalNameError n)).
  clear. intros st c e.
  unfold Irace.write_condition, Irace.build_condition.
  destruct c as [| | ch p vs | |]; cbn [bind]; try discriminate;
    try (intros [= <-]; discriminate).
  destruct (Py.join_values ", " vs); cbn [or_raise bind]; [discriminate|].
  intros [= <-]; discriminate.
Qed.

Lemma irace_splice_loop_raises (lines splitted : list string) (e : exn) :
  for_each Irace.splice_condition lines splitted = Raise e ->
  forall n, e <> IllegalNameError n.
Proof.
  apply (for_each_raise_inv Irace.splice_condition
           (fun e => forall n, e <> IllegalNameError n)).
  clear. intros st line e. unfold Irace.splice_condition.
  destruct (filter _ st) as [|t ts]; [intros [= <-]; discriminate|].
  destruct (Irace.list_index t st); cbn [or_raise bind]; [discriminate|].
  intros [= <-]; discriminate.
Qed.

Lemma irace_end_line_loop_raises (lines done : list string) (e : exn) :
  for_each Irace.end_line lines done = Raise e -> e = IndexError.
Proof.
  apply (for_each_raise_inv Irace.end_line (fun e => e = IndexError)).
  clear. intros st j e. unfold Irace.end_line.
  destruct (Py.last_char j); cbn [or_raise bind]; [discriminate|].
  now intros [= <-].
Qed.

(** X1. Both writers raise [IllegalNameError] exactly when some
    hyperparameter's name does not start, after leading white space, with a
    character of the name grammar: the check looks at no other character
    of the name. *)
Theorem illegal_name_iff_first_character (cs : ConfigurationSpace) :
  ((exists n, PcsNew.write cs = Raise (IllegalNameError n)) <->
   existsb (fun hp => negb (starts_with_one_of (word_chars PcsNew.pp_param_name)
                              (name hp)))
     (get_hyperparameters cs) = true)
  /\ ((exists n, Irace.write cs = Raise (IllegalNameError n)) <->
      existsb (fun hp => negb (starts_with_one_of (word_chars Irace.pp_param_name)
                                 (name hp)))
        (get_hyperparameters cs) = true).
Proof.
  split.
  - unfold PcsNew.write.
    pose proof (pcs_name_loop (get_hyperparameters cs) "") as H.
    destruct (existsb _ _).
    + destruct H as [n ->]. cbn [bind]. split; [reflexivity | now exists n].
    + destruct H as [text ->]. cbn [bind]. split; [|discriminate].
      intros [n H].
      destruct (for_each PcsNew.write_condition _ _) as [cl|e] eqn:Hc; cbn [bind] in H.
      * rewrite write_forbidden_loop in H. discriminate.
      * apply pcs_condition_loop_raises in Hc. congruence.
  - unfold Irace.write.
    pose proof (irace_name_loop (get_hyperparameters cs) "") as H.
    destruct (existsb _ _).
    + destruct H as [n ->]. cbn [bind]. split; [reflexivity | now exists n].
    + destruct H as [text ->]. cbn [bind]. split; [|discriminate].
      intros [n H].
      destruct (for_each Irace.write_condition _ _) as [cl|e] eqn:Hc; cbn [bind] in H.
      * rewrite irace_write_forbidden_loop in H. cbn [bind] in H.
        match type of H with
        | bind ?r _ = _ => destruct r as [sp|e] eqn:Hs
        end; cbn [bind] in H.
        -- destruct (for_each Irace.end_line sp []) as [done|e] eqn:He;
             cbn [bind] in H; [discriminate|].
           apply irace_end_line_loop_raises in He. congruence.
        -- destruct (Nat.ltb 0 (String.length cl)); [|discriminate].
           apply irace_splice_loop_raises with (n := n) in Hs. congruence.
      * apply irace_condition_loop_raises with (n := n) in Hc. congruence.
Qed.

(** ** Conditions as the explicit dialect writes them *)

Lemma pcs_write_condition_as_equals (buf : string) (c : Condition) :
  PcsNew.write_condition buf (as_equals c) = PcsNew.write_condition buf c.
Proof. destruct c; reflexivity. Qed.

(** X2. The explicit dialect's [write] writes a not-equals condition as it
    writes the equals condition on the same child, parent and value: the
    written text does not tell the two apart. *)
Theorem not_equals_is_written_as_equals (hps : list Hyperparameter)
    (conds : list Condition) (fs : list Forbidden) :
  PcsNew.write (mkSpace hps (map as_equals conds) fs) =
  PcsNew.write (mkSpace hps conds fs).
Proof.
  unfold PcsNew.write. cbn [get_hyperparameters get_conditions forbidden_clauses].
  rewrite for_each_map.
  rewrite (for_each_ext _ PcsNew.write_condition pcs_write_condition_as_equals).
  reflexivity.
Qed.

(** ** A space without hyperparameters *)

(** X3. Without hyperparameters and conditions, the compact dialect's
    [write] raises [IndexError], from the last character of an empty line,
    whatever the forbidden clauses; the explicit dialect's [write] returns
    the block of forbidden lines. *)
Theorem write_without_hyperparameters (fs : list Forbidden) :
  Irace.write (mkSpace [] [] fs) = Raise IndexError
  /\ PcsNew.write (mkSpace [] [] fs) = Ok (forbidden_block (flat_map expansion fs)).
Proof.
  split.
  - unfold Irace.write. cbn [get_hyperparameters get_conditions forbidden_clauses for_each bind].
    rewrite irace_write_forbidden_loop. reflexivity.
  - rewrite pcs_write_forbidden_block. reflexivity.
Qed.

(** ** What the compact dialect writes without conditions *)

Lemma irace_declaration_not_empty (hp : Hyperparameter) :
  0 < String.length (irace_declaration hp).
Proof.
  destruct hp as [n l u d i lg q | n choices d | n v]; cbn [irace_declaration].
  - unfold Irace.build_continuous. destruct i; rewrite !length_append; simpl; lia.
  - unfold Irace.build_categorical. rewrite !length_append. simpl. lia.
  - unfold Irace.build_constant. rewrite !length_append. simpl. lia.
Qed.

Lemma irace_write_hyperparameter_ok (buf : string) (hp : Hyperparameter) :
  irace_name_ok hp = true ->
  Irace.write_hyperparameter buf hp =
  Ok ((if Nat.ltb 0 (String.length buf) then buf ++ Py.str1 Py.nl else buf)
      ++ irace_declaration hp).
Proof.
  unfold irace_name_ok, Irace.write_hyperparameter.
  destruct (parseString Irace.pp_param_name (name hp)); [|discriminate].
  intros _. now destruct hp.
Qed.

Lemma irace_write_hyperparameters_from (hps : list Hyperparameter) (buf : string) :
  forallb irace_name_ok hps = true -> 0 < String.length buf ->
  for_each Irace.write_hyperparameter hps buf =
  Ok (fold_left (fun b hp => b ++ Py.str1 Py.nl ++ irace_declaration hp) hps buf).
Proof.
  revert buf; induction hps as [|hp hps IH]; intros buf Hall Hbuf; [reflexivity|].
  cbn [forallb] in Hall. apply andb_true_iff in Hall as [Hp Hall].
  cbn [for_each fold_left]. rewrite (irace_write_hyperparameter_ok buf hp Hp).
  destruct (Nat.ltb_spec 0 (String.length buf)) as [_|]; [|lia].
  cbn [bind]. rewrite IH; [now rewrite append_assoc | assumption |].
  rewrite !length_append. lia.
Qed.

Lemma irace_write_declarations (hps : list Hyperparameter) :
  forallb irace_name_ok hps = true ->
  for_each Irace.write_hyperparameter hps "" =
  Ok (Py.join (Py.str1 Py.nl) (map irace_declaration hps)).
Proof.
  destruct hps as [|hp hps]; [reflexivity|]. cbn [forallb]. intros Hall.
  apply andb_true_iff in Hall as [Hp Hall].
  cbn [for_each]. rewrite (irace_write_hyperparameter_ok "" hp Hp).
  cbn [String.length Nat.ltb Nat.leb bind].
  rewrite irace_write_hyperparameters_from;
    [| assumption | apply irace_declaration_not_empty].
  now rewrite (fold_join_sep (Py.str1 Py.nl) irace_declaration hps ""
                 (irace_declaration hp)).
Qed.

Lemma last_char_no_line_feed (l : string) :
  0 < String.length l -> Py.char_in Py.nl l = false ->
  exists c, Py.last_char l = Some c /\ Ascii.eqb c Py.nl = false.
Proof.
  induction l as [|c l IH]; cbn [String.length Py.char_in]; [lia|].
  intros _ H. apply orb_false_iff in H as [Hc Hl].
  destruct l as [|d l].
  - exists c. split; [reflexivity|]. now rewrite Ascii.eqb_sym.
  - destruct IH as (x & Hx & Hn); [cbn [String.length]; lia | assumption |].
    exists x. split; [|assumption]. cbn [Py.last_char]. exact Hx.
Qed.

Lemma end_lines (lines done : list string) :
  Forall (fun l => 0 < String.length l /\ Py.char_in Py.nl l = false) lines ->
  for_each Irace.end_line lines done =
  Ok (done ++ map (fun l => (l ++ Py.str1 Py.nl)%string) lines)%list.
Proof.
  intros H. revert done. induction H as [|l lines [Hl Hn] _ IH]; intros done.
  - cbn [for_each map]. now rewrite app_nil_r.
  - cbn [for_each map]. unfold Irace.end_line at 1.
    destruct (last_char_no_line_feed l Hl Hn) as (c & Hc & Hcn).
    rewrite Hc. cbn [or_raise bind]. rewrite Hcn, IH, <- app_assoc. reflexivity.
Qed.

Lemma concat_ended_lines (lines : list string) (buf : string) :
  fold_left (fun b l => b ++ l) (map (fun l => l ++ Py.str1 Py.nl) lines) buf =
  buf ++ lines_text lines.
Proof.
  revert buf; induction lines as [|l lines IH]; intros buf; cbn [map fold_left lines_text].
  - now rewrite append_nil_r.
  - rewrite IH, !append_assoc. reflexivity.
Qed.

Lemma irace_end_of_write (lines : list string) :
  lines <> [] ->
  Forall (fun l => 0 < String.length l /\ Py.char_in Py.nl l = false) lines ->
  bind (for_each Irace.end_line (Py.split Py.nl (Py.join (Py.str1 Py.nl) lines)) [])
    (fun splitted_params => Ok (fold_left (fun buf l => buf ++ l) splitted_params ""))
  = Ok (lines_text lines).
Proof.
  intros Hne Hlines.
  rewrite split_join;
    [| exact Hne | eapply Forall_impl; [|exact Hlines]; now intros l [_ H]].
  rewrite end_lines by exact Hlines.
  cbn [bind app]. now rewrite concat_ended_lines.
Qed.

Lemma irace_declarations_plain (hps : list Hyperparameter) :
  forallb (fun hp => negb (Py.char_in Py.nl (irace_declaration hp))) hps = true ->
  Forall (fun l => 0 < String.length l /\ Py.char_in Py.nl l = false)
    (map irace_declaration hps).
Proof.
  intros Hnl. apply Forall_forall. intros l Hin.
  apply in_map_iff in Hin as (hp & <- & Hin).
  split; [apply irace_declaration_not_empty|].
  rewrite forallb_forall in Hnl. apply negb_true_iff. now apply Hnl.
Qed.

(** X4. For a space with at least one hyperparameter and no condition, whose
    names pass the name check and whose declarations hold no line feed, the
    compact dialect's [write] returns the declarations in order, each
    ended by a line feed, and nothing else. *)
Theorem irace_write_declarations_only (hps : list Hyperparameter)
    (fs : list Forbidden) :
  hps <> [] ->
  forallb irace_name_ok hps = true ->
  forallb (fun hp => negb (Py.char_in Py.nl (irace_declaration hp))) hps = true ->
  Irace.write (mkSpace hps [] fs) = Ok (lines_text (map irace_declaration hps)).
Proof.
  intros Hne Hnames Hnl. unfold Irace.write.
  cbn [get_hyperparameters get_conditions forbidden_clauses].
  rewrite (irace_write_declarations hps Hnames). cbn [bind for_each].
  rewrite irace_write_forbidden_loop. cbn [bind String.length Nat.ltb Nat.leb].
  apply irace_end_of_write; [now destruct hps | now apply irace_declarations_plain].
Qed.

(** X4, at the space of the two example hyperparameters. *)
Lemma irace_write_declarations_only_witness :
  Irace.write (mkSpace [hp_a; hp_b] [] [example_clause]) =
  Ok (lines_text (map irace_declaration [hp_a; hp_b])).
Proof.
  apply (irace_write_declarations_only [hp_a; hp_b] [example_clause]).
  - discriminate.
  - reflexivity.
  - reflexivity.
Defined.

(** ** The compact reader on the compact writer's text *)

Lemma absent_after_before_char (c d : ascii) (s : string) :
  Py.char_in c s = false -> Py.char_in c (Py.before_char d s) = false.
Proof.
  induction s as [|x s IH]; cbn [Py.char_in Py.before_char]; [reflexivity|].
  intros H. apply orb_false_iff in H as [Hx Hs].
  destruct (Ascii.eqb x d); [reflexivity|]. cbn [Py.char_in]. now rewrite Hx, IH.
Qed.

Lemma absent_after_remove_char (c d : ascii) (s : string) :
  Py.char_in c s = false -> Py.char_in c (Py.remove_char d s) = false.
Proof.
  induction s as [|x s IH]; cbn [Py.char_in Py.remove_char]; [reflexivity|].
  intros H. apply orb_false_iff in H as [Hx Hs].
  destruct (Ascii.eqb x d); [now apply IH|]. cbn [Py.char_in]. now rewrite Hx, IH.
Qed.

Lemma absent_after_lstrip (c : ascii) (s : string) :
  Py.char_in c s = false -> Py.char_in c (Py.lstrip s) = false.
Proof.
  induction s as [|x s IH]; cbn [Py.lstrip]; [reflexivity|].
  intros H. destruct (Py.is_space x); [|exact H].
  cbn [Py.char_in] in H. apply orb_false_iff in H as [_ Hs]. now apply IH.
Qed.

Lemma absent_after_strip (c : ascii) (s : string) :
  Py.char_in c s = false -> Py.char_in c (Py.strip s) = false.
Proof.
  intros H. unfold Py.strip. rewrite char_in_rev_string. cbn [Py.char_in].
  rewrite orb_false_r. apply absent_after_lstrip. rewrite char_in_rev_string.
  cbn [Py.char_in]. rewrite orb_false_r. now apply absent_after_lstrip.
Qed.

Lemma absent_after_clean (c : ascii) (s : string) :
  Py.char_in c s = false -> Py.char_in c (Irace.clean s) = false.
Proof.
  intros H. unfold Irace.clean.
  apply absent_after_strip, absent_after_remove_char, absent_after_remove_char.
  destruct (Py.char_in "#" s); [now apply absent_after_before_char | exact H].
Qed.

Lemma marked_clean (l : string) :
  marked l = false -> marked (Irace.clean l) = false.
Proof.
  unfold marked. intros H.
  apply orb_false_iff in H as [H H3]. apply orb_false_iff in H as [H1 H2].
  now rewrite !absent_after_clean.
Qed.

Lemma split_lines_text (lines : list string) :
  Forall (fun l => Py.char_in Py.nl l = false) lines ->
  Py.split Py.nl (lines_text lines) = (lines ++ [""])%list.
Proof.
  induction 1 as [|l lines Hl _ IH]; [reflexivity|].
  change (lines_text (l :: lines)) with (l ++ String Py.nl (lines_text lines)).
  now rewrite split_append, IH.
Qed.

Lemma irace_skip_unmarked (lines : list string) (st : Irace.read_state) :
  Forall (fun l => marked l = false) lines ->
  for_each Irace.read_line lines st = Ok st.
Proof.
  induction 1 as [|l lines Hl _ IH]; [reflexivity|].
  cbn [for_each].
  rewrite irace_unmarked_line_skipped by now apply marked_clean.
  cbn [bind]. exact IH.
Qed.

(** X5. The compact dialect does not read what it writes: for a space with
    at least one hyperparameter and no condition, whose names pass the name
    check and whose declarations hold no [|], [}], []] or line feed, [write]
    returns text, and [read] of the lines of that text skips every one of
    them and returns the empty space. *)
Theorem irace_read_skips_written_text (hps : list Hyperparameter)
    (fs : list Forbidden) :
  hps <> [] ->
  forallb irace_name_ok hps = true ->
  forallb (fun hp => unmarked_line (irace_declaration hp)) hps = true ->
  exists text,
    Irace.write (mkSpace hps [] fs) = Ok text
    /\ Irace.read (Py.split Py.nl text) = Ok empty.
Proof.
  intros Hne Hnames Hun.
  assert (Hnl : forallb (fun hp => negb (Py.char_in Py.nl (irace_declaration hp))) hps
                = true).
  { apply forallb_forall. intros hp Hin. rewrite forallb_forall in Hun.
    specialize (Hun hp Hin). unfold unmarked_line in Hun.
    now apply andb_true_iff in Hun as [_ ->]. }
  exists (lines_text (map irace_declaration hps)). split.
  - unfold Irace.write. cbn [get_hyperparameters get_conditions forbidden_clauses].
    rewrite (irace_write_declarations hps Hnames). cbn [bind for_each].
    rewrite irace_write_forbidden_loop. cbn [bind String.length Nat.ltb Nat.leb].
    apply irace_end_of_write; [now destruct hps | now apply irace_declarations_plain].
  - rewrite split_lines_text.
    + unfold Irace.read. rewrite irace_skip_unmarked; [reflexivity|].
      apply Forall_app. split; [|now repeat constructor].
      apply Forall_forall. intros l Hin. apply in_map_iff in Hin as (hp & <- & Hin).
      rewrite forallb_forall in Hun. specialize (Hun hp Hin).
      unfold unmarked_line in Hun. apply andb_true_iff in Hun as [Hm _].
      now apply negb_true_iff.
    + apply Forall_forall. intros l Hin. apply in_map_iff in Hin as (hp & <- & Hin).
      rewrite forallb_forall in Hnl. apply negb_true_iff. now apply Hnl.
Qed.

(** X5, at the space of the two example hyperparameters. *)
Lemma irace_read_skips_written_text_witness :
  exists text,
    Irace.write (mkSpace [hp_a; hp_b] [] []) = Ok text
    /\ Irace.read (Py.split Py.nl text) = Ok empty.
Proof.
  apply (irace_read_skips_written_text [hp_a; hp_b] []).
  - discriminate.
  - reflexivity.
  - reflexivity.
Defined.

(** ** Comments *)

Lemma before_char_append (c : ascii) (l r : string) :
  Py.char_in c l = false -> Py.before_char c (l ++ String c r) = l.
Proof.
  induction l as [|x l IH]; cbn [Py.char_in Py.before_char append].
  - intros _. now rewrite Ascii.eqb_refl.
  - intros H. apply orb_false_iff in H as [Hx Hl].
    rewrite Ascii.eqb_sym, Hx. now rewrite IH.
Qed.

Lemma clean_comment (l r : string) :
  Py.char_in "#" l = false -> PcsNew.clean (l ++ String "#" r) = PcsNew.clean l.
Proof.
  intros H. unfold PcsNew.clean.
  rewrite char_in_append, H. cbn [Py.char_in orb].
  rewrite Ascii.eqb_refl. cbn [orb]. now rewrite before_char_append.
Qed.

(** X6. What follows the first [#] of a line is a comment: both readers
    return the same result, space or exception, when the text from the
    first [#] on is taken away from a line. *)
Theorem comment_is_ignored (pre post : list string) (l r : string) :
  Py.char_in "#" l = false ->
  PcsNew.read (pre ++ (l ++ String "#" r) :: post) = PcsNew.read (pre ++ l :: post)
  /\ Irace.read (pre ++ (l ++ String "#" r) :: post) = Irace.read (pre ++ l :: post).
Proof.
  intros H. split.
  - unfold PcsNew.read.
    rewrite (for_each_replace PcsNew.read_line pre post (l ++ String "#" r) l);
      [reflexivity|].
    intros st. unfold PcsNew.read_line. now rewrite clean_comment.
  - unfold Irace.read.
    rewrite (for_each_replace Irace.read_line pre post (l ++ String "#" r) l);
      [reflexivity|].
    intros st. unfold Irace.read_line.
    change Irace.clean with PcsNew.clean. now rewrite clean_comment.
Qed.

(** X6, at a declaration followed by a comment. *)
Lemma comment_is_ignored_witness :
  PcsNew.read (["a categorical {1, 2} [1] # the first"] ++ [])
  = PcsNew.read (["a categorical {1, 2} [1] "] ++ [])
  /\ Irace.read (["a categorical {1, 2} [1] # the first"] ++ [])
     = Irace.read (["a categorical {1, 2} [1] "] ++ []).
Proof.
  apply (comment_is_ignored [] [] "a categorical {1, 2} [1] " " the first").
  reflexivity.
Defined.

(** ** The tokens a grammar gives *)

Lemma parse_match_first (ws : bool) (a b : ParserElement) (s : string) :
  parse ws (MatchFirst a b) s =
  match parse ws a s with
  | Some r => Some r
  | None => parse ws b s
  end.
Proof. cbn [parse]. fold (preskip ws s). now rewrite !parse_preskip. Qed.

Lemma parse_optional_any (ws : bool) (e : ParserElement) (s : string) :
  parse ws (Optional e) s =
  match parse ws e s with
  | Some r => Some r
  | None => Some ([], preskip ws s)
  end.
Proof. cbn [parse]. fold (preskip ws s). now rewrite parse_preskip. Qed.

Lemma parse_combine (ws : bool) (e : ParserElement) (s : string) :
  parse ws (Combine e) s =
  match parse false e (preskip ws s) with
  | Some (t1, r1) => Some ([Py.join "" t1], r1)
  | None => None
  end.
Proof. reflexivity. Qed.

Lemma literal_token (ws : bool) (lit s : string) (t : ParseResults) (r : string) :
  parse ws (Literal lit) s = Some (t, r) -> t = [lit].
Proof.
  cbn [parse]. destruct (after_prefix _ _); [now intros [= <- _] | discriminate].
Qed.

Lemma word_token (ws : bool) (chars s : string) (t : ParseResults) (r : string) :
  parse ws (Word chars) s = Some (t, r) -> exists w, t = [w].
Proof.
  cbn [parse]. destruct (Py.span _ _) as [w r']. destruct w; [discriminate|].
  intros [= <- _]. eauto.
Qed.

Lemma combine_token (ws : bool) (e : ParserElement) (s : string)
    (t : ParseResults) (r : string) :
  parse ws (Combine e) s = Some (t, r) -> exists w, t = [w].
Proof.
  rewrite parse_combine. destruct (parse false e _) as [[t1 r1]|]; [|discriminate].
  intros [= <- _]. eauto.
Qed.

Lemma numberorname_token (s : string) (t : ParseResults) (r : string) :
  parse true PcsNew.pp_numberorname s = Some (t, r) -> exists w, t = [w].
Proof.
  unfold PcsNew.pp_numberorname, PcsNew.pp_number. rewrite !parse_match_first.
  destruct (parse true PcsNew.pp_e_notation s) as [x|] eqn:H1.
  { intros [= ->]. eapply combine_token, H1. }
  destruct (parse true PcsNew.pp_float s) as [x|] eqn:H2.
  { intros [= ->]. eapply combine_token, H2. }
  destruct (parse true PcsNew.pp_int s) as [x|] eqn:H3.
  { intros [= ->]. eapply combine_token, H3. }
  apply word_token.
Qed.

Lemma and_tokens (ws : bool) (a b : ParserElement) (s : string)
    (t : ParseResults) (r : string) :
  parse ws (a + b)%pp s = Some (t, r) ->
  exists t1 r1 t2,
    parse ws a s = Some (t1, r1) /\ parse ws b r1 = Some (t2, r)
    /\ t = (t1 ++ t2)%list.
Proof.
  rewrite parse_and. destruct (parse ws a s) as [[t1 r1]|]; [|discriminate].
  destruct (parse ws b r1) as [[t2 r2]|] eqn:Hb; [|discriminate].
  intros [= <- <-]. now exists t1, r1, t2.
Qed.

Lemma atom_tokens (p : ParserElement) (s : string) (t : ParseResults) (r : string) :
  parse true (p + PcsNew.pp_param_name + "=" + PcsNew.pp_numberorname)%pp s = Some (t, r) ->
  exists t0 r0 n v, parse true p s = Some (t0, r0) /\ t = (t0 ++ [n; "="; v])%list.
Proof.
  intros H.
  apply and_tokens in H as (t1 & r1 & t2 & H1 & H2 & ->).
  apply and_tokens in H1 as (t3 & r3 & t4 & H3 & H4 & ->).
  apply and_tokens in H3 as (t5 & r5 & t6 & H5 & H6 & ->).
  apply numberorname_token in H2 as [v ->].
  apply literal_token in H4 as ->.
  apply word_token in H6 as [n ->].
  exists t5, r5, n, v. split; [exact H5|]. now rewrite <- !app_assoc.
Qed.

Lemma repeat_tokens (p : string -> option (ParseResults * string)) (fuel : nat)
    (acc : ParseResults) (s : string) (t : ParseResults) (r : string) :
  Pyparsing.repeat p fuel acc s = Some (t, r) ->
  exists groups,
    t = (acc ++ concat groups)%list
    /\ Forall (fun g => exists s1 r1, p s1 = Some (g, r1)) groups.
Proof.
  revert acc s; induction fuel as [|fuel IH]; intros acc s; cbn [Pyparsing.repeat].
  - destruct (p s) as [[toks r1]|]; [discriminate|]. intros [= <- _].
    exists []. cbn [concat]. now rewrite app_nil_r.
  - destruct (p s) as [[toks r1]|] eqn:Hp.
    + intros H. apply IH in H as (groups & -> & Hall).
      exists (toks :: groups). cbn [concat]. rewrite <- app_assoc. split; [reflexivity|].
      constructor; [now exists s, r1 | assumption].
    + intros [= <- _]. exists []. cbn [concat]. now rewrite app_nil_r.
Qed.

Lemma further_atoms_tokens (groups : list ParseResults) :
  Forall (fun g => exists s1 r1,
            parse true ("," + PcsNew.pp_param_name + "=" + PcsNew.pp_numberorname)%pp s1
            = Some (g, r1)) groups ->
  exists rest : list (string * string),
    groups = map (fun a => [","; fst a; "="; snd a]) rest.
Proof.
  induction 1 as [|g groups (s1 & r1 & Hg) _ (rest & ->)]; [now exists []|].
  apply atom_tokens in Hg as (t0 & r0 & n & v & H0 & ->).
  apply literal_token in H0 as ->.
  now exists ((n, v) :: rest).
Qed.

Lemma clause_tokens_groups (a : string * string) (rest : list (string * string)) :
  ([fst a; "="; snd a]
   ++ concat (map (fun a => [","; fst a; "="; snd a]) rest) ++ ["}"])%list
  = clause_tokens_from a rest.
Proof.
  revert a; induction rest as [|b rest IH]; intros a; [reflexivity|].
  cbn [map concat clause_tokens_from app]. do 4 f_equal. apply (IH b).
Qed.

Lemma forbidden_clause_tokens (s : string) (toks : ParseResults) :
  parseString PcsNew.pp_forbidden_clause s = Some toks ->
  exists a rest, toks = "{" :: clause_tokens_from a rest.
Proof.
  unfold parseString.
  destruct (parse true PcsNew.pp_forbidden_clause s) as [[t r]|] eqn:H; [|discriminate].
  intros [= <-]. unfold PcsNew.pp_forbidden_clause in H.
  apply and_tokens in H as (t1 & r1 & t2 & H1 & H2 & ->).
  apply literal_token in H2 as ->.
  apply and_tokens in H1 as (t3 & r3 & t4 & H3 & H4 & ->).
  apply atom_tokens in H3 as (t0 & r0 & n & v & H0 & ->).
  apply literal_token in H0 as ->.
  assert (Hopt : exists rest : list (string * string),
             t4 = concat (map (fun a => [","; fst a; "="; snd a]) rest)).
  { rewrite parse_optional in H4. rewrite parse_one_or_more in H4.
    destruct (parse true _ r3) as [[g1 rg]|] eqn:Hg.
    - destruct (Pyparsing.repeat _ _ g1 rg) as [[tt rr]|] eqn:Hrep.
      + injection H4 as <- _.
        apply repeat_tokens in Hrep as (groups & -> & Hall).
        destruct (further_atoms_tokens (g1 :: groups)) as [rest Hrest].
        { constructor; [now exists r3, rg | assumption]. }
        exists rest. rewrite <- Hrest. reflexivity.
      + injection H4 as <- _. now exists [].
    - injection H4 as <- _. now exists []. }
  destruct Hopt as [rest ->].
  exists (n, v), rest. rewrite <- clause_tokens_groups.
  cbn [fst snd app]. reflexivity.
Qed.

(** ** The loop over the tokens of a forbidden clause *)

Lemma every_one {A} (l : list A) : Py.every 1 0 l = l.
Proof. induction l as [|x l IH]; [reflexivity|]. cbn [Py.every Nat.sub]. now rewrite IH. Qed.

Lemma slice_tail {A} (x : A) (l : list A) : Py.slice (x :: l) (Some 1%Z) None 1 = l.
Proof.
  unfold Py.slice, Py.clip. cbn [List.length].
  replace (Z.to_nat _) with 1 by (cbn [Z.ltb Z.compare]; lia).
  replace (S (List.length l) - 1) with (List.length l) by lia.
  cbn [skipn]. now rewrite firstn_all, every_one.
Qed.

Lemma forbidden_atom_step (cs : ConfigurationSpace) (n v x : string)
    (more : list string) (clauses : list Forbidden) :
  for_each (PcsNew.forbidden_token cs) ([n; "="; v; x] ++ more) ([], clauses) =
  bind (read_atom cs (n, v))
    (fun leaf => for_each (PcsNew.forbidden_token cs) more ([], (clauses ++ [leaf])%list)).
Proof.
  rewrite for_each_app. unfold read_atom. cbn [fst snd].
  cbn -[get_hyperparameter].
  destruct (get_hyperparameter cs n); reflexivity.
Qed.

Lemma forbidden_tokens_loop (cs : ConfigurationSpace) (rest : list (string * string))
    (a : string * string) (clauses : list Forbidden) :
  for_each (PcsNew.forbidden_token cs) (clause_tokens_from a rest) ([], clauses) =
  bind (map_result (read_atom cs) (a :: rest))
    (fun leaves => Ok ([], (clauses ++ leaves)%list)).
Proof.
  revert a clauses; induction rest as [|b rest IH]; intros [n v] clauses.
  - change (clause_tokens_from (n, v) []) with ([n; "="; v; "}"] ++ [])%list.
    rewrite forbidden_atom_step. cbn [map_result for_each].
    destruct (read_atom cs (n, v)); reflexivity.
  - change (clause_tokens_from (n, v) (b :: rest))
      with ([n; "="; v; ","] ++ clause_tokens_from b rest)%list.
    rewrite forbidden_atom_step.
    change (map_result (read_atom cs) ((n, v) :: b :: rest))
      with (bind (read_atom cs (n, v))
              (fun y => bind (map_result (read_atom cs) (b :: rest))
                          (fun ys => Ok (y :: ys)))).
    destruct (read_atom cs (n, v)) as [leaf|e]; cbn [bind]; [|reflexivity].
    rewrite IH.
    destruct (map_result (read_atom cs) (b :: rest)) as [leaves|e]; cbn [bind];
      [|reflexivity].
    now rewrite <- app_assoc.
Qed.

Lemma read_atoms (cs : ConfigurationSpace) (l : list (string * string)) :
  match map_result (read_atom cs) l with
  | Ok leaves =>
      exists atoms : list (Hyperparameter * string),
        leaves = map text_equality atoms
        /\ map (fun a => (name (fst a), snd a)) atoms = l
        /\ Forall (fun a => lookup (name (fst a)) (get_hyperparameters cs) = Some (fst a))
             atoms
  | Raise e => exists n, e = UnknownNameError n
  end.
Proof.
  induction l as [|[n v] l IH]; cbn [map_result].
  - exists []. repeat split. constructor.
  - unfold read_atom at 1, get_hyperparameter. cbn [fst snd].
    destruct (lookup n (get_hyperparameters cs)) as [hp|] eqn:Hn;
      cbn [or_raise bind]; [|now exists n].
    destruct (map_result (read_atom cs) l) as [leaves|e]; cbn [bind]; [|exact IH].
    destruct IH as (atoms & -> & <- & Hall).
    pose proof (lookup_name n _ hp Hn) as Hname.
    exists ((hp, v) :: atoms). cbn [map fst snd]. rewrite Hname. repeat split.
    constructor; [cbn [fst]; now rewrite Hname | assumption].
Qed.

Lemma read_forbidden_tokens (cs : ConfigurationSpace) (clause : string)
    (a : string * string) (rest : list (string * string)) :
  parseString PcsNew.pp_forbidden_clause clause = Some ("{" :: clause_tokens_from a rest) ->
  PcsNew.read_forbidden cs clause =
  bind (map_result (read_atom cs) (a :: rest))
    (fun leaves => Ok (add_forbidden_clause cs (ForbiddenAndConjunction leaves))).
Proof.
  intros H. unfold PcsNew.read_forbidden. rewrite H. cbn [or_raise bind].
  rewrite slice_tail, forbidden_tokens_loop.
  destruct (map_result (read_atom cs) (a :: rest)); reflexivity.
Qed.

(** X7. The loop over the deferred forbidden clauses, in both dialects,
    either attaches to the space one AND-conjunction of one or more
    equalities, each between a hyperparameter of the space and the value
    as text, or raises: [ParseException] when the clause does not match the
    grammar, [UnknownNameError] when a name is not declared. It raises
    nothing else; the rejection of an operator other than [=] cannot be
    reached. *)
Theorem forbidden_clause_is_read_as_equalities (cs : ConfigurationSpace)
    (clause : string) :
  match PcsNew.read_forbidden cs clause with
  | Ok cs' =>
      exists atoms : list (Hyperparameter * string),
        atoms <> []
        /\ cs' = add_forbidden_clause cs (ForbiddenAndConjunction (map text_equality atoms))
        /\ Forall (fun a => lookup (name (fst a)) (get_hyperparameters cs) = Some (fst a))
             atoms
  | Raise e => e = ParseException \/ exists n, e = UnknownNameError n
  end
  /\ Irace.read_forbidden cs clause = PcsNew.read_forbidden cs clause.
Proof.
  split; [|reflexivity].
  destruct (parseString PcsNew.pp_forbidden_clause clause) as [toks|] eqn:Hp.
  - destruct (forbidden_clause_tokens clause toks Hp) as (a & rest & ->).
    rewrite (read_forbidden_tokens cs clause a rest Hp).
    pose proof (read_atoms cs (a :: rest)) as H.
    destruct (map_result (read_atom cs) (a :: rest)) as [leaves|e]; cbn [bind].
    + destruct H as (atoms & -> & Hl & Hall). exists atoms. repeat split; [|exact Hall].
      intros ->. discriminate.
    + now right.
  - unfold PcsNew.read_forbidden. rewrite Hp. now left.
Qed.

(** ** Values of a forbidden clause *)

Lemma preskip_stops (ws : bool) (s : string) :
  stops is_white s = true -> preskip ws s = s.
Proof. destruct ws; [apply skip_white_stops | reflexivity]. Qed.

Lemma literal_fails (ws : bool) (lit s : string) :
  after_prefix lit (preskip ws s) = None -> parse ws (Literal lit) s = None.
Proof. cbn [parse]. fold (preskip ws s). now intros ->. Qed.

Lemma word_any (ws : bool) (chars w r : string) :
  w <> "" ->
  all_chars (fun c => Py.char_in c chars) w = true ->
  stops is_white w = true ->
  stops (fun c => Py.char_in c chars) r = true ->
  parse ws (Word chars) (w ++ r) = Some ([w], r).
Proof.
  intros Hne Hw Hws Hr. cbn [parse]. fold (preskip ws (w ++ r)).
  rewrite preskip_stops by (destruct w; [contradiction | exact Hws]).
  rewrite span_app by assumption.
  destruct w; [contradiction | reflexivity].
Qed.

(** A text that does not start as a number does is no number. *)
Section NotANumber.
Variables (c : ascii) (s : string).
Hypothesis Hnumber : starts_number c = false.
Hypothesis Hwhite : is_white c = false.

Lemma number_start :
  Py.char_in c PcsNew.pp_digits = false
  /\ Ascii.eqb c "+" = false /\ Ascii.eqb c "-" = false /\ Ascii.eqb c "." = false.
Proof.
  unfold starts_number in Hnumber.
  change "0123456789+-." with (PcsNew.pp_digits ++ "+-.") in Hnumber.
  rewrite char_in_append in Hnumber.
  apply orb_false_iff in Hnumber as [Hd Hs]. split; [exact Hd|].
  cbn [Py.char_in] in Hs.
  repeat (apply orb_false_iff in Hs as [? Hs]). now repeat split.
Qed.

Lemma starts_unskipped (ws : bool) : preskip ws (String c s) = String c s.
Proof. apply preskip_stops. cbn [stops]. now rewrite Hwhite. Qed.

Lemma not_a_sign (ws : bool) : parse ws PcsNew.pp_plusorminus (String c s) = None.
Proof.
  destruct number_start as (_ & Hp & Hm & _).
  unfold PcsNew.pp_plusorminus. rewrite parse_match_first.
  rewrite !literal_fails; [reflexivity | |]; rewrite starts_unskipped;
    cbn [after_prefix]; [now rewrite Hm | now rewrite Hp].
Qed.

Lemma not_an_int (ws : bool) : parse ws PcsNew.pp_int (String c s) = None.
Proof.
  destruct number_start as (Hd & _).
  unfold PcsNew.pp_int. rewrite parse_combine, starts_unskipped.
  rewrite parse_and, parse_optional_any, not_a_sign, starts_unskipped.
  cbn [parse Py.span]. now rewrite Hd.
Qed.

Lemma not_a_float (ws : bool) : parse ws PcsNew.pp_float (String c s) = None.
Proof.
  destruct number_start as (_ & _ & _ & Hpoint).
  unfold PcsNew.pp_float. rewrite parse_combine, starts_unskipped.
  rewrite !parse_and, parse_optional_any, not_a_sign, starts_unskipped.
  cbv beta iota. rewrite parse_optional_any, not_an_int, starts_unskipped.
  cbv beta iota. rewrite literal_fails; [reflexivity|].
  rewrite starts_unskipped. cbn [after_prefix]. now rewrite Hpoint.
Qed.

Lemma not_a_number : parse true PcsNew.pp_number (String c s) = None.
Proof.
  unfold PcsNew.pp_number. rewrite !parse_match_first.
  rewrite not_a_float, not_an_int.
  unfold PcsNew.pp_e_notation. rewrite parse_combine, starts_unskipped.
  rewrite !parse_and. unfold PcsNew.pp_floatorint.
  now rewrite parse_match_first, not_a_float, not_an_int.
Qed.

End NotANumber.

Lemma digit_is_plain (d : ascii) :
  Py.char_in d PcsNew.pp_digits = true ->
  is_white d = false
  /\ Ascii.eqb d "+" = false /\ Ascii.eqb d "-" = false /\ Ascii.eqb d "." = false.
Proof.
  unfold PcsNew.pp_digits. cbn [Py.char_in]. intros H.
  repeat (apply orb_true_iff in H as [H|H]); try discriminate;
    apply Ascii.eqb_eq in H; subst; repeat split; reflexivity.
Qed.

(** A run of digits, followed by something that does not go on as a number
    does, is an integer. *)
Section Digits.
Variables (v r : string).
Hypothesis Hne : v <> "".
Hypothesis Hdigits : all_chars (fun c => Py.char_in c PcsNew.pp_digits) v = true.
Hypothesis Hend : stops (fun c => Py.char_in c "0123456789.eE") r = true.

Lemma digits_first :
  exists d v', v = String d v' /\ Py.char_in d PcsNew.pp_digits = true.
Proof.
  destruct v as [|d v']; [contradiction|]. cbn [all_chars] in Hdigits.
  apply andb_true_iff in Hdigits as [Hd _]. now exists d, v'.
Qed.

Lemma digits_unskipped (ws : bool) : preskip ws (v ++ r) = v ++ r.
Proof.
  destruct digits_first as (d & v' & -> & Hd). apply preskip_stops.
  cbn [append stops]. now destruct (digit_is_plain d Hd) as (-> & _).
Qed.

Lemma digits_no_sign (ws : bool) : parse ws PcsNew.pp_plusorminus (v ++ r) = None.
Proof.
  unfold PcsNew.pp_plusorminus. rewrite parse_match_first.
  rewrite !literal_fails; [reflexivity | |]; rewrite digits_unskipped;
    destruct digits_first as (d & v' & -> & Hd);
    destruct (digit_is_plain d Hd) as (_ & Hp & Hm & _);
    cbn [append after_prefix]; [now rewrite Hm | now rewrite Hp].
Qed.

Lemma digits_end :
  stops (fun c => Py.char_in c PcsNew.pp_digits) r = true
  /\ after_prefix "." r = None /\ after_prefix "e" r = None
  /\ after_prefix "E" r = None.
Proof.
  destruct r as [|x r']; [now repeat split|]. cbn [stops] in Hend.
  apply negb_true_iff in Hend.
  change "0123456789.eE" with (PcsNew.pp_digits ++ ".eE") in Hend.
  rewrite char_in_append in Hend. apply orb_false_iff in Hend as [Hd Hs].
  cbn [Py.char_in] in Hs. repeat (apply orb_false_iff in Hs as [? Hs]).
  cbn [stops after_prefix]. rewrite Hd.
  repeat split;
    match goal with
    | H : Ascii.eqb x ?y = false |- context [Ascii.eqb x ?y] => now rewrite H
    end.
Qed.

Lemma digits_int (ws : bool) : parse ws PcsNew.pp_int (v ++ r) = Some ([v], r).
Proof.
  destruct digits_end as (Hstop & _).
  destruct digits_first as (d & v' & Hv & Hd).
  unfold PcsNew.pp_int. rewrite parse_combine, digits_unskipped.
  rewrite parse_and, parse_optional_any, digits_no_sign, digits_unskipped.
  rewrite word_any; [reflexivity | assumption | assumption | | assumption].
  rewrite Hv. cbn [stops]. now destruct (digit_is_plain d Hd) as (-> & _).
Qed.

Lemma digits_no_float (ws : bool) : parse ws PcsNew.pp_float (v ++ r) = None.
Proof.
  destruct digits_end as (_ & Hpoint & _).
  unfold PcsNew.pp_float. rewrite parse_combine, digits_unskipped.
  rewrite !parse_and, parse_optional_any, digits_no_sign, digits_unskipped.
  cbv beta iota. rewrite parse_optional_any, digits_int.
  cbv beta iota. rewrite literal_fails; [reflexivity|]. cbn [preskip]. exact Hpoint.
Qed.

Lemma digits_number : parse true PcsNew.pp_number (v ++ r) = Some ([v], r).
Proof.
  destruct digits_end as (_ & _ & He & HE).
  unfold PcsNew.pp_number. rewrite !parse_match_first.
  rewrite digits_no_float, digits_int.
  unfold PcsNew.pp_e_notation. rewrite parse_combine, digits_unskipped.
  rewrite !parse_and. unfold PcsNew.pp_floatorint.
  rewrite parse_match_first, digits_no_float, digits_int.
  cbv beta iota. unfold PcsNew.pp_eorE. rewrite parse_match_first.
  rewrite !literal_fails; [reflexivity | exact HE | exact He].
Qed.

End Digits.

Lemma closes_spec (r : string) :
  closes r = true ->
  stops name_char r = true
  /\ stops (fun c => Py.char_in c "0123456789.eE") r = true.
Proof.
  destruct r as [|x r']; [discriminate|]. cbn [closes]. intros H.
  apply orb_true_iff in H as [H|H]; apply Ascii.eqb_eq in H; subst; now split.
Qed.

Lemma parse_value (v r : string) :
  clause_value v = true -> closes r = true ->
  parse true PcsNew.pp_numberorname (v ++ r) = Some ([v], r).
Proof.
  intros Hv Hr. apply closes_spec in Hr as [Hname Hnum].
  unfold PcsNew.pp_numberorname. rewrite parse_match_first.
  unfold clause_value in Hv. apply orb_true_iff in Hv as [Hv|Hv].
  - unfold numeral in Hv.
    apply andb_true_iff in Hv as [Hne Hd]. apply negb_true_iff in Hne.
    rewrite digits_number; [reflexivity | | assumption | assumption].
    intros ->. discriminate.
  - apply andb_true_iff in Hv as [Hid Hstart].
    pose proof (identifier_spec v Hid) as (Hne & Hall & Hws & _).
    destruct v as [|c v']; [contradiction|].
    cbn [stops] in Hstart, Hws. apply negb_true_iff in Hstart, Hws.
    cbn [append]. rewrite not_a_number by assumption.
    change (String c (v' ++ r)) with (String c v' ++ r).
    now apply parse_name.
Qed.

(** ** A written forbidden clause, read *)

Lemma parse_atom (p : ParserElement) (s : string) (t0 : ParseResults)
    (r0 n v r : string) :
  parse true p s = Some (t0, r0) ->
  skip_white r0 = n ++ String "=" (v ++ r) ->
  identifier n = true -> clause_value v = true -> closes r = true ->
  parse true (p + PcsNew.pp_param_name + "=" + PcsNew.pp_numberorname)%pp s =
  Some ((t0 ++ [n; "="; v])%list, r).
Proof.
  intros Hp Hr0 Hn Hv Hr. rewrite !parse_and, Hp.
  rewrite <- (parse_preskip true PcsNew.pp_param_name r0). cbn [preskip].
  rewrite Hr0, parse_name by (assumption || reflexivity).
  rewrite parse_literal. cbn [skip_white after_prefix].
  change (is_white "=") with false. cbv iota.
  change (Ascii.eqb "=" "=") with true. cbv iota.
  rewrite parse_value by assumption.
  now rewrite <- !app_assoc.
Qed.

Lemma closes_more_atoms (atoms : list (Hyperparameter * string)) (r : string) :
  closes (more_atoms atoms ++ String "}" r) = true.
Proof. destruct atoms; reflexivity. Qed.

Lemma more_atoms_cons (a : Hyperparameter * string)
    (atoms : list (Hyperparameter * string)) (r : string) :
  more_atoms (a :: atoms) ++ r =
  String "," (String " " (name (fst a) ++ String "=" (snd a ++ more_atoms atoms ++ r))).
Proof.
  change (more_atoms (a :: atoms))
    with (String "," (String " " (name (fst a) ++ String "=" (snd a ++ more_atoms atoms)))).
  cbn [append]. rewrite append_assoc. cbn [append]. now rewrite append_assoc.
Qed.

Lemma more_atoms_length (atoms : list (Hyperparameter * string)) (r : string) :
  List.length atoms <= String.length (more_atoms atoms ++ r).
Proof.
  induction atoms as [|a atoms IH]; cbn [List.length]; [lia|].
  rewrite more_atoms_cons. cbn [String.length].
  rewrite length_append. cbn [String.length]. rewrite length_append. lia.
Qed.

Lemma identifier_unskipped (n r : string) :
  identifier n = true -> skip_white (n ++ r) = n ++ r.
Proof.
  intros H. apply identifier_spec in H as (Hne & _ & Hws & _).
  apply skip_white_stops. destruct n; [contradiction | exact Hws].
Qed.

Lemma parse_further_atom (a : Hyperparameter * string)
    (rest : list (Hyperparameter * string)) (r : string) :
  plain_atom a = true ->
  parse true ("," + PcsNew.pp_param_name + "=" + PcsNew.pp_numberorname)%pp
    (String "," (String " "
       (name (fst a) ++ String "=" (snd a ++ more_atoms rest ++ String "}" r)))) =
  Some ([","; name (fst a); "="; snd a], more_atoms rest ++ String "}" r).
Proof.
  intros Ha. apply andb_true_iff in Ha as [Hn Hv].
  apply (parse_atom (Literal ",") _ [","]
           (String " " (name (fst a) ++ String "=" (snd a ++ more_atoms rest ++ String "}" r)))).
  - reflexivity.
  - change (skip_white (String " " ?x)) with (skip_white x).
    now apply identifier_unskipped.
  - exact Hn.
  - exact Hv.
  - apply closes_more_atoms.
Qed.

Lemma no_further_atom (r : string) :
  parse true ("," + PcsNew.pp_param_name + "=" + PcsNew.pp_numberorname)%pp
    (String "}" r) = None.
Proof. now rewrite !parse_and. Qed.

Lemma repeat_atoms (atoms : list (Hyperparameter * string)) (fuel : nat)
    (acc : ParseResults) (r : string) :
  forallb plain_atom atoms = true -> List.length atoms <= fuel ->
  Pyparsing.repeat
    (parse true ("," + PcsNew.pp_param_name + "=" + PcsNew.pp_numberorname)%pp)
    fuel acc (more_atoms atoms ++ String "}" r) =
  Some ((acc ++ concat (map (fun a => [","; fst a; "="; snd a]) (map atom_names atoms)))%list,
        String "}" r).
Proof.
  revert fuel acc; induction atoms as [|a atoms IH]; intros fuel acc Hall Hfuel.
  - cbn [more_atoms fold_right append map concat]. rewrite app_nil_r.
    destruct fuel; cbn [Pyparsing.repeat]; now rewrite no_further_atom.
  - cbn [forallb] in Hall. apply andb_true_iff in Hall as [Ha Hall].
    rewrite more_atoms_cons.
    destruct fuel as [|fuel]; [simpl in Hfuel; lia|].
    cbn [Pyparsing.repeat].
    rewrite parse_further_atom by assumption.
    rewrite IH by (try assumption; simpl in Hfuel; lia).
    cbn [map concat atom_names fst snd]. now rewrite <- app_assoc.
Qed.

Lemma parse_clause_text (a : Hyperparameter * string)
    (rest : list (Hyperparameter * string)) :
  plain_atom a = true -> forallb plain_atom rest = true ->
  parseString PcsNew.pp_forbidden_clause
    (String "{" (name (fst a) ++ String "=" (snd a ++ more_atoms rest ++ "}"))) =
  Some ("{" :: clause_tokens_from (atom_names a) (map atom_names rest)).
Proof.
  intros Ha Hrest. unfold parseString, PcsNew.pp_forbidden_clause.
  rewrite parse_and.
  rewrite (parse_and true _ (Optional _)).
  pose proof Ha as Ha'. apply andb_true_iff in Ha' as [Hn Hv].
  rewrite (parse_atom (Literal "{") _ ["{"]
             (name (fst a) ++ String "=" (snd a ++ more_atoms rest ++ "}"))
             (name (fst a)) (snd a) (more_atoms rest ++ "}"));
    [| reflexivity | now apply identifier_unskipped | assumption | assumption
     | apply closes_more_atoms].
  rewrite parse_optional, parse_one_or_more.
  destruct rest as [|b rest].
  - cbn [more_atoms fold_right append]. rewrite no_further_atom.
    cbn [skip_white]. change (is_white "}") with false. cbv iota.
    rewrite parse_literal. reflexivity.
  - cbn [forallb] in Hrest. apply andb_true_iff in Hrest as [Hb Hrest].
    rewrite more_atoms_cons.
    rewrite parse_further_atom by assumption.
    rewrite repeat_atoms by (try assumption; apply more_atoms_length).
    rewrite parse_literal. cbn [skip_white]. change (is_white "}") with false.
    cbv iota. cbn [after_prefix]. change (Ascii.eqb "}" "}") with true. cbv iota.
    f_equal. rewrite <- (clause_tokens_groups (atom_names a) (map atom_names (b :: rest))).
    cbn [map concat atom_names fst snd app]. reflexivity.
Qed.

Lemma join_atoms (a : Hyperparameter * string) (rest : list (Hyperparameter * string)) :
  Py.join ", " (map atom_text (map atom_value (a :: rest))) =
  name (fst a) ++ String "=" (snd a ++ more_atoms rest).
Proof.
  revert a; induction rest as [|b rest IH]; intros a.
  - cbn [map Py.join more_atoms fold_right]. unfold atom_text, atom_value.
    cbn [fst snd Py.str]. now rewrite append_nil_r.
  - change (map atom_text (map atom_value (a :: b :: rest)))
      with (atom_text (atom_value a) :: map atom_text (map atom_value (b :: rest))).
    destruct (map atom_text (map atom_value (b :: rest))) as [|x xs] eqn:Hm;
      [discriminate|].
    rewrite join_cons, <- Hm, IH.
    unfold atom_text, atom_value. cbn [fst snd Py.str more_atoms fold_right].
    fold (more_atoms rest). rewrite !append_assoc. reflexivity.
Qed.

Lemma clause_text_atoms (a : Hyperparameter * string)
    (rest : list (Hyperparameter * string)) :
  clause_text (map atom_value (a :: rest)) =
  String "{" (name (fst a) ++ String "=" (snd a ++ more_atoms rest ++ "}")).
Proof.
  unfold clause_text. rewrite join_atoms. cbn [append].
  rewrite !append_assoc. cbn [append]. now rewrite append_assoc.
Qed.

Lemma read_declared_atoms (cs : ConfigurationSpace)
    (atoms : list (Hyperparameter * string)) :
  Forall (fun a => lookup (name (fst a)) (get_hyperparameters cs) = Some (fst a)) atoms ->
  map_result (read_atom cs) (map atom_names atoms) = Ok (map text_equality atoms).
Proof.
  induction 1 as [|a atoms Ha _ IH]; [reflexivity|].
  cbn [map map_result]. rewrite IH.
  unfold read_atom, get_hyperparameter, atom_names. cbn [fst snd]. now rewrite Ha.
Qed.

(** X8. Writing then reading a forbidden clause, in the explicit dialect: for
    one or more equalities between hyperparameters of the space, each with
    an identifier as name and a run of digits or a word as value,
    [build_forbidden] returns the text of their conjunction and
    [read]'s loop over the forbidden clauses reads that text as the same
    conjunction. *)
Theorem forbidden_clause_roundtrip (cs : ConfigurationSpace)
    (atoms : list (Hyperparameter * string)) :
  atoms <> [] ->
  forallb plain_atom atoms = true ->
  Forall (fun a => lookup (name (fst a)) (get_hyperparameters cs) = Some (fst a)) atoms ->
  exists text,
    PcsNew.build_forbidden (ForbiddenAndConjunction (map text_equality atoms)) = Ok text
    /\ PcsNew.read_forbidden cs text =
       Ok (add_forbidden_clause cs (ForbiddenAndConjunction (map text_equality atoms))).
Proof.
  intros Hne Hplain Hdeclared. destruct atoms as [|a rest]; [contradiction|].
  exists (clause_text (map atom_value (a :: rest))). split.
  - rewrite <- build_forbidden_equalities. now rewrite map_map.
  - cbn [forallb] in Hplain. apply andb_true_iff in Hplain as [Ha Hrest].
    rewrite clause_text_atoms.
    rewrite (read_forbidden_tokens cs _ (atom_names a) (map atom_names rest))
      by now apply parse_clause_text.
    change (atom_names a :: map atom_names rest) with (map atom_names (a :: rest)).
    now rewrite read_declared_atoms.
Qed.

(** X8, at the clause of the specification's example, expanded. *)
Lemma forbidden_clause_roundtrip_witness :
  exists text,
    PcsNew.build_forbidden
      (ForbiddenAndConjunction (map text_equality [(hp_a, "1"); (hp_b, "three")])) = Ok text
    /\ PcsNew.read_forbidden example_space text =
       Ok (add_forbidden_clause example_space
             (ForbiddenAndConjunction (map text_equality [(hp_a, "1"); (hp_b, "three")]))).
Proof.
  apply (forbidden_clause_roundtrip example_space [(hp_a, "1"); (hp_b, "three")]).
  - discriminate.
  - reflexivity.
  - repeat constructor.
Defined.

(** ** The condition grammar of the explicit dialect *)

Lemma operator_char_plain (x : ascii) :
  Py.char_in x (word_chars PcsNew.pp_param_operation) = true -> is_white x = false.
Proof.
  cbn [word_chars PcsNew.pp_param_operation append Py.char_in]. intros H.
  repeat (apply orb_true_iff in H as [H|H]); try discriminate;
    apply Ascii.eqb_eq in H; subst; reflexivity.
Qed.

Lemma connective_char_plain (x : ascii) :
  Py.char_in x (word_chars PcsNew.pp_connective) = true -> is_white x = false.
Proof.
  cbn [word_chars PcsNew.pp_connective append Py.char_in]. intros H.
  repeat (apply orb_true_iff in H as [H|H]); try discriminate;
    apply Ascii.eqb_eq in H; subst; reflexivity.
Qed.

Lemma value_char_plain (x : ascii) :
  Py.char_in x (word_chars PcsNew.pp_param_val) = true ->
  is_white x = false /\ Ascii.eqb x "{" = false /\ Py.is_space x = false.
Proof.
  intros H.
  assert (Hn : name_char x = true).
  { unfold name_char. cbn [word_chars PcsNew.pp_param_name].
    cbn [word_chars PcsNew.pp_param_val] in H.
    unfold PcsNew.pp_digits in H. rewrite char_in_append in H.
    rewrite !char_in_append.
    apply orb_true_iff in H as [H|H].
    - now rewrite H.
    - unfold alphanums. rewrite char_in_append.
      change nums with "0123456789". rewrite H. now rewrite !orb_true_r. }
  destruct (is_white x) eqn:Hw.
  { rewrite name_char_not_blank in Hn; [discriminate | now rewrite Hw]. }
  destruct (Py.is_space x) eqn:Hs.
  { rewrite name_char_not_blank in Hn; [discriminate | now rewrite Hs, orb_true_r]. }
  repeat split. destruct (Ascii.eqb_spec x "{") as [->|]; [discriminate | reflexivity].
Qed.

Lemma word_spec (chars w : string) :
  negb (String.eqb w "") && all_chars (fun c => Py.char_in c chars) w = true ->
  exists x w', w = String x w' /\ Py.char_in x chars = true
               /\ all_chars (fun c => Py.char_in c chars) w = true.
Proof.
  intros H. apply andb_true_iff in H as [Hne Hall].
  destruct w as [|x w']; [discriminate|]. exists x, w'. repeat split; [|exact Hall].
  cbn [all_chars] in Hall. now apply andb_true_iff in Hall as [-> _].
Qed.

Lemma parse_operator (op r : string) :
  operator_word op = true ->
  stops (fun c => Py.char_in c (word_chars PcsNew.pp_param_operation)) r = true ->
  parse true PcsNew.pp_param_operation (op ++ r) = Some ([op], r).
Proof.
  intros Hop Hr. apply word_spec in Hop as (x & w' & -> & Hx & Hall).
  apply (parse_word (word_chars PcsNew.pp_param_operation)); try assumption.
  - discriminate.
  - cbn [stops]. now rewrite (operator_char_plain x Hx).
Qed.

Lemma parse_connective (conn r : string) :
  connective_word conn = true ->
  stops (fun c => Py.char_in c (word_chars PcsNew.pp_connective)) r = true ->
  parse true PcsNew.pp_connective (conn ++ r) = Some ([conn], r).
Proof.
  intros Hc Hr. apply word_spec in Hc as (x & w' & -> & Hx & Hall).
  apply (parse_word (word_chars PcsNew.pp_connective)); try assumption.
  - discriminate.
  - cbn [stops]. now rewrite (connective_char_plain x Hx).
Qed.

Lemma parse_param_val (v r : string) :
  value_word v = true ->
  stops (fun c => Py.char_in c (word_chars PcsNew.pp_param_val)) r = true ->
  parse true PcsNew.pp_param_val (v ++ r) = Some ([v], r).
Proof.
  intros Hv Hr. apply word_spec in Hv as (x & w' & -> & Hx & Hall).
  apply (parse_word (word_chars PcsNew.pp_param_val)); try assumption.
  - discriminate.
  - cbn [stops]. now destruct (value_char_plain x Hx) as (-> & _).
Qed.

Lemma value_unskipped (v r : string) :
  value_word v = true ->
  skip_white (v ++ r) = v ++ r /\ after_prefix "{" (v ++ r) = None.
Proof.
  intros Hv. apply word_spec in Hv as (x & w' & -> & Hx & _).
  destruct (value_char_plain x Hx) as (Hw & Hb & _).
  cbn [append skip_white after_prefix]. now rewrite Hw, Hb.
Qed.

(** The head of every condition line: child, [|], parent, operator. *)
Lemma parse_condition_head (c p op r : string) :
  identifier c = true -> identifier p = true -> operator_word op = true ->
  stops (fun c => Py.char_in c (word_chars PcsNew.pp_param_operation)) r = true ->
  parse true
    (PcsNew.pp_param_name + "|" + PcsNew.pp_param_name + PcsNew.pp_param_operation)%pp
    (c ++ String " " (String "|" (String " " (p ++ String " " (op ++ r))))) =
  Some ([c; "|"; p; op], r).
Proof.
  intros Hc Hp Hop Hr. rewrite !parse_and.
  rewrite parse_name by (assumption || reflexivity).
  rewrite parse_literal.
  change (skip_white (String " " (String "|" ?x))) with (String "|" x).
  cbn [after_prefix]. change (Ascii.eqb "|" "|") with true. cbv iota.
  rewrite parse_space, parse_name by (assumption || reflexivity).
  rewrite parse_space, parse_operator by assumption.
  reflexivity.
Qed.

Lemma no_second_test (r : string) :
  parse true PcsNew.pp_connective r = None ->
  parse true
    (Optional (PcsNew.pp_connective + PcsNew.pp_param_name + PcsNew.pp_param_operation
               + PcsNew.pp_param_val))%pp r = Some ([], skip_white r).
Proof. intros H. now rewrite parse_optional, !parse_and, H. Qed.

Lemma parse_single_test (c p op v : string) :
  identifier c = true -> identifier p = true -> operator_word op = true ->
  value_word v = true ->
  parseString PcsNew.pp_condition (single_test c p op v) = Some [c; "|"; p; op; v].
Proof.
  intros Hc Hp Hop Hv. unfold parseString, PcsNew.pp_condition, single_test.
  destruct (value_unskipped v "" Hv) as [Hskip Hbrace].
  rewrite parse_and. rewrite (parse_and true _ (Optional "}")).
  rewrite (parse_and true _ PcsNew.pp_param_val).
  rewrite (parse_and true _ (Optional "{")).
  change (c ++ " | " ++ p ++ " " ++ op ++ " " ++ v)
    with (c ++ String " " (String "|" (String " " (p ++ String " " (op ++ String " " v))))).
  rewrite parse_condition_head by (assumption || reflexivity).
  rewrite parse_optional, parse_literal.
  change (skip_white (String " " v)) with (skip_white v).
  rewrite append_nil_r in Hskip, Hbrace. rewrite Hskip, Hbrace.
  pose proof (parse_param_val v "" Hv eq_refl) as Hval.
  rewrite append_nil_r in Hval. rewrite Hval.
  reflexivity.
Qed.

(** ** Condition lines that are collected *)

Lemma pcs_read_line_grows (st st' : PcsNew.read_state) (l : string) :
  PcsNew.read_line st l = Ok st' ->
  exists extra, PcsNew.conditions st' = (PcsNew.conditions st ++ extra)%list.
Proof.
  rewrite pcs_read_line_classify. unfold pcs_classify.
  destruct (Py.char_in "|" _).
  { destruct (parseString _ _) as [c|]; [|discriminate]. intros [= <-]. now exists [c]. }
  destruct (_ && _). { intros [= <-]. exists []. now rewrite app_nil_r. }
  destruct (_ && _). { intros [= <-]. exists []. cbn. now rewrite app_nil_r. }
  intros H. exists []. rewrite app_nil_r.
  destruct (parseString PcsNew.pp_cont_param _).
  - apply bind_ok in H as (param & _ & H). unfold pcs_declare in H.
    destruct param; [|discriminate]. now apply bind_ok in H as (cs & _ & [= <-]).
  - destruct (parseString PcsNew.pp_cat_param _); [|discriminate].
    apply bind_ok in H as (param & _ & H). unfold pcs_declare in H.
    destruct param; [|discriminate]. now apply bind_ok in H as (cs & _ & [= <-]).
Qed.

Lemma pcs_conditions_kept (lines : list string) (st st' : PcsNew.read_state)
    (c : ParseResults) :
  In c (PcsNew.conditions st) ->
  for_each PcsNew.read_line lines st = Ok st' -> In c (PcsNew.conditions st').
Proof.
  intros Hin. apply (for_each_invariant PcsNew.read_line
                       (fun s => In c (PcsNew.conditions s))); [|exact Hin].
  intros s x s' Hs Hx. apply pcs_read_line_grows in Hx as [extra ->].
  apply in_or_app. now left.
Qed.

Lemma pcs_condition_line_collected (pre post : list string) (line : string)
    (toks : ParseResults) (st0 st : PcsNew.read_state) :
  Py.char_in "|" (PcsNew.clean line) = true ->
  parseString PcsNew.pp_condition (PcsNew.clean line) = Some toks ->
  for_each PcsNew.read_line (pre ++ line :: post) st0 = Ok st ->
  In toks (PcsNew.conditions st).
Proof.
  intros Hbar Hp H. rewrite for_each_app in H.
  apply bind_ok in H as (st1 & _ & H). cbn [for_each] in H.
  apply bind_ok in H as (st2 & H2 & H).
  apply (pcs_conditions_kept post st2); [|exact H].
  unfold PcsNew.read_line in H2. rewrite Hbar, Hp in H2. injection H2 as <-.
  cbn [PcsNew.conditions]. apply in_or_app. right. now left.
Qed.

Lemma pcs_children_raise (conds : list ParseResults) (toks : ParseResults)
    (cs : ConfigurationSpace) (loc : PcsNew.locals) :
  In toks conds ->
  (forall cs1 child st, exists e, PcsNew.read_condition cs1 child st toks = Raise e) ->
  exists e, for_each PcsNew.read_child (grouped conds) (cs, loc) = Raise e.
Proof.
  intros Hin Hraise.
  pose proof (children_complete conds toks Hin) as Hchild.
  apply in_split in Hchild as (l1 & l2 & Hsplit).
  unfold grouped. rewrite Hsplit, map_app. cbn [map].
  apply for_each_raises. intros [cs1 loc1]. unfold PcsNew.read_child.
  assert (Hline : In toks (lines_of (child_of toks) conds)).
  { unfold lines_of. apply filter_In. split; [exact Hin | apply String.eqb_refl]. }
  apply in_split in Hline as (m1 & m2 & ->).
  destruct (for_each_raises (PcsNew.read_condition cs1 (child_of toks)) m1 m2 toks
              (loc1, []) (Hraise cs1 (child_of toks))) as [e ->].
  now exists e.
Qed.

Lemma single_test_marked (c p op v : string) :
  Py.char_in "|" (single_test c p op v) = true.
Proof.
  unfold single_test. rewrite char_in_append. cbn [append Py.char_in].
  now rewrite !orb_true_r.
Qed.

Lemma five_tokens_raise (cs : ConfigurationSpace) (child : string)
    (st : PcsNew.locals * list Condition) (c p op v : string) :
  String.eqb op "in" = false ->
  exists e, PcsNew.read_condition cs child st [c; "|"; p; op; v] = Raise e.
Proof.
  intros Hop. destruct st as [loc objs]. unfold PcsNew.read_condition.
  destruct (get_hyperparameter cs child) as [ch|e]; cbn [bind]; [|eauto].
  change (Py.index [c; "|"; p; op; v] 2) with (Some p). cbn [or_raise bind].
  destruct (get_hyperparameter cs p) as [pa|e]; cbn [bind]; [|eauto].
  change (Py.index [c; "|"; p; op; v] 3) with (Some op). cbn [or_raise bind].
  rewrite Hop.
  change (Py.index [c; "|"; p; op; v] 4) with (Some v). cbn [or_raise bind].
  assert (Hsecond : forall l, PcsNew.second_fact cs ch [c; "|"; p; op; v] 5 l
                              = Raise IndexError) by reflexivity.
  change (Nat.ltb 4 (List.length [c; "|"; p; op; v])) with true. cbv iota.
  destruct (String.eqb op "==").
  { destruct (new_EqualsCondition ch pa (Py.VStr v)) as [c1|e]; cbn [bind]; [|eauto].
    cbn [PcsNew.condition1 PcsNew.bound or_raise bind]. rewrite Hsecond. cbn [bind]. eauto. }
  destruct (String.eqb op "!=").
  { destruct (new_NotEqualsCondition ch pa (Py.VStr v)) as [c1|e]; cbn [bind]; [|eauto].
    cbn [PcsNew.condition1 PcsNew.bound or_raise bind]. rewrite Hsecond. cbn [bind]. eauto. }
  cbn [bind]. unfold PcsNew.bound.
  destruct (PcsNew.condition1 loc); cbn [or_raise bind]; [|eauto].
  rewrite Hsecond. cbn [bind]. eauto.
Qed.

(** X9. The explicit dialect does not read a condition with a single test
    whose operator is not [in]: when the cleaned text of a line is
    [child | parent op value], with [==], [!=] or any other operator word,
    [read] raises, whatever the other lines are. Such a line has five
    tokens; the loop body then reads a sixth one for the connective. *)
Theorem single_test_is_not_read (pre post : list string) (line c p op v : string) :
  identifier c = true -> identifier p = true ->
  operator_word op = true -> String.eqb op "in" = false ->
  value_word v = true ->
  PcsNew.clean line = single_test c p op v ->
  exists e, PcsNew.read (pre ++ line :: post) = Raise e.
Proof.
  intros Hc Hp Hop Hin Hv Hline. unfold PcsNew.read.
  destruct (for_each PcsNew.read_line _ _) as [st|e] eqn:H1; cbn [bind]; [|eauto].
  apply (pcs_condition_line_collected pre post line [c; "|"; p; op; v]) in H1.
  2:{ rewrite Hline. apply single_test_marked. }
  2:{ rewrite Hline. now apply parse_single_test. }
  destruct (for_each PcsNew.read_forbidden _ _) as [cs1|e]; cbn [bind]; [|eauto].
  destruct (for_each PcsNew.group_condition _ _) as [d|e] eqn:H3; cbn [bind]; [|eauto].
  apply pcs_grouping in H3 as ->.
  destruct (pcs_children_raise (PcsNew.conditions st) [c; "|"; p; op; v] cs1
              (PcsNew.mkLocals None None None) H1) as [e ->].
  - intros cs2 child st2. now apply five_tokens_raise.
  - cbn [bind]. eauto.
Qed.

(** X9, at two declarations and the condition [b | a == 1]. *)
Lemma single_test_is_not_read_witness :
  exists e,
    PcsNew.read (["a categorical {1, 2} [1]"; "b categorical {3, 4} [3]"]
                 ++ "b | a == 1" :: []) = Raise e.
Proof.
  apply (single_test_is_not_read
           ["a categorical {1, 2} [1]"; "b categorical {3, 4} [3]"] []
           "b | a == 1" "b" "a" "==" "1"); reflexivity.
Defined.

(** ** Membership tests of the explicit dialect *)

Lemma parse_membership_head (c p r : string) :
  identifier c = true -> identifier p = true ->
  parse true
    (PcsNew.pp_param_name + "|" + PcsNew.pp_param_name + PcsNew.pp_param_operation
     + Optional "{")%pp
    (c ++ String " " (String "|" (String " " (p ++ String " "
       ("in" ++ String " " (String "{" r)))))) =
  Some ([c; "|"; p; "in"; "{"], r).
Proof.
  intros Hc Hp. rewrite parse_and.
  rewrite parse_condition_head by (assumption || reflexivity).
  rewrite parse_optional, parse_literal.
  reflexivity.
Qed.

Lemma parse_membership_of_more (c p v t : string) :
  identifier c = true -> identifier p = true -> value_word v = true ->
  parseString PcsNew.pp_condition (membership_of_more c p v t)
  = Some [c; "|"; p; "in"; "{"; v].
Proof.
  intros Hc Hp Hv. unfold parseString, PcsNew.pp_condition, membership_of_more.
  rewrite parse_and. rewrite (parse_and true _ (Optional "}")).
  rewrite (parse_and true _ PcsNew.pp_param_val).
  change (c ++ " | " ++ p ++ " in {" ++ v ++ String "," t)
    with (c ++ String " " (String "|" (String " " (p ++ String " "
            ("in" ++ String " " (String "{" (v ++ String "," t))))))).
  rewrite parse_membership_head by assumption.
  rewrite parse_param_val by (assumption || reflexivity).
  reflexivity.
Qed.

Lemma parse_membership_of_one (c p v : string) :
  identifier c = true -> identifier p = true -> value_word v = true ->
  parseString PcsNew.pp_condition (membership_of_one c p v)
  = Some [c; "|"; p; "in"; "{"; v; "}"].
Proof.
  intros Hc Hp Hv. unfold parseString, PcsNew.pp_condition, membership_of_one.
  rewrite parse_and. rewrite (parse_and true _ (Optional "}")).
  rewrite (parse_and true _ PcsNew.pp_param_val).
  change (c ++ " | " ++ p ++ " in {" ++ v ++ "}")
    with (c ++ String " " (String "|" (String " " (p ++ String " "
            ("in" ++ String " " (String "{" (v ++ String "}" ""))))))).
  rewrite parse_membership_head by assumption.
  rewrite parse_param_val by (assumption || reflexivity).
  reflexivity.
Qed.

Lemma membership_marked (c r : string) :
  Py.char_in "|" (c ++ String " " (String "|" r)) = true.
Proof. rewrite char_in_append. cbn [Py.char_in]. now rewrite !orb_true_r. Qed.

(** ** Loops on related inputs *)

Lemma for_each_related {A B S T} (f : S -> A -> result S) (g : T -> B -> result T)
    (RA : A -> B -> Prop) (RS : S -> T -> Prop) :
  (forall s t x y, RS s t -> RA x y -> result_rel RS (f s x) (g t y)) ->
  forall l1 l2, Forall2 RA l1 l2 ->
  forall s t, RS s t -> result_rel RS (for_each f l1 s) (for_each g l2 t).
Proof.
  intros H l1 l2 HF. induction HF as [|x y l1 l2 Hxy _ IH]; intros s t Hst;
    cbn [for_each]; [exact Hst|].
  specialize (H s t x y Hst Hxy).
  destruct (f s x) as [s'|e1], (g t y) as [t'|e2]; cbn [result_rel] in H;
    try contradiction; cbn [bind]; [now apply IH | exact H].
Qed.

Lemma result_rel_eq {S} (r1 r2 : result S) : result_rel eq r1 r2 -> r1 = r2.
Proof.
  destruct r1, r2; cbn [result_rel]; intros H; try contradiction; now subst.
Qed.

Lemma same_lines_refl (l : list ParseResults) : Forall2 same_but_value l l.
Proof. induction l; constructor; [now left | assumption]. Qed.

Lemma same_state_refl (s : PcsNew.read_state) : same_state s s.
Proof. repeat split. apply same_lines_refl. Qed.

Lemma same_state_add (s1 s2 : PcsNew.read_state) (t1 t2 : ParseResults) :
  same_state s1 s2 -> same_but_value t1 t2 ->
  same_state
    (PcsNew.mkState (PcsNew.configuration_space s1) (PcsNew.conditions s1 ++ [t1])
       (PcsNew.forbidden s1))
    (PcsNew.mkState (PcsNew.configuration_space s2) (PcsNew.conditions s2 ++ [t2])
       (PcsNew.forbidden s2)).
Proof.
  intros (Hcs & Hf & Hc) Ht. repeat split; cbn; try assumption.
  apply Forall2_app; [assumption | constructor; [assumption | constructor]].
Qed.

Lemma read_line_same (l : string) (s1 s2 : PcsNew.read_state) :
  same_state s1 s2 ->
  result_rel same_state (PcsNew.read_line s1 l) (PcsNew.read_line s2 l).
Proof.
  intros Hs. rewrite !pcs_read_line_classify. unfold pcs_classify.
  destruct (Py.char_in "|" _).
  { destruct (parseString _ _) as [c|]; cbn [result_rel]; [|reflexivity].
    apply same_state_add; [assumption | now left]. }
  destruct (_ && _); [exact Hs|].
  destruct Hs as (Hcs & Hf & Hc).
  destruct (_ && _).
  { cbn [result_rel]. repeat split; cbn; try assumption. now rewrite Hf. }
  assert (Hdeclare : forall param,
             result_rel same_state (pcs_declare s1 (PcsNew.clean l) param)
               (pcs_declare s2 (PcsNew.clean l) param)).
  { intros [param|]; cbn [pcs_declare result_rel]; [|reflexivity].
    rewrite Hcs. destruct (add_hyperparameter _ param); cbn [bind result_rel];
      [|reflexivity].
    now repeat split. }
  destruct (parseString PcsNew.pp_cont_param _).
  { destruct (PcsNew.try_continuous _); cbn [bind result_rel];
      [apply Hdeclare | reflexivity]. }
  destruct (parseString PcsNew.pp_cat_param _); cbn [result_rel]; [|reflexivity].
  destruct (PcsNew.try_categorical _ _); cbn [bind result_rel];
    [apply Hdeclare | reflexivity].
Qed.

Lemma read_line_same_but_value (l1 l2 : string) (t1 t2 : ParseResults)
    (s1 s2 : PcsNew.read_state) :
  Py.char_in "|" (PcsNew.clean l1) = true ->
  Py.char_in "|" (PcsNew.clean l2) = true ->
  parseString PcsNew.pp_condition (PcsNew.clean l1) = Some t1 ->
  parseString PcsNew.pp_condition (PcsNew.clean l2) = Some t2 ->
  same_but_value t1 t2 ->
  same_state s1 s2 ->
  result_rel same_state (PcsNew.read_line s1 l1) (PcsNew.read_line s2 l2).
Proof.
  intros Hb1 Hb2 Hp1 Hp2 Ht Hs. unfold PcsNew.read_line.
  rewrite Hb1, Hb2, Hp1, Hp2. cbn [result_rel]. now apply same_state_add.
Qed.

Lemma od_append_same (key : string) (t1 t2 : ParseResults)
    (d1 d2 : PcsNew.OrderedDict) :
  same_but_value t1 t2 -> Forall2 same_entry d1 d2 ->
  Forall2 same_entry (PcsNew.od_append key t1 d1) (PcsNew.od_append key t2 d2).
Proof.
  intros Ht H. induction H as [|[k1 ls1] [k2 ls2] d1 d2 [Hk Hls] Hd IH];
    cbn [PcsNew.od_append].
  - constructor; [|constructor]. split; [reflexivity|]. cbn [snd].
    constructor; [exact Ht | constructor].
  - cbn [fst snd] in Hk, Hls. subst k2. destruct (String.eqb k1 key).
    + constructor; [|exact Hd]. split; [reflexivity|]. cbn [snd].
      apply Forall2_app; [assumption | constructor; [assumption | constructor]].
    + constructor; [now split | exact IH].
Qed.

Lemma same_but_value_child (t1 t2 : ParseResults) :
  same_but_value t1 t2 -> Py.index t1 0 = Py.index t2 0.
Proof. intros [->|(c & p & v1 & v2 & -> & ->)]; reflexivity. Qed.

Lemma group_condition_same (d1 d2 : PcsNew.OrderedDict) (t1 t2 : ParseResults) :
  Forall2 same_entry d1 d2 -> same_but_value t1 t2 ->
  result_rel (Forall2 same_entry) (PcsNew.group_condition d1 t1)
    (PcsNew.group_condition d2 t2).
Proof.
  intros Hd Ht. unfold PcsNew.group_condition.
  rewrite (same_but_value_child t1 t2 Ht).
  destruct (Py.index t2 0) as [key|]; cbn [or_raise bind result_rel]; [|reflexivity].
  now apply od_append_same.
Qed.

Lemma read_condition_same (cs : ConfigurationSpace) (child : string)
    (st : PcsNew.locals * list Condition) (t1 t2 : ParseResults) :
  same_but_value t1 t2 ->
  PcsNew.read_condition cs child st t1 = PcsNew.read_condition cs child st t2.
Proof.
  intros [->|(c & p & v1 & v2 & -> & ->)]; [reflexivity|].
  destruct st as [loc objs]. unfold PcsNew.read_condition.
  destruct (get_hyperparameter cs child); cbn [bind]; [|reflexivity].
  reflexivity.
Qed.

Lemma read_child_same (st : ConfigurationSpace * PcsNew.locals)
    (e1 e2 : string * list ParseResults) :
  same_entry e1 e2 ->
  result_rel eq (PcsNew.read_child st e1) (PcsNew.read_child st e2).
Proof.
  destruct st as [cs loc], e1 as [k1 ls1], e2 as [k2 ls2]. intros [Hk Hls].
  cbn [fst snd] in Hk, Hls. subst k2. unfold PcsNew.read_child.
  assert (H : for_each (PcsNew.read_condition cs k1) ls1 (loc, [])
              = for_each (PcsNew.read_condition cs k1) ls2 (loc, [])).
  { apply result_rel_eq.
    apply (for_each_related _ _ same_but_value eq); [|exact Hls | reflexivity].
    intros s t x y <- Hxy. rewrite (read_condition_same cs k1 s x y Hxy).
    destruct (PcsNew.read_condition cs k1 s y); reflexivity. }
  rewrite H. destruct (bind _ _) eqn:E; rewrite ?E; cbn [result_rel]; reflexivity.
Qed.

(** X10. A membership test that lists two or more values is read without
    its values: when the cleaned text of a line is [child | parent in {value,]
    followed by anything, [read] returns the same result, space or
    exception, whatever the first value and whatever follows the comma. *)
Theorem further_membership_values_are_not_read (pre post : list string)
    (line1 line2 c p v1 v2 t1 t2 : string) :
  identifier c = true -> identifier p = true ->
  value_word v1 = true -> value_word v2 = true ->
  PcsNew.clean line1 = membership_of_more c p v1 t1 ->
  PcsNew.clean line2 = membership_of_more c p v2 t2 ->
  PcsNew.read (pre ++ line1 :: post) = PcsNew.read (pre ++ line2 :: post).
Proof.
  intros Hc Hp Hv1 Hv2 Hl1 Hl2. unfold PcsNew.read.
  assert (H1 : result_rel same_state
                 (for_each PcsNew.read_line (pre ++ line1 :: post)
                    (PcsNew.mkState empty [] []))
                 (for_each PcsNew.read_line (pre ++ line2 :: post)
                    (PcsNew.mkState empty [] []))).
  { apply (for_each_related _ _
             (fun l1 l2 => forall s1 s2, same_state s1 s2 ->
                result_rel same_state (PcsNew.read_line s1 l1) (PcsNew.read_line s2 l2))
             same_state).
    - intros s t x y Hst Hxy. now apply Hxy.
    - apply Forall2_app; [|constructor].
      + induction pre; constructor; [apply read_line_same | assumption].
      + intros s1 s2.
        apply (read_line_same_but_value line1 line2
                 [c; "|"; p; "in"; "{"; v1] [c; "|"; p; "in"; "{"; v2]).
        * rewrite Hl1. apply membership_marked.
        * rewrite Hl2. apply membership_marked.
        * rewrite Hl1. now apply parse_membership_of_more.
        * rewrite Hl2. now apply parse_membership_of_more.
        * right. now exists c, p, v1, v2.
      + induction post; constructor; [apply read_line_same | assumption].
    - apply same_state_refl. }
  destruct (for_each PcsNew.read_line (pre ++ line1 :: post) _) as [s1|e1],
           (for_each PcsNew.read_line (pre ++ line2 :: post) _) as [s2|e2];
    cbn [result_rel] in H1; try contradiction; cbn [bind]; [|now subst].
  destruct H1 as (Hcs & Hf & Hconds). rewrite Hcs, Hf.
  destruct (for_each PcsNew.read_forbidden _ _) as [cs1|e]; cbn [bind]; [|reflexivity].
  assert (H3 : result_rel (Forall2 same_entry)
                 (for_each PcsNew.group_condition (PcsNew.conditions s1) [])
                 (for_each PcsNew.group_condition (PcsNew.conditions s2) [])).
  { apply (for_each_related _ _ same_but_value (Forall2 same_entry));
      [| exact Hconds | constructor].
    intros d1 d2 x y Hd Hxy. now apply group_condition_same. }
  destruct (for_each PcsNew.group_condition (PcsNew.conditions s1) []) as [d1|e1],
           (for_each PcsNew.group_condition (PcsNew.conditions s2) []) as [d2|e2];
    cbn [result_rel] in H3; try contradiction; cbn [bind]; [|now subst].
  assert (H4 : for_each PcsNew.read_child d1 (cs1, PcsNew.mkLocals None None None)
               = for_each PcsNew.read_child d2 (cs1, PcsNew.mkLocals None None None)).
  { apply result_rel_eq.
    apply (for_each_related _ _ same_entry eq); [| exact H3 | reflexivity].
    intros s t x y <- Hxy. now apply read_child_same. }
  now rewrite H4.
Qed.

(** X10, at two lines that list different values for the same test. *)
Lemma further_membership_values_are_not_read_witness :
  PcsNew.read (["a categorical {1, 2} [1]"; "b categorical {3, 4} [3]"]
               ++ "b | a in {1, 2}" :: [])
  = PcsNew.read (["a categorical {1, 2} [1]"; "b categorical {3, 4} [3]"]
                 ++ "b | a in {7, 8, 9}" :: []).
Proof.
  apply (further_membership_values_are_not_read
           ["a categorical {1, 2} [1]"; "b categorical {3, 4} [3]"] []
           "b | a in {1, 2}" "b | a in {7, 8, 9}" "b" "a" "1" "7" " 2}" " 8, 9}");
    reflexivity.
Defined.

(** ** Condition lines that are read as written *)

Lemma connective_unskipped (conn r : string) :
  connective_word conn = true ->
  skip_white (conn ++ r) = conn ++ r /\ after_prefix "}" (conn ++ r) = None.
Proof.
  intros Hc. apply word_spec in Hc as (x & w' & -> & Hx & _).
  pose proof (connective_char_plain x Hx) as Hw.
  cbn [append skip_white after_prefix]. rewrite Hw. split; [reflexivity|].
  cbn [word_chars PcsNew.pp_connective append Py.char_in] in Hx.
  repeat (apply orb_true_iff in Hx as [Hx|Hx]); try discriminate;
    apply Ascii.eqb_eq in Hx; subst; reflexivity.
Qed.

Lemma parse_two_tests (c p op1 v conn q op2 w : string) :
  identifier c = true -> identifier p = true -> identifier q = true ->
  operator_word op1 = true -> operator_word op2 = true ->
  connective_word conn = true -> value_word v = true -> value_word w = true ->
  parseString PcsNew.pp_condition (two_tests c p op1 v conn q op2 w)
  = Some [c; "|"; p; op1; v; conn; q; op2; w].
Proof.
  intros Hc Hp Hq Hop1 Hop2 Hconn Hv Hw.
  unfold parseString, PcsNew.pp_condition, two_tests.
  set (tail := conn ++ String " " (q ++ String " " (op2 ++ String " " w))).
  destruct (value_unskipped v (String " " tail) Hv) as [Hskip Hbrace].
  destruct (connective_unskipped conn (String " " (q ++ String " " (op2 ++ String " " w)))
              Hconn) as [Hcskip Hcbrace].
  fold tail in Hcskip, Hcbrace.
  rewrite parse_and. rewrite (parse_and true _ (Optional "}")).
  rewrite (parse_and true _ PcsNew.pp_param_val).
  rewrite (parse_and true _ (Optional "{")).
  change (c ++ " | " ++ p ++ " " ++ op1 ++ " " ++ v ++ " " ++ conn ++ " " ++ q ++ " "
            ++ op2 ++ " " ++ w)
    with (c ++ String " " (String "|" (String " " (p ++ String " "
            (op1 ++ String " " (v ++ String " " tail)))))).
  rewrite parse_condition_head by (assumption || reflexivity).
  rewrite parse_optional, parse_literal.
  change (skip_white (String " " (v ++ String " " tail)))
    with (skip_white (v ++ String " " tail)).
  rewrite Hskip, Hbrace.
  rewrite parse_param_val by (assumption || reflexivity).
  rewrite parse_optional, parse_literal.
  change (skip_white (String " " tail)) with (skip_white tail).
  rewrite Hcskip, Hcbrace.
  rewrite parse_optional, !parse_and. unfold tail.
  rewrite parse_connective by (assumption || reflexivity).
  rewrite parse_space, parse_name by (assumption || reflexivity).
  rewrite parse_space, parse_operator by (assumption || reflexivity).
  rewrite parse_space.
  pose proof (parse_param_val w "" Hw eq_refl) as Hval.
  rewrite append_nil_r in Hval. rewrite Hval.
  reflexivity.
Qed.

Lemma two_tests_marked (c p op1 v conn q op2 w : string) :
  Py.char_in "|" (two_tests c p op1 v conn q op2 w) = true.
Proof. apply (membership_marked c). Qed.

Lemma lookup_in (n : string) (hps : list Hyperparameter) (hp : Hyperparameter) :
  lookup n hps = Some hp -> In hp hps.
Proof.
  induction hps as [|h hps IH]; cbn [lookup]; [discriminate|].
  destruct (String.eqb (name h) n); [intros [= <-]; now left | right; now apply IH].
Qed.

Lemma declared_identifier (hps : list Hyperparameter) (hp : Hyperparameter) :
  forallb plain_categorical hps = true ->
  lookup (name hp) hps = Some hp -> identifier (name hp) = true.
Proof.
  intros Hall Hl. apply lookup_in in Hl. rewrite forallb_forall in Hall.
  specialize (Hall hp Hl). destruct hp as [| n choices d |]; try discriminate.
  cbn [plain_categorical name] in *.
  apply andb_true_iff in Hall as [Hall _]. now apply andb_true_iff in Hall as [-> _].
Qed.

(** The file of the declarations of [hps] and one condition line. *)
Lemma read_declarations_and_condition (hps : list Hyperparameter) (line c : string)
    (toks : ParseResults) :
  forallb plain_categorical hps = true -> NoDup (map name hps) ->
  Py.char_in "|" (PcsNew.clean line) = true ->
  parseString PcsNew.pp_condition (PcsNew.clean line) = Some toks ->
  Py.index toks 0 = Some c ->
  PcsNew.read (map declaration hps ++ [line]) =
  bind (PcsNew.read_child (mkSpace hps [] [], PcsNew.mkLocals None None None) (c, [toks]))
    (fun st => Ok (fst st)).
Proof.
  intros Hplain Hnodup Hbar Hparse Hchild. unfold PcsNew.read.
  rewrite for_each_app. unfold empty.
  rewrite (read_written_lines hps []) by assumption.
  cbn [bind for_each app]. unfold PcsNew.read_line. rewrite Hbar, Hparse.
  cbn [bind for_each PcsNew.forbidden PcsNew.configuration_space PcsNew.conditions app].
  unfold PcsNew.group_condition. rewrite Hchild.
  cbn [or_raise bind PcsNew.od_append for_each].
  destruct (PcsNew.read_child _ _) as [[cs loc]|e]; reflexivity.
Qed.

Lemma equality_operator_cases (op : string) :
  equality_operator op = true -> op = "==" \/ op = "!=".
Proof.
  unfold equality_operator. intros H.
  apply orb_true_iff in H as [H|H]; apply String.eqb_eq in H; auto.
Qed.

Lemma equality_operator_word (op : string) :
  equality_operator op = true -> operator_word op = true.
Proof. intros H. destruct (equality_operator_cases op H) as [->| ->]; reflexivity. Qed.

(** X11. Two equality tests joined by a connective, in the explicit
    dialect: after the declarations of plain categorical hyperparameters,
    a line [child | parent op value conn parent2 op2 value2] with [==] or
    [!=] as operators and, as values, choices of the two parents made of
    letters and digits is read as one condition of the child, the
    AND-conjunction of the two tests when the connective is [&&], their
    OR-conjunction for any other run of [|] and [&]. *)
Theorem two_tests_are_read_as_a_conjunction (hps : list Hyperparameter)
    (child p q : Hyperparameter) (line op1 v conn op2 w : string) :
  forallb plain_categorical hps = true -> NoDup (map name hps) ->
  lookup (name child) hps = Some child ->
  lookup (name p) hps = Some p -> lookup (name q) hps = Some q ->
  String.eqb (name child) (name p) = false ->
  String.eqb (name child) (name q) = false ->
  equality_operator op1 = true -> equality_operator op2 = true ->
  connective_word conn = true -> value_word v = true -> value_word w = true ->
  legal_value p v = true -> legal_value q w = true ->
  PcsNew.clean line = two_tests (name child) (name p) op1 v conn (name q) op2 w ->
  PcsNew.read (map declaration hps ++ [line]) =
  Ok (mkSpace hps
        [(if String.eqb conn "&&" then AndConjunction else OrConjunction)
           [test_condition op1 child p v; test_condition op2 child q w]]
        []).
Proof.
  intros Hplain Hnodup Hc Hp Hq Hcp Hcq Hop1 Hop2 Hconn Hv Hw _ _ Hline.
  rewrite (read_declarations_and_condition hps line (name child)
             [name child; "|"; name p; op1; v; conn; name q; op2; w]);
    try assumption; try reflexivity.
  2:{ rewrite Hline. apply two_tests_marked. }
  2:{ rewrite Hline. apply parse_two_tests; try assumption;
        try (now apply equality_operator_word);
        now apply (declared_identifier hps). }
  unfold PcsNew.read_child, PcsNew.read_condition, PcsNew.second_fact.
  cbn [for_each]. unfold get_hyperparameter. cbn [get_hyperparameters].
  rewrite Hc. cbn [or_raise bind].
  change (Py.index [name child; "|"; name p; op1; v; conn; name q; op2; w] 2)
    with (Some (name p)).
  cbn [or_raise bind]. rewrite Hp. cbn [or_raise bind].
  change (Py.index [name child; "|"; name p; op1; v; conn; name q; op2; w] 3)
    with (Some op1).
  change (Py.index [name child; "|"; name p; op1; v; conn; name q; op2; w] 4)
    with (Some v).
  change (Py.index [name child; "|"; name p; op1; v; conn; name q; op2; w] 5)
    with (Some conn).
  change (Py.index [name child; "|"; name p; op1; v; conn; name q; op2; w] (5 + 1))
    with (Some (name q)).
  change (Py.index [name child; "|"; name p; op1; v; conn; name q; op2; w] (5 + 2))
    with (Some op2).
  change (Py.index [name child; "|"; name p; op1; v; conn; name q; op2; w] (5 + 3))
    with (Some w).
  cbn [or_raise bind]. rewrite Hq. cbn [or_raise bind].
  unfold new_EqualsCondition, new_NotEqualsCondition, check_child_parent, test_condition.
  rewrite Hcp, Hcq.
  destruct (equality_operator_cases op1 Hop1) as [-> | ->],
           (equality_operator_cases op2 Hop2) as [-> | ->];
    cbn; destruct (String.eqb conn "&&"); reflexivity.
Qed.

(** X11, at three declarations and a line with [&&]. *)
Lemma two_tests_are_read_as_a_conjunction_witness :
  PcsNew.read (map declaration [hp_a; hp_b; hp_c] ++ ["a | b == 3 && c != 5"]) =
  Ok (mkSpace [hp_a; hp_b; hp_c]
        [(if String.eqb "&&" "&&" then AndConjunction else OrConjunction)
           [test_condition "==" hp_a hp_b "3"; test_condition "!=" hp_a hp_c "5"]]
        []).
Proof.
  apply (two_tests_are_read_as_a_conjunction [hp_a; hp_b; hp_c] hp_a hp_b hp_c
           "a | b == 3 && c != 5" "==" "3" "&&" "!=" "5"); try reflexivity.
  repeat constructor; simpl; intuition discriminate.
Defined.

(** X12. A membership test of one value, in the explicit dialect: after
    the declarations of plain categorical hyperparameters, a line
    [child | parent in {value}], the value a choice of the parent made of
    letters and digits, is read as the membership condition of the child
    on that one value. *)
Theorem membership_of_one_value_is_read (hps : list Hyperparameter)
    (child p : Hyperparameter) (line v : string) :
  forallb plain_categorical hps = true -> NoDup (map name hps) ->
  lookup (name child) hps = Some child -> lookup (name p) hps = Some p ->
  String.eqb (name child) (name p) = false ->
  value_word v = true -> legal_value p v = true ->
  PcsNew.clean line = membership_of_one (name child) (name p) v ->
  PcsNew.read (map declaration hps ++ [line]) =
  Ok (mkSpace hps [InCondition child p [Py.VStr v]] []).
Proof.
  intros Hplain Hnodup Hc Hp Hcp Hv _ Hline.
  rewrite (read_declarations_and_condition hps line (name child)
             [name child; "|"; name p; "in"; "{"; v; "}"]);
    try assumption; try reflexivity.
  2:{ rewrite Hline. apply (membership_marked (name child)). }
  2:{ rewrite Hline. apply parse_membership_of_one; try assumption;
        now apply (declared_identifier hps). }
  unfold PcsNew.read_child, PcsNew.read_condition.
  cbn [for_each]. unfold get_hyperparameter. cbn [get_hyperparameters].
  rewrite Hc. cbn [or_raise bind].
  change (Py.index [name child; "|"; name p; "in"; "{"; v; "}"] 2) with (Some (name p)).
  cbn [or_raise bind]. rewrite Hp. cbn [or_raise bind].
  unfold new_InCondition, check_child_parent. rewrite Hcp.
  reflexivity.
Qed.

(** X12, at two declarations and the line [b | a in {1}]. *)
Lemma membership_of_one_value_is_read_witness :
  PcsNew.read (map declaration [hp_a; hp_b] ++ ["b | a in {1}"]) =
  Ok (mkSpace [hp_a; hp_b] [InCondition hp_b hp_a [Py.VStr "1"]] []).
Proof.
  apply (membership_of_one_value_is_read [hp_a; hp_b] hp_b hp_a "b | a in {1}" "1");
    try reflexivity.
  repeat constructor; simpl; intuition discriminate.
Defined.

(** ** Where the compact dialect writes a condition *)

Lemma filter_head {A} (P : A -> bool) (l : list A) (t : A) (ts : list A) :
  filter P l = t :: ts -> P t = true.
Proof.
  intros H. assert (Hin : In t (filter P l)) by (rewrite H; now left).
  now apply filter_In in Hin.
Qed.

Lemma first_with_spec (w : string) (lines : list string) :
  match filter (Py.str_in w) lines with
  | [] => first_with w lines = None
  | t :: _ => exists i, first_with w lines = Some i /\ Irace.list_index t lines = Some i
  end.
Proof.
  induction lines as [|l lines IH]; cbn [filter first_with]; [reflexivity|].
  destruct (Py.str_in w l) eqn:Hl.
  - exists 0. split; [reflexivity|]. cbn [Irace.list_index]. now rewrite String.eqb_refl.
  - destruct (filter (Py.str_in w) lines) as [|t ts] eqn:Hf.
    + now rewrite IH.
    + destruct IH as (i & -> & Hi). exists (S i). split; [reflexivity|].
      cbn [Irace.list_index]. destruct (String.eqb_spec l t) as [->|_].
      * apply filter_head in Hf. congruence.
      * now rewrite Hi.
Qed.

Lemma splice_condition_spec (lines : list string) (line : string) :
  Irace.splice_condition lines line =
  match first_with (hd "" (Py.split " " line)) lines with
  | Some i => Ok (Irace.list_update i (fun p => p ++ irace_condition_suffix line) lines)
  | None => Raise IndexError
  end.
Proof.
  unfold Irace.splice_condition.
  pose proof (first_with_spec (hd "" (Py.split " " line)) lines) as H.
  destruct (filter _ lines) as [|t ts].
  - now rewrite H.
  - destruct H as (i & -> & ->). reflexivity.
Qed.






Lemma first_word (w r : string) :
  Py.char_in " " w = false ->
  Py.split " " (w ++ String " " r) = w :: Py.split " " r.
Proof. apply split_append. Qed.




(** ** Numerals *)

Lemma digit_is_digit (d : ascii) :
  Py.char_in d PcsNew.pp_digits = true ->
  Py.is_digit d = true /\ Py.read_sign (String d "") = (1%Z, String d "").
Proof.
  unfold PcsNew.pp_digits. cbn [Py.char_in]. intros H.
  repeat (apply orb_true_iff in H as [H|H]); try discriminate;
    apply Ascii.eqb_eq in H; subst; split; reflexivity.
Qed.

Lemma read_sign_digit (d : ascii) (s : string) :
  Py.char_in d PcsNew.pp_digits = true -> Py.read_sign (String d s) = (1%Z, String d s).
Proof.
  unfold PcsNew.pp_digits. cbn [Py.char_in]. intros H.
  repeat (apply orb_true_iff in H as [H|H]); try discriminate;
    apply Ascii.eqb_eq in H; subst; reflexivity.
Qed.

Lemma span_all (p : ascii -> bool) (w : string) :
  all_chars p w = true -> Py.span p w = (w, "").
Proof.
  induction w as [|c w IH]; cbn [all_chars Py.span]; [reflexivity|].
  intros H. apply andb_true_iff in H as [-> H]. now rewrite IH.
Qed.

Lemma numeral_spec (v : string) :
  numeral v = true ->
  exists d v', v = String d v' /\ Py.char_in d PcsNew.pp_digits = true
               /\ all_chars (fun c => Py.char_in c PcsNew.pp_digits) v = true
               /\ all_chars Py.is_digit v = true.
Proof.
  intros H. apply word_spec in H as (d & v' & -> & Hd & Hall).
  exists d, v'. repeat split; try assumption.
  apply (all_chars_impl (fun c => Py.char_in c PcsNew.pp_digits)); [|exact Hall].
  intros c Hc. now apply digit_is_digit.
Qed.

Lemma Qred_integer (z : Z) : Qred (z # 1)%Q = (z # 1)%Q.
Proof.
  unfold Qred.
  pose proof (Z.ggcd_gcd z 1) as Hg. pose proof (Z.ggcd_correct_divisors z 1) as Hd.
  destruct (Z.ggcd z 1) as [g [aa bb]]. cbn [fst snd] in *.
  rewrite Z.gcd_1_r in Hg. subst g. destruct Hd as [Ha Hb].
  rewrite Z.mul_1_l in Ha, Hb. now subst.
Qed.

Lemma float_numeral (v : string) :
  numeral v = true -> Py.float v = Some (inject_Z (numeral_value v)).
Proof.
  intros H. apply numeral_spec in H as (d & v' & -> & Hd & _ & Hall).
  unfold Py.float. rewrite (read_sign_digit d v' Hd), (span_all _ _ Hall).
  cbn [String.length Nat.add Nat.eqb]. rewrite append_nil_r.
  unfold numeral_value.
  change (Py.pow10 (- Z.of_nat 0 + 0)) with (1 # 1)%Q.
  unfold Qmult, inject_Z. cbn [Qnum Qden Pos.mul].
  rewrite Z.mul_1_l, Z.mul_1_r. now rewrite Qred_integer.
Qed.

Lemma int_of_float_integer (z : Z) : Py.int_of_float (inject_Z z) = z.
Proof. unfold Py.int_of_float, inject_Z. cbn [Qnum Qden]. apply Z.quot_1_r. Qed.

Lemma Qle_bool_integer (a b : Z) : Qle_bool (inject_Z a) (inject_Z b) = (a <=? b)%Z.
Proof. unfold Qle_bool, inject_Z. cbn [Qnum Qden]. now rewrite !Z.mul_1_r. Qed.

Lemma integer_constructor_spec (n : string) (l u d : Z) (log : bool) :
  UniformIntegerHyperparameter n (inject_Z l) (inject_Z u) None log (inject_Z d)
  = if (l <? u)%Z && (l <=? d)%Z && (d <=? u)%Z
    then Ok (integer_parameter n l u d log)
    else Raise ValidationError.
Proof.
  unfold UniformIntegerHyperparameter.
  rewrite !int_of_float_integer, !Qle_bool_integer, (Z.ltb_antisym u l).
  destruct (u <=? l)%Z, (l <=? d)%Z, (d <=? u)%Z; reflexivity.
Qed.

Lemma integer_constructor (n : string) (l u d : Z) (log : bool) :
  (l < u)%Z -> (l <= d <= u)%Z ->
  UniformIntegerHyperparameter n (inject_Z l) (inject_Z u) None log (inject_Z d)
  = Ok (integer_parameter n l u d log).
Proof.
  intros Hlu Hd. rewrite integer_constructor_spec.
  destruct (Z.ltb_spec l u); [|lia].
  destruct (Z.leb_spec l d); [|lia].
  destruct (Z.leb_spec d u); [|lia].
  reflexivity.
Qed.

(** ** Integer declarations of the explicit dialect *)

Lemma parse_numeral (v r : string) :
  numeral v = true ->
  stops (fun c => Py.char_in c "0123456789.eE") r = true ->
  parse true PcsNew.pp_number (v ++ r) = Some ([v], r).
Proof.
  intros Hv Hr. apply numeral_spec in Hv as (d & v' & -> & _ & Hall & _).
  apply digits_number; [discriminate | assumption | assumption].
Qed.

Lemma integer_line_text (n l u d : string) (log : bool) :
  integer_line n l u d log =
  n ++ String " " ("integer" ++ String " " (String "[" (l ++ String "," (String " "
    (u ++ String "]" (String " " (String "[" (d ++ String "]"
      (if log then "log" else ""))))))))).
Proof. reflexivity. Qed.

Lemma parse_integer_line (n l u d : string) (log : bool) :
  identifier n = true -> numeral l = true -> numeral u = true -> numeral d = true ->
  parse true PcsNew.pp_cont_param (integer_line n l u d log)
  = Some (integer_tokens n l u d log, "").
Proof.
  intros Hn Hl Hu Hd. rewrite integer_line_text. unfold PcsNew.pp_cont_param.
  rewrite !parse_and.
  rewrite parse_name by (assumption || reflexivity).
  rewrite parse_space.
  rewrite (parse_word (word_chars PcsNew.pp_param_type) "integer")
    by (discriminate || reflexivity).
  rewrite parse_literal.
  change (skip_white (String " " (String "[" ?x))) with (String "[" x).
  cbn [after_prefix]. change (Ascii.eqb "[" "[") with true. cbv iota.
  rewrite parse_numeral by (assumption || reflexivity).
  rewrite parse_literal.
  change (skip_white (String "," ?x)) with (String "," x).
  cbn [after_prefix]. change (Ascii.eqb "," ",") with true. cbv iota.
  rewrite parse_space, parse_numeral by (assumption || reflexivity).
  rewrite parse_literal.
  change (skip_white (String "]" ?x)) with (String "]" x).
  cbn [after_prefix]. change (Ascii.eqb "]" "]") with true. cbv iota.
  rewrite parse_literal.
  change (skip_white (String " " (String "[" ?x))) with (String "[" x).
  cbn [after_prefix]. change (Ascii.eqb "[" "[") with true. cbv iota.
  rewrite parse_numeral by (assumption || (now destruct log)).
  rewrite parse_literal.
  change (skip_white (String "]" ?x)) with (String "]" x).
  cbn [after_prefix]. change (Ascii.eqb "]" "]") with true. cbv iota.
  destruct log; reflexivity.
Qed.

Lemma try_continuous_integer (n l u d : string) (log : bool) :
  identifier n = true -> numeral l = true -> numeral u = true -> numeral d = true ->
  PcsNew.try_continuous (integer_line n l u d log)
  = bind (UniformIntegerHyperparameter n (inject_Z (numeral_value l))
            (inject_Z (numeral_value u)) None log (inject_Z (numeral_value d)))
      (fun param => Ok (Some param)).
Proof.
  intros Hn Hl Hu Hd. unfold PcsNew.try_continuous, parseString.
  rewrite parse_integer_line by assumption.
  assert (Hint : forall rest, existsb (String.eqb "integer") (n :: "integer" :: rest)
                              = true).
  { intros rest. cbn [existsb]. change (String.eqb "integer" "integer") with true.
    now rewrite orb_true_r. }
  unfold integer_tokens.
  destruct log; cbn [app].
  - change (Py.slice [n; "integer"; "["; l; ","; u; "]"; "["; d; "]"; "log"] None
              (Some 10%Z) 1)
      with [n; "integer"; "["; l; ","; u; "]"; "["; d; "]"].
    change (Py.slice [n; "integer"; "["; l; ","; u; "]"; "["; d; "]"; "log"]
              (Some 10%Z) None 1)
      with ["log"].
    change (Py.index [n; "integer"; "["; l; ","; u; "]"; "["; d; "]"] 0) with (Some n).
    change (Py.index [n; "integer"; "["; l; ","; u; "]"; "["; d; "]"] 3) with (Some l).
    change (Py.index [n; "integer"; "["; l; ","; u; "]"; "["; d; "]"] 5) with (Some u).
    change (Py.index [n; "integer"; "["; l; ","; u; "]"; "["; d; "]"] 8) with (Some d).
    cbn [or_raise bind]. rewrite !float_numeral by assumption. cbn [or_raise bind].
    rewrite Hint. reflexivity.
  - change (Py.slice [n; "integer"; "["; l; ","; u; "]"; "["; d; "]"] None
              (Some 10%Z) 1)
      with [n; "integer"; "["; l; ","; u; "]"; "["; d; "]"].
    change (Py.slice [n; "integer"; "["; l; ","; u; "]"; "["; d; "]"]
              (Some 10%Z) None 1)
      with (@nil string).
    change (Py.index [n; "integer"; "["; l; ","; u; "]"; "["; d; "]"] 0) with (Some n).
    change (Py.index [n; "integer"; "["; l; ","; u; "]"; "["; d; "]"] 3) with (Some l).
    change (Py.index [n; "integer"; "["; l; ","; u; "]"; "["; d; "]"] 5) with (Some u).
    change (Py.index [n; "integer"; "["; l; ","; u; "]"; "["; d; "]"] 8) with (Some d).
    cbn [or_raise bind]. rewrite !float_numeral by assumption. cbn [or_raise bind].
    rewrite Hint. reflexivity.
Qed.

Lemma integer_line_not_categorical (n l u d : string) (log : bool) :
  identifier n = true -> numeral l = true -> numeral u = true -> numeral d = true ->
  parseString PcsNew.pp_cat_param (integer_line n l u d log) = None.
Proof.
  intros Hn Hl Hu Hd. apply parseString_none. unfold PcsNew.pp_cat_param.
  do 5 apply and_none.
  apply (and_literal_exclusive (PcsNew.pp_param_name + PcsNew.pp_param_type)%pp "[" "{");
    [discriminate|].
  pose proof (parse_integer_line n l u d log Hn Hl Hu Hd) as H.
  unfold PcsNew.pp_cont_param in H.
  assert (Hsome : parse true
            (PcsNew.pp_param_name + PcsNew.pp_param_type + "[" + PcsNew.pp_number + ","
             + PcsNew.pp_number + "]" + "[" + PcsNew.pp_number + "]"
             + Optional PcsNew.pp_log)%pp (integer_line n l u d log) <> None)
    by (rewrite H; discriminate).
  do 8 apply and_some in Hsome. exact Hsome.
Qed.

Lemma numeral_declaration_chars (v : string) :
  numeral v = true -> all_chars declaration_char v = true.
Proof.
  intros H. apply numeral_spec in H as (d & v' & -> & _ & Hall & _).
  apply (all_chars_impl (fun c => Py.char_in c PcsNew.pp_digits)); [|exact Hall].
  intros c Hc. unfold declaration_char. apply orb_true_iff. left.
  unfold name_char. cbn [word_chars PcsNew.pp_param_name].
  rewrite !char_in_append. unfold alphanums. rewrite char_in_append.
  change nums with PcsNew.pp_digits. rewrite Hc. now rewrite !orb_true_r.
Qed.

Lemma integer_line_chars (n l u d : string) (log : bool) :
  identifier n = true -> numeral l = true -> numeral u = true -> numeral d = true ->
  all_chars declaration_char (integer_line n l u d log) = true.
Proof.
  intros Hn Hl Hu Hd. unfold integer_line. rewrite !all_chars_append.
  rewrite (identifier_declaration_chars n Hn), (numeral_declaration_chars l Hl),
    (numeral_declaration_chars u Hu), (numeral_declaration_chars d Hd).
  now destruct log.
Qed.

Lemma integer_line_end (n l u d : string) (log : bool) :
  stops Py.is_space (Py.rev_string (integer_line n l u d log) "") = true.
Proof.
  replace (integer_line n l u d log)
    with ((n ++ " integer [" ++ l ++ ", " ++ u ++ "] [" ++ d)
          ++ (if log then "]log" else "]")).
  - rewrite rev_string_app. now destruct log.
  - unfold integer_line. rewrite !append_assoc. now destruct log.
Qed.

Lemma integer_line_clean (n l u d : string) (log : bool) :
  identifier n = true -> numeral l = true -> numeral u = true -> numeral d = true ->
  let line := integer_line n l u d log in
  PcsNew.clean line = line
  /\ Py.char_in Py.nl line = false
  /\ Py.char_in "|" line = false
  /\ Py.char_in "]" line = true
  /\ Py.startswith line "{" = false.
Proof.
  intros Hn Hl Hu Hd line.
  pose proof (integer_line_chars n l u d log Hn Hl Hu Hd) as Hchars. fold line in Hchars.
  assert (Habsent : forall x, declaration_char x = false -> Py.char_in x line = false)
    by (intros x; now apply char_not_in_word).
  apply identifier_spec in Hn as (Hne & _ & _ & Hsp & Hst).
  repeat split.
  - unfold PcsNew.clean. rewrite (Habsent "#"%char eq_refl).
    rewrite (remove_char_absent Py.dquote line) by (apply Habsent; reflexivity).
    rewrite (remove_char_absent Py.squote line) by (apply Habsent; reflexivity).
    apply strip_stops.
    + subst line. unfold integer_line. destruct n; [contradiction | exact Hsp].
    + subst line. apply integer_line_end.
  - now apply Habsent.
  - now apply Habsent.
  - subst line. unfold integer_line.
    rewrite !char_in_append. cbn. now rewrite !orb_true_r.
  - subst line. unfold integer_line.
    destruct n as [|a n]; [contradiction|].
    cbn [append Py.startswith] in Hst |- *.
    rewrite startswith_nil in Hst |- *. exact Hst.
Qed.

Lemma read_integer_line_steps (st : PcsNew.read_state) (n l u d : string) (log : bool) :
  identifier n = true -> numeral l = true -> numeral u = true -> numeral d = true ->
  PcsNew.read_line st (integer_line n l u d log) =
  bind (UniformIntegerHyperparameter n (inject_Z (numeral_value l))
          (inject_Z (numeral_value u)) None log (inject_Z (numeral_value d)))
    (fun param =>
       bind (add_hyperparameter (PcsNew.configuration_space st) param)
         (fun cs => Ok (PcsNew.mkState cs (PcsNew.conditions st) (PcsNew.forbidden st)))).
Proof.
  intros Hn Hl Hu Hd.
  destruct (integer_line_clean n l u d log Hn Hl Hu Hd) as (Hc & _ & Hbar & Hbr & Hst).
  unfold PcsNew.read_line. rewrite Hc, Hbar, Hbr, Hst.
  cbn [negb andb]. rewrite andb_false_r.
  assert (Hlen : Nat.eqb (String.length (Py.strip (integer_line n l u d log))) 0 = false).
  { assert (Hs : Py.strip (integer_line n l u d log) = integer_line n l u d log).
    { pose proof (identifier_spec n Hn) as (Hne & _ & _ & Hsp & _). apply strip_stops.
      - unfold integer_line. destruct n; [contradiction | exact Hsp].
      - apply integer_line_end. }
    rewrite Hs. unfold integer_line. rewrite length_append.
    apply identifier_spec in Hn as (Hne & _). destruct n; [contradiction | reflexivity]. }
  rewrite Hlen, try_continuous_integer by assumption.
  destruct (UniformIntegerHyperparameter _ _ _ _ _ _) as [param|e]; cbn [bind];
    [|reflexivity].
  unfold PcsNew.try_categorical. rewrite integer_line_not_categorical by assumption.
  reflexivity.
Qed.

Lemma read_integer_line (st : PcsNew.read_state) (n l u d : string) (log : bool) :
  identifier n = true -> numeral l = true -> numeral u = true -> numeral d = true ->
  (numeral_value l < numeral_value u)%Z ->
  (numeral_value l <= numeral_value d <= numeral_value u)%Z ->
  ~ In n (map name (get_hyperparameters (PcsNew.configuration_space st))) ->
  PcsNew.read_line st (integer_line n l u d log) =
  Ok (PcsNew.mkState
        (mkSpace
           (get_hyperparameters (PcsNew.configuration_space st)
            ++ [integer_parameter n (numeral_value l) (numeral_value u)
                  (numeral_value d) log])
           (get_conditions (PcsNew.configuration_space st))
           (forbidden_clauses (PcsNew.configuration_space st)))
        (PcsNew.conditions st) (PcsNew.forbidden st)).
Proof.
  intros Hn Hl Hu Hd Hlu Hld Hfresh.
  rewrite read_integer_line_steps, integer_constructor by assumption.
  cbn [bind]. unfold add_hyperparameter. cbn [name integer_parameter].
  rewrite lookup_absent by assumption. reflexivity.
Qed.

(** X14. An integer declaration, in the explicit dialect: for a line
    [name integer [lower, upper] [default]], with or without [log] after it,
    whose numbers are runs of digits, up to 2^53 and the lower one positive
    when [log] is there, the loop body of [read] raises
    [ValidationError] unless [lower < upper] and
    [lower <= default <= upper], raises [DuplicateNameError] when the name
    is declared already, and else adds to the space the integer
    hyperparameter the line denotes, on the scale it names. *)
Theorem integer_declaration_is_read (st : PcsNew.read_state) (n l u d : string)
    (log : bool) :
  identifier n = true ->
  exact_numeral l = true -> exact_numeral u = true -> exact_numeral d = true ->
  (log = true -> (0 < numeral_value l)%Z) ->
  PcsNew.read_line st (integer_line n l u d log) =
  if ((numeral_value l <? numeral_value u) && (numeral_value l <=? numeral_value d)
      && (numeral_value d <=? numeral_value u))%Z
  then
    match lookup n (get_hyperparameters (PcsNew.configuration_space st)) with
    | Some _ => Raise (DuplicateNameError n)
    | None =>
        Ok (PcsNew.mkState
              (mkSpace
                 (get_hyperparameters (PcsNew.configuration_space st)
                  ++ [integer_parameter n (numeral_value l) (numeral_value u)
                        (numeral_value d) log])
                 (get_conditions (PcsNew.configuration_space st))
                 (forbidden_clauses (PcsNew.configuration_space st)))
              (PcsNew.conditions st) (PcsNew.forbidden st))
    end
  else Raise ValidationError.
Proof.
  intros Hn Hl Hu Hd _.
  apply andb_true_iff in Hl as [Hl _], Hu as [Hu _], Hd as [Hd _].
  rewrite read_integer_line_steps, integer_constructor_spec by assumption.
  destruct (_ && _)%Z; cbn [bind]; [|reflexivity].
  unfold add_hyperparameter. cbn [name integer_parameter].
  now destruct (lookup n _).
Qed.

(** X14, at the line [depth integer [1, 10] [3]log] read into the empty
    space. *)
Lemma integer_declaration_is_read_witness :
  PcsNew.read_line (PcsNew.mkState empty [] []) (integer_line "depth" "1" "10" "3" true) =
  Ok (PcsNew.mkState (mkSpace [integer_parameter "depth" 1 10 3 true] [] []) [] []).
Proof.
  apply (integer_declaration_is_read (PcsNew.mkState empty [] []) "depth" "1" "10" "3" true);
    reflexivity.
Defined.

(** ** Integers as text *)

Lemma uint_digits (u : Decimal.uint) :
  all_chars (fun c => Py.char_in c PcsNew.pp_digits) (NilEmpty.string_of_uint u) = true.
Proof. induction u; cbn [NilEmpty.string_of_uint all_chars]; try rewrite IHu; reflexivity. Qed.

Lemma uint_value_from (u : Decimal.uint) (acc : positive) :
  Py.digits_value (NilEmpty.string_of_uint u) (Z.pos acc) = Z.pos (Pos.of_uint_acc u acc).
Proof.
  revert acc; induction u; intros acc;
    cbn [NilEmpty.string_of_uint Py.digits_value Pos.of_uint_acc];
    try reflexivity;
    match goal with
    | |- Py.digits_value _ (_ + Z.of_nat ?k)%Z = Z.pos (Pos.of_uint_acc _ ?p) =>
        let v := eval vm_compute in (Z.of_nat k) in
        change (Z.of_nat k) with v; replace (10 * Z.pos acc + v)%Z with (Z.pos p) by lia
    end; apply IHu.
Qed.

Lemma uint_value (u : Decimal.uint) :
  Py.digits_value (NilEmpty.string_of_uint u) 0 = Z.of_N (Pos.of_uint u).
Proof.
  induction u; cbn [NilEmpty.string_of_uint Py.digits_value Pos.of_uint];
    try reflexivity; try exact IHu;
    match goal with
    | |- Py.digits_value _ (_ + Z.of_nat ?k)%Z = Z.of_N (N.pos (Pos.of_uint_acc _ ?p)) =>
        let v := eval vm_compute in (Z.of_nat k) in
        change (Z.of_nat k) with v; replace (10 * 0 + v)%Z with (Z.pos p) by lia
    end; apply uint_value_from.
Qed.

Lemma str_of_int_numeral (z : Z) :
  (0 <= z)%Z ->
  numeral (Py.str_of_int z) = true /\ numeral_value (Py.str_of_int z) = z.
Proof.
  intros Hz. destruct z as [|p|p]; [now split | | lia].
  unfold Py.str_of_int, numeral, numeral_value. cbn [Z.to_int NilEmpty.string_of_int].
  rewrite uint_digits, uint_value, DecimalPos.Unsigned.of_to. split; [|reflexivity].
  rewrite andb_true_r. apply negb_true_iff.
  pose proof (DecimalPos.Unsigned.to_uint_nonnil p) as Hnil.
  destruct (Pos.to_uint p); [contradiction | reflexivity..].
Qed.

(** ** The round trip of categorical and integer parameters *)

Lemma plain_integer_spec (hp : Hyperparameter) :
  plain_integer hp = true ->
  exists n l u d log,
    hp = integer_parameter n l u d log /\ identifier n = true
    /\ (0 <= l)%Z /\ (l < u)%Z /\ (l <= d <= u)%Z.
Proof.
  destruct hp as [n [l ld] [u ud] [d dd] [] log [q|] | |]; try discriminate.
  unfold plain_integer, integral. cbn [Qnum Qden]. intros H.
  apply andb_true_iff in H as [H H0]. apply andb_true_iff in H as [H H1].
  apply andb_true_iff in H as [H H2]. apply andb_true_iff in H as [H H3].
  apply andb_true_iff in H as [H H4]. apply andb_true_iff in H as [H H5].
  apply andb_true_iff in H as [H H6]. apply andb_true_iff in H as [Hn H7].
  apply Pos.eqb_eq in H5, H6, H7. subst ld ud dd.
  apply Z.leb_le in H0, H1, H2. apply Z.ltb_lt in H3.
  assert (H4' : (0 <= l)%Z)
    by (destruct log; [apply Z.ltb_lt in H4; lia | now apply Z.leb_le in H4]).
  exists n, l, u, d, log. repeat split; try assumption; lia.
Qed.

Lemma integer_parameter_line (n : string) (l u d : Z) (log : bool) :
  parameter_line (integer_parameter n l u d log) =
  integer_line n (Py.str_of_int l) (Py.str_of_int u) (Py.str_of_int d) log.
Proof.
  unfold parameter_line, integer_parameter, PcsNew.build_continuous, integer_line.
  rewrite !int_of_float_integer. now destruct log.
Qed.

Lemma plain_parameter_name (hp : Hyperparameter) :
  plain_parameter hp = true -> identifier (name hp) = true.
Proof.
  intros H. apply orb_true_iff in H as [H|H].
  - destruct hp as [| n choices d |]; try discriminate. cbn [plain_categorical name] in *.
    apply andb_true_iff in H as [H _]. now apply andb_true_iff in H as [-> _].
  - apply plain_integer_spec in H as (n & l & u & d & log & -> & Hn & _). exact Hn.
Qed.

Lemma parameter_line_declaration (hp : Hyperparameter) :
  plain_categorical hp = true -> parameter_line hp = declaration hp.
Proof. destruct hp; try discriminate. reflexivity. Qed.

Lemma read_parameter_line (st : PcsNew.read_state) (hp : Hyperparameter) :
  plain_parameter hp = true ->
  ~ In (name hp) (map name (get_hyperparameters (PcsNew.configuration_space st))) ->
  PcsNew.read_line st (parameter_line hp) =
  Ok (PcsNew.mkState
        (mkSpace (get_hyperparameters (PcsNew.configuration_space st) ++ [hp])
           (get_conditions (PcsNew.configuration_space st))
           (forbidden_clauses (PcsNew.configuration_space st)))
        (PcsNew.conditions st) (PcsNew.forbidden st)).
Proof.
  intros H Hnew. apply orb_true_iff in H as [H|H].
  - rewrite parameter_line_declaration by assumption. now apply read_line_written.
  - apply plain_integer_spec in H as (n & l & u & d & log & -> & Hn & Hl & Hlu & Hd).
    rewrite integer_parameter_line.
    destruct (str_of_int_numeral l) as [Hl1 Hl2]; [lia|].
    destruct (str_of_int_numeral u) as [Hu1 Hu2]; [lia|].
    destruct (str_of_int_numeral d) as [Hd1 Hd2]; [lia|].
    rewrite read_integer_line; try assumption.
    + now rewrite Hl2, Hu2, Hd2.
    + now rewrite Hl2, Hu2.
    + now rewrite Hl2, Hu2, Hd2.
Qed.

Lemma parameter_line_plain (hp : Hyperparameter) :
  plain_parameter hp = true ->
  0 < String.length (parameter_line hp) /\ Py.char_in Py.nl (parameter_line hp) = false.
Proof.
  intros H. apply orb_true_iff in H as [H|H].
  - rewrite parameter_line_declaration by assumption.
    split; [now apply declaration_not_empty|].
    destruct hp as [| n choices d |]; try discriminate.
    now destruct (declaration_line n d choices H) as (_ & Hnl & _).
  - apply plain_integer_spec in H as (n & l & u & d & log & -> & Hn & Hl & Hlu & Hd).
    rewrite integer_parameter_line.
    destruct (str_of_int_numeral l) as [Hl1 _]; [lia|].
    destruct (str_of_int_numeral u) as [Hu1 _]; [lia|].
    destruct (str_of_int_numeral d) as [Hd1 _]; [lia|].
    destruct (integer_line_clean n _ _ _ log Hn Hl1 Hu1 Hd1) as (_ & Hnl & _).
    split; [|exact Hnl].
    unfold integer_line. rewrite !length_append. simpl. lia.
Qed.

Lemma write_parameter (buf : string) (hp : Hyperparameter) :
  plain_parameter hp = true ->
  PcsNew.write_hyperparameter buf hp =
  Ok ((if Nat.ltb 0 (String.length buf) then buf ++ Py.str1 Py.nl else buf)
      ++ parameter_line hp).
Proof.
  intros H. apply plain_parameter_name in H.
  pose proof (name_check_passes (name hp) H) as Hcheck.
  unfold PcsNew.write_hyperparameter.
  destruct (parseString PcsNew.pp_param_name (name hp)); [|contradiction].
  now destruct hp.
Qed.

Lemma write_parameters_from (hps : list Hyperparameter) (buf : string) :
  forallb plain_parameter hps = true -> 0 < String.length buf ->
  for_each PcsNew.write_hyperparameter hps buf =
  Ok (fold_left (fun b hp => b ++ Py.str1 Py.nl ++ parameter_line hp) hps buf).
Proof.
  revert buf; induction hps as [|hp hps IH]; intros buf Hall Hbuf; [reflexivity|].
  cbn [forallb] in Hall. apply andb_true_iff in Hall as [Hp Hall].
  cbn [for_each fold_left]. rewrite (write_parameter buf hp Hp).
  destruct (Nat.ltb_spec 0 (String.length buf)) as [_|]; [|lia].
  cbn [bind]. rewrite IH; [now rewrite append_assoc | assumption |].
  rewrite !length_append. lia.
Qed.

Lemma write_parameters (hps : list Hyperparameter) :
  forallb plain_parameter hps = true ->
  for_each PcsNew.write_hyperparameter hps "" =
  Ok (Py.join (Py.str1 Py.nl) (map parameter_line hps)).
Proof.
  destruct hps as [|hp hps]; [reflexivity|]. cbn [forallb]. intros Hall.
  apply andb_true_iff in Hall as [Hp Hall].
  cbn [for_each]. rewrite (write_parameter "" hp Hp).
  change (Nat.ltb 0 (String.length "")) with false. cbv iota. cbn [bind].
  rewrite write_parameters_from; [| assumption | now apply parameter_line_plain].
  now rewrite (fold_join_sep (Py.str1 Py.nl) parameter_line hps "" (parameter_line hp)).
Qed.

Lemma read_parameter_lines (hps2 hps1 : list Hyperparameter) :
  forallb plain_parameter hps2 = true -> NoDup (map name (hps1 ++ hps2)) ->
  for_each PcsNew.read_line (map parameter_line hps2)
    (PcsNew.mkState (mkSpace hps1 [] []) [] []) =
  Ok (PcsNew.mkState (mkSpace (hps1 ++ hps2) [] []) [] []).
Proof.
  revert hps1; induction hps2 as [|hp hps2 IH]; intros hps1 Hall Hnd.
  - simpl. now rewrite app_nil_r.
  - cbn [forallb] in Hall. apply andb_true_iff in Hall as [Hp Hall].
    cbn [map for_each]. rewrite read_parameter_line; [|assumption|].
    + cbn [bind PcsNew.configuration_space get_hyperparameters get_conditions
           forbidden_clauses PcsNew.conditions PcsNew.forbidden].
      rewrite IH; [now rewrite <- app_assoc | assumption |].
      now rewrite <- app_assoc.
    + cbn [PcsNew.configuration_space get_hyperparameters].
      rewrite map_app in Hnd. cbn [map] in Hnd.
      apply NoDup_remove_2 in Hnd. intros Hin. apply Hnd.
      apply in_or_app. now left.
Qed.

(** X15. Round trip of categorical and integer parameters, in the explicit
    dialect: a space without conditions and forbidden clauses whose
    hyperparameters, of distinct names, are plain categorical ones or
    integer ones with an identifier as name, no quantization and bounds
    and default in range between 0 and 2^53, on either scale, is written,
    and reading the lines of the text gives the same space back. *)
Theorem pcs_roundtrip_plain_parameters (hps : list Hyperparameter) :
  forallb plain_parameter hps = true ->
  NoDup (map name hps) ->
  exists text,
    PcsNew.write (mkSpace hps [] []) = Ok text
    /\ PcsNew.read (Py.split Py.nl text) = Ok (mkSpace hps [] []).
Proof.
  intros Hall Hnd. exists (Py.join (Py.str1 Py.nl) (map parameter_line hps)). split.
  - unfold PcsNew.write. cbn [get_hyperparameters get_conditions forbidden_clauses].
    now rewrite write_parameters.
  - destruct hps as [|hp hps]; [reflexivity|].
    rewrite split_join.
    + unfold PcsNew.read, empty.
      rewrite (read_parameter_lines (hp :: hps) []) by assumption.
      reflexivity.
    + discriminate.
    + apply Forall_forall. intros l Hl. apply in_map_iff in Hl as (x & <- & Hx).
      rewrite forallb_forall in Hall. now apply parameter_line_plain, Hall.
Qed.

(** X15, at a space of a categorical and two integer hyperparameters. *)
Lemma pcs_roundtrip_plain_parameters_witness :
  exists text,
    PcsNew.write (mkSpace [hp_a; integer_parameter "depth" 1 10 3 true;
                           integer_parameter "width" 0 4096 64 false] [] []) = Ok text
    /\ PcsNew.read (Py.split Py.nl text) =
       Ok (mkSpace [hp_a; integer_parameter "depth" 1 10 3 true;
                    integer_parameter "width" 0 4096 64 false] [] []).
Proof.
  apply (pcs_roundtrip_plain_parameters
           [hp_a; integer_parameter "depth" 1 10 3 true;
            integer_parameter "width" 0 4096 64 false]).
  - reflexivity.
  - repeat constructor; simpl; intuition discriminate.
Defined.

(** ** Written lines that the explicit dialect does not read *)

(** *** Cleaning a line whose start is known *)

Lemma before_char_app (c : ascii) (h r : string) :
  Py.char_in c h = false -> Py.before_char c (h ++ r) = h ++ Py.before_char c r.
Proof.
  induction h as [|x h IH]; cbn [Py.char_in Py.before_char append]; [reflexivity|].
  intros H. apply orb_false_iff in H as [Hx Hh].
  rewrite Ascii.eqb_sym, Hx. now rewrite IH.
Qed.

Lemma remove_char_app (c : ascii) (a b : string) :
  Py.remove_char c (a ++ b) = Py.remove_char c a ++ Py.remove_char c b.
Proof.
  induction a as [|x a IH]; cbn [Py.remove_char append]; [reflexivity|].
  destruct (Ascii.eqb x c); [exact IH | cbn [append]; now rewrite IH].
Qed.

Lemma lstrip_app (a b : string) :
  b <> "" -> stops Py.is_space b = true -> exists a', Py.lstrip (a ++ b) = a' ++ b.
Proof.
  intros Hne Hb. induction a as [|x a [a' IH]].
  - exists "". cbn [append]. now apply lstrip_stops.
  - cbn [append Py.lstrip]. destruct (Py.is_space x).
    + now exists a'.
    + now exists (String x a).
Qed.

Lemma stops_append (p : ascii -> bool) (a b : string) :
  a <> "" -> stops p (a ++ b) = stops p a.
Proof. destruct a; [contradiction | reflexivity]. Qed.

(** Cleaning keeps the start of a line that holds no [#], up to the quotes
    in it, when without its quotes it neither starts nor ends with white
    space. *)
Lemma clean_head (h r : string) :
  let h' := Py.remove_char Py.squote (Py.remove_char Py.dquote h) in
  Py.char_in "#" h = false ->
  h' <> "" -> stops Py.is_space h' = true ->
  stops Py.is_space (Py.rev_string h' "") = true ->
  exists r', PcsNew.clean (h ++ r) = h' ++ r'.
Proof.
  intros h' Hhash Hne Hs He. unfold PcsNew.clean.
  assert (H1 : exists r1, (if Py.char_in "#" (h ++ r) then Py.before_char "#" (h ++ r)
                           else h ++ r) = h ++ r1).
  { destruct (Py.char_in "#" (h ++ r)); [|now exists r].
    exists (Py.before_char "#" r). now apply before_char_app. }
  destruct H1 as [r1 ->]. rewrite !remove_char_app. fold h'.
  set (r2 := Py.remove_char Py.squote (Py.remove_char Py.dquote r1)).
  unfold Py.strip.
  rewrite (lstrip_stops (h' ++ r2)) by now rewrite stops_append.
  rewrite rev_string_app.
  destruct (lstrip_app (Py.rev_string r2 "") (Py.rev_string h' "")) as [a' ->];
    [|exact He|].
  { intros Hrev. apply Hne. rewrite <- (rev_string_involutive h'), Hrev. reflexivity. }
  rewrite rev_string_app, rev_string_involutive. now exists (Py.rev_string a' "").
Qed.

(** *** Lines of a text *)

Lemma split_after (x : ascii) (u w : string) :
  exists pre, Py.split x (u ++ String x w) = (pre ++ Py.split x w)%list.
Proof.
  assert (H : exists p0 pre, Py.split x (u ++ String x w)
                              = (p0 :: pre ++ Py.split x w)%list).
  { induction u as [|c u (p0 & pre & IH)]; cbn [append Py.split].
    - rewrite Ascii.eqb_refl. now exists "", [].
    - rewrite IH. destruct (Ascii.eqb c x).
      + now exists "", (p0 :: pre).
      + now exists (String c p0), pre. }
  destruct H as (p0 & pre & ->). now exists (p0 :: pre).
Qed.

Lemma split_head (x : ascii) (h b : string) :
  Py.char_in x h = false ->
  exists r post, Py.split x (h ++ b) = (h ++ r) :: post.
Proof.
  induction h as [|c h IH]; cbn [append Py.char_in].
  - intros _. destruct (Py.split x b) as [|p post] eqn:E.
    + destruct b; cbn [Py.split] in E; [discriminate|].
      destruct (Ascii.eqb a x); [discriminate|].
      destruct (Py.split x b); discriminate.
    + now exists p, post.
  - intros H. apply orb_false_iff in H as [Hc Hh].
    destruct (IH Hh) as (r & post & E). cbn [Py.split].
    rewrite Ascii.eqb_sym, Hc, E. now exists r, post.
Qed.

(** A text that stands at the start of a line of [text] starts one of the
    lines [text] is split into. *)
Lemma starts_line_split (h text : string) :
  Py.char_in Py.nl h = false -> starts_line h text ->
  exists pre r post, Py.split Py.nl text = (pre ++ (h ++ r)%string :: post)%list.
Proof.
  intros Hh [[rest ->]|(before & rest & ->)].
  - destruct (split_head Py.nl h rest Hh) as (r & post & ->). now exists [], r, post.
  - destruct (split_after Py.nl before (h ++ rest)) as [pre ->].
    destruct (split_head Py.nl h rest Hh) as (r & post & ->). now exists pre, r, post.
Qed.

Lemma starts_line_append (h text s : string) :
  starts_line h text -> starts_line h (text ++ s).
Proof.
  intros [[rest ->]|(before & rest & ->)].
  - left. exists (rest ++ s). now rewrite append_assoc.
  - right. exists before, (rest ++ s).
    rewrite append_assoc. cbn [append]. now rewrite append_assoc.
Qed.

Lemma starts_line_after (h text before : string) :
  starts_line h text -> starts_line h (before ++ String Py.nl text).
Proof.
  intros [[rest ->]|(b & rest & ->)]; right.
  - now exists before, rest.
  - exists (before ++ String Py.nl b), rest.
    rewrite append_assoc. reflexivity.
Qed.

Lemma starts_line_not_empty (h text : string) :
  h <> "" -> starts_line h text -> Nat.ltb 0 (String.length text) = true.
Proof.
  intros Hne [[rest ->]|(b & rest & ->)].
  - destruct h; [contradiction | reflexivity].
  - rewrite length_append. cbn [String.length]. apply Nat.ltb_lt. lia.
Qed.

(** *** Where the written lines stand *)

Lemma write_condition_keeps (h acc out : string) (cond : Condition) :
  starts_line h acc -> PcsNew.write_condition acc cond = Ok out -> starts_line h out.
Proof.
  intros Hacc H. unfold PcsNew.write_condition in H.
  apply bind_ok in H as (text & _ & H).
  destruct (Nat.ltb 0 (String.length acc)), text as [t|]; injection H as <-;
    repeat apply starts_line_append; exact Hacc.
Qed.

Lemma build_named_leaf (cond : Condition) (t : string) :
  named_leaf cond = true -> PcsNew.build_condition cond = Ok (Some t) ->
  exists c p rest,
    identifier c = true /\ identifier p = true /\ t = condition_head c p ++ rest.
Proof.
  unfold named_leaf, condition_head.
  destruct cond as [child parent v|child parent v|child parent vs|cs|cs];
    cbn [leaf_names PcsNew.build_condition]; try discriminate;
    intros Hn H; apply andb_true_iff in Hn as [Hc Hp];
    exists (name child), (name parent).
  - injection H as <-. exists (Py.str v ++ "}"). repeat split; try assumption.
    now rewrite !append_assoc.
  - injection H as <-. exists (Py.str v ++ "}"). repeat split; try assumption.
    now rewrite !append_assoc.
  - apply bind_ok in H as (v & _ & H). injection H as <-.
    exists (v ++ "}"). repeat split; try assumption. now rewrite !append_assoc.
Qed.

Lemma write_condition_starts (acc out : string) (cond : Condition) :
  named_leaf cond = true -> PcsNew.write_condition acc cond = Ok out ->
  exists c p, identifier c = true /\ identifier p = true
              /\ starts_line (condition_head c p) out.
Proof.
  intros Hn H. unfold PcsNew.write_condition in H.
  apply bind_ok in H as (text & Hb & H).
  destruct text as [t|].
  2:{ destruct cond; try discriminate Hn; cbn [PcsNew.build_condition] in Hb;
        try discriminate Hb.
      destruct (Py.join_values ", " values); discriminate Hb. }
  destruct (build_named_leaf cond t Hn Hb) as (c & p & rest & Hc & Hp & ->).
  exists c, p. repeat split; try assumption.
  destruct acc as [|x acc]; cbn [String.length Nat.ltb Nat.leb] in H; injection H as <-.
  - left. now exists rest.
  - right. exists (String x acc), rest. now rewrite append_assoc.
Qed.

Lemma written_conditions_start (conds : list Condition) (cond : Condition)
    (out : string) :
  In cond conds -> named_leaf cond = true ->
  for_each PcsNew.write_condition conds "" = Ok out ->
  exists c p, identifier c = true /\ identifier p = true
              /\ starts_line (condition_head c p) out.
Proof.
  intros Hin Hn H. apply in_split in Hin as (l1 & l2 & ->).
  rewrite for_each_app in H. apply bind_ok in H as (acc & _ & H).
  cbn [for_each] in H. apply bind_ok in H as (mid & Hmid & H).
  destruct (write_condition_starts acc mid cond Hn Hmid) as (c & p & Hc & Hp & Hs).
  exists c, p. repeat split; try assumption.
  revert H. apply (for_each_invariant PcsNew.write_condition
                     (starts_line (condition_head c p))); [|exact Hs].
  intros st x st' Hst Hx. now apply (write_condition_keeps _ st st' x).
Qed.

Lemma write_hyperparameter_keeps (h acc out : string) (hp : Hyperparameter) :
  starts_line h acc -> PcsNew.write_hyperparameter acc hp = Ok out -> starts_line h out.
Proof.
  intros Hacc H. unfold PcsNew.write_hyperparameter in H.
  destruct (parseString _ _); [|discriminate].
  destruct (Nat.ltb 0 (String.length acc)), hp; injection H as <-;
    repeat apply starts_line_append; exact Hacc.
Qed.

Lemma write_constant_starts (acc out n : string) (value : Py.value) :
  PcsNew.write_hyperparameter acc (Constant n value) = Ok out ->
  starts_line (PcsNew.build_constant n value) out.
Proof.
  intros H. unfold PcsNew.write_hyperparameter in H.
  destruct (parseString _ _); [|discriminate].
  destruct acc as [|x acc]; cbn [String.length Nat.ltb Nat.leb] in H; injection H as <-.
  - left. exists "". now rewrite append_nil_r.
  - right. exists (String x acc), "". now rewrite append_assoc, append_nil_r.
Qed.

Lemma written_constant_starts (hps : list Hyperparameter) (n out : string)
    (value : Py.value) :
  In (Constant n value) hps ->
  for_each PcsNew.write_hyperparameter hps "" = Ok out ->
  starts_line (PcsNew.build_constant n value) out.
Proof.
  intros Hin H. apply in_split in Hin as (l1 & l2 & ->).
  rewrite for_each_app in H. apply bind_ok in H as (acc & _ & H).
  cbn [for_each] in H. apply bind_ok in H as (mid & Hmid & H).
  apply write_constant_starts in Hmid.
  revert H. apply (for_each_invariant PcsNew.write_hyperparameter
                     (starts_line (PcsNew.build_constant n value))); [|exact Hmid].
  intros st x st' Hst Hx. now apply (write_hyperparameter_keeps _ st st' x).
Qed.

Lemma fold_append (lines : list string) (acc : string) :
  fold_left (fun buf line => buf ++ line) lines acc = acc ++ fold_right append "" lines.
Proof.
  revert acc; induction lines as [|l lines IH]; intros acc; cbn [fold_left fold_right].
  - now rewrite append_nil_r.
  - now rewrite IH, append_assoc.
Qed.

(** The lines of a buffer, put together, are the buffer. *)
Lemma readlines_text (s : string) : fold_right append "" (Py.readlines s) = s.
Proof.
  induction s as [|d s IH]; [reflexivity|]. cbn [Py.readlines].
  destruct (Ascii.eqb d Py.nl).
  - cbn [fold_right]. now rewrite IH.
  - destruct (Py.readlines s) as [|w ws]; cbn [fold_right] in IH |- *.
    + now rewrite <- IH.
    + cbn [append]. now rewrite IH.
Qed.

Lemma fold_ended_lines (lines : list string) (acc : string) :
  exists s, fold_left (fun buf line => buf ++ line ++ Py.str1 Py.nl) lines acc = acc ++ s.
Proof.
  revert acc; induction lines as [|l lines IH]; intros acc; cbn [fold_left].
  - exists "". now rewrite append_nil_r.
  - destruct (IH (acc ++ l ++ Py.str1 Py.nl)) as [s ->].
    exists ((l ++ Py.str1 Py.nl) ++ s). now rewrite !append_assoc.
Qed.

(** The tail of [write] only appends to the declarations. *)
Lemma assemble_appends (param_lines condition_lines : string)
    (forbidden_lines : list string) :
  exists s, PcsNew.assemble param_lines condition_lines forbidden_lines
            = param_lines ++ s.
Proof.
  unfold PcsNew.assemble.
  assert (H : exists s1, (if Nat.ltb 0 (String.length condition_lines)
                          then fold_left (fun buf line => buf ++ line)
                                 (Py.readlines condition_lines)
                                 (param_lines ++ Py.str1 Py.nl ++ Py.str1 Py.nl)
                          else param_lines) = param_lines ++ s1).
  { destruct (Nat.ltb 0 _).
    - rewrite fold_append, readlines_text, append_assoc. eauto.
    - exists "". now rewrite append_nil_r. }
  destruct H as [s1 ->]. destruct (Nat.ltb 0 _).
  - destruct (fold_ended_lines (PcsNew.sort forbidden_lines)
                ((param_lines ++ s1) ++ Py.str1 Py.nl ++ Py.str1 Py.nl)) as [s ->].
    rewrite !append_assoc. eauto.
  - eauto.
Qed.

Lemma assemble_parameters (h param_lines condition_lines : string)
    (forbidden_lines : list string) :
  starts_line h param_lines ->
  starts_line h (PcsNew.assemble param_lines condition_lines forbidden_lines).
Proof.
  intros H.
  destruct (assemble_appends param_lines condition_lines forbidden_lines) as [s ->].
  now apply starts_line_append.
Qed.

Lemma assemble_conditions (h param_lines condition_lines : string)
    (forbidden_lines : list string) :
  h <> "" -> starts_line h condition_lines ->
  starts_line h (PcsNew.assemble param_lines condition_lines forbidden_lines).
Proof.
  intros Hne H. unfold PcsNew.assemble.
  rewrite (starts_line_not_empty h condition_lines Hne H).
  rewrite fold_append, readlines_text.
  assert (Hs : starts_line h ((param_lines ++ Py.str1 Py.nl ++ Py.str1 Py.nl)
                              ++ condition_lines)).
  { replace ((param_lines ++ Py.str1 Py.nl ++ Py.str1 Py.nl) ++ condition_lines)
      with ((param_lines ++ Py.str1 Py.nl) ++ String Py.nl condition_lines)
      by (now rewrite !append_assoc).
    now apply starts_line_after. }
  destruct (Nat.ltb 0 _); [|exact Hs].
  destruct (fold_ended_lines (PcsNew.sort forbidden_lines)
              (((param_lines ++ Py.str1 Py.nl ++ Py.str1 Py.nl) ++ condition_lines)
               ++ Py.str1 Py.nl ++ Py.str1 Py.nl)) as [s ->].
  do 2 apply starts_line_append. exact Hs.
Qed.

(** *** What the reader does with these lines *)

Lemma word_fails (chars : string) (x : ascii) (r : string) :
  is_white x = false -> Py.char_in x chars = false ->
  parse true (Word chars) (String x r) = None.
Proof. intros Hw Hx. cbn [parse skip_white]. rewrite Hw. cbn [Py.span]. now rewrite Hx. Qed.

Lemma identifier_without (x : ascii) (w : string) :
  identifier w = true -> name_char x = false -> Py.char_in x w = false.
Proof.
  intros Hw Hx. apply identifier_spec in Hw as (_ & Hall & _).
  now apply (char_not_in_word name_char).
Qed.

Lemma condition_head_without (x : ascii) (c p : string) :
  identifier c = true -> identifier p = true ->
  name_char x = false -> Py.char_in x " |{" = false ->
  Py.char_in x (condition_head c p) = false.
Proof.
  intros Hc Hp Hx Hlit. unfold condition_head.
  rewrite char_in_append, (identifier_without x c Hc Hx).
  rewrite (char_in_append x " | "), char_in_append, (identifier_without x p Hp Hx).
  cbn [Py.char_in orb] in Hlit |- *.
  apply orb_false_iff in Hlit as [Hs Hlit]. apply orb_false_iff in Hlit as [Hb Hlit].
  apply orb_false_iff in Hlit as [Ho _]. now rewrite Hs, Hb, Ho.
Qed.

(** A line that starts as a written condition does is cleaned to a line
    that starts so. *)
Lemma clean_condition_head (c p r : string) :
  identifier c = true -> identifier p = true ->
  exists r', PcsNew.clean (condition_head c p ++ r) = condition_head c p ++ r'.
Proof.
  intros Hc Hp.
  assert (Hq : Py.remove_char Py.squote (Py.remove_char Py.dquote (condition_head c p))
               = condition_head c p).
  { rewrite (remove_char_absent Py.dquote)
      by (apply condition_head_without; assumption || reflexivity).
    apply remove_char_absent, condition_head_without; assumption || reflexivity. }
  pose proof (clean_head (condition_head c p) r) as H. cbv zeta in H. rewrite Hq in H.
  pose proof (identifier_spec c Hc) as (Hne & _ & _ & Hsp & _).
  apply H.
  - apply condition_head_without; assumption || reflexivity.
  - unfold condition_head. destruct c; [contradiction | discriminate].
  - unfold condition_head. now rewrite stops_append.
  - unfold condition_head. rewrite !rev_string_app. reflexivity.
Qed.

Lemma parse_condition_head_fails (c p r : string) :
  identifier c = true -> identifier p = true ->
  parseString PcsNew.pp_condition (condition_head c p ++ r) = None.
Proof.
  intros Hc Hp. apply parseString_none. unfold PcsNew.pp_condition.
  do 4 apply and_none. unfold condition_head.
  rewrite !append_assoc. cbn [append].
  rewrite !parse_and.
  rewrite parse_name by (assumption || reflexivity).
  rewrite parse_literal.
  change (skip_white (String " " (String "|" ?x))) with (String "|" x).
  cbn [after_prefix]. change (Ascii.eqb "|" "|") with true. cbv iota.
  rewrite parse_space, parse_name by (assumption || reflexivity).
  rewrite parse_space. unfold PcsNew.pp_param_operation.
  now rewrite word_fails.
Qed.

Lemma condition_head_raises (st : PcsNew.read_state) (c p r : string) :
  identifier c = true -> identifier p = true ->
  exists e, PcsNew.read_line st (condition_head c p ++ r) = Raise e.
Proof.
  intros Hc Hp. destruct (clean_condition_head c p r Hc Hp) as [r' Hclean].
  unfold PcsNew.read_line. rewrite Hclean.
  assert (Hbar : Py.char_in "|" (condition_head c p ++ r') = true).
  { unfold condition_head. rewrite !char_in_append. cbn [Py.char_in].
    change (Ascii.eqb "|" "|") with true. cbn [orb]. now rewrite !orb_true_r. }
  rewrite Hbar, parse_condition_head_fails by assumption. eauto.
Qed.

(** A line that starts as a written constant does is cleaned to a line that
    starts with the name and an opening brace and holds a closing
    bracket. *)
Lemma clean_constant (n : string) (value : Py.value) (r : string) :
  identifier n = true -> Py.char_in "#" (Py.str value) = false ->
  exists z, PcsNew.clean (PcsNew.build_constant n value ++ r)
            = n ++ String " " (String "{" z)
            /\ Py.char_in "]" z = true.
Proof.
  intros Hn Hhash. set (w := Py.str value) in *.
  set (w' := Py.remove_char Py.squote (Py.remove_char Py.dquote w)).
  assert (Hq : Py.remove_char Py.squote
                 (Py.remove_char Py.dquote (PcsNew.build_constant n value))
               = n ++ " {" ++ w' ++ "} [" ++ w' ++ "]").
  { unfold PcsNew.build_constant. fold w.
    rewrite !remove_char_app.
    rewrite (remove_char_absent Py.dquote n)
      by (apply identifier_without; assumption || reflexivity).
    rewrite (remove_char_absent Py.squote n)
      by (apply identifier_without; assumption || reflexivity).
    reflexivity. }
  pose proof (clean_head (PcsNew.build_constant n value) r) as H. cbv zeta in H.
  rewrite Hq in H.
  pose proof (identifier_spec n Hn) as (Hne & _ & _ & Hsp & _).
  destruct H as [r' Hclean].
  - unfold PcsNew.build_constant. fold w. rewrite !char_in_append, Hhash.
    now rewrite (identifier_without "#" n Hn).
  - destruct n; [contradiction | discriminate].
  - now rewrite stops_append.
  - rewrite !rev_string_app. reflexivity.
  - exists ((w' ++ "} [" ++ w' ++ "]") ++ r'). split.
    + rewrite Hclean. rewrite !append_assoc. reflexivity.
    + rewrite !char_in_append. cbn [Py.char_in].
      change (Ascii.eqb "]" "]") with true. cbn [orb]. now rewrite !orb_true_r.
Qed.

Lemma constant_line_raises (st : PcsNew.read_state) (n : string) (value : Py.value)
    (r : string) :
  identifier n = true -> Py.char_in "#" (Py.str value) = false ->
  exists e, PcsNew.read_line st (PcsNew.build_constant n value ++ r) = Raise e.
Proof.
  intros Hn Hhash. destruct (clean_constant n value r Hn Hhash) as (z & Hclean & Hz).
  rewrite pcs_read_line_classify, Hclean. unfold pcs_classify.
  assert (Hname : parse true PcsNew.pp_param_name (n ++ String " " (String "{" z))
                  = Some ([n], String " " (String "{" z))).
  { now apply parse_name. }
  destruct (Py.char_in "|" _).
  { rewrite parseString_none; [eauto|]. unfold PcsNew.pp_condition.
    do 6 apply and_none. rewrite parse_and, Hname. reflexivity. }
  rewrite (char_in_append "]"). cbn [Py.char_in].
  change (Ascii.eqb "]" " ") with false. change (Ascii.eqb "]" "{") with false.
  cbn [orb]. rewrite Hz, orb_true_r, andb_false_r. cbn [negb].
  assert (Hstart : Py.startswith (n ++ String " " (String "{" z)) "{" = false).
  { pose proof (identifier_spec n Hn) as (Hne & _ & _ & _ & Hs).
    destruct n as [|a n]; [contradiction|]. cbn [Py.startswith append] in Hs |- *.
    apply andb_false_iff in Hs as [->|Hs]; [reflexivity|].
    destruct n; discriminate Hs. }
  rewrite Hstart. cbn [andb].
  rewrite (parseString_none PcsNew.pp_cont_param).
  2:{ unfold PcsNew.pp_cont_param. do 9 apply and_none.
      rewrite parse_and, Hname, parse_space. unfold PcsNew.pp_param_type.
      now rewrite word_fails. }
  rewrite (parseString_none PcsNew.pp_cat_param).
  2:{ unfold PcsNew.pp_cat_param. do 6 apply and_none.
      rewrite parse_and, Hname, parse_space. unfold PcsNew.pp_param_type.
      now rewrite word_fails. }
  eauto.
Qed.

Lemma read_raises (pre post : list string) (line : string) :
  (forall st, exists e, PcsNew.read_line st line = Raise e) ->
  exists e, PcsNew.read (pre ++ line :: post) = Raise e.
Proof.
  intros H. unfold PcsNew.read.
  destruct (for_each_raises PcsNew.read_line pre post line (PcsNew.mkState empty [] []) H)
    as [e ->].
  cbn [bind]. eauto.
Qed.

(** X16. A space with a condition does not come back from its text, in the
    explicit dialect: when a space has, among its conditions, an equality,
    an inequality or a membership whose child and parent have identifiers
    as names, the text that [write] returns for it makes [read] raise. *)
Theorem written_condition_is_not_read (cs : ConfigurationSpace) (text : string) :
  existsb named_leaf (get_conditions cs) = true ->
  PcsNew.write cs = Ok text ->
  exists e, PcsNew.read (Py.split Py.nl text) = Raise e.
Proof.
  intros Hex Hw. apply existsb_exists in Hex as (cond & Hin & Hn).
  unfold PcsNew.write in Hw.
  apply bind_ok in Hw as (param_lines & _ & Hw).
  apply bind_ok in Hw as (condition_lines & Hc & Hw).
  apply bind_ok in Hw as (forbidden_lines & _ & Hw). injection Hw as <-.
  destruct (written_conditions_start _ cond condition_lines Hin Hn Hc)
    as (c & p & Hic & Hip & Hs).
  assert (Hne : condition_head c p <> "").
  { apply identifier_spec in Hic as (Hne & _). unfold condition_head.
    destruct c; [contradiction | discriminate]. }
  apply (assemble_conditions _ param_lines _ forbidden_lines Hne) in Hs.
  apply starts_line_split in Hs as (pre & r & post & ->).
  - apply read_raises. intros st. now apply condition_head_raises.
  - apply condition_head_without; assumption || reflexivity.
Qed.

(** X16, at a space of two categorical hyperparameters and an equality
    condition between them. *)
Lemma written_condition_is_not_read_witness :
  exists e,
    PcsNew.read
      (Py.split Py.nl
         ("a categorical {1, 2} [1]" ++ Py.str1 Py.nl ++
          "b categorical {3, 4} [3]" ++ Py.str1 Py.nl ++ Py.str1 Py.nl ++
          "b | a {1}"))
    = Raise e.
Proof.
  apply (written_condition_is_not_read conditional_space); reflexivity.
Defined.

(** X17. A space with a constant does not come back from its text, in the
    explicit dialect: when a space has a constant whose name is an
    identifier and whose value is written without [#] and without line
    feed, the text that [write] returns for it makes [read] raise. *)
Theorem written_constant_is_not_read (cs : ConfigurationSpace) (text : string) :
  existsb plain_constant (get_hyperparameters cs) = true ->
  PcsNew.write cs = Ok text ->
  exists e, PcsNew.read (Py.split Py.nl text) = Raise e.
Proof.
  intros Hex Hw. apply existsb_exists in Hex as (hp & Hin & Hp).
  destruct hp as [| |n value]; try discriminate Hp. cbn [plain_constant] in Hp.
  apply andb_true_iff in Hp as [Hp Hnl]. apply andb_true_iff in Hp as [Hn Hhash].
  apply negb_true_iff in Hnl, Hhash.
  unfold PcsNew.write in Hw.
  apply bind_ok in Hw as (param_lines & Hp & Hw).
  apply bind_ok in Hw as (condition_lines & _ & Hw).
  apply bind_ok in Hw as (forbidden_lines & _ & Hw). injection Hw as <-.
  pose proof (written_constant_starts _ n param_lines value Hin Hp) as Hs.
  apply (assemble_parameters _ _ condition_lines forbidden_lines) in Hs.
  apply starts_line_split in Hs as (pre & r & post & ->).
  - apply read_raises. intros st. now apply constant_line_raises.
  - unfold PcsNew.build_constant. rewrite !char_in_append, Hnl.
    now rewrite (identifier_without Py.nl n Hn).
Qed.

(** X17, at the space of one constant [c] of value 1. *)
Lemma written_constant_is_not_read_witness :
  exists e, PcsNew.read (Py.split Py.nl "c {1} [1]") = Raise e.
Proof.
  apply (written_constant_is_not_read constant_space); reflexivity.
Defined.

(** ** Written conditions that the compact dialect does not read *)

(** *** The line a condition is appended to *)

Lemma readlines_head (h b : string) :
  h <> "" -> Py.char_in Py.nl h = false ->
  exists r ls, Py.readlines (h ++ b) = (h ++ r) :: ls.
Proof.
  induction h as [|c h IH]; [contradiction|]. intros _ H.
  cbn [Py.char_in] in H. apply orb_false_iff in H as [Hc Hh].
  cbn [append Py.readlines]. rewrite Ascii.eqb_sym, Hc.
  destruct h as [|d h].
  - cbn [append]. destruct (Py.readlines b) as [|w ws]; [now exists "", [] | now exists w, ws].
  - destruct IH as (r & ls & ->); [discriminate | exact Hh |]. now exists r, ls.
Qed.

Lemma first_with_bound (w : string) (lines : list string) (i : nat) :
  first_with w lines = Some i -> i < List.length lines.
Proof.
  revert i; induction lines as [|l lines IH]; intros i; cbn [first_with]; [discriminate|].
  destruct (Py.str_in w l).
  - intros [= <-]. cbn [List.length]. lia.
  - destruct (first_with w lines) as [j|]; [|discriminate].
    intros [= <-]. cbn [List.length]. specialize (IH j eq_refl). lia.
Qed.

Lemma list_update_exists (P : string -> Prop) (f : string -> string) (i : nat)
    (l : list string) :
  (forall x, P x -> P (f x)) -> Exists P l -> Exists P (Irace.list_update i f l).
Proof.
  intros Hf H. revert i. induction H as [x l Hx|x l Hl IH]; intros i;
    destruct i; cbn [Irace.list_update].
  - left. now apply Hf.
  - now left.
  - now right.
  - right. apply IH.
Qed.

Lemma list_update_at (P : string -> Prop) (f : string -> string) (i : nat)
    (l : list string) :
  i < List.length l -> (forall x, In x l -> P (f x)) -> Exists P (Irace.list_update i f l).
Proof.
  revert i; induction l as [|x l IH]; intros i; cbn [List.length]; [lia|].
  intros Hi Hf. destruct i; cbn [Irace.list_update].
  - left. apply Hf. now left.
  - right. apply IH; [lia|]. intros y Hy. apply Hf. now right.
Qed.

Lemma spliced_append (base : list string) (l s : string) :
  spliced base l -> spliced base (l ++ s).
Proof.
  intros (b & e & Hb & ->). exists b, (e ++ s). split; [exact Hb|].
  now rewrite append_assoc.
Qed.

(** The words after the first, of a line that starts as a written condition
    does, start with the bar. *)
Lemma suffix_of_condition (child r : string) :
  identifier child = true ->
  exists e, irace_condition_suffix (child ++ String " " (String "|" (String " " r)))
            = String "|" e.
Proof.
  intros Hc. unfold irace_condition_suffix.
  rewrite first_word by (apply identifier_without; assumption || reflexivity).
  change (String "|" (String " " r)) with ("|" ++ String " " r).
  rewrite (first_word "|" r) by reflexivity. cbn [tl].
  destruct (Py.split " " r) as [|w ws] eqn:E.
  - exists "". reflexivity.
  - rewrite join_cons. now exists ("  " ++ Py.join "  " (w :: ws)).
Qed.

Lemma splice_keeps (base lines lines' : list string) (line : string) :
  Exists (spliced base) lines -> Irace.splice_condition lines line = Ok lines' ->
  Exists (spliced base) lines'.
Proof.
  intros H. rewrite splice_condition_spec.
  destruct (first_with _ lines) as [i|]; [|discriminate]. intros [= <-].
  apply list_update_exists; [|exact H]. intros x. apply spliced_append.
Qed.

Lemma splice_first (base lines' : list string) (child r : string) :
  identifier child = true ->
  Irace.splice_condition base (child ++ String " " (String "|" (String " " r)))
  = Ok lines' ->
  Exists (spliced base) lines'.
Proof.
  intros Hc. rewrite splice_condition_spec.
  destruct (first_with _ base) as [i|] eqn:Hi; [|discriminate]. intros [= <-].
  apply list_update_at; [now apply first_with_bound in Hi|].
  intros b Hb. destruct (suffix_of_condition child r Hc) as [e ->]. now exists b, e.
Qed.

Lemma irace_build_named_leaf (cond : Condition) (t : string) :
  named_leaf cond = true -> Irace.build_condition cond = Ok t ->
  exists child rest,
    identifier child = true /\ t = child ++ String " " (String "|" (String " " rest)).
Proof.
  unfold named_leaf.
  destruct cond as [child parent v|child parent v|child parent vs|cs|cs];
    cbn [leaf_names Irace.build_condition]; try discriminate;
    intros Hn H; apply andb_true_iff in Hn as [Hc Hp]; exists (name child).
  - injection H as <-. eauto.
  - apply bind_ok in H as (v & _ & H). injection H as <-. eauto.
Qed.

Lemma irace_write_condition_appends (acc out : string) (cond : Condition) :
  Irace.write_condition acc cond = Ok out -> exists s, out = acc ++ s.
Proof.
  unfold Irace.write_condition. intros H. apply bind_ok in H as (t & _ & H).
  injection H as <-. destruct (Nat.ltb 0 _).
  - rewrite append_assoc. eauto.
  - eauto.
Qed.

Lemma irace_write_conditions_append (conds : list Condition) (acc out : string) :
  for_each Irace.write_condition conds acc = Ok out -> exists s, out = acc ++ s.
Proof.
  revert acc; induction conds as [|c conds IH]; intros acc; cbn [for_each].
  - intros [= <-]. exists "". now rewrite append_nil_r.
  - intros H. apply bind_ok in H as (mid & Hmid & H).
    apply irace_write_condition_appends in Hmid as [s1 ->].
    apply IH in H as [s2 ->]. rewrite append_assoc. eauto.
Qed.

(** After the loop that appends the conditions, one of the parameter lines
    has a bar after its declaration. *)
Lemma spliced_after_loop (base lines' : list string) (cond : Condition)
    (conds : list Condition) (condition_lines : string) :
  named_leaf cond = true ->
  for_each Irace.write_condition (cond :: conds) "" = Ok condition_lines ->
  for_each Irace.splice_condition (Py.readlines condition_lines) base = Ok lines' ->
  Exists (spliced base) lines'.
Proof.
  intros Hn Hc Hs. cbn [for_each] in Hc. apply bind_ok in Hc as (first & Hfirst & Hc).
  unfold Irace.write_condition in Hfirst. cbn [String.length Nat.ltb Nat.leb] in Hfirst.
  apply bind_ok in Hfirst as (t & Ht & Hfirst). injection Hfirst as <-.
  destruct (irace_build_named_leaf cond t Hn Ht) as (child & rest & Hchild & ->).
  apply irace_write_conditions_append in Hc as [s ->].
  cbn [append] in Hs. rewrite append_assoc in Hs. cbn [append] in Hs.
  replace (child ++ String " " (String "|" (String " " (rest ++ s))))
    with ((child ++ " | ") ++ rest ++ s) in Hs by (now rewrite append_assoc).
  destruct (readlines_head (child ++ " | ") (rest ++ s)) as (r & ls & Hr).
  { apply identifier_spec in Hchild as (Hne & _). destruct child; [contradiction | discriminate]. }
  { rewrite char_in_append, (identifier_without Py.nl child Hchild) by reflexivity.
    reflexivity. }
  rewrite Hr in Hs. cbn [for_each] in Hs. apply bind_ok in Hs as (mid & Hmid & Hs).
  rewrite append_assoc in Hmid. cbn [append] in Hmid.
  apply (splice_first base) in Hmid; [|exact Hchild].
  revert Hs. apply (for_each_invariant Irace.splice_condition (Exists (spliced base)));
    [|exact Hmid].
  intros st x st' Hst Hx. now apply (splice_keeps base st st' x).
Qed.

(** *** The text that is returned *)

Lemma last_char_spec (j : string) (c : ascii) :
  Py.last_char j = Some c -> exists a, j = a ++ Py.str1 c.
Proof.
  induction j as [|x j IH]; cbn [Py.last_char]; [discriminate|].
  destruct j as [|y j].
  - intros [= <-]. now exists "".
  - intros H. destruct (IH H) as [a ->]. now exists (String x a).
Qed.

(** The loop that ends the lines: every line comes out with a line feed at
    its end, which is added to it when it has none. *)
Lemma end_line_loop (lines done out : list string) :
  for_each Irace.end_line lines done = Ok out ->
  exists ended,
    out = (done ++ ended)%list
    /\ Forall2 (fun l l' => (exists s, l' = l ++ s) /\ exists a, l' = a ++ Py.str1 Py.nl)
         lines ended.
Proof.
  revert done; induction lines as [|l lines IH]; intros done; cbn [for_each].
  - intros [= <-]. exists []. split; [now rewrite app_nil_r | constructor].
  - intros H. apply bind_ok in H as (mid & Hmid & H).
    unfold Irace.end_line in Hmid. apply bind_ok in Hmid as (c & Hc & Hmid).
    injection Hmid as <-. apply IH in H as (ended & -> & Hall).
    destruct (Py.last_char l) as [c'|] eqn:Hl; [|discriminate]. injection Hc as ->.
    apply last_char_spec in Hl as [a Ha].
    exists ((if Ascii.eqb c Py.nl then l else l ++ Py.str1 Py.nl) :: ended).
    split; [now rewrite <- app_assoc|]. constructor; [|exact Hall].
    destruct (Ascii.eqb_spec c Py.nl) as [->|_].
    + split; [exists ""; now rewrite append_nil_r | now exists a].
    + split; eauto.
Qed.

Lemma ended_text_starts (base lines ended : list string) :
  Forall2 (fun l l' => (exists s, l' = l ++ s) /\ exists a, l' = a ++ Py.str1 Py.nl)
    lines ended ->
  Exists (spliced base) lines ->
  exists b, In b base /\ starts_line (b ++ "|") (fold_right append "" ended).
Proof.
  induction 1 as [|l l' lines ended [[s Hs] [a Ha]] _ IH]; intros Hex;
    inversion Hex as [x xs Hx|x xs Hx]; subst; cbn [fold_right].
  - destruct Hx as (b & e & Hb & ->). exists b. split; [exact Hb|].
    left. exists ((e ++ s) ++ fold_right append "" ended).
    rewrite !append_assoc. reflexivity.
  - destruct (IH Hx) as (b & Hb & Hstart). exists b. split; [exact Hb|].
    rewrite Ha, append_assoc. now apply starts_line_after.
Qed.

(** *** What the reader does with such a line *)

Lemma irace_declaration_shape (hp : Hyperparameter) :
  exists t, irace_declaration hp = name hp ++ String " " (String Py.squote ("--" ++ t)).
Proof.
  destruct hp as [n l u d i lg q | n choices d | n v]; cbn [irace_declaration name].
  - unfold Irace.build_continuous. destruct i; eexists; reflexivity.
  - unfold Irace.build_categorical. eexists; reflexivity.
  - unfold Irace.build_constant. eexists; reflexivity.
Qed.

Lemma irace_parse_name (w r : string) :
  identifier w = true -> stops name_char r = true ->
  parse true Irace.pp_param_name (w ++ r) = Some ([w], r).
Proof. exact (parse_name w r). Qed.

(** A line that starts with a declaration and a bar is cleaned to a line
    that starts with the name, a blank and two dashes and holds a bar. *)
Lemma clean_spliced (hp : Hyperparameter) (r : string) :
  plain_declaration hp = true ->
  exists z, Irace.clean ((irace_declaration hp ++ "|") ++ r)
            = name hp ++ String " " (String "-" z)
            /\ Py.char_in "|" z = true.
Proof.
  intros Hp. unfold plain_declaration in Hp.
  apply andb_true_iff in Hp as [Hp _]. apply andb_true_iff in Hp as [Hn Hhash].
  apply negb_true_iff in Hhash.
  destruct (irace_declaration_shape hp) as [t Ht].
  set (n := name hp) in *.
  set (t' := Py.remove_char Py.squote (Py.remove_char Py.dquote t)).
  assert (Hq : Py.remove_char Py.squote
                 (Py.remove_char Py.dquote (irace_declaration hp ++ "|"))
               = n ++ " --" ++ t' ++ "|").
  { rewrite Ht, !remove_char_app.
    rewrite (remove_char_absent Py.dquote n)
      by (apply identifier_without; assumption || reflexivity).
    rewrite (remove_char_absent Py.squote n)
      by (apply identifier_without; assumption || reflexivity).
    cbn [Py.remove_char]. change (Ascii.eqb " " Py.dquote) with false.
    change (Ascii.eqb Py.squote Py.dquote) with false. cbv iota.
    cbn [Py.remove_char]. change (Ascii.eqb " " Py.squote) with false.
    change (Ascii.eqb Py.squote Py.squote) with true. cbv iota.
    rewrite !remove_char_app. rewrite !append_assoc. reflexivity. }
  pose proof (clean_head (irace_declaration hp ++ "|") r) as H. cbv zeta in H.
  rewrite Hq in H.
  pose proof (identifier_spec n Hn) as (Hne & _ & _ & Hsp & _).
  change (Irace.clean ((irace_declaration hp ++ "|") ++ r))
    with (PcsNew.clean ((irace_declaration hp ++ "|") ++ r)).
  destruct H as [r' Hclean].
  - now rewrite char_in_append, Hhash.
  - destruct n; [contradiction | discriminate].
  - now rewrite stops_append.
  - rewrite !rev_string_app. reflexivity.
  - exists ("-" ++ (t' ++ "|") ++ r'). split.
    + rewrite Hclean, !append_assoc. reflexivity.
    + rewrite !char_in_append. cbn [Py.char_in].
      change (Ascii.eqb "|" "|") with true. cbn [orb]. now rewrite !orb_true_r.
Qed.

Lemma spliced_line_raises (st : Irace.read_state) (hp : Hyperparameter) (r : string) :
  plain_declaration hp = true ->
  exists e, Irace.read_line st ((irace_declaration hp ++ "|") ++ r) = Raise e.
Proof.
  intros Hp. destruct (clean_spliced hp r Hp) as (z & Hclean & Hz).
  unfold plain_declaration in Hp.
  apply andb_true_iff in Hp as [Hp _]. apply andb_true_iff in Hp as [Hn _].
  unfold Irace.read_line. rewrite Hclean.
  rewrite char_in_append. cbn [Py.char_in]. rewrite Hz, !orb_true_r.
  rewrite parseString_none; [eauto|].
  unfold Irace.pp_condition. do 5 apply and_none.
  rewrite parse_and, irace_parse_name by (assumption || reflexivity).
  reflexivity.
Qed.

Lemma bar_line_raises (st : Irace.read_state) (r : string) :
  exists e, Irace.read_line st (String "|" r) = Raise e.
Proof.
  destruct (clean_head "|" r) as [r' Hclean]; try reflexivity; [discriminate|].
  unfold Irace.read_line.
  change (Irace.clean (String "|" r)) with (PcsNew.clean ("|" ++ r)).
  rewrite Hclean. cbn [Py.remove_char]. change (Ascii.eqb "|" Py.dquote) with false.
  cbv iota. cbn [Py.remove_char]. change (Ascii.eqb "|" Py.squote) with false.
  cbv iota. cbn [append Py.char_in]. change (Ascii.eqb "|" "|") with true. cbn [orb].
  rewrite parseString_none; [eauto|].
  unfold Irace.pp_condition. do 6 apply and_none.
  unfold Irace.pp_param_name. now apply word_fails.
Qed.

Lemma irace_read_raises (pre post : list string) (line : string) :
  (forall st, exists e, Irace.read_line st line = Raise e) ->
  exists e, Irace.read (pre ++ line :: post) = Raise e.
Proof.
  intros H. unfold Irace.read.
  destruct (for_each_raises Irace.read_line pre post line (Irace.mkState empty [] []) H)
    as [e ->].
  cbn [bind]. eauto.
Qed.

Lemma plain_declaration_name_ok (hps : list Hyperparameter) :
  forallb plain_declaration hps = true -> forallb irace_name_ok hps = true.
Proof.
  intros H. apply forallb_forall. intros hp Hin.
  rewrite forallb_forall in H. specialize (H hp Hin). unfold plain_declaration in H.
  apply andb_true_iff in H as [H _]. apply andb_true_iff in H as [Hn _].
  unfold irace_name_ok, parseString.
  rewrite <- (append_nil_r (name hp)), irace_parse_name by (assumption || reflexivity).
  reflexivity.
Qed.

(** The parameter lines the conditions are appended to: the declarations
    or, without any hyperparameter, one empty line. *)
Lemma parameter_lines (hps : list Hyperparameter) (b : string) :
  forallb plain_declaration hps = true ->
  In b (Py.split Py.nl (Py.join (Py.str1 Py.nl) (map irace_declaration hps))) ->
  b = "" \/ exists hp, plain_declaration hp = true /\ b = irace_declaration hp.
Proof.
  intros Hp Hin. destruct hps as [|hp hps].
  - cbn in Hin. destruct Hin as [<-|[]]. now left.
  - rewrite split_join in Hin; [|discriminate|].
    + apply in_map_iff in Hin as (hp' & <- & Hin'). right. exists hp'. split; [|reflexivity].
      rewrite forallb_forall in Hp. now apply Hp.
    + apply Forall_forall. intros l Hl. apply in_map_iff in Hl as (hp' & <- & Hin').
      rewrite forallb_forall in Hp. specialize (Hp hp' Hin'). unfold plain_declaration in Hp.
      apply andb_true_iff in Hp as [_ Hp]. now apply negb_true_iff in Hp.
Qed.

(** X18. A space with a condition does not come back from its text, in the
    compact dialect either: when the hyperparameters have identifiers as
    names and declarations without [#] and line feed, and the first
    condition is an equality or a membership whose child and parent have
    identifiers as names, the text that [write] returns makes [read]
    raise. The condition is appended to a parameter line, after a bar, and
    the reader takes a line with a bar for a condition line. *)
Theorem irace_written_condition_is_not_read (hps : list Hyperparameter)
    (cond : Condition) (conds : list Condition) (fs : list Forbidden) (text : string) :
  forallb plain_declaration hps = true ->
  named_leaf cond = true ->
  Irace.write (mkSpace hps (cond :: conds) fs) = Ok text ->
  exists e, Irace.read (Py.split Py.nl text) = Raise e.
Proof.
  intros Hp Hn Hw. unfold Irace.write in Hw.
  cbn [get_hyperparameters get_conditions forbidden_clauses] in Hw.
  rewrite (irace_write_declarations hps (plain_declaration_name_ok hps Hp)) in Hw.
  cbn [bind] in Hw.
  apply bind_ok in Hw as (condition_lines & Hc & Hw).
  apply bind_ok in Hw as (forbidden_lines & _ & Hw).
  apply bind_ok in Hw as (lines' & Hs & Hw).
  apply bind_ok in Hw as (out & He & Hw). injection Hw as <-.
  assert (Hlen : Nat.ltb 0 (String.length condition_lines) = true).
  { cbn [for_each] in Hc. apply bind_ok in Hc as (first & Hfirst & Hc).
    apply irace_write_conditions_append in Hc as [s ->].
    unfold Irace.write_condition in Hfirst. apply bind_ok in Hfirst as (t & Ht & Hfirst).
    injection Hfirst as <-. cbn [String.length Nat.ltb Nat.leb append].
    destruct (irace_build_named_leaf cond t Hn Ht) as (child & rest & Hchild & ->).
    apply identifier_spec in Hchild as (Hne & _).
    destruct child; [contradiction | reflexivity]. }
  rewrite Hlen in Hs.
  pose proof (spliced_after_loop _ lines' cond conds condition_lines Hn Hc Hs) as Hex.
  apply end_line_loop in He as (ended & -> & Hall). cbn [app].
  rewrite fold_append. cbn [append].
  destruct (ended_text_starts _ lines' ended Hall Hex) as (b & Hb & Hstart).
  apply (parameter_lines hps b Hp) in Hb as [->|(hp & Hhp & ->)].
  - apply starts_line_split in Hstart as (pre & r & post & ->); [|reflexivity].
    apply irace_read_raises. intros st. apply bar_line_raises.
  - apply starts_line_split in Hstart as (pre & r & post & ->).
    + apply irace_read_raises. intros st. now apply spliced_line_raises.
    + unfold plain_declaration in Hhp. apply andb_true_iff in Hhp as [_ Hnl].
      apply negb_true_iff in Hnl. now rewrite char_in_append, Hnl.
Qed.

(** X18, at a space of two categorical hyperparameters and an equality
    condition between them. *)
Lemma irace_written_condition_is_not_read_witness :
  exists e,
    Irace.read
      (Py.split Py.nl
         ("a '--a ' c (1,2)|  a  %in%  c(1)  " ++ Py.str1 Py.nl
          ++ "c '--c ' c (5,6)" ++ Py.str1 Py.nl))
    = Raise e.
Proof.
  apply (irace_written_condition_is_not_read [hp_a; hp_c]
           (EqualsCondition hp_c hp_a (Py.VStr "1")) [] []); reflexivity.
Defined.

(** ** Reading in the compact dialect *)

(** *** Declarations of categorical hyperparameters *)

Lemma irace_line_text (n c d : string) (choices : list string) :
  irace_line (Categorical n (c :: choices) d) =
  n ++ String " " (String "{"
    (c ++ more_choices choices ++ String "}" (String " " (String "["
      (d ++ String "]" ""))))).
Proof.
  cbn [irace_line]. rewrite join_choices. cbn [append]. rewrite !append_assoc. reflexivity.
Qed.

Lemma irace_parse_choices (c : string) (choices : list string) (r : string) :
  identifier c = true -> forallb identifier choices = true ->
  parse true Irace.pp_choices (c ++ more_choices choices ++ String "}" r) =
  Some (c :: flat_map (fun c => [","; c]) choices, String "}" r).
Proof. exact (parse_choices c choices r). Qed.

Lemma irace_parse_categorical (n c d : string) (choices : list string) :
  identifier n = true -> identifier c = true -> forallb identifier choices = true ->
  identifier d = true ->
  parseString Irace.pp_cat_param (irace_line (Categorical n (c :: choices) d)) =
  Some (irace_categorical_tokens n c d choices).
Proof.
  intros Hn Hc Hall Hd. rewrite irace_line_text.
  unfold parseString, Irace.pp_cat_param. rewrite !parse_and.
  rewrite irace_parse_name by (assumption || reflexivity).
  change (parse true (Literal "{") (String " " (String "{" ?x)))
    with (Some (["{"], x)).
  cbv beta iota.
  rewrite irace_parse_choices by assumption.
  change (parse true (Literal "}") (String "}" ?x)) with (Some (["}"], x)).
  cbv beta iota.
  change (parse true (Literal "[") (String " " (String "[" ?x)))
    with (Some (["["], x)).
  cbv beta iota.
  rewrite irace_parse_name by (assumption || reflexivity).
  change (parse true (Literal "]") (String "]" ?x)) with (Some (["]"], x)).
  cbv beta iota. unfold irace_categorical_tokens.
  cbn [app]. now rewrite <- !app_assoc.
Qed.

Lemma irace_categorical_not_continuous (n c d : string) (choices : list string) :
  identifier n = true ->
  parseString Irace.pp_cont_param (irace_line (Categorical n (c :: choices) d)) = None.
Proof.
  intros Hn. rewrite irace_line_text.
  apply parseString_none. unfold Irace.pp_cont_param.
  do 8 apply and_none. rewrite parse_and.
  rewrite irace_parse_name by (assumption || reflexivity).
  reflexivity.
Qed.

Lemma every_other_from_first (c : string) (choices : list string) :
  Py.every 2 0 (c :: flat_map (fun c => [","; c]) choices) = c :: choices.
Proof. cbn [Py.every Nat.sub]. now rewrite every_other_choice. Qed.

Lemma irace_tokens_choices (n c d : string) (choices : list string) :
  Py.slice (irace_categorical_tokens n c d choices) (Some 2%Z) (Some (-4)%Z) 2
  = c :: choices.
Proof.
  unfold irace_categorical_tokens.
  rewrite (slice_middle [n; "{"] _ ["}"; "["; d; "]"] 2) by discriminate.
  apply every_other_from_first.
Qed.

Lemma irace_tokens_default (n c d : string) (choices : list string) :
  Py.index (irace_categorical_tokens n c d choices) (-2) = Some d.
Proof.
  unfold irace_categorical_tokens.
  replace ([n; "{"] ++
           (c :: flat_map (fun c0 => [","; c0]) choices) ++ ["}"; "["; d; "]"])%list
    with (([n; "{"] ++
           (c :: flat_map (fun c0 => [","; c0]) choices) ++ ["}"; "["]) ++ [d; "]"])%list
    by (now rewrite <- !app_assoc).
  apply index_last_but_one.
Qed.

Lemma irace_line_chars (n d : string) (choices : list string) :
  plain_categorical (Categorical n choices d) = true ->
  all_chars declaration_char (irace_line (Categorical n choices d)) = true.
Proof.
  unfold plain_categorical. intros H.
  apply andb_true_iff in H as [H Hd]. apply andb_true_iff in H as [Hn Hall].
  pose proof (default_is_identifier d choices Hall Hd) as Hid.
  cbn [irace_line]. rewrite !all_chars_append.
  rewrite (identifier_declaration_chars n Hn), (identifier_declaration_chars d Hid).
  rewrite all_chars_join; [reflexivity | reflexivity |].
  apply forallb_forall. intros x Hx. apply identifier_declaration_chars.
  rewrite forallb_forall in Hall. now apply Hall.
Qed.

(** The reader leaves such a line as it is and takes it for a
    declaration. *)
Lemma irace_line_clean (n d : string) (choices : list string) :
  plain_categorical (Categorical n choices d) = true ->
  let line := irace_line (Categorical n choices d) in
  Irace.clean line = line
  /\ Py.char_in "|" line = false
  /\ Py.char_in "}" line = true
  /\ Py.startswith line "{" = false.
Proof.
  intros H line. pose proof (irace_line_chars n d choices H) as Hchars.
  fold line in Hchars.
  assert (Habsent : forall x, declaration_char x = false -> Py.char_in x line = false)
    by (intros x; now apply char_not_in_word).
  unfold plain_categorical in H.
  apply andb_true_iff in H as [H Hd]. apply andb_true_iff in H as [Hn Hall].
  apply identifier_spec in Hn as (Hne & _ & _ & Hsp & Hst).
  repeat split.
  - unfold Irace.clean. rewrite (Habsent "#"%char eq_refl).
    rewrite (remove_char_absent Py.dquote line) by (apply Habsent; reflexivity).
    rewrite (remove_char_absent Py.squote line) by (apply Habsent; reflexivity).
    apply strip_stops.
    + subst line. cbn [irace_line]. destruct n; [contradiction | exact Hsp].
    + subst line. cbn [irace_line].
      rewrite <- !append_assoc, rev_string_app. reflexivity.
  - now apply Habsent.
  - subst line. cbn [irace_line].
    rewrite !char_in_append. cbn. now rewrite !orb_true_r.
  - subst line. cbn [irace_line].
    destruct n as [|a n]; [contradiction|].
    cbn [append Py.startswith] in Hst |- *.
    rewrite startswith_nil in Hst |- *. exact Hst.
Qed.

Lemma irace_read_declaration (st : Irace.read_state) (hp : Hyperparameter) :
  plain_categorical hp = true ->
  ~ In (name hp) (map name (get_hyperparameters (Irace.configuration_space st))) ->
  Irace.read_line st (irace_line hp) =
  Ok (Irace.mkState
        (mkSpace (get_hyperparameters (Irace.configuration_space st) ++ [hp])
           (get_conditions (Irace.configuration_space st))
           (forbidden_clauses (Irace.configuration_space st)))
        (Irace.conditions st) (Irace.forbidden st)).
Proof.
  intros Hp Hnew. destruct hp as [| n choices d |]; try discriminate.
  cbn [name] in Hnew.
  destruct (irace_line_clean n d choices Hp) as (Hclean & Hbar & Hbrace & Hstart).
  rewrite irace_read_line_classify, Hclean. unfold irace_classify.
  rewrite Hbar, Hbrace, Hstart. cbn [negb andb].
  unfold plain_categorical in Hp.
  apply andb_true_iff in Hp as [Hp Hd]. apply andb_true_iff in Hp as [Hn Hall].
  pose proof (default_is_identifier d choices Hall Hd) as Hid.
  destruct choices as [|c rest]; [discriminate|].
  cbn [forallb] in Hall. apply andb_true_iff in Hall as [Hc Hall].
  rewrite (irace_categorical_not_continuous n c d rest Hn).
  rewrite (irace_parse_categorical n c d rest Hn Hc Hall Hid).
  unfold Irace.try_categorical.
  rewrite (irace_parse_categorical n c d rest Hn Hc Hall Hid).
  rewrite irace_tokens_choices, irace_tokens_default.
  change (Py.index (irace_categorical_tokens n c d rest) 0) with (Some n).
  cbn [or_raise bind]. unfold CategoricalHyperparameter. rewrite Hd.
  cbn [bind irace_declare]. unfold add_hyperparameter. cbn [name].
  now rewrite (lookup_absent n _ Hnew).
Qed.

Lemma irace_read_declarations (hps2 hps1 : list Hyperparameter) :
  forallb plain_categorical hps2 = true -> NoDup (map name (hps1 ++ hps2)) ->
  for_each Irace.read_line (map irace_line hps2)
    (Irace.mkState (mkSpace hps1 [] []) [] []) =
  Ok (Irace.mkState (mkSpace (hps1 ++ hps2) [] []) [] []).
Proof.
  revert hps1; induction hps2 as [|hp hps2 IH]; intros hps1 Hall Hnd.
  - simpl. now rewrite app_nil_r.
  - cbn [forallb] in Hall. apply andb_true_iff in Hall as [Hp Hall].
    cbn [map for_each]. rewrite irace_read_declaration; [|assumption|].
    + cbn [bind Irace.configuration_space get_hyperparameters get_conditions
           forbidden_clauses Irace.conditions Irace.forbidden].
      rewrite IH; [now rewrite <- app_assoc | assumption |].
      now rewrite <- app_assoc.
    + cbn [Irace.configuration_space get_hyperparameters].
      rewrite map_app in Hnd. cbn [map] in Hnd.
      apply NoDup_remove_2 in Hnd. intros Hin. apply Hnd.
      apply in_or_app. now left.
Qed.

(** *** Condition lines *)

Lemma irace_membership_text (c p v : string) (vs : list string) :
  irace_membership_line c p v vs =
  c ++ String " " (String "|" (String " "
    (p ++ String " " (String "i" (String "n" (String " " (String "{"
      (v ++ more_choices vs ++ String "}" "")))))))).
Proof.
  unfold irace_membership_line. reflexivity.
Qed.

Lemma irace_parse_membership (c p v : string) (vs : list string) :
  identifier c = true -> identifier p = true -> identifier v = true ->
  forallb identifier vs = true ->
  parseString Irace.pp_condition (irace_membership_line c p v vs) =
  Some (irace_membership_tokens c p v vs).
Proof.
  intros Hc Hp Hv Hall. rewrite irace_membership_text.
  unfold parseString, Irace.pp_condition. rewrite !parse_and.
  rewrite irace_parse_name by (assumption || reflexivity).
  change (parse true (Literal "|") (String " " (String "|" ?x)))
    with (Some (["|"], x)).
  cbv beta iota.
  rewrite parse_space, irace_parse_name by (assumption || reflexivity).
  change (parse true (Literal "in") (String " " (String "i" (String "n" ?x))))
    with (Some (["in"], x)).
  cbv beta iota.
  change (parse true (Literal "{") (String " " (String "{" ?x)))
    with (Some (["{"], x)).
  cbv beta iota.
  rewrite irace_parse_choices by assumption.
  change (parse true (Literal "}") (String "}" ?x)) with (Some (["}"], x)).
  cbv beta iota. unfold irace_membership_tokens.
  cbn [app]. reflexivity.
Qed.

Lemma irace_membership_marked (c p v : string) (vs : list string) :
  Py.char_in "|" (irace_membership_line c p v vs) = true.
Proof.
  unfold irace_membership_line. rewrite char_in_append. cbn [append Py.char_in].
  change (Ascii.eqb "|" "|") with true. cbn [orb]. now rewrite !orb_true_r.
Qed.

Lemma irace_membership_values (c p v : string) (vs : list string) :
  Py.slice (irace_membership_tokens c p v vs) (Some 5%Z) (Some (-1)%Z) 2 = v :: vs.
Proof.
  unfold irace_membership_tokens.
  rewrite (slice_middle [c; "|"; p; "in"; "{"] _ ["}"] 2) by discriminate.
  apply every_other_from_first.
Qed.

Lemma legal_values_identifiers (hps : list Hyperparameter) (p : Hyperparameter)
    (vs : list string) :
  forallb plain_categorical hps = true -> lookup (name p) hps = Some p ->
  forallb (legal_value p) vs = true -> forallb identifier vs = true.
Proof.
  intros Hplain Hp Hlegal. apply lookup_in in Hp. rewrite forallb_forall in Hplain.
  specialize (Hplain p Hp). destruct p as [| n choices d |]; try discriminate.
  cbn [plain_categorical] in Hplain.
  apply andb_true_iff in Hplain as [Hplain _]. apply andb_true_iff in Hplain as [_ Hall].
  apply forallb_forall. intros v Hv. rewrite forallb_forall in Hlegal.
  specialize (Hlegal v Hv). cbn [legal_value] in Hlegal.
  apply existsb_exists in Hlegal as (x & Hx & He). apply String.eqb_eq in He. subst x.
  rewrite forallb_forall in Hall. now apply Hall.
Qed.

(** X19. Reading in the compact dialect: after the declarations
    [name {choice, ...} [default]] of plain categorical hyperparameters of
    distinct names, a line [child | parent in {value, ...}] between two of
    them, the values choices of the parent, is read as one condition of the
    child, an equality when the braces hold one value and a membership on
    all the values when they hold more; the space returned has the
    hyperparameters in the order of their lines and this condition. *)
Theorem irace_declarations_and_membership_are_read (hps : list Hyperparameter)
    (child p : Hyperparameter) (line v : string) (vs : list string) :
  forallb plain_categorical hps = true -> NoDup (map name hps) ->
  lookup (name child) hps = Some child -> lookup (name p) hps = Some p ->
  String.eqb (name child) (name p) = false ->
  forallb (legal_value p) (v :: vs) = true ->
  Irace.clean line = irace_membership_line (name child) (name p) v vs ->
  Irace.read (map irace_line hps ++ [line]) =
  Ok (mkSpace hps [membership child p v vs] []).
Proof.
  intros Hplain Hnodup Hc Hp Hcp Hlegal Hline.
  pose proof (declared_identifier hps child Hplain Hc) as Hic.
  pose proof (declared_identifier hps p Hplain Hp) as Hip.
  pose proof (legal_values_identifiers hps p (v :: vs) Hplain Hp Hlegal) as Hvs.
  cbn [forallb] in Hvs. apply andb_true_iff in Hvs as [Hv Hvs].
  unfold Irace.read. rewrite for_each_app. unfold empty.
  rewrite (irace_read_declarations hps []) by assumption.
  cbn [bind for_each app]. unfold Irace.read_line.
  rewrite Hline, irace_membership_marked, irace_parse_membership by assumption.
  cbn [bind for_each Irace.forbidden Irace.configuration_space Irace.conditions app].
  unfold Irace.group_condition.
  change (Py.index (irace_membership_tokens (name child) (name p) v vs) 0)
    with (Some (name child)).
  cbn [or_raise bind Irace.od_append for_each].
  unfold Irace.read_child. cbn [for_each].
  unfold Irace.read_condition, get_hyperparameter. cbn [get_hyperparameters].
  rewrite Hc. cbn [or_raise bind].
  change (Py.index (irace_membership_tokens (name child) (name p) v vs) 2)
    with (Some (name p)).
  cbn [or_raise bind]. rewrite Hp. cbn [or_raise bind].
  rewrite irace_membership_values.
  unfold new_EqualsCondition, new_InCondition, check_child_parent. rewrite Hcp.
  destruct vs as [|w vs]; reflexivity.
Qed.

(** X19, at two declarations and the line [b | a in {1, 2}], with a
    comment after it. *)
Lemma irace_declarations_and_membership_are_read_witness :
  Irace.read ["a {1, 2} [1]"; "b {3, 4} [3]"; "b | a in {1, 2}  # both"] =
  Ok (mkSpace [hp_a; hp_b] [InCondition hp_b hp_a [Py.VStr "1"; Py.VStr "2"]] []).
Proof.
  apply (irace_declarations_and_membership_are_read [hp_a; hp_b] hp_b hp_a
           "b | a in {1, 2}  # both" "1" ["2"]); try reflexivity.
  repeat constructor; simpl; intuition discriminate.
Defined.

(** *** Declarations of numeric hyperparameters *)

Lemma irace_parse_numeral (v r : string) :
  numeral v = true ->
  stops (fun c => Py.char_in c "0123456789.eE") r = true ->
  parse true Irace.pp_number (v ++ r) = Some ([v], r).
Proof. exact (parse_numeral v r). Qed.

Lemma flag_is_plain (c : ascii) :
  Py.char_in c (word_chars Irace.pp_il) = true ->
  is_white c = false /\ Py.is_space c = false /\ declaration_char c = true.
Proof.
  cbn [word_chars Irace.pp_il Py.char_in]. intros H.
  repeat (apply orb_true_iff in H as [H|H]); try discriminate;
    apply Ascii.eqb_eq in H; subst; repeat split.
Qed.

Lemma parse_flags (flags : string) :
  flag_word flags = true ->
  parse true (Optional Irace.pp_il) flags =
  Some (if String.eqb flags "" then [] else [flags], "").
Proof.
  intros H. rewrite parse_optional. destruct flags as [|c flags]; [reflexivity|].
  unfold flag_word in H. pose proof H as Hall.
  cbn [all_chars] in H. apply andb_true_iff in H as [Hc _].
  apply flag_is_plain in Hc as (Hw & _).
  rewrite <- (append_nil_r (String c flags)) at 1.
  unfold Irace.pp_il.
  rewrite (parse_word "il" (String c flags) "");
    [reflexivity | discriminate | exact Hall | cbn [stops]; now rewrite Hw | reflexivity].
Qed.

Lemma irace_parse_numeric_line (n l u d flags : string) :
  identifier n = true -> numeral l = true -> numeral u = true -> numeral d = true ->
  flag_word flags = true ->
  parse true Irace.pp_cont_param (irace_numeric_line n l u d flags)
  = Some (irace_numeric_tokens n l u d flags, "").
Proof.
  intros Hn Hl Hu Hd Hf.
  change (irace_numeric_line n l u d flags)
    with (n ++ String " " (String "[" (l ++ String "," (String " "
            (u ++ String "]" (String " " (String "[" (d ++ String "]" flags)))))))).
  unfold Irace.pp_cont_param. rewrite !parse_and.
  rewrite irace_parse_name by (assumption || reflexivity).
  rewrite parse_literal.
  change (skip_white (String " " (String "[" ?x))) with (String "[" x).
  cbn [after_prefix]. change (Ascii.eqb "[" "[") with true. cbv iota.
  rewrite irace_parse_numeral by (assumption || reflexivity).
  rewrite parse_literal.
  change (skip_white (String "," ?x)) with (String "," x).
  cbn [after_prefix]. change (Ascii.eqb "," ",") with true. cbv iota.
  rewrite parse_space, irace_parse_numeral by (assumption || reflexivity).
  rewrite parse_literal.
  change (skip_white (String "]" ?x)) with (String "]" x).
  cbn [after_prefix]. change (Ascii.eqb "]" "]") with true. cbv iota.
  rewrite parse_literal.
  change (skip_white (String " " (String "[" ?x))) with (String "[" x).
  cbn [after_prefix]. change (Ascii.eqb "[" "[") with true. cbv iota.
  rewrite irace_parse_numeral by (assumption || reflexivity).
  rewrite parse_literal.
  change (skip_white (String "]" ?x)) with (String "]" x).
  cbn [after_prefix]. change (Ascii.eqb "]" "]") with true. cbv iota.
  rewrite parse_flags by assumption.
  reflexivity.
Qed.

Lemma slice_front {A} (front extra : list A) :
  Py.slice (front ++ extra)%list None (Some (Z.of_nat (List.length front))) 1 = front.
Proof.
  unfold Py.slice, Py.clip. cbv zeta. rewrite length_app.
  destruct (Z.ltb_spec (Z.of_nat (List.length front)) 0) as [|_]; [lia|].
  replace (Z.to_nat (Z.max 0 (Z.min _ _)) - 0) with (List.length front + 0) by lia.
  cbn [skipn]. rewrite firstn_app_2, firstn_O, app_nil_r. apply every_one.
Qed.

Lemma slice_back {A} (front extra : list A) :
  Py.slice (front ++ extra)%list (Some (Z.of_nat (List.length front))) None 1 = extra.
Proof.
  unfold Py.slice, Py.clip. cbv zeta. rewrite length_app.
  destruct (Z.ltb_spec (Z.of_nat (List.length front)) 0) as [|_]; [lia|].
  replace (Z.to_nat (Z.max 0 (Z.min _ _))) with (List.length front) by lia.
  rewrite skipn_app, Nat.sub_diag, skipn_all, skipn_O, app_nil_l.
  replace (List.length front + List.length extra - List.length front)
    with (List.length extra) by lia.
  rewrite firstn_all. apply every_one.
Qed.

Lemma float_constructor_spec (n : string) (l u d : Z) (log : bool) :
  UniformFloatHyperparameter n (inject_Z l) (inject_Z u) None log (inject_Z d)
  = if (l <? u)%Z && (l <=? d)%Z && (d <=? u)%Z
    then Ok (numeric_parameter n l u d false log)
    else Raise ValidationError.
Proof.
  unfold UniformFloatHyperparameter.
  rewrite !Qle_bool_integer, (Z.ltb_antisym u l).
  destruct (u <=? l)%Z, (l <=? d)%Z, (d <=? u)%Z; reflexivity.
Qed.

(** The first [try] block on such a line: the letters choose the
    constructor and the scale. *)
Lemma irace_try_continuous_numeric (n l u d flags : string) :
  identifier n = true -> numeral l = true -> numeral u = true -> numeral d = true ->
  flag_word flags = true ->
  Irace.try_continuous (irace_numeric_line n l u d flags)
  = if (numeral_value l <? numeral_value u)%Z
       && (numeral_value l <=? numeral_value d)%Z
       && (numeral_value d <=? numeral_value u)%Z
    then Ok (Some (numeric_parameter n (numeral_value l) (numeral_value u)
                     (numeral_value d) (Py.str_in "i" flags) (Py.str_in "l" flags)))
    else Raise ValidationError.
Proof.
  intros Hn Hl Hu Hd Hf. unfold Irace.try_continuous, parseString.
  rewrite irace_parse_numeric_line by assumption.
  unfold irace_numeric_tokens.
  rewrite (slice_front [n; "["; l; ","; u; "]"; "["; d; "]"]).
  rewrite (slice_back [n; "["; l; ","; u; "]"; "["; d; "]"]).
  change (Py.index [n; "["; l; ","; u; "]"; "["; d; "]"] 0) with (Some n).
  change (Py.index [n; "["; l; ","; u; "]"; "["; d; "]"] 2) with (Some l).
  change (Py.index [n; "["; l; ","; u; "]"; "["; d; "]"] 4) with (Some u).
  change (Py.index [n; "["; l; ","; u; "]"; "["; d; "]"] 7) with (Some d).
  cbn [or_raise bind]. rewrite !float_numeral by assumption. cbn [or_raise bind].
  destruct flags as [|c flags].
  - cbn [String.eqb]. rewrite float_constructor_spec.
    destruct (_ && _)%Z; reflexivity.
  - cbn [String.eqb].
    destruct (Py.str_in "i" (String c flags)).
    + rewrite integer_constructor_spec. destruct (_ && _)%Z; reflexivity.
    + rewrite float_constructor_spec. destruct (_ && _)%Z; reflexivity.
Qed.

Lemma flags_declaration_chars (flags : string) :
  flag_word flags = true -> all_chars declaration_char flags = true.
Proof.
  apply all_chars_impl. intros c Hc. now apply flag_is_plain in Hc.
Qed.

Lemma irace_numeric_line_chars (n l u d flags : string) :
  identifier n = true -> numeral l = true -> numeral u = true -> numeral d = true ->
  flag_word flags = true ->
  all_chars declaration_char (irace_numeric_line n l u d flags) = true.
Proof.
  intros Hn Hl Hu Hd Hf. unfold irace_numeric_line. rewrite !all_chars_append.
  rewrite (identifier_declaration_chars n Hn), (numeral_declaration_chars l Hl),
    (numeral_declaration_chars u Hu), (numeral_declaration_chars d Hd),
    (flags_declaration_chars flags Hf).
  reflexivity.
Qed.

Lemma all_chars_rev_string (p : ascii -> bool) (s : string) :
  all_chars p (Py.rev_string s "") = all_chars p s.
Proof.
  induction s as [|c s IH]; [reflexivity|].
  cbn [Py.rev_string]. rewrite rev_string_append, all_chars_append, IH.
  cbn [all_chars]. rewrite andb_true_r. apply andb_comm.
Qed.

Lemma irace_numeric_line_end (n l u d flags : string) :
  flag_word flags = true ->
  stops Py.is_space (Py.rev_string (irace_numeric_line n l u d flags) "") = true.
Proof.
  intros Hf.
  replace (irace_numeric_line n l u d flags)
    with ((n ++ " [" ++ l ++ ", " ++ u ++ "] [" ++ d) ++ String "]" flags)
    by (unfold irace_numeric_line; now rewrite !append_assoc).
  rewrite rev_string_app. cbn [Py.rev_string]. rewrite rev_string_append.
  destruct (Py.rev_string flags "") as [|c r] eqn:E; [reflexivity|].
  cbn [append stops]. unfold flag_word in Hf.
  rewrite <- all_chars_rev_string, E in Hf. cbn [all_chars] in Hf.
  apply andb_true_iff in Hf as [Hc _]. apply flag_is_plain in Hc as (_ & -> & _).
  reflexivity.
Qed.

Lemma irace_numeric_line_clean (n l u d flags : string) :
  identifier n = true -> numeral l = true -> numeral u = true -> numeral d = true ->
  flag_word flags = true ->
  let line := irace_numeric_line n l u d flags in
  Irace.clean line = line
  /\ Py.char_in "|" line = false
  /\ Py.char_in "]" line = true
  /\ Py.startswith line "{" = false.
Proof.
  intros Hn Hl Hu Hd Hf line.
  pose proof (irace_numeric_line_chars n l u d flags Hn Hl Hu Hd Hf) as Hchars.
  fold line in Hchars.
  assert (Habsent : forall x, declaration_char x = false -> Py.char_in x line = false)
    by (intros x; now apply char_not_in_word).
  apply identifier_spec in Hn as (Hne & _ & _ & Hsp & Hst).
  repeat split.
  - unfold Irace.clean. rewrite (Habsent "#"%char eq_refl).
    rewrite (remove_char_absent Py.dquote line) by (apply Habsent; reflexivity).
    rewrite (remove_char_absent Py.squote line) by (apply Habsent; reflexivity).
    apply strip_stops.
    + subst line. unfold irace_numeric_line. destruct n; [contradiction | exact Hsp].
    + subst line. now apply irace_numeric_line_end.
  - now apply Habsent.
  - subst line. unfold irace_numeric_line.
    rewrite !char_in_append. cbn. now rewrite !orb_true_r.
  - subst line. unfold irace_numeric_line.
    destruct n as [|a n]; [contradiction|].
    cbn [append Py.startswith] in Hst |- *.
    rewrite startswith_nil in Hst |- *. exact Hst.
Qed.

(** X20. A numeric declaration, in the compact dialect: for a line
    [name [lower, upper] [default]] with a run of the letters [i] and [l],
    or nothing, after it, whose numbers are runs of digits, up to 2^53 and
    the lower one positive when there is an [l], the loop body of [read]
    raises [ValidationError] unless [lower < upper] and
    [lower <= default <= upper], raises [DuplicateNameError] when the name
    is declared already, and else adds to the space the hyperparameter of
    these bounds and default, an integer one when the letters hold an [i]
    and a real-valued one otherwise, on the logarithmic scale when they
    hold an [l]. *)
Theorem irace_numeric_declaration_is_read (st : Irace.read_state)
    (n l u d flags : string) :
  identifier n = true ->
  exact_numeral l = true -> exact_numeral u = true -> exact_numeral d = true ->
  flag_word flags = true ->
  (Py.str_in "l" flags = true -> (0 < numeral_value l)%Z) ->
  Irace.read_line st (irace_numeric_line n l u d flags) =
  if ((numeral_value l <? numeral_value u) && (numeral_value l <=? numeral_value d)
      && (numeral_value d <=? numeral_value u))%Z
  then
    match lookup n (get_hyperparameters (Irace.configuration_space st)) with
    | Some _ => Raise (DuplicateNameError n)
    | None =>
        Ok (Irace.mkState
              (mkSpace
                 (get_hyperparameters (Irace.configuration_space st)
                  ++ [numeric_parameter n (numeral_value l) (numeral_value u)
                        (numeral_value d) (Py.str_in "i" flags) (Py.str_in "l" flags)])
                 (get_conditions (Irace.configuration_space st))
                 (forbidden_clauses (Irace.configuration_space st)))
              (Irace.conditions st) (Irace.forbidden st))
    end
  else Raise ValidationError.
Proof.
  intros Hn Hl Hu Hd Hf _.
  apply andb_true_iff in Hl as [Hl _], Hu as [Hu _], Hd as [Hd _].
  destruct (irace_numeric_line_clean n l u d flags Hn Hl Hu Hd Hf)
    as (Hclean & Hbar & Hbr & Hstart).
  rewrite irace_read_line_classify, Hclean. unfold irace_classify.
  rewrite Hbar, Hbr, Hstart, andb_false_r. cbn [negb andb].
  unfold parseString at 1. rewrite irace_parse_numeric_line by assumption.
  rewrite irace_try_continuous_numeric by assumption.
  destruct (_ && _)%Z; cbn [bind]; [|reflexivity].
  unfold irace_declare, add_hyperparameter. cbn [name numeric_parameter].
  now destruct (lookup n _).
Qed.

(** X20, at the line [depth [1, 10] [3]il] read into the empty space. *)
Lemma irace_numeric_declaration_is_read_witness :
  Irace.read_line (Irace.mkState empty [] []) (irace_numeric_line "depth" "1" "10" "3" "il") =
  Ok (Irace.mkState (mkSpace [numeric_parameter "depth" 1 10 3 true true] [] []) [] []).
Proof.
  apply (irace_numeric_declaration_is_read (Irace.mkState empty [] []) "depth" "1" "10" "3"
           "il"); reflexivity.
Defined.
